(* ===== verification/_CoqProject ===== *)
-Q . S2P
Prelude.v
Text.v
Paths.v
Argparse.v
Fifo.v
ConsoleBridge.v
Console.v
ConsoleOnBridge.v
HostOS.v
Etherbone.v
Bytes.v
Discovery.v
EbServer.v
Dhcp.v
Udp.v
Arp.v
Icmp.v
EbServe.v
Firmware.v
Stores.v
FirmwareMain.v
Link.v
Board.v
SelfTest.v
Crg.v
NetCore.v
Boot.v
CoreIntegration.v
VersaSoc.v
Cli.v
Programs.v
