(* ===== verification/Prelude.v ===== *)
(** * remote_8008: a verification library for the network-attached Intel 8008

    The program puts an Intel 8008 computer on a network.  An FPGA SoC
    (soc/versa_soc.py) holds the 8008 core behind a wrapper
    (soc/b8008_integration.py), a console bridge (soc/console_bridge.py) and a
    small RISC-V running firmware (firmware/), which leases an address by DHCP
    and serves Etherbone requests over UDP.  On the other side the Python
    package host/b8008net finds the board (discovery.py), starts a bridge
    process that speaks to it by broadcast (eb_server.py), connects a client
    under a single-instance lock (board.py) and offers a command line (cli.py)
    with an interactive console over the bridge's registers (console.py);
    soc/host_selftest.py checks a board.

    ** The files

    Shared:
    - [Prelude] (this file): Python outcomes ([Ok], [Raise], and [Diverged] for
      a loop out of fuel), the state-and-exception monad [M] with its
      weakest-precondition rules and frames, fields of machine words.
    - [Text], [Argparse]: text files and stripping; the part of argparse the
      programs use.
    - [Paths]: os.path, and the changes to sys.path before the imports of
      soc/host_selftest.py and soc/versa_soc.py.
    - [HostOS]: what the host package uses of the operating system: clock,
      text files, UDP sockets with arbitrary arrivals, routes, the resolver.

    Gateware:
    - [Fifo]: the interface [SyncFIFO] of LiteX's FIFO, its laws, and the
      buffered FIFO that satisfies them.
    - [ConsoleBridge]: soc/console_bridge.py.  The record [bridge] is the
      gateware's state, [inputs] the signals of a cycle, [bridge_step] one
      clock edge; the register words are functions of the state.
    - [CoreIntegration]: soc/b8008_integration.py: [load_mem_file] and the
      class [B8008Core], with unrelated clocks and the stall's synchroniser.
    - [Crg]: the class _CRG of soc/versa_soc.py: power-on reset, PLL and reset
      synchronisers, as steps of unrelated clocks.
    - [NetCore]: src/b8008_net_core.vhdl, the boot logic around the core: its
      power-on counter, auto-start and bootstrap interrupt.
    - [Boot]: the two together, as soc/b8008_integration.py connects them:
      from power-on to the start of the 8008.
    - [VersaSoc]: the rest of soc/versa_soc.py: BaseSoC, the Etherbone core
      with its address register, and main, as the sequence of calls they make
      to LiteX, which may refuse any of them.

    Host:
    - [Console]: host/b8008net/console.py, over the interface [ConsoleRegs] of
      the six registers; [ConsoleLaws] is what the registers promise.
    - [ConsoleOnBridge]: the host console on the gateware.  It discharges
      [ConsoleLaws] for [ConsoleBridge] and composes the two.
    - [Discovery]: host/b8008net/discovery.py, function by function.
    - [EbServer]: the class CommUDPBroadcast of host/b8008net/eb_server.py
      ([open], [probe], [read]); the object's fields are the record [comm].
    - [Board]: host/b8008net/board.py: [Lock], the bridge process, csr.csv,
      the identifier, [_connect_to], [connect] and [close].
    - [SelfTest]: the helpers, polls and checks of soc/host_selftest.py, over
      the console and an interface of the clock, the scratch register, the
      burst read and the report; a bench over any console satisfies it.
    - [Cli]: host/b8008net/cli.py: the parser, [main], [status], [login] and
      [console] over [Board], [Discovery] and [Console].
    - [Programs]: the programs around them: the bridge process's main and the
      self-test's main.

    Firmware, with every access to a buffer checked:
    - [Etherbone]: the interface [EtherboneCodec] of litex's EtherbonePacket,
      the dialect of firmware/eb8008.c as its concrete instance, and the
      handler [eb8008_handle] over an interface of the bus.
    - [Bytes]: stores, copies and big-endian loads on a buffer.
    - [Dhcp]: firmware/dhcp8008.c.
    - [Udp], [Arp], [Icmp]: firmware/udp.c: checksums, UDP, ARP and ICMP; the
      record [udp_state] is its static variables; the ARP exchange and the ping
      of two drivers.
    - [EbServe]: firmware/eb_serve.c.
    - [Firmware]: polling the MAC, the DHCP client and the serve loop of
      firmware/main.c; the record [node] is the software of the board, with
      the frames to come ([air]), the frames sent and the order in which it polled
      and sent ([log]).
    - [Stores]: which addresses a request makes the handler store to, and a bus
      that notices a store to the program's own state.
    - [FirmwareMain]: address resolution and ping, which wait, and main.
    - [Link]: a read of [EbServer] answered by the serve loop of [Firmware].

    Definitions carry the names of the functions they translate, or, for a
    part of a function (a loop, a branch), its name with a suffix.  A [try]
    is [try_except] or [try_finally]; an object's fields are a record passed
    along; a [while] or [for] loop is a Fixpoint.

    ** What is proved

    - Console bridge: after any run the register words are well formed, each
      one coherent snapshot of the queues; every byte
      goes through each FIFO exactly once and in order; with fewer than
      [RX_HEADROOM] bytes in flight the receive FIFO never overflows; error
      bits are sticky, survive resets and are never set without a fault; the
      stall has hysteresis and draining releases it.
    - Core and SoC: the receive FIFO does not overflow behind the stall's
      synchroniser; a fetch of the core is a byte of the image file; the core
      leaves reset only after the system, power-on reset lasts exactly its
      count, and idle inputs release every reset; inside, the core is started
      exactly once and its bootstrap interrupt follows a specification; the
      board comes up from any history, and the 8008 is started only after
      574,289 edges on a board that was ready throughout; BaseSoC's two
      Ethernet regions partition the one that LiteX allocated, and the Etherbone
      core is never handed the address 0.
    - Console: [drain] returns exactly what it consumed, [send] exactly how
      many bytes were accepted, in order; the pump forwards faithfully and announces drops and faults; the terminal
      is restored on every way out.  On the gateware, a session shows what the
      8008 emitted and sends what was typed, or says that it dropped something,
      and [check_errors] loses no fault, up to the cycle of its clear.
    - Discovery: addresses and the cache round-trip, the sweep covers exactly
      the subnet, the probes find the first reply in time, and [discover]
      follows its order of strategies.
    - Transport: a read returns only the answer to its own latest request,
      and over a network that loses, repeats, reorders and echoes, only words
      the firmware read on its bus.
    - Connection: a [connect] that an Exception ends leaves nothing behind (Ctrl-C
      may: [interrupted_connect_leaks]), a successful one
      holds the lock until [close], a second instance is refused, a cached
      host is retried once.
    - Programs: for every command line, if the session it may start ends and its
      client closes, [main] ends and gives everything back;
      the arguments round-trip through the parser; [status] disturbs nothing;
      [login] shows and sends what a console session does; the self-test's
      exit code is the verdict of its checks.
    - Firmware: the handler is memory safe on any datagram and refines an
      abstract server; the DHCP parsers refine a specification of the option
      field and the builders' messages satisfy it; a UDP frame is received as
      it was sent, with checksums that verify; ARP resolves between two
      drivers and a ping is answered; a lease comes from an exchange with one
      server, in the order of the protocol; a request is answered to the requester alone; and the whole
      program, on any traffic in which no request asks for a store to the
      program's own state, makes no such store, never leaves its buffers and
      never sends a frame larger than a slot.
    - Host and board: the words a read returns are the words the board read.

    Every property with a hypothesis is applied to concrete
    data in a Module of runs at the end of a file.

    ** Bounds and fuel

    - The wait loop of [send] has fuel 1001: its delay is a double to which
      0.001 is added until it reaches 1.0, which takes 1000 additions; the
      arithmetic is the Standard Library's IEEE-754 specification.
    - [drain] is bounded by the code itself (4096 bytes); a console session
      ends within one turn more than there are reads of the keyboard
      ([session_fuel]).
    - A receive loop runs as often as there are datagrams for its socket, plus
      once; the fuel is that number, and the theorems show it is enough.
    - A poll of the self-test has fuel 151: each turn sleeps 0.02 s of its 3 s.
    - The startup wait of [_connect_to] has fuel 151: each turn sleeps 0.1 s
      of its 15 s.
    - The firmware's record loop consumes at least four bytes per turn; its
      fuel is the length of the request plus one; the DHCP option loop
      likewise.  Folding a checksum takes at most three turns.  The firmware's
      waits have the bounds of the code: 200,000 polls for a DHCP reply, eight
      times 100,000 for ARP, 10,000 for a ping.
    - Only [while (!dhcp_run(...))] of the firmware's main has no bound: the
      fuel of [acquire] is a parameter, and [Diverged] means exactly that so
      many runs of the client in a row found no lease.
    - At most 63 bytes may be in flight when the bridge stalls the core: the
      headroom of the source, less one.  The image has 4096 bytes.

    ** What is not modelled

    - Times in [HostOS] and [Board] are integers (microseconds) and pass only
      in calls that block.  Text is a string of 8-bit characters.  The TCP
      address of the bridge process is fixed, so [server_host] and
      [server_port] are not arguments.  Of argparse, what the parsers use.
    - litex's RemoteClient, RemoteServer and the inherited methods of CommUDP,
      the 8008 core (a submodule), Migen and LiteX's cores are not part of the
      repository: they are interfaces or an environment over which the
      theorems quantify.  Metastability is outside the model of a
      synchroniser: a synchroniser is a delay.
    - Of the firmware, what only prints or touches the PHY: phy_scan,
      phy_report, print_ip, eth_init, eth_mode, the delays, and the counters
      for diagnostics.  Whether a PHY was found is a parameter.  The build is
      with broadcast (firmware/Makefile) and, as the SoC's headers make it,
      with hardware preamble and CRC and without an uptime counter.  crt0.S
      and the linker script have no state of their own.
    - time.time() is the wall clock; the model's clocks do not go back.
    - The register accesses of a session on the gateware do not raise: the
      transport between [Console] and [ConsoleBridge] does not fail there.  (The
      theorems of [Console] itself allow for registers that raise.)
    - Restoring the terminal succeeds, and Ctrl-C does not fall into the call that
      reads its settings ([TermLaws]).  A PLL that has locked stays locked until its
      reset ([ECP5PLL]).
    - The firmware's bus is apart from its own memory.  The handler's writes are
      plain stores, so this is faithful only to traffic that does not ask for a
      store there: [Stores] says which traffic that is, and the theorem about the
      whole program assumes it.
    - The trace of [VersaSoc] is of the calls in soc/versa_soc.py.  The modules,
      regions, constants and pins which SoCCore, add_ethernet, add_etherbone and the
      platform add by themselves are not in it.
    - The package's version string, comments and imports, and the repository's
      own tests and simulation benches. *)

From Stdlib Require Import ZArith Lia List Bool.
From stdpp Require Import base list strings.

Open Scope Z_scope.

(** ** Python exceptions, as values

    The exception classes the modelled code raises or catches, with the two
    parts of the class hierarchy its [except] clauses test. *)

Inductive pyexn :=
| OSError
| FileNotFoundError
| SocketTimeout
| ConnectionRefusedError
| TimeoutExpired
| RuntimeError
| ValueError
| AttributeError
| IndexError
| KeyError
| TypeError
| AssertionError
| ImportError
| BoardBusy
| SoCError
| DecodeError
| KeyboardInterrupt
| SystemExit (code : Z).

#[export] Instance pyexn_eq_dec : EqDecision pyexn.
Proof. solve_decision. Defined.

(** [except Exception] catches everything but [KeyboardInterrupt] and [SystemExit]. *)
Definition is_Exception (e : pyexn) : bool :=
  match e with KeyboardInterrupt | SystemExit _ => false | _ => true end.

(** [except OSError]: [FileNotFoundError], [socket.timeout] and
    [ConnectionRefusedError] are subclasses of [OSError]. *)
Definition is_OSError (e : pyexn) : bool :=
  match e with
  | OSError | FileNotFoundError | SocketTimeout | ConnectionRefusedError => true
  | _ => false
  end.

(** ** Outcomes and the state-and-exception monad

    A Python call on a world [W] either returns, raises, or (for a loop run
    with too little fuel) has not finished: [Diverged] is never hidden, the
    termination theorems exclude it. *)

Inductive outcome (A : Type) :=
| Ok (a : A)
| Raise (e : pyexn)
| Diverged.
Arguments Ok {A} a.
Arguments Raise {A} e.
Arguments Diverged {A}.

Definition M (W A : Type) : Type := W -> outcome A * W.

Definition ret {W A} (a : A) : M W A := fun w => (Ok a, w).
Definition raise {W A} (e : pyexn) : M W A := fun w => (Raise e, w).
Definition diverge {W A} : M W A := fun w => (Diverged, w).

Definition bind {W A B} (m : M W A) (k : A -> M W B) : M W B :=
  fun w => match m w with
           | (Ok a, w') => k a w'
           | (Raise e, w') => (Raise e, w')
           | (Diverged, w') => (Diverged, w')
           end.

Definition get {W} : M W W := fun w => (Ok w, w).
Definition gets {W A} (f : W -> A) : M W A := fun w => (Ok (f w), w).
Definition modify {W} (f : W -> W) : M W unit := fun w => (Ok tt, f w).

(** [try: m except (classes selected by c): h] *)
Definition try_except {W A} (m : M W A) (c : pyexn -> bool) (h : pyexn -> M W A) : M W A :=
  fun w => match m w with
           | (Raise e, w') => if c e then h e w' else (Raise e, w')
           | r => r
           end.

(** [try: m finally: f]: [f] runs on return and on every exception; an
    exception of [f] itself replaces the outcome. *)
Definition try_finally {W A} (m : M W A) (f : M W unit) : M W A :=
  fun w => match m w with
           | (Diverged, w') => (Diverged, w')
           | (r, w') => match f w' with
                        | (Ok _, w'') => (r, w'')
                        | (Raise e, w'') => (Raise e, w'')
                        | (Diverged, w'') => (Diverged, w'')
                        end
           end.

Declare Scope py_scope.
Delimit Scope py_scope with py.
Notation "'let!' x := m 'in' k" := (bind m (fun x => k))
  (at level 100, x pattern, m at next level, right associativity,
   format "'let!'  x  :=  m  'in' '//' k") : py_scope.
Notation "m ;;; k" := (bind m (fun _ => k))
  (at level 100, right associativity, format "m ;;; '//' k") : py_scope.
Open Scope py_scope.

(** ** Weakest preconditions *)

Definition wp {W A} (m : M W A) (Q : outcome A -> W -> Prop) (w : W) : Prop :=
  Q (fst (m w)) (snd (m w)).

Lemma wp_ret {W A} (a : A) (Q : outcome A -> W -> Prop) w :
  Q (Ok a) w -> wp (ret a) Q w.
Proof. exact id. Qed.

Lemma wp_raise {W A} e (Q : outcome A -> W -> Prop) w :
  Q (Raise e) w -> wp (raise e) Q w.
Proof. exact id. Qed.

Lemma wp_get {W} (Q : outcome W -> W -> Prop) w : Q (Ok w) w -> wp get Q w.
Proof. exact id. Qed.

Lemma wp_gets {W A} (f : W -> A) (Q : outcome A -> W -> Prop) w :
  Q (Ok (f w)) w -> wp (gets f) Q w.
Proof. exact id. Qed.

Lemma wp_modify {W} (f : W -> W) (Q : outcome unit -> W -> Prop) w :
  Q (Ok tt) (f w) -> wp (modify f) Q w.
Proof. exact id. Qed.

Lemma wp_mono {W A} (m : M W A) (Q Q' : outcome A -> W -> Prop) w :
  wp m Q w -> (forall r w', Q r w' -> Q' r w') -> wp m Q' w.
Proof. unfold wp. auto. Qed.

(** The final state a specification speaks of is the one reached. *)
Lemma wp_self {W A} (m : M W A) (Q : outcome A -> W -> Prop) w :
  wp m Q w -> wp m (fun r w' => Q r w' /\ w' = snd (m w)) w.
Proof. unfold wp. auto. Qed.

Lemma wp_exact {W A} (m : M W A) (Q : outcome A -> W -> Prop) w :
  wp m Q w -> wp m (fun r w' => Q r w' /\ m w = (r, w')) w.
Proof. unfold wp. by destruct (m w). Qed.

(** The continuation of a [bind] is proved only for the outcome reached. *)
Lemma wp_bind {W A B} (m : M W A) (k : A -> M W B) (Q : outcome B -> W -> Prop) w :
  wp m (fun r w' => match r with
                    | Ok a => wp (k a) Q w'
                    | Raise e => Q (Raise e) w'
                    | Diverged => Q Diverged w'
                    end) w ->
  wp (bind m k) Q w.
Proof. unfold wp, bind. destruct (m w) as [[a|e|] w']; auto. Qed.

Lemma wp_bind_ok {W A B} (m : M W A) (k : A -> M W B) (Q : outcome B -> W -> Prop) w a w' :
  m w = (Ok a, w') -> wp (k a) Q w' -> wp (bind m k) Q w.
Proof. unfold wp, bind. by intros ->. Qed.

Lemma wp_try_except {W A} (m : M W A) (c : pyexn -> bool) h (Q : outcome A -> W -> Prop) w :
  wp m (fun r w' => match r with
                    | Raise e => if c e then wp (h e) Q w' else Q (Raise e) w'
                    | _ => Q r w'
                    end) w ->
  wp (try_except m c h) Q w.
Proof. unfold wp, try_except. destruct (m w) as [[a|e|] w']; simpl; auto. destruct (c e); auto. Qed.

Lemma wp_try_finally {W A} (m : M W A) f (Q : outcome A -> W -> Prop) w :
  wp m (fun r w' => match r with
                    | Diverged => Q Diverged w'
                    | _ => wp f (fun rf w'' => match rf with
                                               | Ok _ => Q r w''
                                               | Raise e => Q (Raise e) w''
                                               | Diverged => Q Diverged w''
                                               end) w'
                    end) w ->
  wp (try_finally m f) Q w.
Proof.
  unfold wp, try_finally. destruct (m w) as [[a|e|] w']; simpl; auto;
    destruct (f w') as [[?|?|] w'']; auto.
Qed.

Lemma bind_assoc {W A B C} (m : M W A) (k : A -> M W B) (j : B -> M W C) w :
  bind (bind m k) j w = bind m (fun a => bind (k a) j) w.
Proof. unfold bind. destruct (m w) as [[a|e|] w']; reflexivity. Qed.

(** ** Frames

    [preserves f m]: running [m] leaves the observation [f] of the world as it
    was, whatever the outcome.  [no_raise m]: [m] never raises. *)

Definition preserves {W X A} (f : W -> X) (m : M W A) : Prop := forall w, f (snd (m w)) = f w.
Definition no_raise {W A} (m : M W A) : Prop :=
  forall w, match fst (m w) with Raise _ => False | _ => True end.

Section FrameRules.
Context {W X A B : Type} (f : W -> X).

Lemma preserves_ret (a : A) : preserves f (ret a).
Proof. done. Qed.

Lemma preserves_diverge : preserves f (diverge (A:=A)).
Proof. done. Qed.

Lemma preserves_bind (m : M W A) (k : A -> M W B) :
  preserves f m -> (forall a, preserves f (k a)) -> preserves f (bind m k).
Proof.
  intros Hm Hk w. unfold bind. specialize (Hm w). destruct (m w) as [[a|e|] w']; simpl in *; auto.
  by rewrite Hk.
Qed.

Lemma preserves_if (c : bool) (m1 m2 : M W A) :
  preserves f m1 -> preserves f m2 -> preserves f (if c then m1 else m2).
Proof. by destruct c. Qed.

Lemma no_raise_ret (a : A) : no_raise (W:=W) (ret a).
Proof. done. Qed.

Lemma no_raise_diverge : no_raise (W:=W) (diverge (A:=A)).
Proof. done. Qed.

Lemma no_raise_bind (m : M W A) (k : A -> M W B) :
  no_raise m -> (forall a, no_raise (k a)) -> no_raise (bind m k).
Proof.
  intros Hm Hk w. unfold bind. specialize (Hm w). destruct (m w) as [[a|e|] w']; simpl in *; auto.
  apply Hk.
Qed.

Lemma no_raise_if (c : bool) (m1 m2 : M W A) :
  no_raise m1 -> no_raise m2 -> no_raise (if c then m1 else m2).
Proof. by destruct c. Qed.

End FrameRules.

Lemma preserves_modify {W X} (f : W -> X) g : (forall w, f (g w) = f w) -> preserves f (modify g).
Proof. done. Qed.

(** A specification and a frame of the same call hold together. *)
Lemma wp_preserves {W X A} (f : W -> X) (m : M W A) (P : outcome A -> W -> Prop) w :
  preserves f m -> wp m P w -> wp m (fun r w' => P r w' /\ f w' = f w) w.
Proof. intros Hf HP. split; [exact HP|apply Hf]. Qed.

Create HintDb frame discriminated.
#[export] Hint Resolve preserves_ret preserves_diverge preserves_bind preserves_if
  no_raise_ret no_raise_diverge no_raise_bind no_raise_if : frame.

(** Reduce a monadic program one operation at a time. *)
Ltac wp_step :=
  first [ apply wp_bind | apply wp_ret | apply wp_raise | apply wp_gets
        | apply wp_modify | apply wp_try_except | apply wp_try_finally ].

(** ** Bits and fields of a machine word *)

Definition is_byte (b : Z) : Prop := 0 <= b < 256.

Definition bool_bit (b : bool) : Z := if b then 1 else 0.

(** Bits [lo .. lo+size-1] of [w]. *)
Definition field (w lo size : Z) : Z := Z.land (Z.shiftr w lo) (Z.ones size).

Lemma land_255_byte z : is_byte (Z.land z 255).
Proof.
  unfold is_byte. change 255 with (Z.ones 8). rewrite Z.land_ones by lia.
  apply Z.mod_pos_bound. lia.
Qed.

Lemma land_255_id b : is_byte b -> Z.land b 255 = b.
Proof.
  intros Hb. change 255 with (Z.ones 8). rewrite Z.land_ones by lia.
  apply Z.mod_small. unfold is_byte in Hb. lia.
Qed.

Lemma field_div w lo size :
  0 <= lo -> 0 <= size -> field w lo size = (w / 2 ^ lo) mod 2 ^ size.
Proof. intros ??. unfold field. by rewrite Z.land_ones, Z.shiftr_div_pow2. Qed.

(** A word assembled from [lo] ([n] bits wide) and [hi] splits back. *)
Lemma lor_shiftl_add a b n : 0 <= n -> 0 <= a < 2 ^ n -> Z.lor a (Z.shiftl b n) = a + b * 2 ^ n.
Proof.
  intros Hn Ha. rewrite Z.shiftl_mul_pow2 by lia. symmetry.
  rewrite <- Z.lxor_lor; [apply Z.add_nocarry_lxor|];
  apply Z.bits_inj'; intros i Hi; rewrite Z.land_spec, Z.bits_0;
  (destruct (Z.lt_ge_cases i n);
   [ rewrite Z.mul_pow2_bits_low by lia; apply andb_false_r
   | rewrite <- (Z.mod_small a (2 ^ n)) by lia;
     rewrite Z.mod_pow2_bits_high by lia; reflexivity ]).
Qed.

Lemma testbit_div w k : 0 <= k -> Z.testbit w k = Z.odd (w / 2 ^ k).
Proof. intros. by rewrite Z.testbit_odd, Z.shiftr_div_pow2. Qed.

(** Testing one bit with a mask, as the Python code does. *)
Lemma land_bit_zero w k : 0 <= k -> Z.land w (Z.shiftl 1 k) = 0 <-> Z.testbit w k = false.
Proof.
  intros Hk. rewrite Z.shiftl_1_l. split; intros H.
  - apply (f_equal (fun z => Z.testbit z k)) in H.
    by rewrite Z.land_spec, Z.pow2_bits_true, andb_true_r, Z.bits_0 in H by lia.
  - apply Z.bits_inj'. intros i Hi. rewrite Z.land_spec, Z.bits_0, Z.pow2_bits_eqb by lia.
    destruct (Z.eqb_spec k i) as [<-|]; [by rewrite H|apply andb_false_r].
Qed.

Lemma land_bit_nonzero w k : 0 <= k -> Z.land w (Z.shiftl 1 k) <> 0 <-> Z.testbit w k = true.
Proof. intros Hk. rewrite land_bit_zero by done. by destruct (Z.testbit w k). Qed.

Lemma bool_bit_range b : 0 <= bool_bit b < 2.
Proof. destruct b; simpl; lia. Qed.

Lemma bool_bit_odd b : Z.odd (bool_bit b) = b.
Proof. by destruct b. Qed.

(** ** Lists *)

Lemma take_snoc_length {A} (l : list A) x k : take (length k + 1) (k ++ x :: l) = k ++ [x].
Proof. rewrite take_app_add. done. Qed.

Lemma length_Z_nonneg {A} (l : list A) : 0 <= Z.of_nat (length l).
Proof. lia. Qed.

Create HintDb b8008 discriminated.
#[export] Hint Resolve land_255_byte bool_bit_range length_Z_nonneg : b8008.
