(* ===== verification/Text.v ===== *)
(** * Text

    What the program uses of Python's text: [str.strip], the truth of a
    string, the lines of a text file and hexadecimal digits. *)

From Stdlib Require Import ZArith Lia List Bool Ascii String.
From stdpp Require Import base list strings.
From S2P Require Import Prelude.

Open Scope Z_scope.

(** ** Strings: [str.strip] *)

Definition is_space (c : ascii) : bool :=
  let n := N_of_ascii c in
  (((9 <=? n) && (n <=? 13)) || ((28 <=? n) && (n <=? 32)) || (n =? 133) || (n =? 160))%N.

Fixpoint lstrip (s : string) : string :=
  match s with
  | String c rest => if is_space c then lstrip rest else s
  | EmptyString => EmptyString
  end.

Fixpoint rstrip (s : string) : string :=
  match s with
  | EmptyString => EmptyString
  | String c rest =>
      match rstrip rest with
      | EmptyString => if is_space c then EmptyString else String c EmptyString
      | r => String c r
      end
  end.

Definition strip (s : string) : string := rstrip (lstrip s).

(** Python truth of a string: [host or None]. *)
Definition or_none (s : string) : option string :=
  match s with EmptyString => None | _ => Some s end.

(** ** Digits *)

(** The value of a digit of a base up to 16. *)
Definition digit_val (c : ascii) : option Z :=
  let n := Z.of_N (N_of_ascii c) in
  if (48 <=? n) && (n <=? 57) then Some (n - 48)
  else if (97 <=? n) && (n <=? 102) then Some (n - 87)
  else if (65 <=? n) && (n <=? 70) then Some (n - 55)
  else None.

(** The digits of [int(s, base)]: single underscores may stand between them. *)
Fixpoint int_digits (base acc : Z) (after_underscore : bool) (s : string) : option Z :=
  match s with
  | EmptyString => if after_underscore then None else Some acc
  | String c rest =>
      if (c =? "_")%char then if after_underscore then None else int_digits base acc true rest
      else d ← digit_val c; if d <? base then int_digits base (base * acc + d) false rest else None
  end.

(** [int(s)] *)
Definition int10 (s : string) : option Z :=
  match strip s with
  | String "-" rest => Z.opp <$> int_digits 10 0 true rest
  | String "+" rest => int_digits 10 0 true rest
  | s' => int_digits 10 0 true s'
  end.

(** ** Line ends *)

(** Text-mode reading turns every line end into a line feed. *)
Fixpoint universal_newlines (s : string) : string :=
  match s with
  | EmptyString => EmptyString
  | String "013" rest =>
      match rest with
      | String "010" rest' => String "010" (universal_newlines rest')
      | _ => String "010" (universal_newlines rest)
      end
  | String c rest => String c (universal_newlines rest)
  end.

(** The lines of a text, each with its line feed. *)
Fixpoint lines (s : string) : list string :=
  match s with
  | EmptyString => []
  | String c rest =>
      if (c =? "010")%char then String c EmptyString :: lines rest
      else match lines rest with
           | l :: ls => String c l :: ls
           | [] => [String c EmptyString]
           end
  end.

Definition newline : string := String "010" EmptyString.

(** No carriage return: such text is read back as it was written. *)
Fixpoint no_cr (s : string) : bool :=
  match s with
  | EmptyString => true
  | String c rest => negb (c =? "013")%char && no_cr rest
  end.

Lemma no_cr_app s t : no_cr (s +:+ t) = no_cr s && no_cr t.
Proof.
  induction s as [|c s IH]; [done|]. change (String c s +:+ t) with (String c (s +:+ t)).
  cbn [no_cr]. by rewrite IH, andb_assoc.
Qed.

Lemma universal_newlines_id s : no_cr s = true -> universal_newlines s = s.
Proof.
  induction s as [|c s IH]; [done|]. cbn [no_cr]. rewrite andb_true_iff. intros [Hc Hs].
  specialize (IH Hs). apply negb_true_iff, Ascii.eqb_neq in Hc.
  destruct c as [[] [] [] [] [] [] [] []]; try done; cbn [universal_newlines]; congruence.
Qed.

Lemma rstrip_newline s : rstrip (s +:+ newline) = rstrip s.
Proof.
  induction s as [|c s IH]; [done|]. change (String c s +:+ newline) with (String c (s +:+ newline)).
  cbn [rstrip]. by rewrite IH.
Qed.

Lemma rstrip_idem s : rstrip (rstrip s) = rstrip s.
Proof.
  induction s as [|c s IH]; [done|]. cbn [rstrip]. destruct (rstrip s) as [|d t] eqn:E.
  - destruct (is_space c) eqn:Hc; [done|]. cbn [rstrip]. by rewrite Hc.
  - change (rstrip (String c (String d t))) with
      (match rstrip (String d t) with
       | EmptyString => if is_space c then EmptyString else String c EmptyString
       | r => String c r end). by rewrite IH.
Qed.

Lemma lstrip_head s :
  match lstrip s with EmptyString => True | String c _ => is_space c = false end.
Proof. induction s as [|c s IH]; [done|]. cbn [lstrip]. by destruct (is_space c) eqn:E. Qed.

Lemma strip_head s : match strip s with EmptyString => True | String c _ => is_space c = false end.
Proof.
  unfold strip. pose proof (lstrip_head s) as Hh. destruct (lstrip s) as [|c t]; [done|].
  cbn [rstrip]. destruct (rstrip t); [by rewrite Hh|done].
Qed.

Lemma strip_line s : strip (strip s +:+ newline) = strip s.
Proof.
  pose proof (strip_head s) as Hh. unfold strip at 1.
  replace (rstrip (lstrip (strip s +:+ newline))) with (rstrip (strip s +:+ newline)).
  - rewrite rstrip_newline. apply rstrip_idem.
  - destruct (strip s) as [|c t]; [done|].
    change (String c t +:+ newline) with (String c (t +:+ newline)). cbn [lstrip]. by rewrite Hh.
Qed.
