(* ===== verification/Paths.v ===== *)
(** * Paths and the module search path

    What the scripts use of os.path (on POSIX): [path_join], [dirname] and [abspath]; and the two
    places that change sys.path before an import: [_import_from_b8008net] of soc/host_selftest.py
    and the top of soc/versa_soc.py.  The world of an import is sys.path; which directories hold
    which modules is the parameter [provides]. *)

From Stdlib Require Import ZArith Lia List Bool Ascii String.
From stdpp Require Import base list strings.
From S2P Require Import Prelude.

Open Scope string_scope.

#[local] Arguments String.append !_ _ /.

(** ** os.path *)

Definition is_slash (c : ascii) : bool := Ascii.eqb c "/".

Fixpoint ends_with_slash (s : string) : bool :=
  match s with
  | EmptyString => false
  | String "/"%char EmptyString => true
  | String _ rest => ends_with_slash rest
  end.

Definition path_join (a b : string) : string :=
  match b with
  | String "/"%char _ => b
  | _ => if String.eqb a "" || ends_with_slash a then a +:+ b else a +:+ "/" +:+ b
  end.

(** [path.split('/')] and ['/'.join(comps)] *)
Fixpoint split_slash (s : string) : list string :=
  match s with
  | EmptyString => [""]
  | String c rest =>
      if is_slash c then "" :: split_slash rest
      else match split_slash rest with
           | h :: t => String c h :: t
           | [] => [String c ""]
           end
  end.

Fixpoint join_slash (comps : list string) : string :=
  match comps with
  | [] => ""
  | [c] => c
  | c :: rest => c +:+ "/" +:+ join_slash rest
  end.

(** The loop of [normpath] over the components; [acc] is [new_comps], last first. *)
Fixpoint norm_comps (absolute : bool) (acc comps : list string) : list string :=
  match comps with
  | [] => rev acc
  | c :: rest =>
      if String.eqb c "" || String.eqb c "." then norm_comps absolute acc rest
      else if negb (String.eqb c "..") || (negb absolute && match acc with [] => true | _ => false end) ||
              match acc with last :: _ => String.eqb last ".." | [] => false end
      then norm_comps absolute (c :: acc) rest
      else norm_comps absolute (match acc with _ :: acc' => acc' | [] => [] end) rest
  end.

Definition initial_slashes (path : string) : string :=
  match path with
  | String a (String b (String c _)) =>
      if is_slash a then (if is_slash b && negb (is_slash c) then "//" else "/") else ""
  | String a (String b EmptyString) => if is_slash a then (if is_slash b then "//" else "/") else ""
  | String a EmptyString => if is_slash a then "/" else ""
  | EmptyString => ""
  end.

Definition normpath (path : string) : string :=
  if String.eqb path "" then "."
  else
    let slashes := initial_slashes path in
    let path := slashes +:+ join_slash (norm_comps (negb (String.eqb slashes "")) [] (split_slash path)) in
    if String.eqb path "" then "." else path.

Definition isabs (path : string) : bool :=
  match path with String c _ => is_slash c | EmptyString => false end.

Definition abspath (cwd path : string) : string :=
  normpath (if isabs path then path else path_join cwd path).

(** [path[:path.rfind('/') + 1]] *)
Fixpoint has_slash (s : string) : bool :=
  match s with EmptyString => false | String c rest => is_slash c || has_slash rest end.
Fixpoint upto_slash (s : string) : string :=
  match s with
  | EmptyString => ""
  | String c rest => if is_slash c || has_slash rest then String c (upto_slash rest) else ""
  end.

Fixpoint all_slashes (s : string) : bool :=
  match s with EmptyString => true | String c rest => is_slash c && all_slashes rest end.
Fixpoint rstrip_slash (s : string) : string :=
  match s with
  | EmptyString => ""
  | String c rest =>
      let rest' := rstrip_slash rest in
      if is_slash c && String.eqb rest' "" then "" else String c rest'
  end.

Definition dirname (path : string) : string :=
  let head := upto_slash path in
  if all_slashes head then head else rstrip_slash head.

(** ** sys.path *)

Section Imports.
(** Whether a directory holds a module. *)
Context (provides : string -> string -> bool).

Definition import_module (name : string) : M (list string) unit :=
  let! path := get in
  if existsb (fun d => provides d name) path then ret tt else raise ImportError.

(** [_import_from_b8008net], in the script [file], run in the directory [cwd]. *)
Definition _import_from_b8008net (cwd file module_name : string) : M (list string) unit :=
  try_except (import_module ("b8008net." +:+ module_name))
    (fun e => bool_decide (e = ImportError))
    (fun _ =>
       modify (fun path => path_join (dirname (abspath cwd file)) "host" :: path) ;;;
       import_module ("b8008net." +:+ module_name)).

End Imports.

Definition here (cwd file : string) : string := dirname (abspath cwd file).

(** [os.path.abspath(p or os.getcwd())] *)
Definition entry_path (cwd p : string) : string := abspath cwd (if String.eqb p "" then cwd else p).

(** The search path while litex is imported, and after [sys.path.append(_HERE)]. *)
Definition without_here (cwd file : string) (path : list string) : list string :=
  filter (fun p => entry_path cwd p <> here cwd file) path.
Definition with_here (cwd file : string) (path : list string) : list string :=
  (without_here cwd file path ++ [here cwd file])%list.

(** ** Absolute paths by their components *)

(** A name of a file or directory. *)
Definition name_ok (c : string) : bool :=
  negb (String.eqb c "") && negb (String.eqb c ".") && negb (String.eqb c "..") && negb (has_slash c).

Definition path_of (comps : list string) : string := "/" +:+ join_slash comps.

Lemma app_empty_r (s : string) : s +:+ "" = s.
Proof. induction s as [|c s IH]; [done|]. cbn. f_equal. exact IH. Qed.

Lemma app_string_assoc (a b c : string) : (a +:+ b) +:+ c = a +:+ b +:+ c.
Proof. induction a as [|x a IH]; [done|]. cbn. f_equal. exact IH. Qed.

Lemma has_slash_app a b : has_slash (a +:+ b) = has_slash a || has_slash b.
Proof. induction a as [|c a IH]; [done|]. cbn [append has_slash]. rewrite <- orb_assoc, <- IH. done. Qed.

Lemma name_parts c :
  name_ok c = true -> c <> "" /\ String.eqb c "" = false /\ String.eqb c "." = false /\ String.eqb c ".." = false /\
  has_slash c = false.
Proof.
  unfold name_ok. intros Hc. apply andb_true_iff in Hc as [Hc H4]. apply andb_true_iff in Hc as [Hc H3].
  apply andb_true_iff in Hc as [H1 H2]. apply negb_true_iff in H1, H2, H3, H4. split_and!; [|done..].
  by apply String.eqb_neq.
Qed.

Lemma split_name c rest : has_slash c = false -> split_slash (c +:+ "/" +:+ rest) = c :: split_slash rest.
Proof.
  induction c as [|x c IH]; [done|]. cbn in *. intros [Hx Hc]%orb_false_iff. rewrite Hx. by rewrite IH.
Qed.

Lemma split_last c : has_slash c = false -> split_slash c = [c].
Proof. induction c as [|x c IH]; [done|]. cbn. intros [Hx Hc]%orb_false_iff. rewrite Hx. by rewrite IH. Qed.

Lemma split_join comps :
  comps <> [] -> Forall (fun c => name_ok c = true) comps -> split_slash (join_slash comps) = comps.
Proof.
  induction comps as [|c comps IH]; [done|]. intros _ [Hc Hcs]%Forall_cons.
  apply name_parts in Hc as (_ & _ & _ & _ & Hs). destruct comps as [|d comps]; [by apply split_last|].
  change (join_slash (c :: d :: comps)) with (c +:+ "/" +:+ join_slash (d :: comps)).
  by rewrite split_name, IH.
Qed.

Lemma norm_names acc comps :
  Forall (fun c => name_ok c = true) comps -> norm_comps true acc comps = (rev acc ++ comps)%list.
Proof.
  revert acc. induction comps as [|c comps IH]; intros acc Hcs; cbn; [by rewrite app_nil_r|].
  apply Forall_cons in Hcs as [Hc Hcs]. apply name_parts in Hc as (_ & H1 & H2 & H3 & _). rewrite H1, H2, H3. cbn.
  rewrite IH by done. cbn. by rewrite <- app_assoc.
Qed.

(** An absolute path without dots is its own [abspath]. *)
Lemma abspath_of cwd comps :
  comps <> [] -> Forall (fun c => name_ok c = true) comps -> abspath cwd (path_of comps) = path_of comps.
Proof.
  intros Hne Hcs. unfold abspath, path_of. change ("/" +:+ join_slash comps) with (String "/" (join_slash comps)).
  change (isabs (String "/" (join_slash comps))) with true. cbv iota. unfold normpath.
  change (String.eqb (String "/" (join_slash comps)) "") with false. cbv iota zeta.
  assert (Hi : initial_slashes (String "/" (join_slash comps)) = "/").
  { destruct comps as [|c comps]; [done|]. apply Forall_cons in Hcs as [Hc _].
    apply name_parts in Hc as (Hc & _ & _ & _ & Hs). destruct c as [|x c]; [done|]. cbn in Hs.
    apply orb_false_iff in Hs as [Hx _]. destruct comps as [|d comps]; cbn; rewrite Hx; [by destruct c|].
    by destruct (c +:+ _). }
  rewrite Hi. cbn [String.eqb negb]. change (split_slash (String "/" (join_slash comps))) with ("" :: split_slash (join_slash comps)).
  rewrite split_join by done. cbn [norm_comps String.eqb orb]. by rewrite norm_names.
Qed.

Lemma upto_slash_app a f : has_slash f = false -> upto_slash (a +:+ "/" +:+ f) = a +:+ "/".
Proof.
  intros Hf. induction a as [|c a IH]; cbn.
  - f_equal. destruct f as [|x f]; [done|]. cbn in Hf |- *. by rewrite Hf.
  - change (String "/" f) with ("/" +:+ f). rewrite has_slash_app. cbn. rewrite !orb_true_r. f_equal. exact IH.
Qed.

Lemma rstrip_slash_app a c : has_slash c = false -> c <> "" -> rstrip_slash (a +:+ c +:+ "/") = a +:+ c.
Proof.
  intros Hs Hc. assert (Hone : rstrip_slash (c +:+ "/") = c).
  { clear Hc a. induction c as [|x c IH]; [done|]. cbn in Hs |- *. apply orb_false_iff in Hs as [Hx Hs].
    rewrite Hx. cbn. f_equal. by apply IH. }
  induction a as [|x a IH]; [exact Hone|]. cbn [append rstrip_slash]. rewrite IH.
  rewrite (proj2 (String.eqb_neq _ _)), andb_false_r; [done|]. destruct a; [by destruct c|done].
Qed.

Lemma join_snoc comps f : comps <> [] -> join_slash (comps ++ [f]) = join_slash comps +:+ "/" +:+ f.
Proof.
  induction comps as [|c comps IH]; [done|]. intros _. destruct comps as [|d comps]; [done|].
  change (join_slash ((c :: d :: comps) ++ [f])) with (c +:+ "/" +:+ join_slash ((d :: comps) ++ [f])).
  rewrite IH by done. change (join_slash (c :: d :: comps)) with (c +:+ "/" +:+ join_slash (d :: comps)).
  by rewrite !app_string_assoc.
Qed.

Lemma path_snoc comps f : comps <> [] -> path_of (comps ++ [f]) = path_of comps +:+ "/" +:+ f.
Proof. intros Hne. unfold path_of. by rewrite join_snoc by done. Qed.

Lemma snoc_nonempty {A} (l : list A) x : (l ++ [x])%list <> [].
Proof. destruct l; discriminate. Qed.

Lemma path_of_inj comps comps' :
  comps <> [] -> comps' <> [] -> Forall (fun c => name_ok c = true) comps ->
  Forall (fun c => name_ok c = true) comps' -> path_of comps = path_of comps' -> comps = comps'.
Proof.
  intros H1 H2 Hc Hc' E. injection E as E. apply (f_equal split_slash) in E. by rewrite !split_join in E.
Qed.

(** Such a path ends with its last name. *)
Lemma path_ends comps :
  comps <> [] -> Forall (fun c => name_ok c = true) comps ->
  exists a c, path_of comps = a +:+ c /\ c <> "" /\ has_slash c = false.
Proof.
  intros Hne Hcs. destruct comps as [|c comps _] using rev_ind; [done|].
  apply Forall_app in Hcs as [_ Hc]. rewrite Forall_singleton in Hc. apply name_parts in Hc as (Hc & _ & _ & _ & Hs).
  destruct comps as [|d comps]; [by exists "/", c|]. exists (path_of (d :: comps) +:+ "/"), c.
  rewrite path_snoc by done. by rewrite app_string_assoc.
Qed.

Lemma all_slashes_app a b : all_slashes (a +:+ b) = all_slashes a && all_slashes b.
Proof. induction a as [|x a IH]; [done|]. cbn. rewrite IH. by rewrite andb_assoc. Qed.

Lemma ends_with_slash_app a c : c <> "" -> ends_with_slash (a +:+ c) = ends_with_slash c.
Proof.
  intros Hc. induction a as [|x a IH]; [done|]. cbn [append]. destruct (a +:+ c) eqn:E.
  - by destruct a, c.
  - rewrite <- IH. cbn. by repeat case_match.
Qed.

Lemma no_slash_end c : has_slash c = false -> ends_with_slash c = false.
Proof.
  induction c as [|x c IH]; [done|]. cbn [has_slash]. intros [Hx Hs]%orb_false_iff. specialize (IH Hs).
  cbn. by repeat case_match.
Qed.

(** The directory of a file. *)
Lemma dirname_of comps f :
  comps <> [] -> Forall (fun c => name_ok c = true) (comps ++ [f]) -> dirname (path_of (comps ++ [f])) = path_of comps.
Proof.
  intros Hne Hall. apply Forall_app in Hall as [Hcs Hf]. rewrite Forall_singleton in Hf.
  apply name_parts in Hf as (_ & _ & _ & _ & Hf). rewrite path_snoc by done. unfold dirname.
  rewrite upto_slash_app by done. destruct (path_ends comps Hne Hcs) as (a & c & -> & Hc & Hs).
  rewrite app_string_assoc, rstrip_slash_app by done. rewrite !all_slashes_app.
  destruct c as [|y c]; [done|]. cbn in Hs |- *. apply orb_false_iff in Hs as [-> _]. cbn. by rewrite andb_false_r.
Qed.

Lemma path_join_of comps f :
  comps <> [] -> Forall (fun c => name_ok c = true) (comps ++ [f]) -> path_join (path_of comps) f = path_of (comps ++ [f]).
Proof.
  intros Hne Hall. apply Forall_app in Hall as [Hcs Hf]. rewrite Forall_singleton in Hf.
  apply name_parts in Hf as (Hf0 & _ & _ & _ & Hf). rewrite path_snoc by done.
  destruct (path_ends comps Hne Hcs) as (a & c & E & Hc & Hs).
  assert (He : ends_with_slash (path_of comps) = false) by (rewrite E, ends_with_slash_app by done; by apply no_slash_end).
  unfold path_join. rewrite He, orb_false_r. change (String.eqb (path_of comps) "") with false. cbv iota.
  destruct f as [|x f]; [done|]. cbn in Hf. apply orb_false_iff in Hf as [Hx _].
  by repeat case_match.
Qed.

(** ** The fallback of the self-test *)

Section Fallback.
Context (provides : string -> string -> bool).

(** An installed package is imported as it is; otherwise the directory host beside the script is
    put in front of the search path, and the outcome is whether it holds the module. *)
Lemma import_fallback cwd comps name path :
  let module := "b8008net." +:+ name in
  let dir := path_of (comps ++ ["host"]) in
  comps <> [] -> Forall (fun c => name_ok c = true) comps ->
  _import_from_b8008net provides cwd (path_of (comps ++ ["host_selftest.py"])) name path =
  if existsb (fun d => provides d module) path then (Ok tt, path)
  else ((if provides dir module then Ok tt else Raise ImportError), dir :: path).
Proof.
  intros module dir Hne Hcs.
  assert (Hdir : path_join (dirname (abspath cwd (path_of (comps ++ ["host_selftest.py"])))) "host" = dir).
  { rewrite abspath_of, dirname_of, path_join_of; auto using snoc_nonempty, Forall_app_2, Forall_cons_2, Forall_nil_2. }
  unfold _import_from_b8008net, try_except, import_module, bind, get, ret, raise, modify. rewrite Hdir. fold module.
  destruct (existsb _ path) eqn:E; [done|]. cbn [existsb fst snd]. rewrite bool_decide_eq_true_2 by done.
  cbn [existsb]. rewrite E, orb_false_r. by destruct (provides dir module).
Qed.

(** Run from a checkout without the package installed, the fallback does not find it: the script is
    in soc/, the package in host/ beside that, and the directory tried is soc/host. *)
Lemma standalone_import_fails cwd repo name path :
  Forall (fun c => name_ok c = true) repo ->
  (forall d m, provides d m = true -> d = path_of (repo ++ ["host"])) -> path_of (repo ++ ["host"]) ∉ path ->
  fst (_import_from_b8008net provides cwd (path_of (repo ++ ["soc"; "host_selftest.py"])) name path) =
  Raise ImportError.
Proof.
  intros Hrepo Hprov Hnot.
  change (repo ++ ["soc"; "host_selftest.py"])%list with (repo ++ ["soc"] ++ ["host_selftest.py"])%list.
  rewrite app_assoc, import_fallback; [|apply snoc_nonempty|auto using Forall_app_2, Forall_cons_2, Forall_nil_2].
  destruct (existsb _ path) eqn:E.
  { apply existsb_exists in E as (d & Hd & Hp). apply Hprov in Hp as ->. apply list_elem_of_In in Hd. done. }
  destruct (provides _ _) eqn:Hp; [|done]. apply Hprov in Hp. exfalso.
  apply path_of_inj in Hp; [|apply snoc_nonempty|apply snoc_nonempty|auto using Forall_app_2, Forall_cons_2, Forall_nil_2|auto using Forall_app_2, Forall_cons_2, Forall_nil_2].
  apply (f_equal (List.length (A:=string))) in Hp. rewrite !length_app in Hp. simpl in Hp. lia.
Qed.

End Fallback.

(** ** The search path of the SoC script *)

(** While litex is imported no entry is the script's directory, the others are there in their
    order, and afterwards that directory comes last. *)
Lemma search_path cwd file path :
  without_here cwd file path `sublist_of` path /\
  (forall p, p ∈ without_here cwd file path <-> p ∈ path /\ entry_path cwd p <> here cwd file) /\
  last (with_here cwd file path) = Some (here cwd file).
Proof.
  split; [apply sublist_filter|]. split; [|apply last_snoc].
  intros p. unfold without_here. rewrite list_elem_of_filter. tauto.
Qed.

(** ** Runs *)

Module PathRuns.

(** A checkout whose host directory has the package. *)
Definition checkout (d m : string) : bool := String.eqb d "/home/me/remote_8008/host".

Example abspath_runs :
  abspath "/home/me" "x/../remote_8008/./soc//versa_soc.py" = "/home/me/remote_8008/soc/versa_soc.py" /\
  abspath "/" "//a" = "//a" /\ dirname "//a" = "//" /\ abspath "/a" "../../.." = "/".
Proof. by split_and!. Qed.

Lemma standalone_import_fails_witness :
  fst (_import_from_b8008net checkout "/tmp" (path_of (["home"; "me"; "remote_8008"] ++ ["soc"; "host_selftest.py"])) "board"
         ["/usr/lib/python3"]) = Raise ImportError.
Proof.
  apply (standalone_import_fails checkout "/tmp" ["home"; "me"; "remote_8008"] "board" ["/usr/lib/python3"]).
  - by repeat constructor.
  - intros d m Hd. by apply String.eqb_eq in Hd.
  - intros Hin. apply list_elem_of_singleton in Hin. discriminate.
Qed.

End PathRuns.
