(* ===== verification/Argparse.v ===== *)
(** * The part of argparse the programs use

    [ArgumentParser] with options that take one value or none: exact option
    strings, unambiguous abbreviations of long options, values attached with
    an equals sign or following as the next word, clustered short options,
    the separator, negative numbers, required options, defaults and types.
    The result is the namespace or the exit code: 0 after the help, 2 after a
    usage error.  Words are taken from left to right. *)

From Stdlib Require Import ZArith Lia List Bool Ascii String.
From stdpp Require Import base list strings.
From S2P Require Import Prelude Text.

Open Scope string_scope.
Open Scope list_scope.
Open Scope Z_scope.

(** How an option is declared: its strings, the attribute it sets, whether it
    takes a value, which values its type accepts, whether it is required and its
    default. *)
Record opt_decl := {
  option_strings : list string;
  dest : string;
  takes_value : bool;
  accepts_value : string -> bool;
  required : bool;
  default_value : option string
}.

Definition help_option : opt_decl := {|
  option_strings := ["-h"; "--help"]; dest := "help"; takes_value := false; accepts_value := fun _ => true; required := false;
  default_value := None |}.

(** ** The part of argparse *)

Fixpoint is_prefix (p s : string) : bool :=
  match p, s with
  | EmptyString, _ => true
  | String a p, String b s => (a =? b)%char && is_prefix p s
  | _, _ => false
  end.

(** The parts before and after the first [=], if there is one. *)
Fixpoint split_eq (s : string) : option (string * string) :=
  match s with
  | EmptyString => None
  | String c rest =>
      if (c =? "=")%char then Some ("", rest)
      else match split_eq rest with
           | Some (a, b) => Some (String c a, b)
           | None => None
           end
  end.

Fixpoint has_char (x : ascii) (s : string) : bool :=
  match s with EmptyString => false | String c rest => (c =? x)%char || has_char x rest end.

Fixpoint all_chars (f : ascii -> bool) (s : string) : bool :=
  match s with EmptyString => true | String c rest => f c && all_chars f rest end.

Definition is_digit (c : ascii) : bool := match digit_val c with Some d => d <? 10 | None => false end.

(** A negative number: -d+ or -d*.d+ *)
Fixpoint is_decimal (s : string) : bool :=
  match s with
  | EmptyString => false
  | String c rest =>
      if (c =? ".")%char then match rest with EmptyString => false | _ => all_chars is_digit rest end
      else is_digit c && (match rest with EmptyString => true | _ => is_decimal rest end)
  end.

Definition negative_number (s : string) : bool :=
  match s with String c rest => (c =? "-")%char && is_decimal rest | EmptyString => false end.

(** What a word of the command line is: the separator, an argument, an option
    with the string it was given as and an attached value, an ambiguous
    abbreviation, or an unknown option. *)
Inductive word :=
| Dashes
| Arg
| Opt (o : opt_decl) (given : string) (attached : option string)
| Ambiguous
| Unknown.

Definition find_option (os : list opt_decl) (s : string) : option opt_decl :=
  find (fun o => existsb (String.eqb s) (option_strings o)) os.

(** The long options that [p] abbreviates. *)
Definition abbreviates (os : list opt_decl) (p : string) : list opt_decl :=
  List.filter (fun o => existsb (fun s => is_prefix "--" s && is_prefix p s) (option_strings o)) os.

Definition classify_unknown (s : string) : word :=
  if negative_number s then Arg else if has_char " "%char s then Arg else Unknown.

Definition classify (os : list opt_decl) (s : string) : word :=
  match s with
  | String "-"%char rest =>
      if String.eqb s "--" then Dashes else
      match find_option os s with
      | Some o => Opt o s None
      | None =>
          if String.eqb rest "" then Arg else
          let (name, attached) := match split_eq s with
                                  | Some (a, b) => (a, Some b)
                                  | None => (s, None)
                                  end in
          match (match attached with Some _ => find_option os name | None => None end) with
          | Some o => Opt o name attached
          | None =>
              if is_prefix "--" s then
                match abbreviates os name with
                | [o] => Opt o name attached
                | [] => classify_unknown s
                | _ => Ambiguous
                end
              else match s with
                   | String a (String b more) =>
                       match find_option os (String a (String b "")) with
                       | Some o => Opt o (String a (String b "")) (Some more)
                       | None => classify_unknown s
                       end
                   | _ => classify_unknown s
                   end
          end
      end
  | _ => Arg
  end.

(** The namespace being filled: the options seen, with their values, and
    whether a word was not recognised. *)
Record namespace := Ns { values : list (string * string); extras : bool }.

Definition ns_set (o v : string) (ns : namespace) : namespace :=
  Ns ((o, v) :: values ns) (extras ns).
Definition ns_extra (ns : namespace) : namespace := Ns (values ns) true.

(** The namespace of a subparser, or the exit code: 0 after the help, 2 after
    a usage error. *)
Fixpoint parse_options (os : list opt_decl) (argv : list string) (ns : namespace) : Z + namespace :=
  match argv with
  | [] => inr ns
  | s :: argv =>
      match classify os s with
      | Dashes => inr (match argv with [] => ns | _ => ns_extra ns end)
      | Arg | Unknown => parse_options os argv (ns_extra ns)
      | Ambiguous => inl 2
      | Opt o given attached =>
          if takes_value o then
            match attached with
            | Some v => if accepts_value o v then parse_options os argv (ns_set (dest o) v ns) else inl 2
            | None =>
                match argv with
                | v :: argv' => match classify os v with
                                | Arg => if accepts_value o v then parse_options os argv' (ns_set (dest o) v ns)
                                         else inl 2
                                | _ => inl 2
                                end
                | [] => inl 2
                end
            end
          else
            match attached with
            | None => if String.eqb (dest o) "help" then inl 0 else parse_options os argv (ns_set (dest o) "" ns)
            | Some v =>
                if String.eqb given "-h" && all_chars (fun c => c =? "h")%char v then inl 0 else inl 2
            end
      end
  end.

Definition lookup_value (o : string) (vs : list (string * string)) : option string :=
  snd <$> find (fun p => String.eqb (fst p) o) vs.

(** An option's value, or its default. *)
Definition value_of (os : list opt_decl) (o : string) (ns : namespace) : option string :=
  match lookup_value o (values ns) with
  | Some v => Some v
  | None => find (fun d => String.eqb (dest d) o) os ≫= default_value
  end.

Definition missing_required (os : list opt_decl) (ns : namespace) : bool :=
  existsb (fun d => required d && negb (bool_decide (is_Some (lookup_value (dest d) (values ns))))) os.

(** An exit code of the parser is 0 or 2. *)
Lemma parse_options_exit os argv ns code :
  parse_options os argv ns = inl code -> code = 0 \/ code = 2.
Proof.
  revert ns. induction argv as [argv IH] using (induction_ltof1 _ (@length string)); unfold ltof in IH.
  intros ns. destruct argv as [|s argv]; [done|]. cbn [parse_options].
  assert (IH' : forall l ns, (length l <= length argv)%nat ->
            parse_options os l ns = inl code -> code = 0 \/ code = 2)
    by (intros; eapply IH; [|done]; simpl; lia).
  destruct (classify os s) as [| |o given att| |]; try done; try (by apply IH'); [|intros [= <-]; auto].
  destruct (takes_value o).
  - destruct att as [v|]; [destruct (accepts_value o v); [by apply IH'|intros [= <-]; auto]|].
    destruct argv as [|v argv']; [intros [= <-]; auto|].
    destruct (classify os v); try (intros [= <-]; by auto).
    destruct (accepts_value o v); [apply IH'; simpl; lia|intros [= <-]; auto].
  - destruct att as [v|]; [destruct (_ && _); intros [= <-]; auto|].
    destruct (String.eqb (dest o) "help"); [intros [= <-]; auto|by apply IH'].
Qed.
