(* ===== verification/Fifo.v ===== *)
(** * The stream FIFO the console bridge is built on

    [soc/console_bridge.py] instantiates LiteX's [stream.SyncFIFO(...,
    buffered=True)] twice.  That class is not part of the repository, so the
    bridge is modelled over an interface: [SyncFIFO] lists the signals the
    bridge connects, [SyncFIFOLaws] what the bridge's own comments document of
    them (the level counts the output register, [source.valid] may lag the
    level, [sink.ready] looks only at the inner memory, words leave in the
    order they entered).  [Buffered] is the two-stage FIFO those comments
    describe; it discharges the laws and makes the runs executable. *)

From Stdlib Require Import ZArith Lia List Bool.
From stdpp Require Import base list.
From S2P Require Import Prelude.

Open Scope Z_scope.

(** ** Interface *)

(** The signals of a FIFO of [depth] words, sampled during one clock cycle,
    and its clock edge: [f_step f iv d rdy] is the state after a cycle in
    which [sink.valid = iv], [sink.data = d] and [source.ready = rdy]. *)
Class SyncFIFO (depth : Z) (F : Type) := {
  f_level : F -> Z;
  f_valid : F -> bool;
  f_data  : F -> Z;
  f_ready : F -> bool;
  f_step  : F -> bool -> Z -> bool -> F;
  f_init  : F;
}.

(** The words a FIFO holds after the consumer took one (or not), and what the
    producer's offer adds. *)
Definition after_pop (took : bool) (q : list Z) : list Z := if took then tail q else q.
Definition offered (b : bool) (d : Z) : list Z := if b then [d] else [].

Class SyncFIFOLaws (depth : Z) (F : Type) `{!SyncFIFO depth F} := {
  f_queue : F -> list Z;
  f_queue_init : f_queue f_init = [];
  f_level_queue f : f_level f = Z.of_nat (length (f_queue f));
  f_valid_head f : f_valid f = true -> exists q, f_queue f = f_data f :: q;
  f_room f : f_level f < depth -> f_ready f = true;
  f_queue_step f iv d rdy :
    f_queue (f_step f iv d rdy)
      = after_pop (f_valid f && rdy) (f_queue f) ++ offered (iv && f_ready f) d;
  f_refill f iv d rdy :
    after_pop (f_valid f && rdy) (f_queue f) <> [] ->
    f_valid (f_step f iv d rdy) = true;
}.

Arguments f_queue {depth F _ _} f.

(** ** Consequences of the laws *)

Section FifoFacts.
Context {depth : Z} {F : Type} `{!SyncFIFO depth F, !SyncFIFOLaws depth F}.

Lemma f_level_nonneg (f : F) : 0 <= f_level f.
Proof. rewrite f_level_queue. lia. Qed.

Lemma f_valid_level (f : F) : f_valid f = true -> 0 < f_level f.
Proof. intros [q Hq]%f_valid_head. rewrite f_level_queue, Hq. simpl. lia. Qed.

Lemma f_level_init : f_level (f_init : F) = 0.
Proof. by rewrite f_level_queue, f_queue_init. Qed.

(** The occupancy changes by what was accepted minus what was taken. *)
Lemma f_level_step (f : F) iv d rdy :
  f_level (f_step f iv d rdy)
    = f_level f - bool_bit (f_valid f && rdy) + bool_bit (iv && f_ready f).
Proof.
  rewrite !f_level_queue, f_queue_step, length_app.
  unfold after_pop, offered.
  destruct (f_valid f) eqn:Hv; simpl.
  - apply f_valid_head in Hv as [q ->]. destruct rdy, iv, (f_ready f); simpl; lia.
  - destruct iv, (f_ready f); simpl; lia.
Qed.

End FifoFacts.

(** ** The buffered FIFO

    An inner memory of [depth] words in front of one output register.  The
    inner memory is read whenever it has a word and the register is free or
    being consumed; a word written in a cycle is readable in the next. *)

Module Buffered.

Record fifo := { inner : list Z; out : option Z }.

Definition level (f : fifo) : Z :=
  Z.of_nat (length (inner f)) + match out f with Some _ => 1 | None => 0 end.
Definition valid (f : fifo) : bool := match out f with Some _ => true | None => false end.
Definition data (f : fifo) : Z := default 0 (out f).
Definition ready (depth : Z) (f : fifo) : bool := Z.of_nat (length (inner f)) <? depth.

Definition step (depth : Z) (f : fifo) (iv : bool) (d : Z) (rdy : bool) : fifo :=
  let free := match out f with None => true | Some _ => rdy end in
  let written := offered (iv && ready depth f) d in
  match free, inner f with
  | true, x :: rest => {| inner := rest ++ written; out := Some x |}
  | true, [] => {| inner := written; out := None |}
  | false, q => {| inner := q ++ written; out := out f |}
  end.

Definition queue (f : fifo) : list Z := option_list (out f) ++ inner f.

#[global] Instance buffered_fifo (depth : Z) : SyncFIFO depth fifo := {
  f_level := level; f_valid := valid; f_data := data; f_ready := ready depth;
  f_step := step depth; f_init := {| inner := []; out := None |} }.

#[global] Instance buffered_laws (depth : Z) : SyncFIFOLaws depth fifo.
Proof.
  refine {| f_queue := queue |}; try done.
  - intros [i [o|]]; simpl; unfold level, queue; simpl; lia.
  - intros [i [o|]] Hv; simpl in *; [eexists; reflexivity | discriminate].
  - intros [i [o|]] Hl; simpl in *; unfold ready, level in *; simpl in *; apply Z.ltb_lt; lia.
  - intros [i [o|]] iv d rdy; simpl; unfold step, queue, after_pop; simpl;
      destruct rdy, i as [|x i]; simpl; done.
  - intros [i [o|]] iv d rdy Hq; simpl in *; unfold step, queue, after_pop, valid in *; simpl in *;
      destruct rdy, i as [|x i]; simpl in *; done.
Defined.

End Buffered.
