(* ===== verification/ConsoleBridge.v ===== *)
(** * ConsoleBridge: the board side of the console byte path

    [soc/console_bridge.py], class [ConsoleBridge]: the RX and TX FIFOs, the
    console CSR bank, the backpressure stall and the sticky error bits.  The
    state is the registers of the module, [bridge_step] one edge of [cd_sys],
    and the combinational signals are functions of the state and the inputs
    of the cycle, composed as the [self.comb] and [self.sync] lists compose
    them.  The FIFOs are the interface of [Fifo]. *)

From Stdlib Require Import ZArith Lia List Bool.
From stdpp Require Import base list.
From S2P Require Import Prelude Fifo.

Open Scope Z_scope.

Definition RX_DEPTH : Z := 4096.
Definition TX_DEPTH : Z := 256.
Definition RX_HEADROOM : Z := 64.
Definition RX_HYSTERESIS : Z := 64.

(** An [n]-bit signal keeps the low [n] bits of what is assigned to it. *)
Definition trunc (n v : Z) : Z := Z.land v (Z.ones n).

(** What drives the bridge during one cycle: the reset of [cd_sys], the PHY's
    receive stream ([phy.source]) and transmit-ready ([phy.sink.ready]), and
    the write strobes and data of the three write-only CSRs. *)
Record inputs := {
  rst : bool;
  phy_valid : bool;
  phy_data : Z;
  phy_sink_ready : bool;
  rx_pop_re : bool;
  tx_data_re : bool;
  tx_data_r : Z;
  err_clear_re : bool;
  err_clear_r : Z;
}.

Record bridge (RF TF : Type) := {
  rx_fifo : RF;
  tx_fifo : TF;
  stall : bool;
  sticky_err_0 : bool;
  sticky_err_1 : bool;
  sticky_err_2 : bool;
}.
Arguments rx_fifo {RF TF} b.
Arguments tx_fifo {RF TF} b.
Arguments stall {RF TF} b.
Arguments sticky_err_0 {RF TF} b.
Arguments sticky_err_1 {RF TF} b.
Arguments sticky_err_2 {RF TF} b.

Section Bridge.
Context {rx_depth tx_depth : Z} {RF TF : Type}.
Context `{!SyncFIFO rx_depth RF, !SyncFIFO tx_depth TF}.

Implicit Types (b : bridge RF TF) (i : inputs).

(** ** console_rx: atomic {data, valid, level} *)

Definition rx_level_capped b : Z :=
  if rx_depth <? f_level (rx_fifo b) then rx_depth else f_level (rx_fifo b).

Definition console_rx_data b : Z :=
  if f_valid (rx_fifo b) then trunc 8 (f_data (rx_fifo b)) else 0.
Definition console_rx_valid b : bool := f_valid (rx_fifo b).
Definition console_rx_level b : Z :=
  if f_valid (rx_fifo b) then trunc 13 (rx_level_capped b) else 0.

(** The 32-bit register: data[7:0], valid[8], level[21:9]. *)
Definition console_rx b : Z :=
  Z.lor (console_rx_data b)
    (Z.shiftl (Z.lor (bool_bit (console_rx_valid b)) (Z.shiftl (console_rx_level b) 1)) 8).

(** ** console_rx_pop: the only consuming action *)

Definition rx_source_ready b i : bool := rx_pop_re i && f_valid (rx_fifo b).
Definition err_rx_pop_when_empty b i : bool := rx_pop_re i && negb (f_valid (rx_fifo b)).

(** ** console_tx and console_tx_data *)

Definition tx_full b : bool := f_level (tx_fifo b) =? tx_depth.

(** The 32-bit register: level[8:0], full[9]. *)
Definition console_tx b : Z :=
  Z.lor (trunc 9 (f_level (tx_fifo b))) (Z.shiftl (bool_bit (tx_full b)) 9).

Definition tx_sink_valid b i : bool := tx_data_re i && negb (tx_full b).
Definition err_tx_write_when_full b i : bool := tx_data_re i && tx_full b.

(** ** Backpressure *)

Definition hwm : Z := rx_depth - RX_HEADROOM.
Definition lwm : Z := hwm - RX_HYSTERESIS.

Definition stall_next b : bool :=
  if hwm <=? f_level (rx_fifo b) then true
  else if f_level (rx_fifo b) <=? lwm then false
  else stall b.

(** ** Sticky error bits *)

Definition err_rx_overflow b i : bool := phy_valid i && negb (f_ready (rx_fifo b)).

(** Set beats a coinciding clear. *)
Definition sticky_next (src : bool) (idx : Z) i (sticky : bool) : bool :=
  if src then true
  else if err_clear_re i && Z.testbit (err_clear_r i) idx then false
  else sticky.

(** The 32-bit register: rx_overflow[0], tx_write_when_full[1],
    rx_pop_when_empty[2]. *)
Definition console_err b : Z :=
  Z.lor (bool_bit (sticky_err_0 b))
    (Z.lor (Z.shiftl (bool_bit (sticky_err_1 b)) 1) (Z.shiftl (bool_bit (sticky_err_2 b)) 2)).

(** ** One clock edge

    The sticky bits are [reset_less]: they follow their update in every
    cycle.  Everything else returns to its reset value under [rst]. *)
Definition bridge_step b i : bridge RF TF := {|
  rx_fifo := if rst i then f_init
             else f_step (rx_fifo b) (phy_valid i) (trunc 8 (phy_data i)) (rx_source_ready b i);
  tx_fifo := if rst i then f_init
             else f_step (tx_fifo b) (tx_sink_valid b i) (trunc 8 (tx_data_r i)) (phy_sink_ready i);
  stall := if rst i then false else stall_next b;
  sticky_err_0 := sticky_next (err_rx_overflow b i) 0 i (sticky_err_0 b);
  sticky_err_1 := sticky_next (err_tx_write_when_full b i) 1 i (sticky_err_1 b);
  sticky_err_2 := sticky_next (err_rx_pop_when_empty b i) 2 i (sticky_err_2 b);
|}.

Fixpoint bridge_run b (tr : list inputs) : bridge RF TF :=
  match tr with [] => b | i :: tr => bridge_run (bridge_step b i) tr end.

(** Cold power-on: empty FIFOs, no stall, no sticky bit. *)
Definition bridge_init : bridge RF TF := {|
  rx_fifo := f_init; tx_fifo := f_init; stall := false;
  sticky_err_0 := false; sticky_err_1 := false; sticky_err_2 := false |}.

(** ** Sticky bits, by index *)

Definition sticky (idx : Z) b : bool :=
  if idx =? 0 then sticky_err_0 b else if idx =? 1 then sticky_err_1 b else sticky_err_2 b.
Definition fault (idx : Z) b i : bool :=
  if idx =? 0 then err_rx_overflow b i
  else if idx =? 1 then err_tx_write_when_full b i else err_rx_pop_when_empty b i.
Definition clears (idx : Z) i : bool := err_clear_re i && Z.testbit (err_clear_r i) idx.

(** ** What a run moves through the bridge *)

(** Bytes the PHY presented, the bytes popped by the host, the bytes the host
    got accepted for transmission, and the bytes handed to the PHY. *)
Definition presented (tr : list inputs) : list Z :=
  tr ≫= fun i => offered (phy_valid i) (trunc 8 (phy_data i)).

Fixpoint popped b (tr : list inputs) : list Z :=
  match tr with
  | [] => []
  | i :: tr => offered (rx_source_ready b i) (f_data (rx_fifo b)) ++ popped (bridge_step b i) tr
  end.

Fixpoint accepted b (tr : list inputs) : list Z :=
  match tr with
  | [] => []
  | i :: tr => offered (tx_sink_valid b i) (trunc 8 (tx_data_r i)) ++ accepted (bridge_step b i) tr
  end.

Fixpoint delivered b (tr : list inputs) : list Z :=
  match tr with
  | [] => []
  | i :: tr => offered (f_valid (tx_fifo b) && phy_sink_ready i) (f_data (tx_fifo b))
               ++ delivered (bridge_step b i) tr
  end.

(** A property of the state and inputs of every cycle of a run. *)
Fixpoint always (P : bridge RF TF -> inputs -> Prop) b (tr : list inputs) : Prop :=
  match tr with
  | [] => True
  | i :: tr => P b i /\ always P (bridge_step b i) tr
  end.

(** ** The environment of the backpressure argument

    Once the stall is up the core freezes; at most [inflight] bytes already on
    the serial line can still arrive before it comes down again.  [c] counts
    the bytes presented since the stall went up. *)
Fixpoint inflight_ok (inflight c : Z) b (tr : list inputs) : Prop :=
  match tr with
  | [] => True
  | i :: tr =>
      let c' := if stall b then c + bool_bit (phy_valid i) else 0 in
      c' <= inflight /\ inflight_ok inflight c' (bridge_step b i) tr
  end.

End Bridge.

Arguments bridge_init {rx_depth tx_depth RF TF _ _}.


(** * Theorems *)

Lemma trunc_range n v : 0 <= n -> 0 <= trunc n v < 2 ^ n.
Proof. intros. unfold trunc. rewrite Z.land_ones by lia. apply Z.mod_pos_bound. lia. Qed.

Lemma trunc_small n v : 0 <= n -> 0 <= v < 2 ^ n -> trunc n v = v.
Proof. intros. unfold trunc. rewrite Z.land_ones by lia. by apply Z.mod_small. Qed.

Lemma trunc8_byte v : is_byte (trunc 8 v).
Proof. apply (trunc_range 8 v). lia. Qed.
#[export] Hint Resolve trunc8_byte : b8008.

Lemma offered_Forall (P : Z -> Prop) c d : P d -> Forall P (offered c d).
Proof. destruct c; simpl; auto. Qed.

Section BridgeTheorems.
Context {rx_depth tx_depth : Z} {RF TF : Type}.
Context `{!SyncFIFO rx_depth RF, !SyncFIFO tx_depth TF}.
Context `{!SyncFIFOLaws rx_depth RF, !SyncFIFOLaws tx_depth TF}.
Implicit Types (b : bridge RF TF) (i : inputs) (tr : list inputs).

(** ** Well-formedness

    Both FIFOs hold bytes and the TX occupancy never passes [tx_depth], the
    capacity [console_tx.full] reports. *)
Record bridge_wf b : Prop := {
  wf_rx : Forall is_byte (f_queue (rx_fifo b));
  wf_tx : Forall is_byte (f_queue (tx_fifo b));
  wf_tx_level : f_level (tx_fifo b) <= tx_depth;
}.

Lemma bridge_wf_init : 0 <= tx_depth -> bridge_wf bridge_init.
Proof.
  intros. split; simpl; rewrite ?f_queue_init, ?f_level_init; auto.
Qed.

Lemma step_queue_bytes {depth F} `{!SyncFIFO depth F, !SyncFIFOLaws depth F} (f : F) iv d rdy :
  Forall is_byte (f_queue f) -> is_byte d -> Forall is_byte (f_queue (f_step f iv d rdy)).
Proof.
  intros Hq Hd. rewrite f_queue_step. apply Forall_app. split; [|by apply offered_Forall].
  unfold after_pop. destruct (_ && _); [|done]. destruct Hq; simpl; auto.
Qed.

(** A byte accepted for transmission finds the inner memory ready. *)
Lemma tx_sink_valid_ready b i :
  bridge_wf b -> tx_sink_valid b i = true -> f_ready (tx_fifo b) = true.
Proof.
  intros Hwf [_ Hfull]%andb_true_iff. apply f_room.
  apply negb_true_iff in Hfull. apply Z.eqb_neq in Hfull.
  pose proof (wf_tx_level _ Hwf). lia.
Qed.

Lemma tx_level_step b i :
  0 <= tx_depth -> bridge_wf b -> f_level (tx_fifo (bridge_step b i)) <= tx_depth.
Proof.
  intros Hd Hwf. simpl. destruct (rst i); [rewrite f_level_init; lia|].
  rewrite f_level_step. pose proof (wf_tx_level _ Hwf).
  pose proof (bool_bit_range (f_valid (tx_fifo b) && phy_sink_ready i)).
  destruct (tx_sink_valid b i) eqn:Hs; simpl; [|lia].
  apply andb_true_iff in Hs as [_ Hfull]. apply negb_true_iff, Z.eqb_neq in Hfull.
  destruct (f_ready _); simpl; lia.
Qed.

Lemma bridge_wf_step b i : 0 <= tx_depth -> bridge_wf b -> bridge_wf (bridge_step b i).
Proof.
  intros Hd Hwf. split; [| |by apply tx_level_step]; simpl; destruct (rst i);
    rewrite ?f_queue_init; auto; apply step_queue_bytes; auto using wf_rx, wf_tx with b8008.
Qed.

Lemma bridge_wf_run b tr : 0 <= tx_depth -> bridge_wf b -> bridge_wf (bridge_run b tr).
Proof. intros Hd. revert b. induction tr; simpl; auto using bridge_wf_step. Qed.

Lemma bridge_run_app b tr1 tr2 : bridge_run b (tr1 ++ tr2) = bridge_run (bridge_run b tr1) tr2.
Proof. revert b. induction tr1; simpl; auto. Qed.

(** ** The console_rx word *)

Lemma rx_word_fields d v l :
  0 <= d < 256 -> 0 <= l < 8192 ->
  let w := Z.lor d (Z.shiftl (Z.lor (bool_bit v) (Z.shiftl l 1)) 8) in
  0 <= w < 2 ^ 22 /\ field w 0 8 = d /\ Z.testbit w 8 = v /\ field w 9 13 = l.
Proof.
  intros Hd Hl. cbv zeta. pose proof (bool_bit_range v).
  rewrite (lor_shiftl_add _ l 1), lor_shiftl_add by lia.
  rewrite !field_div, testbit_div by lia.
  set (w := d + _). split; [subst w; lia|].
  split; [subst w; change (2 ^ 0) with 1; change (2 ^ 8) with 256; Z.div_mod_to_equations; lia|].
  split; [|subst w; change (2 ^ 9) with 512; change (2 ^ 13) with 8192;
           Z.div_mod_to_equations; lia].
  replace (w / 2 ^ 8) with (bool_bit v + 2 * l)
    by (subst w; change (2 ^ 8) with 256; Z.div_mod_to_equations; lia).
  rewrite Z.odd_add, bool_bit_odd, Z.odd_mul. destruct v; reflexivity.
Qed.

Lemma rx_level_capped_range b :
  0 < rx_depth -> 0 <= rx_level_capped b <= rx_depth.
Proof.
  intros. unfold rx_level_capped. pose proof (f_level_nonneg (rx_fifo b)).
  destruct (Z.ltb_spec rx_depth (f_level (rx_fifo b))); lia.
Qed.

Lemma console_rx_fields b :
  0 < rx_depth < 8192 ->
  0 <= console_rx b < 2 ^ 22 /\
  field (console_rx b) 0 8 = console_rx_data b /\
  Z.testbit (console_rx b) 8 = f_valid (rx_fifo b) /\
  field (console_rx b) 9 13 = console_rx_level b.
Proof.
  intros Hd. unfold console_rx. apply rx_word_fields.
  - unfold console_rx_data. destruct (f_valid _); [apply trunc8_byte|lia].
  - unfold console_rx_level. destruct (f_valid _); [|lia].
    pose proof (trunc_range 13 (rx_level_capped b)). lia.
Qed.

(** A valid word carries the head of the queue and its capped occupancy. *)
Lemma console_rx_valid_word b :
  0 < rx_depth < 8192 -> bridge_wf b -> f_valid (rx_fifo b) = true ->
  head (f_queue (rx_fifo b)) = Some (field (console_rx b) 0 8) /\
  field (console_rx b) 9 13 = Z.min (Z.of_nat (length (f_queue (rx_fifo b)))) rx_depth.
Proof.
  intros Hd Hwf E. destruct (console_rx_fields b Hd) as (_ & -> & _ & ->).
  unfold console_rx_data, console_rx_level. rewrite E.
  pose proof (rx_level_capped_range b) as Hcap.
  rewrite (trunc_small 13) by (change (2 ^ 13) with 8192; lia).
  pose proof (f_level_queue (rx_fifo b)) as Hlq.
  destruct (f_valid_head _ E) as [q Hq]. pose proof (wf_rx _ Hwf) as Hb. rewrite Hq in Hb.
  apply Forall_cons in Hb as [Hb _]. rewrite <- Hlq. split.
  - rewrite Hq. simpl.
    by rewrite trunc_small by (unfold is_byte in Hb; change (2 ^ 8) with 256; lia).
  - unfold rx_level_capped. destruct (Z.ltb_spec rx_depth (f_level (rx_fifo b))); lia.
Qed.

(** ** The console_tx word *)

Lemma tx_word_fields l v :
  0 <= l < 512 ->
  let w := Z.lor l (Z.shiftl (bool_bit v) 9) in
  0 <= w < 2 ^ 10 /\ field w 0 9 = l /\ Z.testbit w 9 = v.
Proof.
  intros Hl. cbv zeta. pose proof (bool_bit_range v).
  rewrite lor_shiftl_add by lia. rewrite !field_div, testbit_div by lia.
  set (w := l + _). split; [subst w; lia|].
  split; [subst w; change (2 ^ 0) with 1; change (2 ^ 9) with 512; Z.div_mod_to_equations; lia|].
  replace (w / 2 ^ 9) with (bool_bit v)
    by (subst w; change (2 ^ 9) with 512; Z.div_mod_to_equations; lia).
  apply bool_bit_odd.
Qed.

Lemma console_tx_fields b :
  0 <= console_tx b < 2 ^ 10 /\
  field (console_tx b) 0 9 = trunc 9 (f_level (tx_fifo b)) /\
  Z.testbit (console_tx b) 9 = tx_full b.
Proof. apply tx_word_fields. apply (trunc_range 9). lia. Qed.

(** ** The console_err word *)

Lemma error_bit idx b : 0 <= idx <= 2 -> Z.testbit (console_err b) idx = sticky idx b.
Proof.
  intros Hi. assert (idx = 0 \/ idx = 1 \/ idx = 2) as [->|[->| ->]] by lia; unfold console_err, sticky;
    by destruct (sticky_err_0 b), (sticky_err_1 b), (sticky_err_2 b).
Qed.

Lemma console_err_range b : 0 <= console_err b < 2 ^ 3.
Proof.
  unfold console_err. by destruct (sticky_err_0 b), (sticky_err_1 b), (sticky_err_2 b).
Qed.

(** ** Queues over one cycle *)

Lemma rx_queue_step b i :
  rst i = false -> err_rx_overflow b i = false ->
  f_queue (rx_fifo b) ++ offered (phy_valid i) (trunc 8 (phy_data i))
    = offered (rx_source_ready b i) (f_data (rx_fifo b)) ++ f_queue (rx_fifo (bridge_step b i)).
Proof.
  intros Hr Ho. simpl. rewrite Hr, f_queue_step.
  unfold err_rx_overflow, rx_source_ready, after_pop in *.
  replace (phy_valid i && f_ready (rx_fifo b)) with (phy_valid i)
    by (destruct (phy_valid i), (f_ready (rx_fifo b)); done).
  destruct (f_valid (rx_fifo b)) eqn:Hv; simpl.
  - apply f_valid_head in Hv as [q ->]. by destruct (rx_pop_re i).
  - by rewrite andb_false_r.
Qed.

Lemma tx_queue_step b i :
  rst i = false -> bridge_wf b ->
  f_queue (tx_fifo b) ++ offered (tx_sink_valid b i) (trunc 8 (tx_data_r i))
    = offered (f_valid (tx_fifo b) && phy_sink_ready i) (f_data (tx_fifo b))
        ++ f_queue (tx_fifo (bridge_step b i)).
Proof.
  intros Hr Hwf. simpl. rewrite Hr, f_queue_step. unfold after_pop.
  replace (tx_sink_valid b i && f_ready (tx_fifo b)) with (tx_sink_valid b i)
    by (destruct (tx_sink_valid b i) eqn:Hs; [by rewrite (tx_sink_valid_ready b i)|done]).
  destruct (f_valid (tx_fifo b)) eqn:Hv; simpl; [|done].
  apply f_valid_head in Hv as [q ->]. by destruct (phy_sink_ready i).
Qed.

(** ** Backpressure: the level stays under the high-water mark plus what is
    in flight *)

Definition level_bound (c : Z) b : Prop :=
  if stall b then f_level (rx_fifo b) <= hwm (rx_depth:=rx_depth) + 1 + c
  else f_level (rx_fifo b) <= hwm (rx_depth:=rx_depth).

Lemma level_bound_no_overflow inflight c b i :
  inflight < RX_HEADROOM -> level_bound c b -> 0 <= c ->
  (if stall b then c + bool_bit (phy_valid i) else 0) <= inflight ->
  err_rx_overflow b i = false.
Proof.
  unfold level_bound, err_rx_overflow, hwm, RX_HEADROOM.
  intros Hin Hl Hc Hc'. destruct (phy_valid i) eqn:Hp; simpl in *; [|done].
  rewrite f_room; [done|]. destruct (stall b); simpl in *; lia.
Qed.

Lemma level_bound_step inflight c b i :
  0 <= inflight < RX_HEADROOM -> RX_HEADROOM + RX_HYSTERESIS <= rx_depth ->
  level_bound c b -> 0 <= c ->
  let c' := if stall b then c + bool_bit (phy_valid i) else 0 in
  c' <= inflight -> level_bound c' (bridge_step b i).
Proof.
  intros Hin Hd Hl Hc c' Hc'. unfold level_bound. simpl.
  unfold level_bound in Hl. unfold stall_next, lwm, hwm, RX_HEADROOM, RX_HYSTERESIS in *.
  destruct (rst i); [rewrite f_level_init; lia|].
  rewrite f_level_step.
  pose proof (bool_bit_range (f_valid (rx_fifo b) && rx_source_ready b i)).
  assert (bool_bit (phy_valid i && f_ready (rx_fifo b)) <= bool_bit (phy_valid i))
    by (destruct (phy_valid i), (f_ready _); simpl; lia).
  pose proof (bool_bit_range (phy_valid i)).
  subst c'. destruct (stall b), (Z.leb_spec (rx_depth - 64) (f_level (rx_fifo b))),
    (Z.leb_spec (f_level (rx_fifo b)) (rx_depth - 64 - 64)); lia.
Qed.

Lemma overflow_free_from inflight c b tr :
  0 <= inflight < RX_HEADROOM -> RX_HEADROOM + RX_HYSTERESIS <= rx_depth ->
  level_bound c b -> 0 <= c ->
  inflight_ok inflight c b tr -> always (fun b i => err_rx_overflow b i = false) b tr.
Proof.
  intros Hin Hd. revert c b. induction tr as [|i tr IH]; intros c b Hb Hc; simpl; [done|].
  intros [Hc' Hok]. split; [by apply (level_bound_no_overflow inflight c); [apply Hin|..]|].
  eapply IH; [by eapply level_bound_step| |done].
  pose proof (bool_bit_range (phy_valid i)). destruct (stall b); lia.
Qed.

Lemma sticky_step idx b i :
  0 <= idx <= 2 ->
  sticky idx (bridge_step b i)
    = if fault idx b i then true else if clears idx i then false else sticky idx b.
Proof.
  intros. assert (idx = 0 \/ idx = 1 \/ idx = 2) as [-> | [-> | ->]] by lia; reflexivity.
Qed.

Lemma sticky_kept idx b tr :
  0 <= idx <= 2 -> sticky idx b = true -> Forall (fun j => clears idx j = false) tr ->
  sticky idx (bridge_run b tr) = true.
Proof.
  intros Hi Hs H. revert b Hs. induction H as [|j tr Hj H IH]; intros b Hs; simpl; [done|].
  apply IH. rewrite sticky_step by done. rewrite Hj, Hs. by destruct (fault _ _ _).
Qed.

(** Popping every cycle, with nothing arriving, takes one byte a cycle. *)
Definition drain_cycle : inputs := {|
  rst := false; phy_valid := false; phy_data := 0; phy_sink_ready := false; rx_pop_re := true;
  tx_data_re := false; tx_data_r := 0; err_clear_re := false; err_clear_r := 0 |}.

Lemma drain_cycle_queue b :
  f_valid (rx_fifo b) = true ->
  f_queue (rx_fifo (bridge_step b drain_cycle)) = tail (f_queue (rx_fifo b)) /\
  (tail (f_queue (rx_fifo b)) <> [] -> f_valid (rx_fifo (bridge_step b drain_cycle)) = true).
Proof.
  intros Hv. simpl. rewrite f_queue_step. unfold rx_source_ready. rewrite Hv. simpl.
  rewrite app_nil_r. split; [done|]. intros Hne. apply f_refill. by rewrite Hv.
Qed.

Lemma stall_next_low b : f_level (rx_fifo b) <= lwm (rx_depth:=rx_depth) -> stall_next b = false.
Proof.
  intros H. unfold stall_next. unfold lwm, RX_HYSTERESIS in *.
  destruct (Z.leb_spec (hwm (rx_depth:=rx_depth)) (f_level (rx_fifo b))); [lia|].
  destruct (Z.leb_spec (f_level (rx_fifo b)) (hwm (rx_depth:=rx_depth) - 64)); [done|lia].
Qed.

(** Draining from a valid FIFO reaches the low-water mark. *)
Lemma drain_to_lwm n b :
  0 < lwm (rx_depth:=rx_depth) ->
  f_valid (rx_fifo b) = true -> lwm (rx_depth:=rx_depth) <= f_level (rx_fifo b) ->
  f_level (rx_fifo b) = lwm (rx_depth:=rx_depth) + Z.of_nat n ->
  let b' := bridge_run b (repeat drain_cycle n) in
  f_level (rx_fifo b') = lwm (rx_depth:=rx_depth) /\ f_valid (rx_fifo b') = true.
Proof.
  intros Hl. revert b. induction n as [|n IH]; intros b Hv Hge Heq; simpl; [split; [lia|done]|].
  destruct (drain_cycle_queue b Hv) as [Hq Hv'].
  destruct (f_valid_head _ Hv) as [q Hh]. rewrite f_level_queue, Hh in Heq. simpl in Heq.
  assert (f_level (rx_fifo (bridge_step b drain_cycle)) = Z.of_nat (length q)) as Hlev
    by (by rewrite f_level_queue, Hq, Hh).
  apply IH; [|lia..]. apply Hv'. rewrite Hh. destruct q; [simpl in *; lia|done].
Qed.

End BridgeTheorems.

(** * Properties *)

Section BridgeProperties.
Context {rx_depth tx_depth : Z} {RF TF : Type}.
Context `{!SyncFIFO rx_depth RF, !SyncFIFO tx_depth TF}.
Context `{!SyncFIFOLaws rx_depth RF, !SyncFIFOLaws tx_depth TF}.
Implicit Types (b : bridge RF TF) (i : inputs) (tr : list inputs).

(** one read of [console_rx] is a coherent snapshot: the word fits its 22
    bits, [valid] holds exactly when [level] is non-zero, a valid word carries
    the head byte of the FIFO (the byte the next pop consumes) and its
    occupancy capped at the depth, and an invalid word reads all zero. *)
Theorem console_rx_atomic b :
  0 < rx_depth < 8192 -> bridge_wf b ->
  let w := console_rx b in
  0 <= w < 2 ^ 22 /\
  (Z.testbit w 8 = true <-> 0 < field w 9 13) /\
  (Z.testbit w 8 = true ->
     head (f_queue (rx_fifo b)) = Some (field w 0 8) /\
     field w 9 13 = Z.min (Z.of_nat (length (f_queue (rx_fifo b)))) rx_depth) /\
  (Z.testbit w 8 = false -> w = 0).
Proof.
  intros Hd Hwf w. destruct (console_rx_fields b Hd) as (Hr & _ & Hv & Hlev).
  subst w. rewrite Hv. split; [done|]. destruct (f_valid (rx_fifo b)) eqn:E.
  - destruct (console_rx_valid_word b Hd Hwf E) as [Hh Hl].
    pose proof (f_valid_level _ E) as Hpos. rewrite f_level_queue in Hpos.
    split; [split; [lia|done]|]. split; [auto|done].
  - rewrite Hlev. unfold console_rx_level. rewrite E. split; [split; [done|lia]|].
    split; [done|]. intros _.
    unfold console_rx, console_rx_data, console_rx_valid, console_rx_level. by rewrite E.
Qed.

(** C18: what the three status registers are, after any run from power-on, resets included.  The queues
    hold bytes and the TX queue no more than its capacity.  [console_rx] fits its 22 bits; it is valid
    exactly if its level is not 0, it then carries the oldest byte received and the occupancy,
    capped at the depth, and it is 0 otherwise.  [console_tx] fits its 10 bits; its level is the number
    of bytes that wait for the core and its full bit says that the capacity is reached.
    [console_err] fits its 3 bits, one for each fault. *)
Theorem console_words_typed tr :
  0 < rx_depth < 8192 -> 0 < tx_depth < 512 ->
  let b : bridge RF TF := bridge_run bridge_init tr in
  bridge_wf b /\
  (let w := console_rx b in
   0 <= w < 2 ^ 22 /\
   (Z.testbit w 8 = true <-> 0 < field w 9 13) /\
   (Z.testbit w 8 = true ->
      head (f_queue (rx_fifo b)) = Some (field w 0 8) /\
      field w 9 13 = Z.min (Z.of_nat (length (f_queue (rx_fifo b)))) rx_depth) /\
   (Z.testbit w 8 = false -> w = 0)) /\
  (let w := console_tx b in
   0 <= w < 2 ^ 10 /\
   field w 0 9 = Z.of_nat (length (f_queue (tx_fifo b))) /\
   field w 0 9 <= tx_depth /\
   (Z.testbit w 9 = true <-> field w 0 9 = tx_depth)) /\
  0 <= console_err b < 2 ^ 3 /\
  (forall idx, 0 <= idx <= 2 -> Z.testbit (console_err b) idx = sticky idx b).
Proof.
  intros Hr Ht b. assert (Hwf : bridge_wf b) by (apply bridge_wf_run, bridge_wf_init; lia).
  split; [exact Hwf|]. split; [by apply console_rx_atomic|].
  split; [|split; [apply console_err_range|intros idx; apply error_bit]].
  destruct (console_tx_fields b) as (Hw & Hl & Hf). cbv zeta. split; [exact Hw|]. rewrite Hl, Hf.
  pose proof (f_level_nonneg (tx_fifo b)). pose proof (wf_tx_level _ Hwf).
  rewrite trunc_small, f_level_queue by (change (2 ^ 9) with 512; lia).
  rewrite <- f_level_queue. split; [done|]. split; [done|]. apply Z.eqb_eq.
Qed.

(** C17: over any run without reset and without overflow, what the FIFO held
    followed by what the PHY presented is what the host popped followed by
    what the FIFO still holds: no byte of the RX path is lost, duplicated or
    reordered, and only [console_rx_pop] consumes. *)
Theorem rx_exactly_once b tr :
  always (fun b i => rst i = false /\ err_rx_overflow b i = false) b tr ->
  f_queue (rx_fifo b) ++ presented tr = popped b tr ++ f_queue (rx_fifo (bridge_run b tr)).
Proof.
  revert b. induction tr as [|i tr IH]; intros b H; simpl; [by rewrite app_nil_r|].
  destruct H as [[Hr Ho] H]. unfold presented in *. simpl.
  by rewrite app_assoc, rx_queue_step, <- !app_assoc, IH.
Qed.

(** C11: if at most [inflight < RX_HEADROOM] bytes arrive after each rise of
    the stall, no byte is ever presented to a full FIFO, from power-on, in any
    run: backpressure makes [rx_overflow] unreachable. *)
Theorem rx_overflow_unreachable inflight tr :
  0 <= inflight < RX_HEADROOM -> RX_HEADROOM + RX_HYSTERESIS <= rx_depth ->
  inflight_ok inflight 0 (bridge_init : bridge RF TF) tr ->
  always (fun b i => err_rx_overflow b i = false) (bridge_init : bridge RF TF) tr.
Proof.
  intros Hin Hd. apply (overflow_free_from inflight 0); auto; [|lia].
  unfold level_bound. simpl. rewrite f_level_init. unfold hwm, RX_HEADROOM, RX_HYSTERESIS in *. lia.
Qed.

(** Over any run without reset from a well-formed state, what the TX FIFO
    held followed by the writes accepted while [full = 0] is what the PHY was
    handed followed by what is still queued. *)
Theorem tx_exactly_once b tr :
  0 <= tx_depth -> bridge_wf b -> Forall (fun i => rst i = false) tr ->
  f_queue (tx_fifo b) ++ accepted b tr = delivered b tr ++ f_queue (tx_fifo (bridge_run b tr)).
Proof.
  intros Hd Hwf H. revert b Hwf.
  induction H as [|i tr Hr H IH]; intros b Hwf; simpl; [by rewrite app_nil_r|].
  rewrite app_assoc, tx_queue_step, <- !app_assoc by done.
  by rewrite IH by (by apply bridge_wf_step).
Qed.

(** [console_tx] always reports a level between 0 and the depth, and
    [full] exactly at the depth; a [console_tx_data] write at [full = 1]
    pushes nothing, displaces nothing and sets [tx_write_when_full], and a
    write at [full = 0] appends exactly its low byte. *)
Theorem tx_write_accept_or_reject b i :
  0 < tx_depth < 512 -> bridge_wf b -> rst i = false -> tx_data_re i = true ->
  let w := console_tx b in
  let b' := bridge_step b i in
  let rest := after_pop (f_valid (tx_fifo b) && phy_sink_ready i) (f_queue (tx_fifo b)) in
  0 <= field w 0 9 <= tx_depth /\
  (Z.testbit w 9 = true <-> field w 0 9 = tx_depth) /\
  (Z.testbit w 9 = true -> f_queue (tx_fifo b') = rest /\ sticky_err_1 b' = true) /\
  (Z.testbit w 9 = false ->
     f_queue (tx_fifo b') = rest ++ [trunc 8 (tx_data_r i)] /\
     (sticky_err_1 b' = true -> sticky_err_1 b = true)).
Proof.
  intros Hd Hwf Hr Hre w b' rest. destruct (console_tx_fields b) as (_ & Hl & Hf).
  subst w. rewrite Hl, Hf. pose proof (f_level_nonneg (tx_fifo b)).
  pose proof (wf_tx_level _ Hwf).
  rewrite trunc_small by (change (2 ^ 9) with 512; lia).
  split; [lia|]. split; [apply Z.eqb_eq|].
  subst b' rest. simpl. rewrite Hr, f_queue_step.
  unfold sticky_next, err_tx_write_when_full. rewrite Hre.
  destruct (tx_sink_valid b i) eqn:Hs.
  - rewrite (tx_sink_valid_ready b i) by done.
    unfold tx_sink_valid in Hs. rewrite Hre in Hs. simpl in Hs.
    apply negb_true_iff in Hs. rewrite Hs. simpl. split; [done|]. intros _.
    split; [done|]. by destruct (err_clear_re i && _).
  - unfold tx_sink_valid in Hs. rewrite Hre in Hs. simpl in Hs.
    apply negb_false_iff in Hs. rewrite Hs. simpl. by rewrite app_nil_r.
Qed.

(** C37: a sticky error bit, once its fault occurred, reads set at the end of
    any run in which no later write clears that bit, whatever resets the run
    holds; a clear coinciding with the fault does not cancel it. *)
Theorem sticky_survives idx b pre i post :
  0 <= idx <= 2 -> fault idx (bridge_run b pre) i = true ->
  Forall (fun j => clears idx j = false) post ->
  sticky idx (bridge_run b (pre ++ i :: post)) = true.
Proof.
  intros Hi Hf Hp. rewrite bridge_run_app. simpl.
  apply sticky_kept; [done| |done]. by rewrite sticky_step, Hf.
Qed.

(** A sticky bit never sets on its own: if it is clear before a run and
    set after it, some cycle of the run had its fault and no later cycle
    cleared it without a fresh fault. *)
Theorem sticky_justified idx b tr :
  0 <= idx <= 2 -> sticky idx b = false -> sticky idx (bridge_run b tr) = true ->
  exists pre i post, tr = pre ++ i :: post /\ fault idx (bridge_run b pre) i = true /\
    forall j post1 post2, post = post1 ++ j :: post2 -> clears idx j = true ->
      fault idx (bridge_run b (pre ++ i :: post1)) j = true.
Proof.
  intros Hi Hs. induction tr as [|i tr IH] using rev_ind; [simpl; congruence|].
  rewrite bridge_run_app. simpl. rewrite sticky_step by done. intros Hset.
  destruct (fault idx (bridge_run b tr) i) eqn:Hf.
  - exists tr, i, []. split; [done|]. split; [done|]. intros j [|] post2 H; discriminate H.
  - destruct (clears idx i) eqn:Hc; [done|].
    destruct (IH Hset) as (pre & k & post & -> & Hk & Hlater).
    exists pre, k, (post ++ [i]). split; [by rewrite <- app_assoc|]. split; [done|].
    intros j post1 post2 Heq Hj. destruct post2 as [|y post2 _] using rev_ind.
    + apply app_inj_tail in Heq as [-> ->]. congruence.
    + rewrite app_comm_cons, app_assoc in Heq. apply app_inj_tail in Heq as [-> ->].
      by apply (Hlater j post1 post2).
Qed.

(** the stall has hysteresis: once up it stays up while the level is above
    the low-water mark, once down it stays down while the level is below the
    high-water mark, so it cannot oscillate inside the band. *)
Theorem stall_hysteresis b tr :
  Forall (fun i => rst i = false) tr ->
  (stall b = true ->
   always (fun b _ => lwm (rx_depth:=rx_depth) < f_level (rx_fifo b)) b tr ->
   stall (bridge_run b tr) = true) /\
  (stall b = false ->
   always (fun b _ => f_level (rx_fifo b) < hwm (rx_depth:=rx_depth)) b tr ->
   stall (bridge_run b tr) = false).
Proof.
  intros H. revert b. induction H as [|i tr Hr H IH]; intros b; simpl; [done|].
  split; intros Hs [Hl Ht]; apply (IH (bridge_step b i)); auto; simpl; rewrite Hr;
    unfold stall_next, lwm, RX_HYSTERESIS in *;
    destruct (Z.leb_spec (hwm (rx_depth:=rx_depth)) (f_level (rx_fifo b))); auto; try lia;
    destruct (Z.leb_spec (f_level (rx_fifo b)) (hwm (rx_depth:=rx_depth) - 64)); auto; lia.
Qed.

(** A stalled core is released by draining: popping [level - lwm] bytes
    from a stalled, readable FIFO with nothing arriving brings the stall down
    on the next edge. *)
Theorem stall_released_by_drain b n :
  0 < lwm (rx_depth:=rx_depth) -> f_valid (rx_fifo b) = true ->
  f_level (rx_fifo b) = lwm (rx_depth:=rx_depth) + Z.of_nat n ->
  stall (bridge_run b (repeat drain_cycle (n + 1))) = false.
Proof.
  intros Hl Hv Hn. rewrite repeat_app, bridge_run_app. simpl.
  apply stall_next_low. edestruct (drain_to_lwm n b) as [-> _]; auto; lia.
Qed.

(** a pop of an empty FIFO consumes nothing and sets
    [rx_pop_when_empty]; the arriving byte, if any, is still stored. *)
Theorem pop_when_empty_harmless b i :
  rst i = false -> rx_pop_re i = true -> f_valid (rx_fifo b) = false ->
  f_queue (rx_fifo (bridge_step b i))
    = f_queue (rx_fifo b) ++ offered (phy_valid i && f_ready (rx_fifo b)) (trunc 8 (phy_data i)) /\
  sticky_err_2 (bridge_step b i) = true.
Proof.
  intros Hr Hp Hv. simpl. rewrite Hr, f_queue_step, Hv.
  unfold sticky_next, err_rx_pop_when_empty. by rewrite Hp, Hv.
Qed.

End BridgeProperties.

(** * Concrete runs on the buffered FIFO *)

Module BridgeRuns.

Abbreviation bridge0 := (bridge Buffered.fifo Buffered.fifo).

Definition idle : inputs := {|
  rst := false; phy_valid := false; phy_data := 0; phy_sink_ready := false; rx_pop_re := false;
  tx_data_re := false; tx_data_r := 0; err_clear_re := false; err_clear_r := 0 |}.
Definition rx_byte (d : Z) : inputs := {|
  rst := false; phy_valid := true; phy_data := d; phy_sink_ready := false; rx_pop_re := false;
  tx_data_re := false; tx_data_r := 0; err_clear_re := false; err_clear_r := 0 |}.
Definition tx_write (d : Z) : inputs := {|
  rst := false; phy_valid := false; phy_data := 0; phy_sink_ready := false; rx_pop_re := false;
  tx_data_re := true; tx_data_r := d; err_clear_re := false; err_clear_r := 0 |}.
Definition reset : inputs := {|
  rst := true; phy_valid := false; phy_data := 0; phy_sink_ready := false; rx_pop_re := false;
  tx_data_re := false; tx_data_r := 0; err_clear_re := false; err_clear_r := 0 |}.

Definition shipped_step := bridge_step (rx_depth:=RX_DEPTH) (tx_depth:=TX_DEPTH)
  (RF:=Buffered.fifo) (TF:=Buffered.fifo).
Definition shipped_run := bridge_run (rx_depth:=RX_DEPTH) (tx_depth:=TX_DEPTH)
  (RF:=Buffered.fifo) (TF:=Buffered.fifo).
Definition power_on : bridge0 := bridge_init (rx_depth:=RX_DEPTH) (tx_depth:=TX_DEPTH).

(** Two bytes of the banner arrive; the first is in the output register. *)
Definition two_bytes : bridge0 := shipped_run power_on [rx_byte 56; rx_byte 48; idle].

Lemma two_bytes_wf : bridge_wf (rx_depth:=RX_DEPTH) (tx_depth:=TX_DEPTH) two_bytes.
Proof.
  split; vm_compute; [|constructor|discriminate].
  repeat constructor; (discriminate || reflexivity).
Qed.

(** Thresholds of the shipped depth, as the specification states them. *)
Lemma shipped_thresholds :
  hwm (rx_depth:=RX_DEPTH) = 4032 /\ lwm (rx_depth:=RX_DEPTH) = 3968.
Proof. split; reflexivity. Qed.

Lemma console_rx_atomic_witness :
  Z.testbit (console_rx (rx_depth:=RX_DEPTH) two_bytes) 8 = true /\
  head (f_queue (depth:=RX_DEPTH) (rx_fifo two_bytes)) = Some 56.
Proof.
  split; [reflexivity|].
  destruct (console_rx_atomic (rx_depth:=RX_DEPTH) (tx_depth:=TX_DEPTH) two_bytes)
    as (_ & _ & H & _); [vm_compute; split; reflexivity | exact two_bytes_wf |].
  exact (proj1 (H eq_refl)).
Defined.

(** Two bytes of the core wait for the host and one of the host for the core; the host has popped once too often. *)
Definition mixed_run : list inputs :=
  [drain_cycle; rx_byte 56; rx_byte 48; tx_write 13; idle; idle].

Lemma console_words_typed_witness :
  let b := shipped_run power_on mixed_run in
  (console_rx (rx_depth:=RX_DEPTH) b, console_tx (tx_depth:=TX_DEPTH) b, console_err b) = (1336, 1, 4) /\
  head (f_queue (depth:=RX_DEPTH) (rx_fifo b)) = Some 56 /\
  field (console_tx (tx_depth:=TX_DEPTH) b) 0 9 = Z.of_nat (length (f_queue (depth:=TX_DEPTH) (tx_fifo b))).
Proof.
  split; [vm_compute; reflexivity|].
  destruct (console_words_typed (rx_depth:=RX_DEPTH) (tx_depth:=TX_DEPTH) (RF:=Buffered.fifo) (TF:=Buffered.fifo)
    mixed_run) as (_ & (_ & _ & Hrx & _) & (_ & Htx & _) & _); [vm_compute; split; reflexivity..|].
  split; [exact (proj1 (Hrx eq_refl))|exact Htx].
Defined.

Lemma rx_exactly_once_witness :
  popped (rx_depth:=RX_DEPTH) (tx_depth:=TX_DEPTH) power_on
    [rx_byte 56; rx_byte 48; idle; drain_cycle; drain_cycle] = [56; 48].
Proof.
  pose proof (rx_exactly_once (rx_depth:=RX_DEPTH) (tx_depth:=TX_DEPTH) power_on
    [rx_byte 56; rx_byte 48; idle; drain_cycle; drain_cycle]) as H.
  assert (always (rx_depth:=RX_DEPTH) (tx_depth:=TX_DEPTH)
    (fun b i => rst i = false /\ err_rx_overflow (rx_depth:=RX_DEPTH) b i = false) power_on
    [rx_byte 56; rx_byte 48; idle; drain_cycle; drain_cycle]) as Ha
    by (vm_compute; repeat split).
  specialize (H Ha). etransitivity; [|symmetry; exact H]. reflexivity.
Defined.

(** A 128-word RX FIFO: the stall rises at 64 bytes, three more arrive. *)
Definition power_on128 : bridge0 := bridge_init (rx_depth:=128) (tx_depth:=256).
Definition burst : list inputs := repeat (rx_byte 65) 67 ++ [idle; idle].

Lemma rx_overflow_unreachable_witness :
  always (rx_depth:=128) (tx_depth:=256)
    (fun b i => err_rx_overflow (rx_depth:=128) b i = false) power_on128 burst /\
  stall (bridge_run (rx_depth:=128) (tx_depth:=256) power_on128 burst) = true.
Proof.
  split; [|reflexivity].
  apply (rx_overflow_unreachable (rx_depth:=128) (tx_depth:=256)
    (RF:=Buffered.fifo) (TF:=Buffered.fifo) 3 burst);
    [vm_compute; split; [discriminate|reflexivity] | discriminate | ].
  vm_compute. repeat (split; [discriminate|]). exact I.
Defined.

Lemma tx_exactly_once_witness :
  f_queue (depth:=TX_DEPTH) (tx_fifo (shipped_run two_bytes [tx_write 72; tx_write 13])) = [72; 13].
Proof.
  pose proof (tx_exactly_once (rx_depth:=RX_DEPTH) (tx_depth:=TX_DEPTH) two_bytes
    [tx_write 72; tx_write 13]) as H.
  symmetry. apply H; [discriminate | exact two_bytes_wf | repeat constructor].
Defined.

Lemma tx_write_accept_or_reject_witness :
  f_queue (depth:=TX_DEPTH) (tx_fifo (shipped_step two_bytes (tx_write 72))) = [72].
Proof.
  pose proof (tx_write_accept_or_reject (rx_depth:=RX_DEPTH) (tx_depth:=TX_DEPTH) two_bytes
    (tx_write 72)) as H.
  destruct H as (_ & _ & _ & H); [vm_compute; split; reflexivity | exact two_bytes_wf
    | reflexivity | reflexivity |].
  exact (proj1 (H eq_refl)).
Defined.

Lemma sticky_survives_witness :
  sticky 2 (shipped_run power_on ([] ++ drain_cycle :: [reset; idle])) = true.
Proof.
  apply (sticky_survives (rx_depth:=RX_DEPTH) (tx_depth:=TX_DEPTH) 2 power_on);
    [lia | reflexivity | repeat constructor].
Defined.

Lemma sticky_justified_witness :
  exists pre i post, [drain_cycle; reset] = pre ++ i :: post /\
    fault (rx_depth:=RX_DEPTH) (tx_depth:=TX_DEPTH) 2 (shipped_run power_on pre) i = true.
Proof.
  destruct (sticky_justified (rx_depth:=RX_DEPTH) (tx_depth:=TX_DEPTH) 2 power_on
    [drain_cycle; reset]) as (pre & i & post & H1 & H2 & _); [lia | reflexivity | reflexivity |].
  exists pre, i, post. split; [exact H1 | exact H2].
Defined.

(** The 128-word instance, stalled with 67 bytes waiting (lwm = 0). *)
Lemma stall_hysteresis_witness :
  stall (bridge_run (rx_depth:=128) (tx_depth:=256)
    (bridge_run (rx_depth:=128) (tx_depth:=256) power_on128 burst)
    (repeat drain_cycle 10)) = true.
Proof.
  destruct (stall_hysteresis (rx_depth:=128) (tx_depth:=256)
    (bridge_run (rx_depth:=128) (tx_depth:=256) power_on128 burst)
    (repeat drain_cycle 10)) as [H _]; [repeat constructor|].
  apply H; [reflexivity | vm_compute; repeat split].
Defined.

(** A 160-word RX FIFO holding 100 bytes: hwm = 96, lwm = 32. *)
Definition full160 : bridge0 :=
  bridge_run (rx_depth:=160) (tx_depth:=256) (power_on : bridge0) (repeat (rx_byte 65) 100 ++ [idle; idle]).

Lemma stall_released_by_drain_witness :
  stall full160 = true /\
  stall (bridge_run (rx_depth:=160) (tx_depth:=256) full160 (repeat drain_cycle (68 + 1))) = false.
Proof.
  split; [reflexivity|].
  apply (stall_released_by_drain (rx_depth:=160) (tx_depth:=256) full160 68); reflexivity.
Defined.

Lemma pop_when_empty_harmless_witness :
  sticky_err_2 (shipped_step power_on drain_cycle) = true.
Proof.
  apply (pop_when_empty_harmless (rx_depth:=RX_DEPTH) (tx_depth:=TX_DEPTH) power_on drain_cycle);
    reflexivity.
Defined.

End BridgeRuns.
