(* ===== verification/Console.v ===== *)
(** * The host console: [host/b8008net/console.py]

    [drain], [send], [check_errors], [console_pump] and [console_loop], over
    the interface [ConsoleRegs] of the six console registers and
    [time.sleep].  [ConsoleLaws] is what the register bank promises the host
    (SPEC.md sections 8, 9 and 11): the theorems of this file are proved
    against it, and [ConsoleOnBridge] discharges it for the gateware.

    Delays are IEEE-754 doubles, computed by the Standard Library's
    specification floats, because the bound of [send]'s wait loop is a double
    accumulated by repeated addition. *)

From Stdlib Require Import ZArith Lia List Bool SpecFloat HexString.
From stdpp Require Import base list strings pretty.
From S2P Require Import Prelude.

Open Scope Z_scope.

(** ** Constants *)

Definition RX_DATA_MASK : Z := 0xFF.
Definition RX_VALID_BIT : Z := Z.shiftl 1 8.
Definition TX_FULL_BIT : Z := Z.shiftl 1 9.
Definition ERR_RX_OVERFLOW : Z := Z.shiftl 1 0.
Definition ERR_TX_WRITE_WHEN_FULL : Z := Z.shiftl 1 1.
Definition ERR_RX_POP_WHEN_EMPTY : Z := Z.shiftl 1 2.
Definition ERROR_NAMES : list (Z * string) :=
  [(ERR_RX_OVERFLOW, "rx_overflow"); (ERR_TX_WRITE_WHEN_FULL, "tx_write_when_full");
   (ERR_RX_POP_WHEN_EMPTY, "rx_pop_when_empty")]%string.
Definition DRAIN_MAX_BYTES : nat := 4096.
Definition READ_CHUNK : Z := 4096.
Definition EXIT_BYTE : Z := 0x1D.

(** The doubles nearest to 0.003, 1.0 and 0.001. *)
Definition TX_GAP_S : spec_float := S754_finite false 6917529027641082 (-61).
Definition TX_FULL_TIMEOUT_S : spec_float := S754_finite false 4503599627370496 (-52).
Definition TX_FULL_POLL_S : spec_float := S754_finite false 4611686018427388 (-62).

Definition f64_add : spec_float -> spec_float -> spec_float := SFadd 53 1024.

(** Python truth of a double: everything but zero. *)
Definition f64_truthy (x : spec_float) : bool :=
  match x with S754_zero _ => false | _ => true end.

(** ** The register interface *)

Class ConsoleRegs (W : Type) := {
  rx_read : M W Z;
  rx_pop_write : Z -> M W unit;
  tx_read : M W Z;
  tx_data_write : Z -> M W unit;
  err_read : M W Z;
  err_clear_write : Z -> M W unit;
  sleep : spec_float -> M W unit;
}.

(** Standard input, output and error as the pump uses them. *)
Class ConsoleIO (W : Type) := {
  stdin_read : Z -> M W (list Z);
  stdout_write : list Z -> M W unit;
  stdout_flush : M W unit;
  stderr_print : string -> M W unit;
}.

(** The terminal of [console_loop]; [T] is the type of saved settings. *)
Class Terminal (T W : Type) := {
  tcgetattr : M W T;
  setraw : M W unit;
  tcsetattr : T -> M W unit;
  select_stdin : M W bool;
}.

Section Code.
Context {W : Type} `{!ConsoleRegs W}.

(** ** drain *)

Fixpoint drain_loop (n : nat) (out : list Z) : M W (list Z) :=
  match n with
  | O => ret out
  | S n =>
      let! word := rx_read in
      if Z.land word RX_VALID_BIT =? 0 then ret out
      else rx_pop_write 1 ;;;
           drain_loop n (out ++ [Z.land word RX_DATA_MASK])
  end.

Definition drain : M W (list Z) := drain_loop DRAIN_MAX_BYTES [].

(** ** send

    [wait_not_full] is the inner [while]: [true] when [console_tx.full] was
    seen clear, [false] when the bounded wait ran out. *)
Fixpoint wait_not_full (fuel : nat) (waited : spec_float) : M W bool :=
  match fuel with
  | O => diverge
  | S fuel =>
      let! word := tx_read in
      if Z.land word TX_FULL_BIT =? 0 then ret true
      else if SFleb TX_FULL_TIMEOUT_S waited then ret false
      else sleep TX_FULL_POLL_S ;;;
           wait_not_full fuel (f64_add waited TX_FULL_POLL_S)
  end.

(** Enough for the wait loop: [wait_polls_bound] shows the accumulated double
    reaches the timeout after exactly 1000 additions. *)
Definition WAIT_FUEL : nat := 1001.

Fixpoint send_loop (data : list Z) (gap_s : spec_float) (accepted : Z) : M W Z :=
  match data with
  | [] => ret accepted
  | byte :: data =>
      let! clear := wait_not_full WAIT_FUEL (S754_zero false) in
      if clear then
        tx_data_write byte ;;;
        (if f64_truthy gap_s then sleep gap_s else ret tt) ;;;
        send_loop data gap_s (accepted + 1)
      else ret accepted
  end.

Definition send (data : list Z) (gap_s : option spec_float) : M W Z :=
  send_loop data (default TX_GAP_S gap_s) 0.

(** ** check_errors *)

Definition check_errors (clear : bool) : M W Z :=
  let! err := err_read in
  (if negb (err =? 0) && clear then err_clear_write err else ret tt) ;;;
  ret err.

(** ** console_pump *)

Definition describe_errors (err : Z) : list string :=
  (filter (fun bn => Z.land err bn.1 <> 0) ERROR_NAMES).*2.

(** [", ".join(l)]. *)
Fixpoint join (sep : string) (l : list string) : string :=
  match l with
  | [] => ""
  | [x] => x
  | x :: l => x +:+ sep +:+ join sep l
  end.

Definition error_message (err : Z) : string :=
  let names := join ", " (describe_errors err) in
  let names := if decide (names = "")%string then HexString.of_Z err else names in
  ("-- console: error condition detected (" +:+ names
     +:+ ") -- bytes may be missing from this transcript --")%string.

Definition dropped_message (dropped total : Z) : string :=
  ("-- console: " +:+ pretty dropped +:+ " of " +:+ pretty total
     +:+ " typed byte(s) dropped -- TX FIFO stayed full --")%string.

Context `{!ConsoleIO W}.

Definition report_errors (err : Z) : M W unit := stderr_print (error_message err).
Definition report_dropped (dropped total : Z) : M W unit :=
  stderr_print (dropped_message dropped total).

Definition send_and_report (data : list Z) : M W unit :=
  let! accepted := send data None in
  let total := Z.of_nat (length data) in
  if accepted <? total then report_dropped (total - accepted) total else ret tt.

(** [data.find(bytes([b]))]: the first index, or -1. *)
Fixpoint find_byte (b : Z) (data : list Z) : Z :=
  match data with
  | [] => -1
  | x :: data => if x =? b then 0
                 else let j := find_byte b data in if j =? -1 then -1 else j + 1
  end.

Definition console_pump (stdin_ready : bool) : M W bool :=
  let! err := check_errors true in
  (if negb (err =? 0) then report_errors err else ret tt) ;;;
  let! out := drain in
  (match out with [] => ret tt | _ => stdout_write out ;;; stdout_flush end) ;;;
  if stdin_ready then
    let! data := stdin_read READ_CHUNK in
    match data with
    | [] => ret false
    | _ =>
        let exit_idx := find_byte EXIT_BYTE data in
        if negb (exit_idx =? -1) then
          (if 0 <? exit_idx then send_and_report (take (Z.to_nat exit_idx) data) else ret tt) ;;;
          ret false
        else send_and_report data ;;; ret true
    end
  else ret true.

(** ** console_loop *)

Definition carriage_return : string := String (Ascii.ascii_of_nat 13) "".

Context {T : Type} `{!Terminal T W}.

Fixpoint pump_loop (fuel : nat) : M W unit :=
  match fuel with
  | O => diverge
  | S fuel =>
      let! ready := select_stdin in
      let! go := console_pump ready in
      if go then pump_loop fuel else ret tt
  end.

Definition console_loop (fuel : nat) : M W unit :=
  let! old_settings := tcgetattr in
  try_finally
    (try_except
       (setraw ;;;
        stderr_print ("-- b8008net console: Ctrl-] to exit --" +:+ carriage_return) ;;;
        pump_loop fuel)
       (fun e => bool_decide (e = KeyboardInterrupt)) (fun _ => ret tt))
    (tcsetattr old_settings).

End Code.

Arguments drain {W _}.
Arguments WAIT_FUEL : simpl never.
Arguments DRAIN_MAX_BYTES : simpl never.

(** * What the register bank promises *)

(** Everything on the board between two host accesses may move on: bytes may
    arrive in the RX FIFO ([rx_flow] allows any [new] suffix), the TX FIFO may
    drain (only [txq], the history of accepted bytes, is observed).  The host
    is the only one that pops, writes and clears.

    - [rx_in]: every byte the RX FIFO took from the 8008 so far;
    - [rxq]: the bytes held for the host, oldest first;
    - [rx_avail]: the next pop will consume a byte;
    - [txq]: every byte accepted for the 8008 so far;
    - [tx_room]: the next write will be accepted;
    - [errs]: the sticky error word;
    - [host_faults]: the two sticky bits only host accesses can set. *)
Class ConsoleView (W : Type) := {
  bank_ok : W -> Prop;
  rx_in : W -> list Z;
  rxq : W -> list Z;
  rx_avail : W -> Prop;
  txq : W -> list Z;
  tx_room : W -> Prop;
  errs : W -> Z;
  host_faults : W -> bool * bool;
}.

Section View.
Context {W : Type} `{!ConsoleView W}.

(** Between [w] and [w'], exactly [out] left the RX queue, oldest first, while
    what arrived joined it at the end. *)
Definition rx_flow (w : W) (out : list Z) (w' : W) : Prop :=
  exists new, rx_in w' = rx_in w ++ new /\ rxq w ++ new = out ++ rxq w'.

Definition errs_kept (w w' : W) : Prop :=
  forall k, Z.testbit (errs w) k = true -> Z.testbit (errs w') k = true.

Lemma rx_flow_nil w : rx_flow w [] w.
Proof. exists []. by rewrite !app_nil_r. Qed.

Lemma rx_flow_trans w1 w2 w3 o1 o2 :
  rx_flow w1 o1 w2 -> rx_flow w2 o2 w3 -> rx_flow w1 (o1 ++ o2) w3.
Proof.
  intros (n1 & I1 & H1) (n2 & I2 & H2). exists (n1 ++ n2).
  split; [by rewrite I2, I1, app_assoc|].
  by rewrite app_assoc, H1, <- app_assoc, H2, app_assoc.
Qed.

Lemma errs_kept_refl w : errs_kept w w.
Proof. by intros k. Qed.

Lemma errs_kept_trans w1 w2 w3 : errs_kept w1 w2 -> errs_kept w2 w3 -> errs_kept w1 w3.
Proof. unfold errs_kept. auto. Qed.

(** A step that neither consumes nor sends. *)
Record quiet (w w' : W) : Prop := {
  quiet_ok : bank_ok w';
  quiet_rx : rx_flow w [] w';
  quiet_tx : txq w' = txq w;
  quiet_errs : errs_kept w w';
  quiet_faults : host_faults w' = host_faults w;
}.

Lemma quiet_refl w : bank_ok w -> quiet w w.
Proof. intros H. split; auto using rx_flow_nil, errs_kept_refl. Qed.

Lemma quiet_trans w1 w2 w3 : quiet w1 w2 -> quiet w2 w3 -> quiet w1 w3.
Proof.
  intros [? H1 T1 ? F1] [? H2 T2 ? F2]. split; auto; try congruence.
  - by apply (rx_flow_trans w1 w2 w3 [] []).
  - by eapply errs_kept_trans.
Qed.

End View.

#[export] Hint Resolve rx_flow_nil errs_kept_refl quiet_refl : b8008.

Class ConsoleLaws (W : Type) `{!ConsoleRegs W, !ConsoleView W} := {
  rx_read_law w : bank_ok w ->
    wp rx_read (fun r w' => quiet w w' /\
      match r with
      | Ok word => Z.land word RX_VALID_BIT <> 0 ->
          rx_avail w' /\ head (rxq w') = Some (Z.land word RX_DATA_MASK)
      | Raise _ => True
      | Diverged => False
      end) w;
  rx_pop_law w v b : bank_ok w -> rx_avail w -> head (rxq w) = Some b ->
    wp (rx_pop_write v) (fun r w' =>
      bank_ok w' /\ txq w' = txq w /\ errs_kept w w' /\ host_faults w' = host_faults w /\
      match r with
      | Ok _ => rx_flow w [b] w'
      | Raise _ => rx_flow w [] w' \/ rx_flow w [b] w'
      | Diverged => False
      end) w;
  tx_read_law w : bank_ok w ->
    wp tx_read (fun r w' => quiet w w' /\
      match r with
      | Ok word => Z.land word TX_FULL_BIT = 0 -> tx_room w'
      | Raise _ => True
      | Diverged => False
      end) w;
  tx_write_law w v : bank_ok w -> tx_room w -> is_byte v ->
    wp (tx_data_write v) (fun r w' =>
      bank_ok w' /\ rx_flow w [] w' /\ errs_kept w w' /\ host_faults w' = host_faults w /\
      match r with
      | Ok _ => txq w' = txq w ++ [v]
      | Raise _ => txq w' = txq w \/ txq w' = txq w ++ [v]
      | Diverged => False
      end) w;
  err_read_law w : bank_ok w ->
    wp err_read (fun r w' => quiet w w' /\
      match r with
      | Ok err => forall k, Z.testbit (errs w) k = true -> Z.testbit err k = true
      | Raise _ => True
      | Diverged => False
      end) w;
  err_clear_law w v : bank_ok w ->
    wp (err_clear_write v) (fun r w' =>
      bank_ok w' /\ rx_flow w [] w' /\ txq w' = txq w /\
      (forall k, Z.testbit (errs w) k = true -> Z.testbit v k = false ->
                 Z.testbit (errs w') k = true) /\
      r <> Diverged) w;
  sleep_law w d : bank_ok w ->
    wp (sleep d) (fun r w' => quiet w w' /\ r <> Diverged) w;
}.

(** * Lemmas *)

Section Lemmas.
Context {W : Type} `{!ConsoleRegs W, !ConsoleView W, !ConsoleLaws W}.

(** What a consuming or sending call leaves alone. *)
Record kept (w w' : W) : Prop := {
  kept_ok : bank_ok w';
  kept_errs : errs_kept w w';
  kept_faults : host_faults w' = host_faults w;
}.

Lemma kept_refl w : bank_ok w -> kept w w.
Proof. intros. split; auto with b8008. Qed.

Lemma kept_trans w1 w2 w3 : kept w1 w2 -> kept w2 w3 -> kept w1 w3.
Proof. intros [? ? E1] [? ? E2]. split; [done|by eapply errs_kept_trans|congruence]. Qed.

Lemma quiet_kept w w' : quiet w w' -> kept w w'.
Proof. intros []. by split. Qed.

(** The postcondition of a partial drain: [o] was popped since [w]. *)
Definition drained (w : W) (n : nat) (out : list Z) (r : outcome (list Z)) (w' : W) : Prop :=
  kept w w' /\ txq w' = txq w /\
  match r with
  | Ok res => exists o, res = out ++ o /\ rx_flow w o w' /\ (length o <= n)%nat
  | Raise _ => exists lost, rx_flow w lost w' /\ (length lost <= n)%nat
  | Diverged => False
  end.

Lemma drained_later w w1 n out b r w' :
  kept w w1 -> txq w1 = txq w -> rx_flow w [b] w1 ->
  drained w1 n (out ++ [b]) r w' -> drained w (S n) out r w'.
Proof.
  intros Hk Ht Hf (Hk' & Ht' & Hr). split; [by eapply kept_trans|]. split; [congruence|].
  destruct r as [res|e|]; [| |done].
  - destruct Hr as (o & -> & Ho & Hn). exists (b :: o).
    split; [by rewrite <- app_assoc|]. split; [by apply (rx_flow_trans w w1 w' [b])|].
    simpl. lia.
  - destruct Hr as (o & Ho & Hn). exists (b :: o).
    split; [by apply (rx_flow_trans w w1 w' [b])|]. simpl. lia.
Qed.

Lemma drain_loop_spec n out w :
  bank_ok w -> wp (drain_loop n out) (drained w n out) w.
Proof.
  revert out w. induction n as [|n IH]; intros out w Hok; simpl.
  { apply wp_ret. split; [by apply kept_refl|]. split; [done|].
    exists []. rewrite app_nil_r. auto with b8008. }
  apply wp_bind. eapply wp_mono; [by apply rx_read_law|]. intros r w1 [Hq Hr].
  assert (kept w w1) as Hk by by apply quiet_kept.
  destruct r as [word|e|]; [|split; [done|]; split; [apply Hq|]; exists [];
    split; [apply Hq|simpl; lia] |done].
  destruct (Z.eqb_spec (Z.land word RX_VALID_BIT) 0) as [Hz|Hnz].
  { apply wp_ret. split; [done|]. split; [apply Hq|]. exists []. rewrite app_nil_r.
    split; [done|]. split; [apply Hq|simpl; lia]. }
  destruct (Hr Hnz) as [Hav Hhead].
  apply wp_bind. eapply wp_mono; [by apply rx_pop_law; [apply Hq|..]|].
  intros r w2 (Hok2 & Ht2 & He2 & Hf2 & Hr2).
  assert (kept w w2) as Hk2 by (eapply kept_trans; [done|by split]).
  assert (txq w2 = txq w) as Htt by (rewrite Ht2; apply Hq).
  assert (forall o, rx_flow w1 o w2 -> rx_flow w o w2) as Hcat
    by (intros o Ho; apply (rx_flow_trans w w1 w2 [] o); [apply Hq|done]).
  destruct r as [[]|e|]; [| |done].
  - eapply wp_mono; [by apply IH|]. intros r w3. by apply drained_later; auto.
  - split; [done|]. split; [done|].
    destruct Hr2 as [Hl|Hl]; apply Hcat in Hl; eexists; (split; [exact Hl|simpl; lia]).
Qed.

Lemma drain_spec w : bank_ok w -> wp drain (drained w DRAIN_MAX_BYTES []) w.
Proof. apply drain_loop_spec. Qed.

(** ** send *)

(** The double reached after [k] polls. *)
Fixpoint waited_after (k : nat) (waited : spec_float) : spec_float :=
  match k with O => waited | S k => waited_after k (f64_add waited TX_FULL_POLL_S) end.

Definition zero64 : spec_float := S754_zero false.

(** 1000 additions of the double 0.001 reach the double 1.0 (they sum to a
    little more), 999 do not. *)
Lemma wait_polls_bound :
  SFleb TX_FULL_TIMEOUT_S (waited_after 1000 zero64) = true /\
  SFleb TX_FULL_TIMEOUT_S (waited_after 999 zero64) = false.
Proof. split; vm_compute; reflexivity. Qed.

Lemma wait_not_full_spec k w waited :
  bank_ok w -> SFleb TX_FULL_TIMEOUT_S (waited_after k waited) = true ->
  wp (wait_not_full (S k) waited) (fun r w' => quiet w w' /\
    match r with Ok true => tx_room w' | Ok false | Raise _ => True | Diverged => False end) w.
Proof.
  revert w waited. induction k as [|k IH]; intros w waited Hok Hb.
  all: simpl; apply wp_bind; (eapply wp_mono; [by apply tx_read_law|]); intros r w1 [Hq Hr].
  all: destruct r as [word|e|]; [|done|done].
  all: destruct (Z.eqb_spec (Z.land word TX_FULL_BIT) 0) as [Hz|Hnz]; [apply wp_ret; auto|].
  - simpl in Hb. rewrite Hb. by apply wp_ret.
  - destruct (SFleb TX_FULL_TIMEOUT_S waited); [by apply wp_ret|].
    apply wp_bind. eapply wp_mono; [apply sleep_law, Hq|]. intros r w2 [Hq2 Hd].
    assert (quiet w w2) as Hq' by by eapply quiet_trans.
    destruct r as [[]|e|]; [|done|done].
    eapply wp_mono; [apply IH; [apply Hq2|done]|]. intros r w3 [Hq3 Hr3].
    split; [by eapply quiet_trans|done].
Qed.

(** The postcondition of a partial send: [k] more bytes were accepted. *)
Definition sent (w : W) (data : list Z) (acc : Z) (r : outcome Z) (w' : W) : Prop :=
  kept w w' /\ rx_flow w [] w' /\
  exists k, (k <= length data)%nat /\ txq w' = txq w ++ take k data /\
  match r with
  | Ok n => n = acc + Z.of_nat k
  | Raise _ => True
  | Diverged => False
  end.

Lemma sent_none w w' data acc r :
  quiet w w' -> match r with Ok n => n = acc | Raise _ => True | Diverged => False end ->
  sent w data acc r w'.
Proof.
  intros Hq Hr. split; [by apply quiet_kept|]. split; [apply Hq|]. exists 0%nat.
  split; [lia|]. rewrite app_nil_r. split; [apply Hq|]. destruct r; auto. simpl. lia.
Qed.

Lemma sent_later w w1 byte data acc r w' :
  kept w w1 -> rx_flow w [] w1 -> txq w1 = txq w ++ [byte] ->
  sent w1 data (acc + 1) r w' -> sent w (byte :: data) acc r w'.
Proof.
  intros Hk Hf Ht (Hk' & Hf' & k & Hle & Ht' & Hr). split; [by eapply kept_trans|].
  split; [by apply (rx_flow_trans w w1 w' [] [])|]. exists (S k). simpl.
  split; [lia|]. split; [by rewrite Ht', Ht, <- app_assoc|]. destruct r; auto. lia.
Qed.

(** One accepted byte and its pacing gap, as a single step. *)
Lemma write_gap_spec byte gap (k : M W Z) w Q :
  bank_ok w -> tx_room w -> is_byte byte ->
  (forall w', kept w w' -> rx_flow w [] w' -> txq w' = txq w ++ [byte] -> wp k Q w') ->
  (forall e w', kept w w' -> rx_flow w [] w' ->
     txq w' = txq w \/ txq w' = txq w ++ [byte] -> Q (Raise e) w') ->
  wp (tx_data_write byte ;;; (if f64_truthy gap then sleep gap else ret tt) ;;; k) Q w.
Proof.
  intros Hok Hroom Hb Hk He. apply wp_bind.
  eapply wp_mono; [by apply tx_write_law|]. intros r w1 (Hok1 & Hf1 & He1 & Hh1 & Hr).
  assert (kept w w1) as Hk1 by by split.
  destruct r as [[]|e|]; [|by apply He|done].
  apply wp_bind. destruct (f64_truthy gap); [|by apply wp_ret, Hk].
  eapply wp_mono; [by apply sleep_law|]. intros r w2 [Hq Hd].
  assert (kept w w2) as Hk2 by (eapply kept_trans; [done|by apply quiet_kept]).
  assert (rx_flow w [] w2) as Hf2 by (apply (rx_flow_trans w w1 w2 [] []); [done|apply Hq]).
  assert (txq w2 = txq w ++ [byte]) as Ht2 by (rewrite <- Hr; apply Hq).
  destruct r as [[]|e|]; [by apply Hk|by apply He; auto|done].
Qed.

Lemma send_loop_spec data gap acc w :
  bank_ok w -> Forall is_byte data -> wp (send_loop data gap acc) (sent w data acc) w.
Proof.
  intros Hok Hb. revert acc w Hok. induction Hb as [|byte data Hb _ IH]; intros acc w Hok.
  { apply wp_ret. apply sent_none; auto with b8008. }
  cbn [send_loop]. apply wp_bind.
  eapply wp_mono; [apply (wait_not_full_spec 1000 w zero64); [done|apply wait_polls_bound]|].
  intros r w1 [Hq Hr]. destruct r as [[|]|e|]; [|apply wp_ret; by apply sent_none
    |by apply sent_none|done].
  apply write_gap_spec; [apply Hq|done|done|..].
  - intros w2 Hk Hf Ht. eapply wp_mono; [apply IH, Hk|]. intros r w3.
    apply sent_later; [eapply kept_trans; [by apply quiet_kept|done]| |].
    + apply (rx_flow_trans w w1 w2 [] []); [apply Hq|done].
    + by rewrite Ht, (quiet_tx _ _ Hq).
  - intros e w2 Hk Hf Ht. split; [eapply kept_trans; [by apply quiet_kept|done]|].
    split; [apply (rx_flow_trans w w1 w2 [] []); [apply Hq|done]|].
    rewrite (quiet_tx _ _ Hq) in Ht. destruct Ht as [Ht|Ht]; rewrite Ht.
    + exists 0%nat. rewrite app_nil_r. split; [simpl; lia|auto].
    + exists 1%nat. split; [simpl; lia|auto].
Qed.

Lemma send_spec data gap_s w :
  bank_ok w -> Forall is_byte data -> wp (send data gap_s) (sent w data 0) w.
Proof. apply send_loop_spec. Qed.

(** ** check_errors *)

Lemma check_errors_spec clear w :
  bank_ok w ->
  wp (check_errors clear) (fun r w' =>
    bank_ok w' /\ rx_flow w [] w' /\ txq w' = txq w /\ r <> Diverged /\
    (clear = false -> errs_kept w w') /\
    (forall err, r = Ok err ->
       (forall k, Z.testbit (errs w) k = true -> Z.testbit err k = true) /\
       (forall k, Z.testbit (errs (snd (err_read w))) k = true -> Z.testbit err k = false ->
                  Z.testbit (errs w') k = true))) w.
Proof.
  intros Hok. unfold check_errors. apply wp_bind.
  eapply wp_mono; [by apply wp_self, err_read_law|].
  intros r w1 [[[Hok1 Hf Ht He Hh] Hr] <-].
  destruct r as [err|e|]; [|split_and!; auto; intros; congruence|done].
  apply wp_bind. destruct (negb (err =? 0) && clear) eqn:Ec.
  - apply andb_true_iff in Ec as [_ ->].
    eapply wp_mono; [by apply err_clear_law|]. intros r w2 (? & Hf2 & Ht2 & He2 & Hd).
    assert (rx_flow w [] w2) by (apply (rx_flow_trans w w1 w2 [] []); done).
    destruct r as [[]|e|]; [|split_and!; auto; intros; congruence|done].
    apply wp_ret. split_and!; auto; try congruence. intros err' [= <-]. auto.
  - apply wp_ret, wp_ret. split_and!; auto; try congruence. intros err' [= <-]. auto.
Qed.

End Lemmas.

(** * Properties *)

Section Properties.
Context {W : Type} `{!ConsoleRegs W, !ConsoleView W, !ConsoleLaws W}.

(** C15: [drain] terminates and delivers exactly once: the bytes it returns are
    the oldest bytes of the RX queue, in order, and what follows them stays
    queued (new arrivals included); it takes at most [DRAIN_MAX_BYTES], it
    never pops an empty FIFO (neither host fault bit changes), and it leaves
    the TX path alone.  If an access raises, what was popped before it is a
    prefix of the queue, at most [DRAIN_MAX_BYTES] long. *)
Theorem drain_exactly_once (w : W) :
  bank_ok w ->
  let '(r, w') := drain w in
  bank_ok w' /\ txq w' = txq w /\ errs_kept w w' /\ host_faults w' = host_faults w /\
  match r with
  | Ok out => rx_flow w out w' /\ (length out <= DRAIN_MAX_BYTES)%nat
  | Raise _ => exists lost, rx_flow w lost w' /\ (length lost <= DRAIN_MAX_BYTES)%nat
  | Diverged => False
  end.
Proof.
  intros Hok. pose proof (drain_spec w Hok) as H.
  unfold wp in H. destruct (drain w) as [r w']. simpl in H.
  destruct H as ([] & Ht & Hr). split_and!; auto. destruct r as [out|e|]; [|done|done].
  destruct Hr as (o & -> & Ho & Hn). auto.
Qed.

(** C16: [send] terminates; the count it returns is exactly how many bytes the
    board accepted, they are the first ones of [data] and in order, no byte
    is written while the FIFO is full (neither host fault bit changes), and
    an exception leaves a prefix accepted. *)
Theorem send_accepts_prefix (data : list Z) (gap_s : option spec_float) (w : W) :
  bank_ok w -> Forall is_byte data ->
  let '(r, w') := send data gap_s w in
  bank_ok w' /\ rx_flow w [] w' /\ errs_kept w w' /\ host_faults w' = host_faults w /\
  match r with
  | Ok n => 0 <= n <= Z.of_nat (length data) /\ txq w' = txq w ++ take (Z.to_nat n) data
  | Raise _ => exists k, txq w' = txq w ++ take k data
  | Diverged => False
  end.
Proof.
  intros Hok Hb. pose proof (send_spec data gap_s w Hok Hb) as H.
  unfold wp in H. destruct (send data gap_s w) as [r w'].
  simpl in H. destruct H as ([] & Hf & k & Hk & Ht & Hr). split_and!; auto.
  destruct r as [n|e|]; [|by exists k|done]. subst n. rewrite Z.add_0_l, Nat2Z.id.
  split; [lia|done].
Qed.

End Properties.

(** * Frames of the register calls *)

(** No register access touches the observation [f]. *)
Record regs_preserve {W X : Type} `{!ConsoleRegs W} (f : W -> X) : Prop := {
  pres_rx_read : preserves f rx_read;
  pres_rx_pop v : preserves f (rx_pop_write v);
  pres_tx_read : preserves f tx_read;
  pres_tx_write v : preserves f (tx_data_write v);
  pres_err_read : preserves f err_read;
  pres_err_clear v : preserves f (err_clear_write v);
  pres_sleep d : preserves f (sleep d);
}.
#[export] Hint Resolve pres_rx_read pres_rx_pop pres_tx_read pres_tx_write pres_err_read
  pres_err_clear pres_sleep : frame.

Section RegFrames.
Context {W X : Type} `{!ConsoleRegs W} (f : W -> X) (Hf : regs_preserve f).

Lemma drain_preserves : preserves f (drain : M W (list Z)).
Proof.
  unfold drain. generalize DRAIN_MAX_BYTES, (@nil Z). intros n.
  induction n; intros out; simpl; auto 10 with frame.
Qed.

Lemma wait_not_full_preserves n x : preserves f (wait_not_full n x : M W bool).
Proof. revert x. induction n; intros x; simpl; auto 10 with frame. Qed.

Lemma send_preserves data gap_s : preserves f (send data gap_s : M W Z).
Proof.
  unfold send. generalize (default TX_GAP_S gap_s), 0. intros gap.
  induction data as [|x data IH]; intros acc; cbn [send_loop]; [auto with frame|].
  apply preserves_bind; [apply wait_not_full_preserves|]. intros []; auto 10 with frame.
Qed.

Lemma check_errors_preserves c : preserves f (check_errors c : M W Z).
Proof. unfold check_errors. auto 10 with frame. Qed.

End RegFrames.

(** * The pump against standard input and output *)

(** [in_log], [out_log] and [err_log] are what was read from standard input
    and written to standard output and standard error so far. *)
Class IOView (W : Type) := {
  in_log : W -> list Z;
  out_log : W -> list Z;
  err_log : W -> list string;
}.

Section Frames.
Context {W : Type} `{!ConsoleView W, !IOView W}.

(** The standard streams, as one observation. *)
Definition streams (w : W) : list Z * list Z * list string := (in_log w, out_log w, err_log w).

(** A stream access does not touch the board. *)
Record same_bank (w w' : W) : Prop := {
  same_ok : bank_ok w -> bank_ok w';
  same_rx_in : rx_in w' = rx_in w;
  same_rxq : rxq w' = rxq w;
  same_txq : txq w' = txq w;
  same_errs : errs w' = errs w;
  same_faults : host_faults w' = host_faults w;
}.

Lemma same_bank_quiet w w' : bank_ok w -> same_bank w w' -> quiet w w'.
Proof.
  intros Hok [? Hi Hr ? He ?]. split; auto.
  - exists []. by rewrite Hi, Hr, !app_nil_r.
  - intros k. by rewrite He.
Qed.

End Frames.

Class IOLaws (W : Type) `{!ConsoleRegs W, !ConsoleIO W, !ConsoleView W, !IOView W} := {
  regs_streams : regs_preserve streams;
  stdin_read_law n w :
    wp (stdin_read n) (fun r w' => same_bank w w' /\ out_log w' = out_log w /\
      err_log w' = err_log w /\
      match r with
      | Ok data => in_log w' = in_log w ++ data /\ Forall is_byte data
      | Raise _ => True
      | Diverged => False
      end) w;
  stdout_write_law data w :
    wp (stdout_write data) (fun r w' => same_bank w w' /\ in_log w' = in_log w /\
      err_log w' = err_log w /\
      match r with Ok _ => out_log w' = out_log w ++ data | Raise _ => True | Diverged => False end) w;
  stdout_flush_law w :
    wp stdout_flush (fun r w' => same_bank w w' /\ in_log w' = in_log w /\
      out_log w' = out_log w /\ err_log w' = err_log w /\ r <> Diverged) w;
  stderr_print_law msg w :
    wp (stderr_print msg) (fun r w' => same_bank w w' /\ in_log w' = in_log w /\
      out_log w' = out_log w /\
      match r with Ok _ => err_log w' = err_log w ++ [msg] | Raise _ => True | Diverged => False end) w;
}.

(** The bytes before the escape byte. *)
Fixpoint until (b : Z) (data : list Z) : list Z :=
  match data with
  | [] => []
  | x :: data => if x =? b then [] else x :: until b data
  end.

Lemma until_length_le b data : (length (until b data) <= length data)%nat.
Proof. induction data as [|x data IH]; simpl; [lia|]. destruct (x =? b); simpl; lia. Qed.

Lemma until_bytes b data : Forall is_byte data -> Forall is_byte (until b data).
Proof. induction 1; simpl; auto. destruct (_ =? _); auto. Qed.

Lemma until_absent b data : ~ In b (until b data).
Proof.
  induction data as [|x data IH]; simpl; [tauto|].
  destruct (Z.eqb_spec x b); simpl; [tauto|]. intros [->|H]; auto.
Qed.

(** [find] finds the end of the typed part, or reports its absence. *)
Lemma find_byte_spec b data :
  (find_byte b data = -1 /\ until b data = data /\ ~ In b data) \/
  (0 <= find_byte b data /\ take (Z.to_nat (find_byte b data)) data = until b data /\ In b data).
Proof.
  induction data as [|x data IH]; simpl; [auto|].
  destruct (Z.eqb_spec x b) as [->|Hne]; [right; simpl; auto with lia|].
  destruct IH as [(-> & -> & Hn)|(Hge & Ht & Hi)].
  - left. simpl. split; [done|]. split; [done|]. tauto.
  - right. destruct (Z.eqb_spec (find_byte b data) (-1)); [lia|].
    split; [lia|]. replace (Z.to_nat (find_byte b data + 1)) with (S (Z.to_nat (find_byte b data))) by lia.
    simpl. rewrite Ht. auto.
Qed.

Section PumpLemmas.
Context {W : Type} `{!ConsoleRegs W, !ConsoleIO W, !ConsoleView W, !IOView W}.
Context `{!ConsoleLaws W, !IOLaws W}.

(** A call that moves only registers leaves the three streams as they were. *)
Lemma wp_streams {A} (m : M W A) (P : outcome A -> W -> Prop) w :
  preserves streams m -> wp m P w ->
  wp m (fun r w' => P r w' /\ in_log w' = in_log w /\ out_log w' = out_log w /\
                    err_log w' = err_log w) w.
Proof.
  intros Hf HP. split; [exact HP|]. specialize (Hf w). unfold streams in Hf. by simplify_eq.
Qed.

(** What every outcome of a console call guarantees: the bank is still sound
    and the bytes that left it left in order. *)
Definition sound (w w' : W) : Prop := bank_ok w' /\ exists lost, rx_flow w lost w'.

Lemma sound_trans w1 w2 w3 o : rx_flow w1 o w2 -> sound w2 w3 -> sound w1 w3.
Proof.
  intros Ho [Hok [lost Hl]]. split; [done|]. exists (o ++ lost). by eapply rx_flow_trans.
Qed.

(** *** The error report *)
Lemma pump_errors_wp {A} (k : M W A) Q w :
  bank_ok w ->
  (forall w' msgs, bank_ok w' -> rx_flow w [] w' -> txq w' = txq w ->
     in_log w' = in_log w -> out_log w' = out_log w -> err_log w' = err_log w ++ msgs ->
     (forall b, Z.testbit (errs w) b = true ->
        exists err, Z.testbit err b = true /\ msgs = [error_message err]) ->
     wp k Q w') ->
  (forall e w', sound w w' -> Q (Raise e) w') ->
  wp (let! err := check_errors true in
      (if negb (err =? 0) then report_errors err else ret tt) ;;; k) Q w.
Proof.
  intros Hok Hk Hraise. apply wp_bind.
  eapply wp_mono; [apply wp_streams; [apply check_errors_preserves, regs_streams|exact (check_errors_spec true w Hok)]|].
  intros r w1 [(Hok1 & Hf1 & Ht1 & Hd & _ & Hlost) (Hi & Ho & He)].
  destruct r as [err|e|]; [|apply Hraise; split; eauto|done].
  apply wp_bind. destruct (Z.eqb_spec err 0) as [->|Hnz]; simpl.
  - apply wp_ret, (Hk w1 []); auto; [by rewrite app_nil_r|].
    intros b Hb. apply (proj1 (Hlost 0 eq_refl)) in Hb. by rewrite Z.bits_0 in Hb.
  - eapply wp_mono; [apply stderr_print_law|]. intros r w2 (Hs & Hi2 & Ho2 & Hr).
    assert (quiet w1 w2) as Hq by by apply same_bank_quiet.
    assert (rx_flow w [] w2) as Hf2 by (apply (rx_flow_trans w w1 w2 [] []); [done|apply Hq]).
    destruct r as [[]|e|]; [|apply Hraise; split; [apply Hq|eauto]|done].
    apply (Hk w2 [error_message err]); auto; try congruence.
    + apply Hq.
    + rewrite (quiet_tx _ _ Hq). congruence.
    + intros b Hb. exists err. split; [by apply (Hlost err eq_refl)|done].
Qed.

(** *** Draining to standard output *)
Lemma pump_drain_wp {A} (k : M W A) Q w :
  bank_ok w ->
  (forall w' out, bank_ok w' -> rx_flow w out w' -> txq w' = txq w ->
     in_log w' = in_log w -> out_log w' = out_log w ++ out -> err_log w' = err_log w ->
     wp k Q w') ->
  (forall e w', sound w w' -> Q (Raise e) w') ->
  wp (let! out := drain in
      (match out with [] => ret tt | _ => stdout_write out ;;; stdout_flush end) ;;; k) Q w.
Proof.
  intros Hok Hk Hraise. apply wp_bind.
  eapply wp_mono; [apply wp_streams; [apply drain_preserves, regs_streams|by apply drain_spec]|].
  intros r w1 [([Hok1 _ _] & Ht1 & Hr) (Hi & Ho & He)].
  destruct r as [out|e|]; [|destruct Hr as (l & Hl & _); apply Hraise; split; eauto|done].
  destruct Hr as (o & -> & Hf & _). simpl.
  apply wp_bind. destruct o as [|x o].
  { apply wp_ret, (Hk w1 []); auto. by rewrite app_nil_r. }
  apply wp_bind. eapply wp_mono; [apply stdout_write_law|]. intros r w2 (Hs2 & Hi2 & He2 & Hr).
  assert (quiet w1 w2) as Hq by by apply same_bank_quiet.
  assert (forall w3, quiet w1 w3 -> rx_flow w (x :: o) w3) as Hcat.
  { intros w3 Hq3. rewrite <- (app_nil_r (x :: o)). eapply rx_flow_trans; [done|apply Hq3]. }
  destruct r as [[]|e|]; [|apply Hraise; split; [apply Hq|eauto]|done].
  eapply wp_mono; [apply stdout_flush_law|]. intros r w3 (Hs3 & Hi3 & Ho3 & He3 & Hd).
  assert (quiet w1 w3) as Hq3
    by (eapply quiet_trans; [done|apply same_bank_quiet; [apply Hq|done]]).
  destruct r as [[]|e|]; [|apply Hraise; split; [apply Hq3|eauto]|done].
  apply (Hk w3 (x :: o)); auto; try congruence; [apply Hq3|].
  rewrite (quiet_tx _ _ Hq3). congruence.
Qed.

(** *** Sending what was typed *)

(** What [send_and_report] says when only [k] bytes of [data] were taken. *)
Definition drop_report (k : nat) (data : list Z) : list string :=
  if (k <? length data)%nat
  then [dropped_message (Z.of_nat (length data - k)) (Z.of_nat (length data))]
  else [].

Lemma send_and_report_spec data w :
  bank_ok w -> Forall is_byte data ->
  wp (send_and_report data) (fun r w' => sound w w' /\
    match r with
    | Ok _ => rx_flow w [] w' /\ in_log w' = in_log w /\ out_log w' = out_log w /\
        exists k msgs, (k <= length data)%nat /\ txq w' = txq w ++ take k data /\
          err_log w' = err_log w ++ msgs /\
          msgs = drop_report k data
    | Raise _ => True
    | Diverged => False
    end) w.
Proof.
  intros Hok Hb. apply wp_bind.
  eapply wp_mono; [apply wp_streams; [apply send_preserves, regs_streams|by apply (send_spec data None)]|].
  intros r w1 [([Hok1 _ _] & Hf & n & Hn & Ht & Hr) (Hi & Ho & He)].
  assert (sound w w1) as Hs by (split; eauto).
  destruct r as [acc|e|]; [|done|done]. subst acc. cbv zeta.
  destruct (Z.ltb_spec (0 + Z.of_nat n) (Z.of_nat (length data))) as [Hlt|Hge].
  - eapply wp_mono; [apply stderr_print_law|]. intros r w2 (Hs2 & Hi2 & Ho2 & Hr).
    assert (quiet w1 w2) as Hq by by apply same_bank_quiet.
    assert (rx_flow w [] w2) as Hf2 by (apply (rx_flow_trans w w1 w2 [] []); [done|apply Hq]).
    split; [split; [apply Hq|eauto]|]. destruct r as [[]|e|]; [|done|done].
    split; [done|]. split; [congruence|]. split; [congruence|].
    exists n, [dropped_message (Z.of_nat (length data - n)) (Z.of_nat (length data))].
    split; [done|]. split; [rewrite (quiet_tx _ _ Hq); done|].
    split; [rewrite Hr, He; do 3 f_equal; lia|].
    unfold drop_report. destruct (Nat.ltb_spec n (length data)); [done|lia].
  - apply wp_ret. split; [done|]. do 3 (split; [done|]). exists n, [].
    split; [done|]. split; [done|]. split; [by rewrite app_nil_r|].
    unfold drop_report. destruct (Nat.ltb_spec n (length data)); [lia|done].
Qed.

(** The last third of the pump, from standard input to the board. *)
Definition pump_stdin (stdin_ready : bool) : M W bool :=
  if stdin_ready then
    let! data := stdin_read READ_CHUNK in
    match data with
    | [] => ret false
    | _ =>
        let exit_idx := find_byte EXIT_BYTE data in
        if negb (exit_idx =? -1) then
          (if 0 <? exit_idx then send_and_report (take (Z.to_nat exit_idx) data) else ret tt) ;;;
          ret false
        else send_and_report data ;;; ret true
    end
  else ret true.

Definition stdin_post (stdin_ready : bool) (w : W) (r : outcome bool) (w' : W) : Prop :=
  sound w w' /\
  match r with
  | Ok go => exists data k,
      rx_flow w [] w' /\ out_log w' = out_log w /\ in_log w' = in_log w ++ data /\
      (stdin_ready = false -> data = []) /\
      (go = true <-> stdin_ready = false \/ (data <> [] /\ ~ In EXIT_BYTE data)) /\
      (k <= length (until EXIT_BYTE data))%nat /\
      txq w' = txq w ++ take k (until EXIT_BYTE data) /\
      err_log w' = err_log w ++ drop_report k (until EXIT_BYTE data)
  | Raise _ => True
  | Diverged => False
  end.

(** Sending the typed part [t] of [data], then returning [go]. *)
Lemma pump_send_post data t go w w1 :
  same_bank w w1 -> bank_ok w -> out_log w1 = out_log w -> err_log w1 = err_log w ->
  in_log w1 = in_log w ++ data -> Forall is_byte data -> t = until EXIT_BYTE data ->
  (go = true <-> data <> [] /\ ~ In EXIT_BYTE data) ->
  wp (send_and_report t ;;; ret go) (stdin_post true w) w1.
Proof.
  intros Hs Hok Ho He Hi Hb -> Hgo.
  assert (quiet w w1) as Hq by by apply same_bank_quiet.
  apply wp_bind. eapply wp_mono; [apply send_and_report_spec; [apply Hq|by apply until_bytes]|].
  intros r w2 [Hsd Hr]. assert (sound w w2) as Hsd' by (eapply sound_trans; [apply Hq|done]).
  destruct r as [[]|e|]; [|done|done].
  destruct Hr as (Hf & Hi2 & Ho2 & k & msgs & Hk & Ht & Hel & ->).
  apply wp_ret. split; [done|]. exists data, k.
  split; [apply (rx_flow_trans w w1 w2 [] []); [apply Hq|done]|].
  split; [congruence|]. split; [congruence|]. split; [done|]. split; [rewrite Hgo; split; [by right|by intros [?|?]]|].
  split; [done|]. rewrite Ht, (quiet_tx _ _ Hq), Hel, He. done.
Qed.

Lemma pump_stdin_spec ready w : bank_ok w -> wp (pump_stdin ready) (stdin_post ready w) w.
Proof.
  intros Hok. assert (sound w w) as Hs0 by (split; [done|exists []; auto with b8008]).
  destruct ready; simpl.
  2: { apply wp_ret. split; [done|]. exists [], 0%nat. rewrite !app_nil_r. simpl.
       split_and!; auto with b8008. naive_solver. }
  apply wp_bind. eapply wp_mono; [apply stdin_read_law|]. intros r w1 (Hs & Ho & He & Hr).
  assert (quiet w w1) as Hq by by apply same_bank_quiet.
  assert (sound w w1) as Hs1 by (split; [apply Hq|exists []; apply Hq]).
  destruct r as [data|e|]; [|done|done]. destruct Hr as [Hi Hb].
  destruct data as [|x data].
  { apply wp_ret. split; [done|]. exists [], 0%nat. simpl.
    split; [apply Hq|]. split; [done|]. split; [done|]. split; [done|].
    split; [naive_solver|]. split; [lia|]. rewrite !app_nil_r. split; [apply Hq|done]. }
  remember (x :: data) as d eqn:Hd. cbv zeta.
  destruct (find_byte_spec EXIT_BYTE d) as [(Hf & Hu & Hn)|(Hf & Hu & Hn)].
  - rewrite Hf. simpl. eapply pump_send_post; eauto. subst d. naive_solver.
  - destruct (Z.eqb_spec (find_byte EXIT_BYTE d) (-1)); [lia|]. cbn [negb].
    destruct (Z.ltb_spec 0 (find_byte EXIT_BYTE d)) as [Hpos|Hz].
    + eapply pump_send_post; eauto. naive_solver.
    + replace (find_byte EXIT_BYTE d) with 0 in Hu by lia. simpl in Hu.
      apply wp_bind, wp_ret, wp_ret. split; [done|]. exists d, 0%nat. rewrite <- Hu. simpl.
      rewrite !app_nil_r. split; [apply Hq|]. split; [done|]. split; [done|]. split; [done|].
      split; [naive_solver|]. split; [lia|]. split; [apply Hq|done].
Qed.

(** The postcondition of one pump. *)
Definition pump_post (ready : bool) (w : W) (r : outcome bool) (w' : W) : Prop :=
  bank_ok w' /\
  match r with
  | Ok go => exists out data k msgs,
      out_log w' = out_log w ++ out /\ rx_flow w out w' /\
      in_log w' = in_log w ++ data /\ (ready = false -> data = []) /\
      (k <= length (until EXIT_BYTE data))%nat /\
      txq w' = txq w ++ take k (until EXIT_BYTE data) /\
      err_log w' = err_log w ++ msgs ++ drop_report k (until EXIT_BYTE data) /\
      (forall b, Z.testbit (errs w) b = true ->
         exists err, Z.testbit err b = true /\ msgs = [error_message err]) /\
      (go = true <-> ready = false \/ (data <> [] /\ ~ In EXIT_BYTE data))
  | Raise _ => exists lost, rx_flow w lost w'
  | Diverged => False
  end.

Lemma console_pump_spec ready w : bank_ok w -> wp (console_pump ready) (pump_post ready w) w.
Proof.
  intros Hok. change (console_pump ready) with
    (let! err := check_errors true in
     (if negb (err =? 0) then report_errors err else ret tt) ;;;
     let! out := drain in
     (match out with [] => ret tt | _ => stdout_write out ;;; stdout_flush end) ;;;
     pump_stdin ready).
  apply pump_errors_wp; [done| |intros e w' Hs; exact Hs].
  intros w1 msgs Hok1 Hf1 Ht1 Hi1 Ho1 He1 Hm.
  apply pump_drain_wp; [done| |].
  2: { intros e w' Hs. exact (sound_trans _ _ _ _ Hf1 Hs). }
  intros w2 out Hok2 Hf2 Ht2 Hi2 Ho2 He2.
  eapply wp_mono; [by apply pump_stdin_spec|]. intros r w3 [Hs Hr].
  assert (rx_flow w out w2) as Hf12 by (apply (rx_flow_trans w w1 w2 [] out); done).
  split; [apply Hs|]. destruct r as [go|e|]; [| |done].
  - destruct Hr as (data & k & Hf3 & Ho3 & Hi3 & Hd & Hgo & Hk & Ht3 & He3).
    exists out, data, k, msgs. split; [congruence|].
    split; [rewrite <- (app_nil_r out); by apply (rx_flow_trans w w2 w3 out [])|].
    split; [congruence|]. split; [done|]. split; [done|]. split; [congruence|].
    split; [by rewrite He3, He2, He1, <- app_assoc|]. auto.
  - apply (sound_trans _ _ _ _ Hf12 Hs).
Qed.

End PumpLemmas.

Section PumpProperties.
Context {W : Type} `{!ConsoleRegs W, !ConsoleIO W, !ConsoleView W, !IOView W}.
Context `{!ConsoleLaws W, !IOLaws W}.

(** C34: one iteration of the console is faithful in both directions.  What it
    appends to standard output is exactly what left the board's RX queue, in
    order.  Of the bytes read from standard input, exactly a prefix of those
    before the first Ctrl-] is accepted by the board, and if the prefix is
    short the drop is announced on standard error with its exact count.
    Every error bit that was set is announced too.  The loop goes on unless
    standard input ended or Ctrl-] was typed.  No call diverges, and an
    exception leaves the bank sound. *)
Theorem console_pump_faithful (ready : bool) (w : W) :
  bank_ok w ->
  let '(r, w') := console_pump ready w in
  bank_ok w' /\
  match r with
  | Ok go => exists out data k msgs,
      out_log w' = out_log w ++ out /\ rx_flow w out w' /\
      in_log w' = in_log w ++ data /\ (ready = false -> data = []) /\
      (k <= length (until EXIT_BYTE data))%nat /\
      txq w' = txq w ++ take k (until EXIT_BYTE data) /\
      err_log w' = err_log w ++ msgs ++ drop_report k (until EXIT_BYTE data) /\
      (forall b, Z.testbit (errs w) b = true ->
         exists err, Z.testbit err b = true /\ msgs = [error_message err]) /\
      (go = true <-> ready = false \/ (data <> [] /\ ~ In EXIT_BYTE data))
  | Raise _ => exists lost, rx_flow w lost w'
  | Diverged => False
  end.
Proof.
  intros Hok. pose proof (console_pump_spec ready w Hok) as H. unfold wp in H.
  by destruct (console_pump ready w).
Qed.

End PumpProperties.

(** * The terminal *)

(** [termios]: the settings read are the current ones, restoring them sets
    them; reading can fail (standard input is not a terminal).  That restoring succeeds (the terminal
    is still there) and that Ctrl-C does not fall into the call of [tcgetattr], which is outside the
    [try], is assumed. *)
Class TermLaws (T W : Type) `{!Terminal T W} := {
  settings : W -> T;
  tcgetattr_law w :
    wp tcgetattr (fun r w' => settings w' = settings w /\
      match r with Ok t => t = settings w | Raise e => e <> KeyboardInterrupt | Diverged => False end) w;
  tcsetattr_law t w : wp (tcsetattr t) (fun r w' => r = Ok tt /\ settings w' = t) w;
}.

Section TerminalProperties.
Context {T W : Type} `{!ConsoleRegs W, !ConsoleIO W, !Terminal T W, !TermLaws T W}.

(** C39: however the console session ends (Ctrl-], end of input, an error of
    the board or of a stream, or Ctrl-C), the terminal settings are back to
    what they were, and Ctrl-C itself does not escape. *)
Theorem console_loop_restores_terminal (fuel : nat) (w : W) :
  let '(r, w') := console_loop fuel w in
  r <> Diverged -> settings w' = settings w /\ r <> Raise KeyboardInterrupt.
Proof.
  match goal with |- let '(r, w') := ?m w in @?Q r w' => enough (wp m Q w) as H end.
  { unfold wp in H. by destruct (console_loop fuel w). }
  apply wp_bind. eapply wp_mono; [apply tcgetattr_law|]. intros r w1 [Hs Hr].
  destruct r as [old|e|]; [subst old|split; [done|congruence]|done].
  apply wp_try_finally, wp_try_except. generalize (setraw (T:=T) ;;;
    stderr_print ("-- b8008net console: Ctrl-] to exit --" +:+ carriage_return) ;;;
    pump_loop fuel). intros body.
  unfold wp at 1. destruct (body w1) as [[u|e|] w2]; simpl; [| |done].
  - eapply wp_mono; [apply tcsetattr_law|]. intros r w3 [-> Hw]. done.
  - case_bool_decide as He; simpl.
    + apply wp_ret. eapply wp_mono; [apply tcsetattr_law|]. intros r w3 [-> Hw]. done.
    + eapply wp_mono; [apply tcsetattr_law|]. intros r w3 [-> Hw]. intros _. split; [done|congruence].
Qed.

End TerminalProperties.

(** * The bounded wait of send, to the poll *)

(** [k] polls are taken before the accumulated double reaches the timeout. *)
Fixpoint polls_exactly (k : nat) (waited : spec_float) : bool :=
  match k with
  | O => SFleb TX_FULL_TIMEOUT_S waited
  | S k => negb (SFleb TX_FULL_TIMEOUT_S waited)
           && polls_exactly k (f64_add waited TX_FULL_POLL_S)
  end.

Lemma polls_exactly_1000 : polls_exactly 1000 zero64 = true.
Proof. vm_compute. reflexivity. Qed.

Section StuckFull.
Context {W : Type} `{!ConsoleRegs W} (tick : W -> W).
Hypothesis Hfull : forall w, exists word, tx_read w = (Ok word, w) /\ Z.land word TX_FULL_BIT <> 0.
Hypothesis Hsleep : forall w, sleep TX_FULL_POLL_S w = (Ok tt, tick w).

Lemma wait_not_full_S fuel waited :
  wait_not_full (S fuel) waited =
    (let! word := tx_read in
     if Z.land word TX_FULL_BIT =? 0 then ret true
     else if SFleb TX_FULL_TIMEOUT_S waited then ret false
     else sleep TX_FULL_POLL_S ;;; wait_not_full fuel (f64_add waited TX_FULL_POLL_S)) :> M W bool.
Proof. reflexivity. Qed.

Lemma wait_stuck k waited w :
  polls_exactly k waited = true ->
  wait_not_full (S k) waited w = (Ok false, Nat.iter k tick w).
Proof.
  revert waited w. induction k as [|k IH]; intros waited w Hp; rewrite wait_not_full_S;
    unfold bind at 1; destruct (Hfull w) as (word & -> & Hw);
    (destruct (Z.eqb_spec (Z.land word TX_FULL_BIT) 0); [done|]); simpl in Hp.
  - by rewrite Hp.
  - apply andb_true_iff in Hp as [Hn Hp]. apply negb_true_iff in Hn. rewrite Hn.
    unfold bind. rewrite Hsleep, (IH _ _ Hp). f_equal. clear. induction k as [|k IH]; [done|].
    simpl. by rewrite IH.
Qed.

(** Against a FIFO that stays full, [send] gives up on its first byte after
    exactly 1000 sleeps of the poll interval (the double 0.001 accumulated
    1000 times is the first to reach 1.0) and reports that nothing was
    accepted, without writing. *)
Theorem send_stuck_full_gives_up byte data gap_s w :
  send (byte :: data) gap_s w = (Ok 0, Nat.iter 1000 tick w).
Proof.
  unfold send. cbn [send_loop]. unfold bind at 1. change WAIT_FUEL with (S 1000).
  pose proof (wait_stuck 1000 zero64 w polls_exactly_1000) as Hw. unfold zero64 in Hw. by rewrite Hw.
Qed.

End StuckFull.

(** A board whose TX FIFO never drains, counting the polls. *)
Module Stuck.

#[global] Instance stuck_regs : ConsoleRegs nat := {
  rx_read := ret 0; rx_pop_write _ := ret tt; tx_read := ret (256 + 512);
  tx_data_write _ := modify (fun n => (n + 3000)%nat); err_read := ret 0;
  err_clear_write _ := ret tt; sleep _ := modify S }.

Lemma send_stuck_full_gives_up_witness :
  send [72; 13] None 0%nat = (Ok 0, Nat.iter 1000 S 0%nat).
Proof.
  apply (send_stuck_full_gives_up (W:=nat) S).
  - intros w. exists 768. split; [reflexivity|discriminate].
  - intros w. reflexivity.
Defined.

End Stuck.
