(* ===== verification/ConsoleOnBridge.v ===== *)
(** * The host console against the gateware

    The register bank of [Console], implemented by the bridge of
    [ConsoleBridge]: every register access takes place some cycles after the
    previous one, while the 8008 goes on emitting bytes (unless the stall
    holds it, up to [inflight] bytes already on the line) and the PHY goes on
    taking bytes off the TX FIFO.  [bridge_console_laws] shows the gateware
    keeps the promises [ConsoleLaws] makes to the host, so that every theorem
    of [Console] holds of the whole path between the core's UART pins and the
    host's standard streams. *)

From Stdlib Require Import ZArith Lia List Bool SpecFloat.
From stdpp Require Import base list strings.
From S2P Require Import Prelude Fifo ConsoleBridge Console.

Open Scope Z_scope.

(** What the core and the PHY do in one cycle: whether the core has a byte
    ready on the line, and whether the PHY can take a TX byte. *)
Record env_cycle := { core_ready : bool; phy_ready : bool }.

(** The write strobes of a cycle. *)
Record strobes := { s_pop : bool; s_tx : option Z; s_clear : option Z }.
Definition no_strobes : strobes := {| s_pop := false; s_tx := None; s_clear := None |}.

(** The cycles that pass before the next host access, and the cycle of the
    access itself. *)
Record slot := { before : list env_cycle; during : env_cycle }.
Definition quiet_slot : slot := {| before := []; during := {| core_ready := false; phy_ready := false |} |}.

(** An event of the interactive user: nothing typed in this poll, or the bytes
    one [os.read] returns (an empty read is the end of the input). *)
Record board (rx_depth tx_depth inflight : Z) (RF TF : Type) := {
  gateware : bridge RF TF;
  credit : Z;               (* bytes arrived since the stall rose *)
  core_out : list Z;        (* bytes the 8008 has still to emit *)
  emitted : list Z;         (* bytes the 8008 has emitted *)
  to_core : list Z;         (* bytes handed to the core's uart_rx *)
  sched : list slot;
  keyboard : list (option (list Z));
  typed : list Z;
  screen : list Z;
  messages : list string;
  cooked : bool;            (* terminal settings: false in raw mode *)
}.
Arguments gateware {rx_depth tx_depth inflight RF TF} b.
Arguments credit {rx_depth tx_depth inflight RF TF} b.
Arguments core_out {rx_depth tx_depth inflight RF TF} b.
Arguments emitted {rx_depth tx_depth inflight RF TF} b.
Arguments to_core {rx_depth tx_depth inflight RF TF} b.
Arguments sched {rx_depth tx_depth inflight RF TF} b.
Arguments keyboard {rx_depth tx_depth inflight RF TF} b.
Arguments typed {rx_depth tx_depth inflight RF TF} b.
Arguments screen {rx_depth tx_depth inflight RF TF} b.
Arguments messages {rx_depth tx_depth inflight RF TF} b.
Arguments cooked {rx_depth tx_depth inflight RF TF} b.

Section World.
Context {rx_depth tx_depth inflight : Z} {RF TF : Type}.
Context `{!SyncFIFO rx_depth RF, !SyncFIFO tx_depth TF}.
Abbreviation W := (board rx_depth tx_depth inflight RF TF).
Implicit Types w : W.

(** The core emits unless it is frozen and its line is already empty. *)
Definition emits w (e : env_cycle) : bool :=
  core_ready e && negb (bool_decide (core_out w = [])) &&
  (negb (stall (gateware w)) || (credit w <? inflight)).

Definition cycle_inputs w (e : env_cycle) (s : strobes) : inputs := {|
  rst := false;
  phy_valid := emits w e;
  phy_data := default 0 (head (core_out w));
  phy_sink_ready := phy_ready e;
  rx_pop_re := s_pop s;
  tx_data_re := bool_decide (is_Some (s_tx s));
  tx_data_r := default 0 (s_tx s);
  err_clear_re := bool_decide (is_Some (s_clear s));
  err_clear_r := default 0 (s_clear s);
|}.

Definition cycle w (e : env_cycle) (s : strobes) : W := {|
  gateware := bridge_step (gateware w) (cycle_inputs w e s);
  credit := if stall (gateware w) then credit w + bool_bit (emits w e) else 0;
  core_out := if emits w e then tail (core_out w) else core_out w;
  emitted := emitted w ++ offered (emits w e) (trunc 8 (default 0 (head (core_out w))));
  to_core := to_core w ++ offered (f_valid (tx_fifo (gateware w)) && phy_ready e)
                                  (f_data (tx_fifo (gateware w)));
  sched := sched w; keyboard := keyboard w; typed := typed w; screen := screen w;
  messages := messages w; cooked := cooked w;
|}.

Fixpoint idle_cycles w (es : list env_cycle) : W :=
  match es with [] => w | e :: es => idle_cycles (cycle w e no_strobes) es end.

Definition next_slot w : slot := default quiet_slot (head (sched w)).
Definition set_sched w (l : list slot) : W := {|
  gateware := gateware w; credit := credit w; core_out := core_out w;
  emitted := emitted w; to_core := to_core w;
  sched := l; keyboard := keyboard w; typed := typed w; screen := screen w;
  messages := messages w; cooked := cooked w |}.

(** Time passes up to the cycle of the next access. *)
Definition arrive w : W := idle_cycles (set_sched w (tail (sched w))) (before (next_slot w)).

Definition csr_read (f : bridge RF TF -> Z) : M W Z := fun w =>
  let w1 := arrive w in
  (Ok (f (gateware w1)), cycle w1 (during (next_slot w)) no_strobes).

Definition csr_write (s : strobes) : M W unit := fun w =>
  (Ok tt, cycle (arrive w) (during (next_slot w)) s).

(** An access always succeeds here: over a network, RemoteClient can raise instead. *)
#[global] Instance bridge_regs : ConsoleRegs W := {
  rx_read := csr_read console_rx;
  rx_pop_write _ := csr_write {| s_pop := true; s_tx := None; s_clear := None |};
  tx_read := csr_read console_tx;
  tx_data_write v := csr_write {| s_pop := false; s_tx := Some v; s_clear := None |};
  err_read := csr_read console_err;
  err_clear_write v := csr_write {| s_pop := false; s_tx := None; s_clear := Some v |};
  sleep _ := fun w => (Ok tt, arrive w);
}.

Definition set_io w kb ty sc ms ck : W := {|
  gateware := gateware w; credit := credit w; core_out := core_out w;
  emitted := emitted w; to_core := to_core w;
  sched := sched w; keyboard := kb; typed := ty; screen := sc; messages := ms; cooked := ck |}.

(** [os.read] of what [select] announced; an exhausted keyboard is at its end. *)
Definition read_keyboard w : list Z :=
  match keyboard w with Some data :: _ => data | _ => [] end.

#[global] Instance bridge_io : ConsoleIO W := {
  stdin_read _ := fun w =>
    let data := (fun b => trunc 8 b) <$> read_keyboard w in
    (Ok data, set_io w (tail (keyboard w)) (typed w ++ data) (screen w) (messages w) (cooked w));
  stdout_write data := fun w =>
    (Ok tt, set_io w (keyboard w) (typed w) (screen w ++ data) (messages w) (cooked w));
  stdout_flush := ret tt;
  stderr_print msg := fun w =>
    (Ok tt, set_io w (keyboard w) (typed w) (screen w) (messages w ++ [msg]) (cooked w));
}.

(** [select] with its timeout: a poll in which nothing was typed is consumed. *)
#[global] Instance bridge_terminal : Terminal bool W := {
  tcgetattr := fun w => (Ok (cooked w), w);
  setraw := fun w => (Ok tt, set_io w (keyboard w) (typed w) (screen w) (messages w) false);
  tcsetattr t := fun w => (Ok tt, set_io w (keyboard w) (typed w) (screen w) (messages w) t);
  select_stdin := fun w =>
    match keyboard w with
    | None :: kb => (Ok false, set_io w kb (typed w) (screen w) (messages w) (cooked w))
    | _ => (Ok true, w)
    end;
}.

End World.

Section Refinement.
Context {rx_depth tx_depth inflight : Z} {RF TF : Type}.
Context `{!SyncFIFO rx_depth RF, !SyncFIFO tx_depth TF}.
Context `{!SyncFIFOLaws rx_depth RF, !SyncFIFOLaws tx_depth TF}.
Abbreviation W := (board rx_depth tx_depth inflight RF TF).
Implicit Types w : W.

#[global] Instance bridge_view : ConsoleView W := {
  bank_ok w := bridge_wf (gateware w) /\ level_bound (credit w) (gateware w) /\
               0 <= credit w <= inflight;
  rx_in w := emitted w;
  rxq w := f_queue (rx_fifo (gateware w));
  rx_avail w := f_valid (rx_fifo (gateware w)) = true;
  txq w := to_core w ++ f_queue (tx_fifo (gateware w));
  tx_room w := f_level (tx_fifo (gateware w)) < tx_depth;
  errs w := console_err (gateware w);
  host_faults w := (sticky_err_1 (gateware w), sticky_err_2 (gateware w));
}.

#[global] Instance bridge_ioview : IOView W := {
  in_log := typed; out_log := screen; err_log := messages }.

Hypothesis Hinflight : 0 <= inflight < RX_HEADROOM.
Hypothesis Hrx : RX_HEADROOM + RX_HYSTERESIS <= rx_depth < 8192.
Hypothesis Htx : 0 < tx_depth < 512.

Lemma credit_step w e :
  bank_ok w ->
  0 <= (if stall (gateware w) then credit w + bool_bit (emits w e) else 0)
    <= inflight.
Proof.
  intros (_ & _ & Hc). unfold emits. destruct (stall (gateware w)); [|lia].
  destruct (Z.ltb_spec (credit w) inflight); simpl;
    rewrite ?andb_true_r, ?andb_false_r; simpl; [|lia].
  pose proof (bool_bit_range (core_ready e && negb (bool_decide (core_out w = [])))). lia.
Qed.

Lemma cycle_no_overflow w e s :
  bank_ok w ->
  err_rx_overflow (gateware w) (cycle_inputs w e s) = false.
Proof.
  intros Hok. pose proof (credit_step w e Hok) as Hc. destruct Hok as (Hwf & Hl & Hc0).
  eapply (level_bound_no_overflow inflight (credit w)); [lia|done|lia|]. apply Hc.
Qed.

Lemma cycle_ok w e s : bank_ok w -> bank_ok (cycle w e s).
Proof.
  intros Hok. pose proof (credit_step w e Hok) as Hc. destruct Hok as (Hwf & Hl & Hc0).
  split; [apply bridge_wf_step; [lia|done]|]. split; [|exact Hc].
  apply (level_bound_step inflight (credit w)); try done; [lia|lia|apply Hc].
Qed.

Lemma cycle_rx w e s :
  bank_ok w ->
  rx_flow w (offered (s_pop s && f_valid (rx_fifo (gateware w))) (f_data (rx_fifo (gateware w))))
    (cycle w e s).
Proof.
  intros Hok. eexists. split; [reflexivity|].
  apply (rx_queue_step (gateware w) (cycle_inputs w e s)); [done|]. by apply cycle_no_overflow.
Qed.

Lemma cycle_tx w e s :
  bank_ok w ->
  txq (cycle w e s)
    = txq w ++ offered (tx_sink_valid (gateware w) (cycle_inputs w e s))
                       (trunc 8 (default 0 (s_tx s))).
Proof.
  intros (Hwf & _). simpl. rewrite <- !app_assoc. f_equal. symmetry.
  apply (tx_queue_step (gateware w) (cycle_inputs w e s)); done.
Qed.

Lemma console_err_bit (b : bridge RF TF) k :
  Z.testbit (console_err b) k = true <->
  (k = 0 /\ sticky_err_0 b = true) \/ (k = 1 /\ sticky_err_1 b = true) \/
  (k = 2 /\ sticky_err_2 b = true).
Proof.
  unfold console_err.
  assert (k < 0 \/ k = 0 \/ k = 1 \/ k = 2 \/ 3 <= k) as [H|[->|[->|[->|H]]]] by lia.
  - rewrite Z.testbit_neg_r by done. split; [done|intros; lia].
  - destruct (sticky_err_0 b), (sticky_err_1 b), (sticky_err_2 b); simpl; lia.
  - destruct (sticky_err_0 b), (sticky_err_1 b), (sticky_err_2 b); simpl; lia.
  - destruct (sticky_err_0 b), (sticky_err_1 b), (sticky_err_2 b); simpl; lia.
  - rewrite Z.bits_above_log2; [split; [done|lia]|..].
    + destruct (sticky_err_0 b), (sticky_err_1 b), (sticky_err_2 b); discriminate.
    + eapply Z.lt_le_trans; [|exact H].
      destruct (sticky_err_0 b), (sticky_err_1 b), (sticky_err_2 b); reflexivity.
Qed.

(** An error bit survives a cycle unless the cycle clears it. *)
Lemma cycle_errs w e s k :
  Z.testbit (errs w) k = true ->
  (forall v, s_clear s = Some v -> Z.testbit v k = false) ->
  Z.testbit (errs (cycle w e s)) k = true.
Proof.
  cbn -[Z.testbit]. rewrite !console_err_bit. cbn -[Z.testbit]. unfold sticky_next.
  cbn -[Z.testbit]. intros Hs Hv.
  assert (forall j, k = j -> bool_decide (is_Some (s_clear s)) && Z.testbit (default 0 (s_clear s)) j = false) as Hc.
  { intros j <-. destruct (s_clear s) as [v|]; simpl; [by apply Hv|done]. }
  destruct Hs as [[-> Hs]|[[-> Hs]|[-> Hs]]]; rewrite (Hc _ eq_refl), Hs;
    [left|right; left|right; right]; (split; [done|]); by case_match.
Qed.

Lemma cycle_faults w e s :
  s_clear s = None -> (s_pop s = true -> rx_avail w) -> (is_Some (s_tx s) -> tx_room w) ->
  host_faults (cycle w e s) = host_faults w.
Proof.
  simpl. unfold sticky_next, err_tx_write_when_full, err_rx_pop_when_empty. simpl.
  intros -> Hp Ht. simpl. f_equal.
  - destruct (s_tx s) as [v|]; simpl; [|done]. unfold tx_full.
    destruct (Z.eqb_spec (f_level (tx_fifo (gateware w))) tx_depth); [|done].
    specialize (Ht ltac:(eauto)). lia.
  - destruct (s_pop s); simpl; [|done]. by rewrite Hp.
Qed.

Lemma cycle_quiet w e : bank_ok w -> quiet w (cycle w e no_strobes).
Proof.
  intros Hok. split.
  - by apply cycle_ok.
  - by apply (cycle_rx w e no_strobes).
  - rewrite cycle_tx by done. by rewrite app_nil_r.
  - intros k Hk. by apply cycle_errs.
  - apply cycle_faults; [done|done|]. intros [v [=]].
Qed.

Lemma cycle_avail w e s :
  s_pop s = false -> rx_avail w ->
  rx_avail (cycle w e s) /\ head (rxq (cycle w e s)) = head (rxq w).
Proof.
  simpl. intros Hp Hv. rewrite f_queue_step. unfold rx_source_ready. simpl. rewrite Hp. simpl.
  rewrite andb_false_r. simpl. destruct (f_valid_head _ Hv) as [q Hq]. rewrite Hq. split; [|done].
  apply f_refill. rewrite andb_false_r. simpl. by rewrite Hq.
Qed.

Lemma cycle_room w e s : s_tx s = None -> tx_room w -> tx_room (cycle w e s).
Proof.
  simpl. intros Ht Hr. rewrite f_level_step. unfold tx_sink_valid. simpl. rewrite Ht. simpl.
  pose proof (bool_bit_range (f_valid (tx_fifo (gateware w)) && phy_ready e)). lia.
Qed.

(** ** Time passing *)

Lemma idle_quiet w es : bank_ok w -> quiet w (idle_cycles w es).
Proof.
  revert w. induction es as [|e es IH]; intros w Hok; simpl; [by apply quiet_refl|].
  pose proof (cycle_quiet w e Hok) as Hq. eapply quiet_trans; [exact Hq|]. apply IH, Hq.
Qed.

Lemma idle_avail w es :
  rx_avail w -> rx_avail (idle_cycles w es) /\
                head (rxq (idle_cycles w es)) = head (rxq w).
Proof.
  revert w. induction es as [|e es IH]; intros w Hv; [done|]. simpl idle_cycles.
  destruct (cycle_avail w e no_strobes eq_refl Hv) as [Hv' Hh].
  destruct (IH _ Hv') as [Hv'' Hh']. split; [done|]. congruence.
Qed.

Lemma idle_room w es : tx_room w -> tx_room (idle_cycles w es).
Proof. revert w. induction es as [|e es IH]; intros w Hr; [done|]. simpl. by apply IH, cycle_room. Qed.

Lemma arrive_quiet w : bank_ok w -> quiet w (arrive w).
Proof.
  intros Hok. destruct (idle_quiet (set_sched w (tail (sched w))) (before (next_slot w)) Hok).
  split; assumption.
Qed.

Lemma arrive_avail w : rx_avail w ->
  rx_avail (arrive w) /\ head (rxq (arrive w)) = head (rxq w).
Proof. intros Hv. apply (idle_avail (set_sched w _)). exact Hv. Qed.

Lemma arrive_room w : tx_room w -> tx_room (arrive w).
Proof. intros Hr. apply (idle_room (set_sched w _)). exact Hr. Qed.

Lemma csr_read_law f w :
  bank_ok w ->
  wp (csr_read f) (fun r w' => quiet w w' /\
    r = Ok (f (gateware (arrive w))) /\
    w' = cycle (arrive w) (during (next_slot w)) no_strobes) w.
Proof.
  intros Hok. pose proof (arrive_quiet w Hok) as Hq.
  split; [|done]. eapply quiet_trans; [exact Hq|]. apply cycle_quiet, Hq.
Qed.

(** What any write does besides its own effect. *)
Lemma csr_write_frame s w :
  bank_ok w ->
  let w1 := arrive w in
  let w' := cycle w1 (during (next_slot w)) s in
  quiet w w1 /\ bank_ok w' /\ (s_clear s = None -> errs_kept w w').
Proof.
  intros Hok w1 w'. pose proof (arrive_quiet w Hok) as Hq. fold w1 in Hq.
  split; [done|]. split; [apply cycle_ok, Hq|]. intros Hs k Hk.
  apply cycle_errs; [by apply Hq|]. by rewrite Hs.
Qed.

Lemma bridge_rx_read w : bank_ok w ->
  wp rx_read (fun r w' => quiet w w' /\
    match r with
    | Ok word => Z.land word RX_VALID_BIT <> 0 ->
        rx_avail w' /\ head (rxq w') = Some (Z.land word RX_DATA_MASK)
    | Raise _ => True
    | Diverged => False
    end) w.
Proof.
  intros Hok. eapply wp_mono; [by apply csr_read_law|]. intros r w' (Hq & -> & ->).
  split; [exact Hq|]. intros Hv. apply (land_bit_nonzero _ 8) in Hv; [|lia].
  pose proof (arrive_quiet w Hok) as [(Hwf & _) _ _ _ _].
  destruct (console_rx_fields (gateware (arrive w))) as (_ & _ & Hv' & _);
    [unfold RX_HEADROOM, RX_HYSTERESIS in *; lia|].
  rewrite Hv' in Hv.
  destruct (cycle_avail (arrive w) (during (next_slot w)) no_strobes) as [Ha Hh];
    [done|exact Hv|].
  split; [exact Ha|]. rewrite Hh.
  refine (proj1 (console_rx_valid_word (gateware (arrive w)) _ Hwf Hv)).
  unfold RX_HEADROOM, RX_HYSTERESIS in *; lia.
Qed.

Lemma bridge_rx_pop w v b : bank_ok w -> rx_avail w -> head (rxq w) = Some b ->
  wp (rx_pop_write v) (fun r w' =>
    bank_ok w' /\ txq w' = txq w /\ errs_kept w w' /\ host_faults w' = host_faults w /\
    match r with
    | Ok _ => rx_flow w [b] w'
    | Raise _ => rx_flow w [] w' \/ rx_flow w [b] w'
    | Diverged => False
    end) w.
Proof.
  intros Hok Hav Hhead. set (s := {| s_pop := true; s_tx := None; s_clear := None |}).
  destruct (csr_write_frame s w Hok) as (Hq & Hok' & He).
  destruct (arrive_avail w Hav) as [Hav1 Hh1].
  split; [exact Hok'|]. split; [|split; [by apply He|split]].
  - unfold csr_write. simpl snd. rewrite cycle_tx by apply Hq. rewrite app_nil_r. apply Hq.
  - unfold csr_write. simpl snd. rewrite cycle_faults; [apply Hq|done|done|]. intros [? [=]].
  - pose proof (cycle_rx (arrive w) (during (next_slot w)) s) as Hrx'.
    specialize (Hrx' (quiet_ok _ _ Hq)). simpl in Hav1, Hh1, Hhead. rewrite Hav1 in Hrx'.
    destruct (f_valid_head _ Hav1) as [q Hfq]. rewrite Hfq in Hh1. simpl in Hh1.
    rewrite Hhead in Hh1. injection Hh1 as Hh1.
    simpl in Hrx'. rewrite Hh1 in Hrx'.
    exact (rx_flow_trans _ _ _ [] [b] (quiet_rx _ _ Hq) Hrx').
Qed.

Lemma bridge_tx_read w : bank_ok w ->
  wp tx_read (fun r w' => quiet w w' /\
    match r with
    | Ok word => Z.land word TX_FULL_BIT = 0 -> tx_room w'
    | Raise _ => True
    | Diverged => False
    end) w.
Proof.
  intros Hok. eapply wp_mono; [by apply csr_read_law|]. intros r w' (Hq & -> & ->).
  split; [exact Hq|]. intros Hz. apply (land_bit_zero _ 9) in Hz; [|lia].
  destruct (console_tx_fields (gateware (arrive w))) as (_ & _ & Hf).
  rewrite Hf in Hz. apply Z.eqb_neq in Hz.
  pose proof (arrive_quiet w Hok) as [(Hwf & _) _ _ _ _].
  apply cycle_room; [done|]. simpl. pose proof (wf_tx_level _ Hwf). lia.
Qed.

Lemma bridge_tx_write w v : bank_ok w -> tx_room w -> is_byte v ->
  wp (tx_data_write v) (fun r w' =>
    bank_ok w' /\ rx_flow w [] w' /\ errs_kept w w' /\ host_faults w' = host_faults w /\
    match r with
    | Ok _ => txq w' = txq w ++ [v]
    | Raise _ => txq w' = txq w \/ txq w' = txq w ++ [v]
    | Diverged => False
    end) w.
Proof.
  intros Hok Hroom Hb. set (s := {| s_pop := false; s_tx := Some v; s_clear := None |}).
  destruct (csr_write_frame s w Hok) as (Hq & Hok' & He).
  pose proof (arrive_room w Hroom) as Hroom1.
  split; [exact Hok'|]. split; [|split; [by apply He|split]].
  - exact (rx_flow_trans _ _ _ [] [] (quiet_rx _ _ Hq)
      (cycle_rx (arrive w) (during (next_slot w)) s (quiet_ok _ _ Hq))).
  - unfold csr_write. simpl snd. by rewrite cycle_faults; [apply Hq|..].
  - unfold csr_write. simpl snd. rewrite cycle_tx by apply Hq. rewrite (quiet_tx _ _ Hq).
    unfold tx_sink_valid, tx_full. simpl. simpl in Hroom1.
    destruct (Z.eqb_spec (f_level (tx_fifo (gateware (arrive w)))) tx_depth); [lia|].
    simpl. by rewrite trunc_small by (unfold is_byte in Hb; change (2 ^ 8) with 256; lia).
Qed.

Lemma bridge_err_clear w v : bank_ok w ->
  wp (err_clear_write v) (fun r w' =>
    bank_ok w' /\ rx_flow w [] w' /\ txq w' = txq w /\
    (forall k, Z.testbit (errs w) k = true -> Z.testbit v k = false ->
               Z.testbit (errs w') k = true) /\
    r <> Diverged) w.
Proof.
  intros Hok. set (s := {| s_pop := false; s_tx := None; s_clear := Some v |}).
  destruct (csr_write_frame s w Hok) as (Hq & Hok' & _).
  split; [exact Hok'|]. split; [|split; [|split; [|done]]].
  - exact (rx_flow_trans _ _ _ [] [] (quiet_rx _ _ Hq)
      (cycle_rx (arrive w) (during (next_slot w)) s (quiet_ok _ _ Hq))).
  - unfold csr_write. simpl snd. rewrite cycle_tx by apply Hq. rewrite app_nil_r. apply Hq.
  - intros k Hk Hv. apply cycle_errs; [by apply Hq|]. by intros ? [= <-].
Qed.

#[global] Instance bridge_console_laws : ConsoleLaws W.
Proof.
  split.
  - exact bridge_rx_read.
  - exact bridge_rx_pop.
  - exact bridge_tx_read.
  - exact bridge_tx_write.
  - intros w Hok. eapply wp_mono; [by apply csr_read_law|]. intros r w' (Hq & -> & ->).
    split; [exact Hq|]. apply (quiet_errs _ _ (arrive_quiet w Hok)).
  - exact bridge_err_clear.
  - intros w d Hok. split; [by apply arrive_quiet|done].
Qed.

(** ** Streams and terminal *)

Lemma idle_preserves {X} (f : W -> X) w es :
  (forall w e s, f (cycle w e s) = f w) -> f (idle_cycles w es) = f w.
Proof. intros Hf. revert w. induction es as [|e es IH]; intros w; simpl; [done|]. by rewrite IH. Qed.

(** Register accesses only move the gateware and the clock. *)
Lemma bridge_regs_preserve {X} (f : W -> X) :
  (forall w e s, f (cycle w e s) = f w) -> (forall w l, f (set_sched w l) = f w) ->
  regs_preserve f.
Proof.
  intros Hc Hs.
  assert (forall w, f (arrive w) = f w) as Ha
    by (intros w; unfold arrive; by rewrite idle_preserves, Hs).
  split; intros; intros w; simpl; by rewrite ?Hc, Ha.
Qed.

Lemma set_io_same w kb ty sc ms ck : same_bank w (set_io w kb ty sc ms ck).
Proof. by split. Qed.

Lemma trunc8_bytes l : Forall is_byte ((fun b => trunc 8 b) <$> l).
Proof. apply Forall_fmap, Forall_true. intros. apply trunc8_byte. Qed.

#[global] Instance bridge_io_laws : IOLaws W.
Proof.
  split.
  - by apply bridge_regs_preserve.
  - intros n w. split; [apply set_io_same|]. split; [done|]. split; [done|].
    split; [done|apply trunc8_bytes].
  - intros data w. split; [apply set_io_same|]. done.
  - intros w. by split.
  - intros msg w. split; [apply set_io_same|]. done.
Qed.

Lemma bridge_regs_no_raise :
  no_raise (rx_read : M W Z) /\ (forall v, no_raise (rx_pop_write v : M W unit)) /\
  no_raise (tx_read : M W Z) /\ (forall v, no_raise (tx_data_write v : M W unit)) /\
  no_raise (err_read : M W Z) /\ (forall v, no_raise (err_clear_write v : M W unit)) /\
  (forall d, no_raise (sleep d : M W unit)).
Proof. done. Qed.

Lemma drain_no_raise : no_raise (drain : M W (list Z)).
Proof.
  unfold drain. generalize DRAIN_MAX_BYTES, (@nil Z). intros n.
  destruct bridge_regs_no_raise as (? & ? & _).
  induction n; intros out; simpl; auto 10 with frame.
Qed.

Lemma wait_no_raise n x : no_raise (wait_not_full n x : M W bool).
Proof.
  destruct bridge_regs_no_raise as (_ & _ & ? & _ & _ & _ & ?).
  revert x. induction n; intros x; simpl; auto 10 with frame.
Qed.

Lemma send_no_raise data gap_s : no_raise (send data gap_s : M W Z).
Proof.
  destruct bridge_regs_no_raise as (_ & _ & _ & ? & _ & _ & ?).
  unfold send. generalize (default TX_GAP_S gap_s), 0. intros gap.
  induction data as [|x data IH]; intros acc; cbn [send_loop]; [auto with frame|].
  apply no_raise_bind; [apply wait_no_raise|]. intros []; auto 10 with frame.
Qed.

Lemma print_no_raise msg : no_raise (stderr_print msg : M W unit).
Proof. done. Qed.

Lemma stdout_no_raise data : no_raise (stdout_write data : M W unit).
Proof. done. Qed.

Lemma flush_no_raise : no_raise (stdout_flush : M W unit).
Proof. done. Qed.

Lemma stdin_no_raise n : no_raise (stdin_read n : M W (list Z)).
Proof. done. Qed.

Lemma send_and_report_no_raise data : no_raise (send_and_report data : M W unit).
Proof.
  apply no_raise_bind; [apply send_no_raise|]. intros acc. cbv zeta.
  apply no_raise_if; [apply print_no_raise|apply no_raise_ret].
Qed.

#[local] Hint Resolve send_and_report_no_raise print_no_raise stdout_no_raise flush_no_raise
  stdin_no_raise drain_no_raise : frame.

Lemma pump_no_raise ready : no_raise (console_pump ready : M W bool).
Proof.
  destruct bridge_regs_no_raise as (_ & _ & _ & _ & ? & ? & _).
  unfold console_pump, report_errors. apply no_raise_bind; [unfold check_errors; auto 10 with frame|].
  intros err. apply no_raise_bind; [auto with frame|]. intros _.
  apply no_raise_bind; [auto with frame|]. intros out.
  apply no_raise_bind; [destruct out; auto 10 with frame|]. intros _.
  apply no_raise_if; [|auto with frame]. apply no_raise_bind; [auto with frame|].
  intros data. cbv zeta. destruct data; auto 10 with frame.
Qed.

(** ** The keyboard is consumed one event a pump *)

Definition ok_only {A} (Q : A -> W -> Prop) (r : outcome A) (w' : W) : Prop :=
  match r with Ok a => Q a w' | _ => True end.

Lemma wp_bind_preserves {X A B} (f : W -> X) (m : M W A) (k : A -> M W B) (Q : B -> W -> Prop) w :
  preserves f m -> (forall a w', f w' = f w -> wp (k a) (ok_only Q) w') ->
  wp (bind m k) (ok_only Q) w.
Proof.
  intros Hm Hk. unfold wp, bind. specialize (Hm w).
  destruct (m w) as [[a|e|] w']; simpl in *; [by apply Hk|done|done].
Qed.

Lemma wp_preserved {X A} (f : W -> X) (m : M W A) (Q : X -> Prop) w :
  preserves f m -> Q (f w) -> wp m (ok_only (fun _ w' => Q (f w'))) w.
Proof. intros Hm HQ. unfold wp. specialize (Hm w). destruct (m w) as [[a|e|] w']; simpl in *; [by rewrite Hm|done|done]. Qed.

Lemma keyboard_regs : regs_preserve (keyboard : W -> _).
Proof. by apply bridge_regs_preserve. Qed.

Lemma send_and_report_keyboard data : preserves keyboard (send_and_report data : M W unit).
Proof.
  apply preserves_bind; [apply send_preserves, keyboard_regs|]. intros acc. cbv zeta.
  by apply preserves_if.
Qed.

Lemma pump_keyboard ready w :
  wp (console_pump ready)
    (ok_only (fun go w' => keyboard w' = (if ready then tail (keyboard w) else keyboard w) /\
                           (keyboard w = [] -> ready = true -> go = false))) w.
Proof.
  unfold console_pump.
  apply (wp_bind_preserves keyboard); [apply check_errors_preserves, keyboard_regs|]. intros err w1 K1.
  apply (wp_bind_preserves keyboard); [by apply preserves_if|]. intros _ w2 K2.
  apply (wp_bind_preserves keyboard); [apply drain_preserves, keyboard_regs|]. intros out w3 K3.
  apply (wp_bind_preserves keyboard); [by destruct out|]. intros _ w4 K4.
  rewrite <- K1, <- K2, <- K3, <- K4. clear. destruct ready; [|done].
  eapply wp_bind_ok; [reflexivity|]. unfold read_keyboard.
  destruct (keyboard w4) as [|o kb]; [done|].
  match goal with |- wp (match ?d with [] => _ | _ => _ end) _ _ => generalize d as data end.
  intros data. eapply wp_mono with (Q := ok_only (fun _ w' => keyboard w' = kb));
    [|by intros [] w' H; simpl in *].
  apply (wp_preserved keyboard _ (fun k => k = kb)); [|done].
  destruct data as [|x d]; [done|]. cbv zeta.
  apply preserves_if; (apply preserves_bind; [|done]); [|apply send_and_report_keyboard].
  apply preserves_if; [apply send_and_report_keyboard|done].
Qed.

(** ** The session *)

(** No drop was announced. *)
Definition no_drop w : Prop := forall d t, dropped_message d t ∉ messages w.

(** Everything the 8008 emitted is on the screen or still queued; everything
    typed so far was accepted unless a drop was announced. *)
Definition session w : Prop :=
  bank_ok w /\ emitted w = screen w ++ rxq w /\ ~ In EXIT_BYTE (typed w) /\
  (no_drop w -> txq w = typed w).

Definition session_end w : Prop :=
  bank_ok w /\ emitted w = screen w ++ rxq w /\
  (no_drop w -> txq w = until EXIT_BYTE (typed w)).

Lemma until_app b l1 l2 : ~ In b l1 -> until b (l1 ++ l2) = l1 ++ until b l2.
Proof.
  induction l1 as [|x l1 IH]; simpl; intros H; [done|].
  destruct (Z.eqb_spec x b); [tauto|]. rewrite IH; [done|tauto].
Qed.

Lemma until_all b l : ~ In b l -> until b l = l.
Proof. intros H. rewrite <- (app_nil_r l) at 1. rewrite until_app by done. simpl. apply app_nil_r. Qed.

Lemma pump_session ready w :
  session w ->
  wp (console_pump ready) (fun r w' =>
    exists go, r = Ok go /\ if go : bool then session w' else session_end w') w.
Proof.
  intros (Hok & Hem & Hne & Htq).
  pose proof (console_pump_spec ready w Hok) as Hp. pose proof (pump_no_raise ready w) as Hn.
  unfold wp in *. destruct (console_pump ready w) as [[go|e|] w']; cbn [fst snd] in *;
    [|done|by destruct Hp].
  exists go. split; [done|]. destruct Hp as [Hok' (out & data & k & msgs & Ho & Hf & Hi & Hd & Hk & Ht & He & _ & Hgo)].
  assert (emitted w' = screen w' ++ rxq w') as Hem'.
  { destruct Hf as (new & Hin & Hq). simpl in Ho, Hin, Hq |- *.
    rewrite Hin, Hem, Ho, <- !app_assoc. f_equal. exact Hq. }
  assert (no_drop w' -> txq w' = typed w ++ until EXIT_BYTE data) as Hdrop.
  { intros Hnd. rewrite Ht, Htq.
    - f_equal. apply take_ge. simpl in He. unfold no_drop in Hnd. rewrite He in Hnd.
      unfold drop_report in Hnd. destruct (Nat.ltb_spec k (length (until EXIT_BYTE data))) as [Hlt|]; [|done].
      exfalso. eapply (Hnd _ _). rewrite !elem_of_app. right. right. by left.
    - intros d t Hin. apply (Hnd d t). simpl in He. rewrite He. rewrite elem_of_app. by left. }
  simpl in Hi. destruct go.
  - destruct (proj1 Hgo eq_refl) as [Hr|[_ Hnin]].
    + rewrite (Hd Hr) in *. simpl in Hdrop. rewrite app_nil_r in Hi, Hdrop. unfold session.
      rewrite Hi. auto.
    + rewrite (until_all _ _ Hnin) in Hdrop. unfold session. rewrite Hi.
      split; [done|]. split; [done|]. split; [|done]. rewrite in_app_iff. tauto.
  - unfold session_end. rewrite Hi, until_app by done. auto.
Qed.

Lemma pump_loop_session n w :
  session w -> (length (keyboard w) < n)%nat ->
  exists w', pump_loop n w = (Ok tt, w') /\ session_end w'.
Proof.
  revert w. induction n as [|n IH]; intros w Hs Hlen; [lia|]. simpl.
  unfold bind at 1. simpl select_stdin.
  assert (exists ready w1, (match keyboard w with
     | None :: kb => (Ok false, set_io w kb (typed w) (screen w) (messages w) (cooked w))
     | _ => (Ok true, w) end) = (Ok ready, w1) /\ session w1 /\
     (if ready then keyboard w1 = keyboard w else length (keyboard w) = S (length (keyboard w1))))
    as (ready & w1 & -> & Hs1 & Hkb).
  { destruct (keyboard w) as [|[d|] kb] eqn:Ek; (do 2 eexists); (split; [reflexivity|]); simpl; auto. }
  unfold bind. pose proof (pump_session ready w1 Hs1) as Hp. pose proof (pump_keyboard ready w1) as Hk.
  unfold wp in *. destruct (console_pump ready w1) as [r w2]. simpl in *.
  destruct Hp as (go & -> & Hgo). simpl in Hk. destruct go; [|by exists w2].
  destruct Hk as [Hk Hend]. apply IH; [done|]. rewrite Hk. destruct ready; [|lia].
  rewrite Hkb in *. destruct (keyboard w) eqn:Ek; simpl in *; [|lia]. by specialize (Hend eq_refl eq_refl).
Qed.

#[global] Instance bridge_term_laws : TermLaws bool W.
Proof. by refine {| settings := cooked |}. Defined.

(** A line on standard error does not disturb a session. *)
Lemma session_print msg w : session w -> session (snd (stderr_print msg w)).
Proof.
  intros (Hok & Hem & Hne & Ht). split; [exact Hok|]. split; [exact Hem|]. split; [exact Hne|].
  intros Hn. apply Ht. intros d t Hin. apply (Hn d t). cbn. apply elem_of_app. by left.
Qed.

Lemma console_loop_session n w :
  session w -> (length (keyboard w) < n)%nat ->
  exists w', console_loop n w = (Ok tt, w') /\ session_end w' /\ cooked w' = cooked w.
Proof.
  intros Hs Hn. unfold console_loop, bind at 1. simpl tcgetattr. cbv iota beta.
  unfold try_finally, try_except. cbn [setraw bridge_terminal bind]. unfold bind. cbv iota beta.
  set (w1 := set_io w _ _ _ _ false). assert (Hs1 : session w1) by exact Hs.
  pose proof (session_print ("-- b8008net console: Ctrl-] to exit --" +:+ carriage_return) w1 Hs1) as Hs2.
  cbn [stderr_print bridge_io snd] in Hs2 |- *. cbv iota beta.
  match goal with |- context [pump_loop n ?w0] =>
    destruct (pump_loop_session n w0) as (w' & -> & He); [exact Hs2|exact Hn|] end.
  eexists. split; [reflexivity|]. split; [exact He|reflexivity].
Qed.

(** ** A board just powered on, with a user at the keyboard *)

Definition fresh_board (core : list Z) (sch : list slot) (kb : list (option (list Z))) : W := {|
  gateware := bridge_init; credit := 0; core_out := core; emitted := []; to_core := [];
  sched := sch; keyboard := kb; typed := []; screen := []; messages := []; cooked := true |}.

Lemma fresh_session core sch kb : session (fresh_board core sch kb).
Proof.
  split; [|split_and!; simpl; rewrite ?f_queue_init; auto].
  split; [apply bridge_wf_init; lia|]. split; [|simpl; lia].
  unfold level_bound. simpl. rewrite f_level_init. unfold hwm, RX_HEADROOM, RX_HYSTERESIS in *. lia.
Qed.

(** C2: end to end, from the core's UART to the user's terminal.  Whatever the
    8008 emits, whenever it emits it, and whatever is typed, a console
    session on a freshly powered board returns normally after at most one
    pump per keyboard event and the end of input; every byte the 8008
    emitted is on the screen or still queued on the board, in order and
    once; unless a drop was announced, the bytes accepted for the 8008 are
    exactly those typed before Ctrl-]; and the terminal is restored. *)
Theorem console_session_faithful core sch kb n :
  (length kb < n)%nat ->
  exists w', console_loop n (fresh_board core sch kb) = (Ok tt, w') /\
    emitted w' = screen w' ++ f_queue (rx_fifo (gateware w')) /\
    ((forall d t, dropped_message d t ∉ messages w') ->
       to_core w' ++ f_queue (tx_fifo (gateware w')) = until EXIT_BYTE (typed w')) /\
    cooked w' = true.
Proof.
  intros Hn. destruct (console_loop_session n (fresh_board core sch kb)) as (w' & E & (_ & Hem & Hsent) & Hc);
    [apply fresh_session|exact Hn|]. by exists w'.
Qed.

End Refinement.

(** ** Faults while the errors are checked *)

Section ErrorCheck.
Context {rx_depth tx_depth inflight : Z} {RF TF : Type}.
Context `{!SyncFIFO rx_depth RF, !SyncFIFO tx_depth TF}.
Abbreviation W := (board rx_depth tx_depth inflight RF TF).
Implicit Types w : W.

(** The inputs of the cycles that pass, and of an access with the cycles before it. *)
Fixpoint cycles_of w (es : list env_cycle) : list inputs :=
  match es with [] => [] | e :: es => cycle_inputs w e no_strobes :: cycles_of (cycle w e no_strobes) es end.

Definition arrival_cycles w : list inputs := cycles_of (set_sched w (tail (sched w))) (before (next_slot w)).

Definition access_cycle w (s : strobes) : inputs := cycle_inputs (arrive w) (during (next_slot w)) s.

(** The cycles of [check_errors clear]: up to the read, and from it on. *)
Definition after_read clear w : list inputs :=
  let err := console_err (gateware (arrive w)) in
  let w1 := cycle (arrive w) (during (next_slot w)) no_strobes in
  access_cycle w no_strobes ::
  (if negb (err =? 0) && clear
   then arrival_cycles w1 ++ [access_cycle w1 {| s_pop := false; s_tx := None; s_clear := Some err |}]
   else []).

Definition check_cycles clear w : list inputs := arrival_cycles w ++ after_read clear w.

Lemma idle_gateware w es : gateware (idle_cycles w es) = bridge_run (gateware w) (cycles_of w es).
Proof. revert w. induction es as [|e es IH]; intros w; [done|]. simpl. apply IH. Qed.

Lemma arrive_gateware w : gateware (arrive w) = bridge_run (gateware w) (arrival_cycles w).
Proof. unfold arrive. by rewrite idle_gateware. Qed.

Lemma cycles_of_no_clear idx w es : Forall (fun i => clears idx i = false) (cycles_of w es).
Proof. revert w. induction es as [|e es IH]; intros w; constructor; auto. Qed.

(** What the call does to the gateware. *)
Lemma check_errors_gateware clear w :
  exists w', check_errors clear w = (Ok (console_err (gateware (arrive w))), w') /\
    gateware w' = bridge_run (gateware (arrive w)) (after_read clear w).
Proof.
  unfold check_errors, bind, err_read, bridge_regs, csr_read, after_read. cbn [fst snd].
  destruct (negb _ && clear); [|by eexists].
  eexists. split; [reflexivity|]. cbn [csr_write snd gateware cycle]. rewrite arrive_gateware.
  cbn [bridge_run]. by rewrite bridge_run_app.
Qed.

(** A bit that is not in the word read is not cleared. *)
Lemma after_read_no_clear idx clear w :
  Z.testbit (console_err (gateware (arrive w))) idx = false \/ clear = false ->
  Forall (fun i => clears idx i = false) (after_read clear w).
Proof.
  intros Hidx. unfold after_read. constructor; [done|]. destruct (negb _ && clear) eqn:Hc; [|constructor].
  apply andb_prop in Hc as [_ ->]. destruct Hidx as [Hidx|]; [|done]. apply Forall_app_2; [apply cycles_of_no_clear|].
  constructor; [|constructor]. exact Hidx.
Qed.

(** A bit that rises in a run without a clear of it is set at its end. *)
Lemma fault_seen idx (b : bridge RF TF) pre i post tr :
  0 <= idx <= 2 -> tr = pre ++ i :: post -> fault idx (bridge_run b pre) i = true ->
  Forall (fun j => clears idx j = false) tr -> sticky idx (bridge_run b tr) = true.
Proof.
  intros Hi -> Hf Hc. rewrite bridge_run_app. cbn [bridge_run]. apply sticky_kept; [done| |].
  - by rewrite sticky_step, Hf.
  - apply Forall_app in Hc as [_ Hc]. by apply Forall_cons in Hc as [_ Hc].
Qed.

(** C38: [check_errors] loses no fault.  On the gateware, whatever the core and the PHY do meanwhile: the
    word it returns has every error bit that was set when it was called; a fault in any cycle of the
    call, before, at or after the read and up to the very cycle of the clear, is in the word
    returned or its bit is set afterwards; with [clear = False] every bit stays set; and with
    [clear = True] what is set afterwards is news: its fault came in a cycle of the call. *)
Theorem check_errors_no_fault_lost clear w :
  let '(r, w') := check_errors clear w in
  exists err, r = Ok err /\ gateware w' = bridge_run (gateware w) (check_cycles clear w) /\
  forall idx, 0 <= idx <= 2 ->
    (sticky idx (gateware w) = true -> Z.testbit err idx = true) /\
    (forall pre i post, check_cycles clear w = pre ++ i :: post -> fault idx (bridge_run (gateware w) pre) i = true ->
       Z.testbit err idx = true \/ sticky idx (gateware w') = true) /\
    (clear = false -> sticky idx (gateware w) = true -> sticky idx (gateware w') = true) /\
    (clear = true -> sticky idx (gateware w') = true ->
       exists pre i post, check_cycles clear w = pre ++ i :: post /\ fault idx (bridge_run (gateware w) pre) i = true).
Proof.
  destruct (check_errors_gateware clear w) as (w' & -> & Hg). eexists. split; [reflexivity|].
  assert (Hrun : gateware w' = bridge_run (gateware w) (check_cycles clear w)).
  { rewrite Hg, arrive_gateware. unfold check_cycles. by rewrite bridge_run_app. }
  split; [exact Hrun|]. intros idx Hi. rewrite error_bit by done. split; [|split; [|split]].
  - intros Hs. rewrite arrive_gateware. apply sticky_kept; [done|done|apply cycles_of_no_clear].
  - intros pre i post E Hf. destruct (sticky idx (gateware (arrive w))) eqn:Hs; [by left|right].
    rewrite Hrun. eapply fault_seen; [done|exact E|exact Hf|].
    apply Forall_app_2; [apply cycles_of_no_clear|]. apply after_read_no_clear. left. by rewrite error_bit.
  - intros -> Hs. rewrite Hrun. apply sticky_kept; [done|done|].
    apply Forall_app_2; [apply cycles_of_no_clear|]. apply after_read_no_clear. by right.
  - intros -> Hs. rewrite Hg in Hs. unfold check_cycles. rewrite arrive_gateware in Hs.
    enough (Hlast : exists pre i post, after_read true w = pre ++ i :: post /\
              fault idx (bridge_run (bridge_run (gateware w) (arrival_cycles w)) pre) i = true).
    { destruct Hlast as (pre & i & post & -> & Hf). exists (arrival_cycles w ++ pre), i, post.
      rewrite <- (assoc_L (++)), bridge_run_app. done. }
    destruct (sticky idx (bridge_run (gateware w) (arrival_cycles w))) eqn:Hb.
    + assert (Herr : Z.testbit (console_err (gateware (arrive w))) idx = true) by (by rewrite error_bit, arrive_gateware).
      unfold after_read in *. destruct (Z.eqb_spec (console_err (gateware (arrive w))) 0) as [E0|_];
        [by rewrite E0, Z.testbit_0_l in Herr|]. cbn [negb andb] in *.
      set (w1 := cycle _ _ _) in *. set (s := {| s_pop := _; s_tx := _; s_clear := _ |}) in *.
      exists (access_cycle w no_strobes :: arrival_cycles w1), (access_cycle w1 s), []. split; [done|].
      rewrite app_comm_cons, bridge_run_app in Hs. cbn [bridge_run] in Hs. rewrite sticky_step in Hs by done.
      destruct (fault idx _ _) eqn:Hf; [done|]. unfold clears in Hs. cbn -[Z.testbit] in Hs. by rewrite Herr in Hs.
    + destruct (sticky_justified idx _ _ Hi Hb Hs) as (pre & i & post & E & Hf & _). by exists pre, i, post.
Qed.

End ErrorCheck.

(** * Concrete sessions on the shipped depths *)

Module ConsoleRuns.

Abbreviation B := (board RX_DEPTH TX_DEPTH 3 Buffered.fifo Buffered.fifo).

Definition busy : slot := {|
  before := [{| core_ready := true; phy_ready := true |}; {| core_ready := true; phy_ready := true |};
             {| core_ready := true; phy_ready := false |}];
  during := {| core_ready := false; phy_ready := true |} |}.

(** The 8008 has "8008" to say; the user types "H", CR, then Ctrl-]. *)
Definition talking : B :=
  fresh_board [56; 48; 48; 56] (repeat busy 10) [None; Some [72; 13]; Some [71; 29; 88]].

Lemma inflight_range : 0 <= 3 < RX_HEADROOM.
Proof. split; [discriminate|reflexivity]. Qed.
Lemma rx_range : RX_HEADROOM + RX_HYSTERESIS <= RX_DEPTH < 8192.
Proof. split; [discriminate|reflexivity]. Qed.
Lemma tx_range : 0 < TX_DEPTH < 512.
Proof. split; reflexivity. Qed.

#[global] Instance shipped_laws : ConsoleLaws B :=
  bridge_console_laws inflight_range rx_range tx_range.

Lemma talking_ok : bank_ok talking.
Proof. exact (proj1 (fresh_session inflight_range rx_range tx_range _ _ _)). Qed.

Lemma drain_exactly_once_witness :
  fst (drain talking) = Ok [56; 48; 48; 56] /\
  host_faults (snd (drain talking)) = host_faults talking.
Proof.
  split; [vm_compute; reflexivity|].
  pose proof (drain_exactly_once talking talking_ok) as H.
  destruct (drain talking) as [r w']. apply H.
Defined.

Lemma send_accepts_prefix_witness :
  fst (send [72; 13] None talking) = Ok 2 /\
  host_faults (snd (send [72; 13] None talking)) = host_faults talking.
Proof.
  split; [vm_compute; reflexivity|].
  pose proof (send_accepts_prefix [72; 13] None talking talking_ok) as H.
  destruct (send [72; 13] None talking) as [r w']. apply H.
  repeat constructor; (discriminate || reflexivity).
Defined.

(** A board with a two byte RX FIFO whose host has popped it empty: an error bit is set.  The 8008 then fills
    the FIFO and overruns it in the very cycle of the host's read of the error register, once more
    before the clear, and not again. *)
Abbreviation B2 := (board 2 256 100 Buffered.fifo Buffered.fifo).

Definition both_ready : env_cycle := {| core_ready := true; phy_ready := true |}.

Definition overrun : B2 :=
  snd (rx_pop_write 1 (fresh_board [56; 48; 48; 56; 32; 32]
    [quiet_slot; {| before := [both_ready; both_ready; both_ready]; during := both_ready |};
     {| before := [both_ready]; during := {| core_ready := false; phy_ready := false |} |}] [])).

(** The word read has the stale pop and not the overrun; the clear clears the one and keeps the other. *)
Lemma check_errors_no_fault_lost_witness :
  let '(r, w') := check_errors true overrun in
  r = Ok 4 /\ sticky 0 (gateware overrun) = false /\ sticky 2 (gateware overrun) = true /\
  sticky 0 (gateware w') = true /\ sticky 2 (gateware w') = false /\
  exists pre i post, check_cycles true overrun = pre ++ i :: post /\
    fault (rx_depth:=2) (tx_depth:=256) 0 (bridge_run (rx_depth:=2) (tx_depth:=256) (gateware overrun) pre) i = true.
Proof.
  pose proof (check_errors_no_fault_lost true overrun) as H.
  assert (E : fst (check_errors true overrun) = Ok 4 /\
    sticky 0 (gateware (snd (check_errors true overrun))) = true /\
    sticky 2 (gateware (snd (check_errors true overrun))) = false) by (vm_compute; auto).
  destruct (check_errors true overrun) as [r w']. destruct E as (E & H0 & H1).
  split; [exact E|]. split; [vm_compute; reflexivity|]. split; [vm_compute; reflexivity|].
  split; [exact H0|]. split; [exact H1|].
  destruct H as (err & _ & _ & H). destruct (H 0 ltac:(split; discriminate)) as (_ & _ & _ & H2).
  exact (H2 eq_refl H0).
Defined.

Lemma console_pump_faithful_witness :
  fst (console_pump true talking) = Ok false /\ bank_ok (snd (console_pump true talking)).
Proof.
  split; [vm_compute; reflexivity|].
  pose proof (console_pump_faithful true talking talking_ok) as H.
  destruct (console_pump true talking) as [r w']. apply H.
Defined.

Lemma console_loop_restores_terminal_witness :
  settings (snd (console_loop 4 talking)) = true.
Proof.
  pose proof (console_loop_restores_terminal 4 talking) as H.
  assert (fst (console_loop 4 talking) = Ok tt) as Hr by (vm_compute; reflexivity).
  destruct (console_loop 4 talking) as [r w']. simpl in Hr. subst r.
  apply H. discriminate.
Defined.

Lemma console_session_faithful_witness :
  screen (snd (console_loop 4 talking)) = [56; 48; 48; 56] /\
  exists w', console_loop 4 talking = (Ok tt, w') /\ cooked w' = true.
Proof.
  split; [vm_compute; reflexivity|].
  destruct (console_session_faithful inflight_range rx_range tx_range [56; 48; 48; 56]
    (repeat busy 10) [None; Some [72; 13]; Some [71; 29; 88]] 4) as (w' & H & _ & _ & Hc);
    [repeat constructor|].
  exists w'. split; [exact H|exact Hc].
Defined.

End ConsoleRuns.
