(* ===== verification/HostOS.v ===== *)
(** * The operating system under the host package

    The part of Python's standard library and of the kernel that
    [host/b8008net] uses: a clock, text files, UDP sockets and the resolver.
    The environment is arbitrary: which datagrams arrive at each socket and
    when ([arrivals]), which sends the kernel refuses ([accepts]), whether a
    socket can be created, the route and the resolver are all fields of
    [host_env] over which the theorems quantify.  Times are integers in
    microseconds; time passes in the calls that block. *)

From Stdlib Require Import ZArith Lia List Bool Ascii.
From stdpp Require Import base list strings gmap.
From S2P Require Import Prelude Text.

Open Scope Z_scope.

(** ** State *)

(** A datagram waiting for a socket: when it is there, its bytes, its sender. *)
Record dgram := Dgram { d_at : Z; d_data : list Z; d_from : string }.

Record sock := Sock {
  sk_broadcast : bool;
  sk_local : option string;
  sk_bound : option Z;
  sk_timeout : option Z;
  sk_inbox : list dgram;
}.

(** A datagram handed to the network: socket, bytes, address and port. *)
Definition sending : Type := nat * list Z * (string * Z).

Record host_env := HostEnv {
  arrivals : nat -> list dgram;
  socket_fails : nat -> bool;
  accepts : bool -> string -> bool;
  bind_fails : Z -> bool;
  route : option string;
  dns : string -> option string;
}.

Record host := Host {
  env : host_env;
  clock : Z;
  files : gmap string string;
  denied : gset string;
  socks : gmap nat sock;
  next_sock : nat;
  sent : list sending;
}.

Definition set_clock (t : Z) (h : host) : host :=
  Host (env h) t (files h) (denied h) (socks h) (next_sock h) (sent h).
Definition set_files (fs : gmap string string) (h : host) : host :=
  Host (env h) (clock h) fs (denied h) (socks h) (next_sock h) (sent h).
Definition set_socks (ss : gmap nat sock) (h : host) : host :=
  Host (env h) (clock h) (files h) (denied h) ss (next_sock h) (sent h).

(** ** The clock *)

Definition monotonic : M host Z := gets clock.

(** ** Text files *)

(** [open(path, "w")] and [write]: the content is replaced. *)
Definition write_file (path text : string) : M host unit :=
  let! h := get in
  if decide (path ∈ denied h) then raise OSError
  else modify (set_files (<[path := text]> (files h))).

Definition read_file (path : string) : M host string :=
  let! h := get in
  match files h !! path with
  | None => raise FileNotFoundError
  | Some text => if decide (path ∈ denied h) then raise OSError
                 else ret (universal_newlines text)
  end.

Definition os_remove (path : string) : M host unit :=
  let! h := get in
  match files h !! path with
  | None => raise FileNotFoundError
  | Some _ => if decide (path ∈ denied h) then raise OSError
              else modify (set_files (delete path (files h)))
  end.

(** ** UDP sockets *)

(** [socket.socket(AF_INET, SOCK_DGRAM)] *)
Definition socket_new : M host nat :=
  let! h := get in
  let i := next_sock h in
  if socket_fails (env h) i
  then modify (fun h => Host (env h) (clock h) (files h) (denied h) (socks h) (S i) (sent h)) ;;;
       raise OSError
  else modify (fun h =>
         Host (env h) (clock h) (files h) (denied h)
              (<[i := Sock false None None None (arrivals (env h) i)]> (socks h)) (S i) (sent h)) ;;;
       ret i.

Definition socket_close (i : nat) : M host unit :=
  modify (fun h => set_socks (delete i (socks h)) h).

(** Apply [f] to the open socket [i]; a closed one is a bad descriptor. *)
Definition with_sock {A} (i : nat) (f : sock -> M host A) : M host A :=
  let! h := get in
  match socks h !! i with
  | None => raise OSError
  | Some s => f s
  end.

Definition put_sock (i : nat) (s : sock) : M host unit :=
  modify (fun h => set_socks (<[i := s]> (socks h)) h).

Definition set_broadcast (i : nat) : M host unit :=
  with_sock i (fun s =>
    put_sock i (Sock true (sk_local s) (sk_bound s) (sk_timeout s) (sk_inbox s))).

Definition socket_bind (i : nat) (port : Z) : M host unit :=
  with_sock i (fun s =>
    let! h := get in
    if bind_fails (env h) port then raise OSError
    else put_sock i (Sock (sk_broadcast s) (sk_local s) (Some port) (sk_timeout s) (sk_inbox s))).

Definition settimeout (i : nat) (t : Z) : M host unit :=
  with_sock i (fun s =>
    put_sock i (Sock (sk_broadcast s) (sk_local s) (sk_bound s) (Some t) (sk_inbox s))).

(** [connect] on a UDP socket only looks up a route. *)
Definition socket_connect (i : nat) : M host unit :=
  with_sock i (fun s =>
    let! h := get in
    match route (env h) with
    | None => raise OSError
    | Some ip => put_sock i (Sock (sk_broadcast s) (Some ip) (sk_bound s) (sk_timeout s) (sk_inbox s))
    end).

Definition getsockname (i : nat) : M host string :=
  with_sock i (fun s => ret (default "0.0.0.0" (sk_local s))%string).

Definition sendto (i : nat) (data : list Z) (addr : string * Z) : M host unit :=
  with_sock i (fun s =>
    let! h := get in
    if accepts (env h) (sk_broadcast s) (addr.1)
    then modify (fun h => Host (env h) (clock h) (files h) (denied h) (socks h) (next_sock h)
                               (sent h ++ [(i, data, addr)]))
    else raise OSError).

(** [select.select([sock], [], [], timeout)]: waits for the first datagram of
    the queue, at most [timeout]. *)
Definition select_readable (i : nat) (timeout : Z) : M host bool :=
  with_sock i (fun s =>
    let! h := get in
    match sk_inbox s with
    | d :: _ => if d_at d <=? clock h + timeout
                then modify (set_clock (Z.max (clock h) (d_at d))) ;;; ret true
                else modify (set_clock (clock h + timeout)) ;;; ret false
    | [] => modify (set_clock (clock h + timeout)) ;;; ret false
    end).

(** [recvfrom(n)]: the next datagram, cut to [n] bytes; a socket with a
    timeout raises [socket.timeout] when none comes in that time, one without
    blocks until the datagram is there (forever when none ever is). *)
Definition recvfrom (i : nat) (n : nat) : M host (list Z * string) :=
  with_sock i (fun s =>
    let! h := get in
    match sk_inbox s with
    | d :: rest =>
        if match sk_timeout s with Some t => d_at d <=? clock h + t | None => true end
        then modify (set_clock (Z.max (clock h) (d_at d))) ;;;
             put_sock i (Sock (sk_broadcast s) (sk_local s) (sk_bound s) (sk_timeout s) rest) ;;;
             ret (take n (d_data d), d_from d)
        else modify (set_clock (clock h + default 0 (sk_timeout s))) ;;; raise SocketTimeout
    | [] => match sk_timeout s with
            | Some t => modify (set_clock (clock h + t)) ;;; raise SocketTimeout
            | None => diverge
            end
    end).

(** [socket.gethostbyname] *)
Definition gethostbyname (name : string) : M host string :=
  let! h := get in
  match dns (env h) name with None => raise OSError | Some ip => ret ip end.

(** ** Laws of the sockets *)

Definition with_inbox (s : sock) (q : list dgram) : sock :=
  Sock (sk_broadcast s) (sk_local s) (sk_bound s) (sk_timeout s) q.

(** A socket whose timeout, if it has one, is not negative. *)
Definition sock_ok (s : sock) : Prop := from_option (fun t => 0 <= t) True (sk_timeout s).

(** Descriptors not handed out yet are not open. *)
Definition fresh_socks (h : host) : Prop := forall i, (next_sock h <= i)%nat -> socks h !! i = None.

Lemma with_sock_run {A} i (f : sock -> M host A) h s :
  socks h !! i = Some s -> with_sock i f h = f s h.
Proof. intros Hs. unfold with_sock, bind, get. by rewrite Hs. Qed.

Lemma select_nothing i timeout h s :
  socks h !! i = Some s -> sk_inbox s = [] ->
  select_readable i timeout h = (Ok false, set_clock (clock h + timeout) h).
Proof. intros Hs Hq. unfold select_readable. rewrite (with_sock_run _ _ _ _ Hs). unfold bind, get. by rewrite Hq. Qed.

Lemma select_head i timeout h s d q :
  socks h !! i = Some s -> sk_inbox s = d :: q ->
  select_readable i timeout h =
  if d_at d <=? clock h + timeout then (Ok true, set_clock (Z.max (clock h) (d_at d)) h)
  else (Ok false, set_clock (clock h + timeout) h).
Proof.
  intros Hs Hq. unfold select_readable. rewrite (with_sock_run _ _ _ _ Hs). unfold bind, get. rewrite Hq.
  by destruct (d_at d <=? clock h + timeout).
Qed.

(** Receiving a datagram that is already there. *)
Lemma recvfrom_ready i n h s d q :
  socks h !! i = Some s -> sk_inbox s = d :: q -> sock_ok s -> d_at d <= clock h ->
  recvfrom i n h = (Ok (take n (d_data d), d_from d), set_socks (<[i := with_inbox s q]> (socks h)) h).
Proof.
  intros Hs Hq Hok Hd. unfold recvfrom. rewrite (with_sock_run _ _ _ _ Hs). unfold bind, get. rewrite Hq.
  replace (match sk_timeout s with Some t => d_at d <=? clock h + t | None => true end) with true.
  - cbn. rewrite Z.max_l by done. by destruct h.
  - unfold sock_ok in Hok. destruct (sk_timeout s); [|done]. simpl in Hok. symmetry. apply Z.leb_le. lia.
Qed.

(** The host after a wait on socket [i]: the time and what is left in the queue. *)
Definition waited (h : host) (i : nat) (s : sock) (t : Z) (q : list dgram) : host :=
  set_clock t (set_socks (<[i := with_inbox s q]> (socks h)) h).

Lemma waited_id h i s t : socks h !! i = Some s -> waited h i s t (sk_inbox s) = set_clock t h.
Proof.
  intros Hs. unfold waited, with_inbox. replace (Sock _ _ _ _ _) with s by (by destruct s).
  rewrite insert_id by done. by destruct h.
Qed.

Lemma waited_waited h i s t q t' q' :
  waited (waited h i s t q) i (with_inbox s q) t' q' = waited h i s t' q'.
Proof. unfold waited. cbn [set_clock set_socks socks]. by rewrite insert_insert_eq. Qed.

Lemma waited_lookup h i s t q : socks (waited h i s t q) !! i = Some (with_inbox s q).
Proof. cbn. by rewrite lookup_insert_eq. Qed.

Definition set_next (n : nat) (h : host) : host :=
  Host (env h) (clock h) (files h) (denied h) (socks h) n (sent h).
Definition set_sent (l : list sending) (h : host) : host :=
  Host (env h) (clock h) (files h) (denied h) (socks h) (next_sock h) l.

(** A new socket with the traffic the environment has for it. *)
Definition new_sock (h : host) : sock := Sock false None None None (arrivals (env h) (next_sock h)).

Lemma socket_new_run h :
  socket_new h =
  if socket_fails (env h) (next_sock h) then (Raise OSError, set_next (S (next_sock h)) h)
  else (Ok (next_sock h),
        set_next (S (next_sock h)) (set_socks (<[next_sock h := new_sock h]> (socks h)) h)).
Proof. unfold socket_new, bind, get. by destruct (socket_fails (env h) (next_sock h)). Qed.

Lemma sendto_run i data addr h s :
  socks h !! i = Some s ->
  sendto i data addr h =
  if accepts (env h) (sk_broadcast s) addr.1 then (Ok tt, set_sent (sent h ++ [(i, data, addr)]) h)
  else (Raise OSError, h).
Proof.
  intros Hs. unfold sendto. rewrite (with_sock_run _ _ _ _ Hs). unfold bind, get.
  by destruct (accepts (env h) (sk_broadcast s) addr.1).
Qed.

Lemma fresh_socks_next h : fresh_socks h -> socks h !! next_sock h = None.
Proof. intros Hf. apply Hf. lia. Qed.

Lemma delete_new_sock h s : fresh_socks h -> delete (next_sock h) (<[next_sock h := s]> (socks h)) = socks h.
Proof. intros Hf. by rewrite delete_insert_id by by apply fresh_socks_next. Qed.

(** Receiving with a timeout [T]. *)
Lemma recvfrom_timeout i n h s T :
  socks h !! i = Some s -> sk_timeout s = Some T ->
  recvfrom i n h =
  match sk_inbox s with
  | d :: q => if d_at d <=? clock h + T
              then (Ok (take n (d_data d), d_from d), waited h i s (Z.max (clock h) (d_at d)) q)
              else (Raise SocketTimeout, set_clock (clock h + T) h)
  | [] => (Raise SocketTimeout, set_clock (clock h + T) h)
  end.
Proof.
  intros Hs HT. unfold recvfrom. rewrite (with_sock_run _ _ _ _ Hs). unfold bind, get. rewrite HT.
  destruct (sk_inbox s) as [|d q]; [done|]. destruct (d_at d <=? clock h + T); [|done].
  cbn. unfold waited, with_inbox. by rewrite HT.
Qed.
