(* ===== verification/Etherbone.v ===== *)
(** * Etherbone: the codec the host imports, and the firmware's server

    The host package builds and parses packets with litex's
    [EtherbonePacket], which is not part of this repository: it is the
    interface [EtherboneCodec], with [EtherboneLaws] what the host relies on
    (packets survive encoding, the header is readable whatever follows it).
    [Module Dialect] is the byte layout documented in [firmware/eb8008.c]; it
    satisfies the laws and is the concrete codec of the witnesses.
    [eb8008_handle] is the firmware's request handler, with every buffer
    access checked. *)

From Stdlib Require Import ZArith Lia List Bool.
From stdpp Require Import base list gmap.
From S2P Require Import Prelude.

Open Scope Z_scope.

(** ** Packets *)

Record eb_writes := EbWrites { base_addr : Z; datas : list Z }.
Record eb_reads := EbReads { base_ret_addr : Z; addrs : list Z }.
Record eb_record := EbRecord { writes : option eb_writes; reads : option eb_reads }.
Record eb_packet := EbPacket { magic : Z; pf : Z; pr : Z; records : list eb_record }.

Definition etherbone_magic : Z := 0x4e6f.

(** ** The codec interface *)

Definition word32 (w : Z) : Prop := 0 <= w < 2 ^ 32.
Definition flag (b : Z) : Prop := b = 0 \/ b = 1.

Definition part_ok (base : Z) (ws : list Z) : Prop :=
  word32 base /\ Forall word32 ws /\ (1 <= length ws <= 255)%nat.
Definition record_ok (r : eb_record) : Prop :=
  from_option (fun w => part_ok (base_addr w) (datas w)) True (writes r) /\
  from_option (fun d => part_ok (base_ret_addr d) (addrs d)) True (reads r).
Definition packet_ok (p : eb_packet) : Prop :=
  magic p = etherbone_magic /\ flag (pf p) /\ flag (pr p) /\ Forall record_ok (records p).

(** [EtherbonePacket(addr_width)] with [encode()], and
    [EtherbonePacket(addr_width, data)] with [decode()]; [None] is an
    exception of [decode]. *)
Class EtherboneCodec := {
  eb_encode : Z -> eb_packet -> list Z;
  eb_decode : Z -> list Z -> option eb_packet;
}.

Class EtherboneLaws (C : EtherboneCodec) : Prop := {
  eb_decode_encode p : packet_ok p -> eb_decode 32 (eb_encode 32 p) = Some p;
  eb_decode_header p tail q :
    packet_ok p -> eb_decode 32 (eb_encode 32 p ++ tail) = Some q ->
    magic q = magic p /\ pf q = pf p /\ pr q = pr p;
}.

(** ** Big-endian words *)

Definition be32 (v : Z) : list Z :=
  [Z.land (Z.shiftr v 24) 255; Z.land (Z.shiftr v 16) 255; Z.land (Z.shiftr v 8) 255; Z.land v 255].

Definition of_be32 (b3 b2 b1 b0 : Z) : Z :=
  Z.lor (Z.lor (Z.lor (Z.shiftl b3 24) (Z.shiftl b2 16)) (Z.shiftl b1 8)) b0.

Lemma be32_bytes v : Forall is_byte (be32 v).
Proof. repeat constructor; apply land_255_byte. Qed.

Lemma be32_length v : length (be32 v) = 4%nat.
Proof. done. Qed.

Lemma concat_be32_length ws : length (concat (map be32 ws)) = (4 * length ws)%nat.
Proof. induction ws; [done|]. cbn [map concat]. rewrite length_app, be32_length, IHws. simpl. lia. Qed.

(** The four shifted bytes are the digits of a number in base 256. *)
Lemma of_be32_sum b3 b2 b1 b0 :
  is_byte b3 -> is_byte b2 -> is_byte b1 -> is_byte b0 ->
  of_be32 b3 b2 b1 b0 = ((b3 * 256 + b2) * 256 + b1) * 256 + b0.
Proof.
  unfold is_byte, of_be32. intros.
  rewrite Z.lor_comm, (Z.lor_comm _ (Z.shiftl b1 8)), (Z.lor_comm (Z.shiftl b3 24)).
  replace (Z.shiftl b3 24) with (Z.shiftl (Z.shiftl (Z.shiftl b3 8) 8) 8) by (by rewrite !Z.shiftl_shiftl).
  replace (Z.shiftl b2 16) with (Z.shiftl (Z.shiftl b2 8) 8) by (by rewrite !Z.shiftl_shiftl).
  rewrite <- !Z.shiftl_lor. rewrite !(lor_shiftl_add _ _ 8) by (simpl; lia). lia.
Qed.

Lemma of_be32_range b3 b2 b1 b0 :
  is_byte b3 -> is_byte b2 -> is_byte b1 -> is_byte b0 -> word32 (of_be32 b3 b2 b1 b0).
Proof. intros. rewrite of_be32_sum by done. unfold word32, is_byte in *. lia. Qed.

Lemma of_be32_be32 v :
  word32 v ->
  of_be32 (Z.land (Z.shiftr v 24) 255) (Z.land (Z.shiftr v 16) 255)
          (Z.land (Z.shiftr v 8) 255) (Z.land v 255) = v.
Proof.
  intros Hv. rewrite of_be32_sum by apply land_255_byte. unfold word32 in Hv.
  change 255 with (Z.ones 8). rewrite !Z.land_ones, !Z.shiftr_div_pow2 by lia.
  Z.to_euclidean_division_equations. lia.
Qed.

(** ** The dialect of the firmware *)

Module Dialect.

Definition encode_header (p : eb_packet) : list Z :=
  [Z.land (Z.shiftr (magic p) 8) 255; Z.land (magic p) 255;
   Z.lor 16 (Z.lor (Z.shiftl (pr p) 1) (pf p)); 0x44; 0; 0; 0; 0].

Definition encode_part (base : Z) (ws : list Z) : list Z := be32 base ++ concat (map be32 ws).

Definition encode_record (r : eb_record) : list Z :=
  [0; 0x0f; Z.of_nat (from_option (fun w => length (datas w)) 0%nat (writes r));
   Z.of_nat (from_option (fun d => length (addrs d)) 0%nat (reads r))]
  ++ from_option (fun w => encode_part (base_addr w) (datas w)) [] (writes r)
  ++ from_option (fun d => encode_part (base_ret_addr d) (addrs d)) [] (reads r).

Definition encode (_ : Z) (p : eb_packet) : list Z :=
  encode_header p ++ concat (map encode_record (records p)).

Fixpoint decode_words (n : nat) (bs : list Z) : option (list Z * list Z) :=
  match n, bs with
  | O, _ => Some ([], bs)
  | S n', b3 :: b2 :: b1 :: b0 :: rest =>
      '(ws, rest') ← decode_words n' rest; Some (of_be32 b3 b2 b1 b0 :: ws, rest')
  | _, _ => None
  end.

(** A part of [n] words behind its base address; absent when [n] is 0. *)
Definition decode_part (n : nat) (bs : list Z) : option (option (Z * list Z) * list Z) :=
  match n with
  | O => Some (None, bs)
  | S _ => '(ws, rest) ← decode_words (S n) bs;
           match ws with base :: ws' => Some (Some (base, ws'), rest) | [] => None end
  end.

Fixpoint decode_records (fuel : nat) (bs : list Z) : option (list eb_record) :=
  match fuel with
  | O => None
  | S fuel' =>
      match bs with
      | [] => Some []
      | _ :: _ :: wcount :: rcount :: rest =>
          '(w, rest1) ← decode_part (Z.to_nat wcount) rest;
          '(r, rest2) ← decode_part (Z.to_nat rcount) rest1;
          rs ← decode_records fuel' rest2;
          Some (EbRecord ((fun x : Z * list Z => EbWrites x.1 x.2) <$> w)
                         ((fun x : Z * list Z => EbReads x.1 x.2) <$> r) :: rs)
      | _ => None
      end
  end.

Definition decode (_ : Z) (bs : list Z) : option eb_packet :=
  match bs with
  | m1 :: m0 :: fl :: _ :: _ :: _ :: _ :: _ :: rest =>
      rs ← decode_records (S (length rest)) rest;
      Some (EbPacket (m1 * 256 + m0) (Z.land fl 1) (Z.land (Z.shiftr fl 1) 1) rs)
  | _ => None
  end.

#[global] Instance dialect : EtherboneCodec := {| eb_encode := encode; eb_decode := decode |}.

Lemma decode_words_encode ws rest :
  Forall word32 ws -> decode_words (length ws) (concat (map be32 ws) ++ rest) = Some (ws, rest).
Proof.
  induction 1 as [|w ws Hw Hws IH]; [done|].
  cbn -[Z.land Z.shiftr of_be32]. rewrite IH. cbn -[Z.land Z.shiftr of_be32].
  by rewrite of_be32_be32.
Qed.

Lemma decode_part_encode base ws rest :
  part_ok base ws ->
  decode_part (length ws) (encode_part base ws ++ rest) = Some (Some (base, ws), rest).
Proof.
  intros (Hb & Hws & Hlen). destruct ws as [|w ws']; [simpl in Hlen; lia|].
  unfold decode_part, encode_part. cbn [length].
  change (be32 base ++ concat (map be32 (w :: ws'))) with (concat (map be32 (base :: w :: ws'))).
  by rewrite (decode_words_encode (base :: w :: ws')) by (by constructor).
Qed.

(** The same for a part that may be absent. *)
Lemma decode_option_part {A} (base : A -> Z) (ws : A -> list Z) (o : option A) rest :
  from_option (fun x => part_ok (base x) (ws x)) True o ->
  decode_part (from_option (fun x => length (ws x)) 0%nat o)
              (from_option (fun x => encode_part (base x) (ws x)) [] o ++ rest) =
  Some ((fun x => (base x, ws x)) <$> o, rest).
Proof. destruct o; [|done]. apply decode_part_encode. Qed.

Lemma encode_record_length r : (4 <= length (encode_record r))%nat.
Proof. unfold encode_record. rewrite length_app. simpl. lia. Qed.

Lemma decode_records_encode rs fuel :
  Forall record_ok rs -> (length (concat (map encode_record rs)) < fuel)%nat ->
  decode_records fuel (concat (map encode_record rs)) = Some rs.
Proof.
  intros Hrs. revert fuel. induction Hrs as [|r rs [Hw Hr] _ IH]; intros [|fuel] Hf;
    [simpl in Hf; lia|done|simpl in Hf; lia|].
  cbn [map concat] in Hf |- *. rewrite length_app in Hf. pose proof (encode_record_length r).
  set (tl := concat (map encode_record rs)) in *. destruct r as [w d].
  unfold encode_record. cbn [writes reads] in *.
  rewrite <- !app_assoc. cbn [decode_records app]. rewrite !Nat2Z.id.
  rewrite decode_option_part by done. cbn [mbind option_bind].
  rewrite decode_option_part by done. cbn [mbind option_bind].
  rewrite IH by lia. by destruct w as [[]|], d as [[]|].
Qed.

#[global] Instance dialect_laws : EtherboneLaws dialect.
Proof.
  split.
  - intros [m f r rs] (Hm & Hf & Hr & Hrs).
    cbn [magic pf pr records eb_encode eb_decode dialect] in *. unfold encode. cbn [encode_header app decode records].
    rewrite decode_records_encode by (done || lia). cbn [mbind option_bind pf pr magic].
    subst m. by destruct Hf as [->| ->], Hr as [->| ->].
  - intros [m f r rs] tail q (Hm & Hf & Hr & Hrs).
    cbn [magic pf pr records eb_encode eb_decode dialect] in *. unfold encode.
    cbn [encode_header app decode records]. intros (rs' & _ & [= <-])%bind_Some.
    cbn [pf pr magic]. subst m. by destruct Hf as [->| ->], Hr as [->| ->].
Qed.

End Dialect.

(** ** The firmware's request handler: [firmware/eb8008.c] *)

(** The VexRiscv's bus: 32-bit reads and writes.  Its state is apart from the firmware's variables,
    its buffers and its address register, although a write on the target can reach them: what is proved
    over it is of requests that do not write there, which [Stores] makes precise. *)
Class Bus (B : Type) := {
  bus_read : Z -> B -> Z * B;
  bus_write : Z -> Z -> B -> B;
}.

Class BusLaws (B : Type) `{Bus B} : Prop := {
  bus_read_word a b : word32 (bus_read a b).1;
}.

Definition EB_MAGIC0 : Z := 0x4e.
Definition EB_MAGIC1 : Z := 0x6f.
Definition EB_PF : Z := 0x01.
Definition EB_PR : Z := 0x02.

Section Firmware.
Context {B : Type} `{Bus B}.

(** Reading past the end of a buffer is an [IndexError] of the model. *)
Definition byte_at (p : list Z) (i : nat) : M B Z :=
  match p !! i with Some b => ret b | None => raise IndexError end.

Definition get_be32 (p : list Z) : M B Z :=
  match p with
  | b0 :: b1 :: b2 :: b3 :: _ => ret (of_be32 b0 b1 b2 b3)
  | _ => raise IndexError
  end.

Definition put_header (reply : bool) : list Z :=
  [EB_MAGIC0; EB_MAGIC1; Z.lor (Z.shiftl 1 4) (if reply then EB_PR else 0); 0x44; 0; 0; 0; 0].

Definition eb8008_bus_read (addr : Z) : M B Z := fun b => let '(v, b') := bus_read addr b in (Ok v, b').
Definition eb8008_bus_write (addr v : Z) : M B unit := modify (bus_write addr v).

(** [for (int i = 0; i < wcount; i++)] of the writes, from [i] with [n] to go. *)
Fixpoint eb_write_loop (n : nat) (i : Z) (addr : Z) (p : list Z) : M B (list Z) :=
  match n with
  | O => ret p
  | S n' =>
      let! v := get_be32 p in
      eb8008_bus_write ((addr + 4 * i) mod 2 ^ 32) v ;;;
      eb_write_loop n' (i + 1) addr (drop 4 p)
  end.

(** The loop of the reads. *)
Fixpoint eb_read_loop (n : nat) (p resp : list Z) : M B (list Z * list Z) :=
  match n with
  | O => ret (p, resp)
  | S n' =>
      let! addr := get_be32 p in
      let! v := eb8008_bus_read addr in
      eb_read_loop n' (drop 4 p) (resp ++ be32 v)
  end.

(** The writes of a record: [None] is the [break] of a truncated record. *)
Definition eb_record_writes (wcount : Z) (p : list Z) : M B (option (list Z)) :=
  if wcount =? 0 then ret (Some p)
  else if 4 * (1 + wcount) >? Z.of_nat (length p) then ret None
  else let! addr := get_be32 p in
       let! p' := eb_write_loop (Z.to_nat wcount) 0 addr (drop 4 p) in
       ret (Some p').

(** The reads of a record, with the reply so far. *)
Definition eb_record_reads (rcount : Z) (p resp : list Z) : M B (option (list Z) * list Z) :=
  if rcount =? 0 then ret (Some p, resp)
  else if 4 * (1 + rcount) >? Z.of_nat (length p) then ret (None, resp)
  else let! base_ret_addr := get_be32 p in
       let resp := if Z.of_nat (length resp) =? 0 then put_header false else resp in
       let! (p', resp') := eb_read_loop (Z.to_nat rcount) (drop 4 p)
                              (resp ++ [0; 0x0f; Z.land rcount 255; 0] ++ be32 base_ret_addr) in
       ret (Some p', resp').

(** [while (p + 4 <= end)] *)
Fixpoint eb_records (fuel : nat) (p resp : list Z) : M B (list Z) :=
  match fuel with
  | O => diverge
  | S fuel' =>
      if (length p <? 4)%nat then ret resp
      else
        let! wcount := byte_at p 2 in
        let! rcount := byte_at p 3 in
        let! after_writes := eb_record_writes wcount (drop 4 p) in
        match after_writes with
        | None => ret resp
        | Some p1 =>
            let! (after_reads, resp1) := eb_record_reads rcount p1 resp in
            match after_reads with
            | None => ret resp1
            | Some p2 => eb_records fuel' p2 resp1
            end
        end
  end.

(** The reply bytes; empty for no reply. *)
Definition eb8008_handle (req : list Z) : M B (list Z) :=
  if (length req <? 8)%nat then ret []
  else
    let! m0 := byte_at req 0 in
    let! m1 := byte_at req 1 in
    if negb (m0 =? EB_MAGIC0) || negb (m1 =? EB_MAGIC1) then ret []
    else
      let! fl := byte_at req 2 in
      if negb (Z.land fl EB_PF =? 0) then ret (put_header true ++ be32 0)
      else eb_records (S (length req)) (drop 8 req) [].

(** *** Memory safety and the size of the reply *)

Lemma get_be32_ok p b : (4 <= length p)%nat -> exists v, get_be32 p b = (Ok v, b).
Proof. destruct p as [|?[|?[|?[|??]]]]; simpl; intros; try lia. by eexists. Qed.

Lemma byte_at_ok p i b : (i < length p)%nat -> exists v, byte_at p i b = (Ok v, b).
Proof. unfold byte_at. intros [v ->]%lookup_lt_is_Some. by exists v. Qed.

Lemma eb_write_loop_ok n i addr p b :
  (4 * n <= length p)%nat ->
  wp (eb_write_loop n i addr p) (fun r _ => r = Ok (drop (4 * n) p)) b.
Proof.
  revert i p b. induction n as [|n IH]; intros i p b Hp; [by rewrite drop_0|].
  destruct (get_be32_ok p b) as [v Hv]; [lia|]. cbn [eb_write_loop].
  eapply wp_bind_ok; [exact Hv|]. eapply wp_bind_ok; [done|].
  eapply wp_mono; [apply IH; rewrite length_drop; lia|]. intros r _ ->.
  rewrite drop_drop. do 2 f_equal. lia.
Qed.

Lemma eb_read_loop_ok n p resp b :
  (4 * n <= length p)%nat ->
  wp (eb_read_loop n p resp)
     (fun r _ => exists resp', r = Ok (drop (4 * n) p, resp') /\
                               length resp' = (length resp + 4 * n)%nat) b.
Proof.
  revert p resp b. induction n as [|n IH]; intros p resp b Hp.
  { exists resp. split; [by rewrite drop_0|lia]. }
  destruct (get_be32_ok p b) as [v Hv]; [lia|]. cbn [eb_read_loop].
  eapply wp_bind_ok; [exact Hv|]. apply wp_bind.
  unfold eb8008_bus_read, wp at 1. destruct (bus_read v b) as [x b']. simpl.
  eapply wp_mono; [apply IH; rewrite length_drop; lia|]. intros r _ (resp' & -> & Hl).
  exists resp'. split; [by rewrite drop_drop; do 3 f_equal; lia|].
  rewrite Hl, length_app, be32_length. lia.
Qed.

(** What the reply to a request with [n] bytes left may add to [resp]. *)
Definition reply_room (resp : list Z) (n : nat) : nat :=
  match resp with [] => 8 + n | _ => length resp + n end.

Lemma reply_room_mono resp m n : (m <= n)%nat -> (reply_room resp m <= reply_room resp n)%nat.
Proof. destruct resp; simpl; lia. Qed.

Lemma reply_room_ge resp n : (length resp <= reply_room resp n)%nat.
Proof. destruct resp; simpl; lia. Qed.

Lemma eb_record_writes_ok wcount p b :
  0 <= wcount ->
  wp (eb_record_writes wcount p)
     (fun r _ => exists o, r = Ok o /\
                           from_option (fun p' => exists n, p' = drop n p) True o) b.
Proof.
  intros Hw. unfold eb_record_writes. destruct (wcount =? 0).
  { exists (Some p). split; [done|]. by exists 0%nat. }
  destruct (Z.gtb_spec (4 * (1 + wcount)) (Z.of_nat (length p))); [by exists None|].
  destruct (get_be32_ok p b) as [v Hv]; [lia|].
  eapply wp_bind_ok; [exact Hv|]. apply wp_bind.
  eapply wp_mono; [apply eb_write_loop_ok; rewrite length_drop; lia|]. intros r b' ->.
  eexists. split; [done|]. eexists. apply drop_drop.
Qed.

Lemma eb_record_reads_ok rcount p resp b :
  0 <= rcount ->
  wp (eb_record_reads rcount p resp)
     (fun r _ => exists o resp', r = Ok (o, resp') /\
        match o with
        | None => resp' = resp
        | Some p' => (exists n, p' = drop n p) /\
                     forall n, (reply_room resp' (length p' + n) <= reply_room resp (length p + 4 + n))%nat
        end) b.
Proof.
  intros Hr. unfold eb_record_reads. destruct (rcount =? 0).
  { exists (Some p), resp. split_and!; [done|by exists 0%nat|]. intros n. apply reply_room_mono. lia. }
  destruct (Z.gtb_spec (4 * (1 + rcount)) (Z.of_nat (length p))); [by exists None, resp|].
  destruct (get_be32_ok p b) as [v Hv]; [lia|].
  eapply wp_bind_ok; [exact Hv|]. apply wp_bind. cbv zeta.
  eapply wp_mono; [apply eb_read_loop_ok; rewrite length_drop; lia|].
  intros r b' (resp' & -> & Hl). exists (Some (drop (4 * Z.to_nat rcount) (drop 4 p))), resp'.
  rewrite !length_app in Hl. rewrite drop_drop. split_and!; [done|by eexists|].
  intros n. rewrite length_drop.
  destruct resp as [|x resp]; simpl in Hl; destruct resp' as [|y resp']; simpl in Hl |- *; lia.
Qed.

Lemma eb_records_ok fuel p resp b :
  Forall is_byte p -> (length p < fuel)%nat ->
  wp (eb_records fuel p resp)
     (fun r _ => exists resp', r = Ok resp' /\ (length resp' <= reply_room resp (length p))%nat) b.
Proof.
  revert p resp b. induction fuel as [|fuel IH]; intros p resp b Hp Hf; [lia|].
  cbn [eb_records]. destruct (Nat.ltb_spec (length p) 4).
  { exists resp. split; [done|]. apply reply_room_ge. }
  destruct p as [|p0 [|p1 [|wcount [|rcount p]]]]; simpl in H0; try lia. clear H0.
  apply Forall_cons in Hp as [_ Hp]. apply Forall_cons in Hp as [_ Hp].
  apply Forall_cons in Hp as [Hw Hp]. apply Forall_cons in Hp as [Hr Hp].
  unfold is_byte in Hw, Hr. cbn [length] in Hf.
  eapply wp_bind_ok; [done|]. eapply wp_bind_ok; [done|]. apply wp_bind. cbn [drop].
  eapply wp_mono; [apply eb_record_writes_ok; lia|]. intros r1 b1 (o & -> & Ho).
  destruct o as [q|]; [|by exists resp; split; [done|apply reply_room_ge]].
  destruct Ho as [n ->]. apply wp_bind.
  eapply wp_mono; [apply eb_record_reads_ok; lia|]. intros r2 b2 (o & resp1 & -> & Ho).
  destruct o as [q|]; [|subst resp1; by exists resp; split; [done|apply reply_room_ge]].
  destruct Ho as [[m ->] Hroom].
  eapply wp_mono; [apply IH; [by apply Forall_drop, Forall_drop|rewrite !length_drop; lia]|].
  intros r3 b3 (resp' & -> & Hl). exists resp'. split; [done|].
  specialize (Hroom 0%nat). rewrite !Nat.add_0_r in Hroom.
  etrans; [exact Hl|]. etrans; [exact Hroom|]. apply reply_room_mono.
  rewrite !length_drop. cbn [length]. lia.
Qed.

Lemma eb8008_handle_ok req b :
  Forall is_byte req ->
  wp (eb8008_handle req)
     (fun r _ => exists resp, r = Ok resp /\ (length resp <= length req + 4)%nat) b.
Proof.
  intros Hreq. unfold eb8008_handle. destruct (Nat.ltb_spec (length req) 8).
  { exists []. split; [done|simpl; lia]. }
  destruct req as [|m0 [|m1 [|fl req]]]; simpl in H0; try lia.
  eapply wp_bind_ok; [done|]. eapply wp_bind_ok; [done|].
  destruct (negb (m0 =? EB_MAGIC0) || negb (m1 =? EB_MAGIC1)); [by exists []; split; [done|simpl; lia]|].
  eapply wp_bind_ok; [done|].
  destruct (negb (Z.land fl EB_PF =? 0)); [by eexists; split; [done|simpl; lia]|].
  eapply wp_mono; [apply eb_records_ok; [by apply Forall_drop|rewrite length_drop; simpl; lia]|].
  intros r _ (resp & -> & Hl). exists resp. split; [done|].
  revert Hl. unfold reply_room. rewrite length_drop. cbn [length]. lia.
Qed.

(** *** The reply is a list of bytes *)

(** Whatever [m] returns satisfies [P]. *)
Definition yields {A} (P : A -> Prop) (m : M B A) : Prop :=
  forall b, match fst (m b) with Ok a => P a | _ => True end.

Lemma yields_ret {A} (P : A -> Prop) (a : A) : P a -> yields P (ret a).
Proof. intros Ha b. exact Ha. Qed.

Lemma yields_bind {A C} (Q : A -> Prop) (P : C -> Prop) (m : M B A) (k : A -> M B C) :
  yields Q m -> (forall a, Q a -> yields P (k a)) -> yields P (bind m k).
Proof.
  intros Hm Hk b. specialize (Hm b). unfold bind. destruct (m b) as [[a|e|] b']; [|done|done].
  by apply Hk.
Qed.

Lemma yields_any {A} (m : M B A) : yields (fun _ => True) m.
Proof. intros b. by destruct (fst (m b)). Qed.

Lemma put_header_bytes r : Forall is_byte (put_header r).
Proof. destruct r; repeat (apply Forall_cons; split; [by split|]); done. Qed.

Lemma eb_read_loop_bytes n p resp :
  Forall is_byte resp -> yields (fun r => Forall is_byte r.2) (eb_read_loop n p resp).
Proof.
  revert p resp. induction n as [|n IH]; intros p resp Hr; [by apply yields_ret|]. cbn [eb_read_loop].
  eapply yields_bind; [apply yields_any|]. intros addr _. eapply yields_bind; [apply yields_any|]. intros v _.
  apply IH. apply Forall_app_2; [done|apply be32_bytes].
Qed.

Lemma eb_record_reads_bytes rcount p resp :
  Forall is_byte resp -> yields (fun r => Forall is_byte r.2) (eb_record_reads rcount p resp).
Proof.
  intros Hr. unfold eb_record_reads. destruct (rcount =? 0); [by apply yields_ret|].
  destruct (_ >? _); [by apply yields_ret|]. eapply yields_bind; [apply yields_any|]. intros ret_addr _. cbv zeta.
  eapply yields_bind; [apply eb_read_loop_bytes|intros [p' r'] Hr'; by apply yields_ret].
  apply Forall_app_2; [destruct (_ =? 0); [apply put_header_bytes|done]|].
  do 4 (apply Forall_cons; split; [first [apply land_255_byte|by split]|]). apply be32_bytes.
Qed.

Lemma eb_records_bytes fuel p resp :
  Forall is_byte resp -> yields (Forall is_byte) (eb_records fuel p resp).
Proof.
  revert p resp. induction fuel as [|fuel IH]; intros p resp Hr; [done|]. cbn [eb_records].
  destruct (length p <? 4)%nat; [by apply yields_ret|].
  do 2 (eapply yields_bind; [apply yields_any|]; intros ? _).
  eapply yields_bind; [apply yields_any|]. intros [p1|] _; [|by apply yields_ret].
  eapply yields_bind; [by apply eb_record_reads_bytes|]. intros [[p2|] r1] Hr1; [by apply IH|by apply yields_ret].
Qed.

Lemma eb8008_handle_bytes req : yields (Forall is_byte) (eb8008_handle req).
Proof.
  unfold eb8008_handle. destruct (length req <? 8)%nat; [by apply yields_ret|].
  do 2 (eapply yields_bind; [apply yields_any|]; intros ? _). destruct (_ || _); [by apply yields_ret|].
  eapply yields_bind; [apply yields_any|]. intros fl _.
  destruct (negb _); [|by apply eb_records_bytes].
  apply yields_ret, Forall_app_2; [apply put_header_bytes|apply be32_bytes].
Qed.

(** *** What a request means

    The abstract server: every record's writes, then its reads, in order; a
    record with reads is answered by a record that writes the values back to
    the requester's return address. *)

Fixpoint serve_writes (addr i : Z) (vs : list Z) (b : B) : B :=
  match vs with
  | [] => b
  | v :: vs' => serve_writes addr (i + 1) vs' (bus_write ((addr + 4 * i) mod 2 ^ 32) v b)
  end.

Fixpoint serve_reads (ads : list Z) (b : B) : list Z * B :=
  match ads with
  | [] => ([], b)
  | a :: ads' => let '(v, b1) := bus_read a b in
                 let '(vs, b2) := serve_reads ads' b1 in (v :: vs, b2)
  end.

Fixpoint serve (rs : list eb_record) (b : B) : list eb_record * B :=
  match rs with
  | [] => ([], b)
  | EbRecord w d :: rs' =>
      let b1 := from_option (fun w => serve_writes (base_addr w) 0 (datas w) b) b w in
      match d with
      | None => serve rs' b1
      | Some d => let '(vs, b2) := serve_reads (addrs d) b1 in
                  let '(replies, b3) := serve rs' b2 in
                  (EbRecord (Some (EbWrites (base_ret_addr d) vs)) None :: replies, b3)
      end
  end.

Definition reply_bytes (replies : list eb_record) : list Z :=
  match replies with
  | [] => []
  | _ => Dialect.encode 32 (EbPacket etherbone_magic 0 0 replies)
  end.

Lemma get_be32_be32 v rest b : word32 v -> get_be32 (be32 v ++ rest) b = (Ok v, b).
Proof. intros Hv. unfold get_be32, ret. cbn [be32 app]. by rewrite of_be32_be32. Qed.

Lemma drop_be32 v rest : drop 4 (be32 v ++ rest) = rest.
Proof. done. Qed.

Lemma eb_write_loop_run vs i addr rest b :
  Forall word32 vs ->
  eb_write_loop (length vs) i addr (concat (map be32 vs) ++ rest) b =
  (Ok rest, serve_writes addr i vs b).
Proof.
  intros Hvs. revert i b. induction Hvs as [|v vs Hv _ IH]; intros i b; [done|].
  cbn [length map concat eb_write_loop]. rewrite <- app_assoc. unfold bind at 1.
  rewrite get_be32_be32 by done. rewrite drop_be32. apply IH.
Qed.

Lemma eb_read_loop_run ads resp rest b :
  Forall word32 ads ->
  eb_read_loop (length ads) (concat (map be32 ads) ++ rest) resp b =
  (Ok (rest, resp ++ concat (map be32 (serve_reads ads b).1)), (serve_reads ads b).2).
Proof.
  intros Hads. revert resp b. induction Hads as [|a ads Ha _ IH]; intros resp b.
  { unfold ret. simpl. by rewrite app_nil_r. }
  cbn [length map concat eb_read_loop]. rewrite <- app_assoc. unfold bind at 1.
  rewrite get_be32_be32 by done. rewrite drop_be32. cbn [serve_reads].
  unfold bind, eb8008_bus_read. destruct (bus_read a b) as [v b1]. rewrite IH.
  destruct (serve_reads ads b1) as [vs b2]. cbn [fst snd map concat]. by rewrite <- app_assoc.
Qed.

Lemma serve_reads_length ads b : length (serve_reads ads b).1 = length ads.
Proof.
  revert b. induction ads as [|a ads IH]; intros b; [done|]. simpl.
  destruct (bus_read a b) as [v b1]. specialize (IH b1). destruct (serve_reads ads b1). simpl in *. lia.
Qed.

Lemma eb_record_writes_run w rest b :
  from_option (fun w => part_ok (base_addr w) (datas w)) True w ->
  eb_record_writes (Z.of_nat (from_option (fun w => length (datas w)) 0%nat w))
    (from_option (fun w => Dialect.encode_part (base_addr w) (datas w)) [] w ++ rest) b =
  (Ok (Some rest), from_option (fun w => serve_writes (base_addr w) 0 (datas w) b) b w).
Proof.
  destruct w as [[base vs]|]; [|done]. cbn [from_option base_addr datas]. intros (Hb & Hvs & Hl).
  unfold eb_record_writes, Dialect.encode_part. rewrite <- app_assoc.
  destruct (Z.eqb_spec (Z.of_nat (length vs)) 0); [lia|].
  destruct (Z.gtb_spec (4 * (1 + Z.of_nat (length vs)))
             (Z.of_nat (length (be32 base ++ concat (map be32 vs) ++ rest)))) as [Hgt|_].
  { rewrite !length_app, be32_length, concat_be32_length in Hgt. lia. }
  unfold bind at 1. rewrite get_be32_be32 by done. rewrite drop_be32, Nat2Z.id.
  unfold bind. by rewrite eb_write_loop_run.
Qed.

Lemma eb_record_reads_run d rest resp b :
  part_ok (base_ret_addr d) (addrs d) ->
  eb_record_reads (Z.of_nat (length (addrs d)))
    (Dialect.encode_part (base_ret_addr d) (addrs d) ++ rest) resp b =
  (Ok (Some rest, (if Z.of_nat (length resp) =? 0 then put_header false else resp) ++
         Dialect.encode_record
           (EbRecord (Some (EbWrites (base_ret_addr d) (serve_reads (addrs d) b).1)) None)),
   (serve_reads (addrs d) b).2).
Proof.
  destruct d as [base ads]. cbn [base_ret_addr addrs]. intros (Hb & Hads & Hl).
  unfold eb_record_reads, Dialect.encode_part. rewrite <- app_assoc.
  destruct (Z.eqb_spec (Z.of_nat (length ads)) 0); [lia|].
  destruct (Z.gtb_spec (4 * (1 + Z.of_nat (length ads)))
             (Z.of_nat (length (be32 base ++ concat (map be32 ads) ++ rest)))) as [Hgt|_].
  { rewrite !length_app, be32_length, concat_be32_length in Hgt. lia. }
  unfold bind at 1. rewrite get_be32_be32 by done. rewrite drop_be32, Nat2Z.id.
  unfold bind, ret. rewrite eb_read_loop_run by done. unfold Dialect.encode_record, Dialect.encode_part.
  cbn [writes reads from_option datas base_addr]. rewrite serve_reads_length, land_255_id, app_nil_r
    by (unfold is_byte; lia). by rewrite <- !app_assoc.
Qed.

Lemma eb_records_run rs fuel resp b :
  Forall record_ok rs -> (length (concat (map Dialect.encode_record rs)) < fuel)%nat ->
  eb_records fuel (concat (map Dialect.encode_record rs)) resp b =
  (Ok match (serve rs b).1 with
      | [] => resp
      | replies => (if Z.of_nat (length resp) =? 0 then put_header false else resp) ++
                   concat (map Dialect.encode_record replies)
      end, (serve rs b).2).
Proof.
  intros Hrs. revert fuel resp b. induction Hrs as [|[w d] rs [Hw Hr] _ IH]; intros [|fuel] resp b Hf;
    [simpl in Hf; lia|done|simpl in Hf; lia|].
  cbn [map concat] in Hf |- *. rewrite length_app in Hf.
  pose proof (Dialect.encode_record_length (EbRecord w d)).
  set (tl := concat (map Dialect.encode_record rs)) in *.
  unfold Dialect.encode_record at 1. cbn [writes reads] in *. rewrite <- !app_assoc.
  cbn [eb_records app length Nat.ltb Nat.leb]. unfold bind at 1. cbn [byte_at lookup list_lookup ret].
  unfold bind at 1. cbn [ret]. unfold bind at 1. cbn [ret skipn]. rewrite ?drop_0. rewrite eb_record_writes_run by done.
  cbn [serve]. unfold bind at 1. destruct d as [d|]; cbn [from_option] in *.
  2: { cbn. apply IH. lia. }
  rewrite eb_record_reads_run by done. rewrite IH by lia.
  destruct (serve_reads (addrs d) _) as [vs b2]. cbn [fst snd].
  destruct (serve rs b2) as [replies b3]. cbn [fst snd map concat].
  assert (Hne : (Z.of_nat (length ((if Z.of_nat (length resp) =? 0 then put_header false else resp) ++
     Dialect.encode_record (EbRecord (Some (EbWrites (base_ret_addr d) vs)) None))) =? 0) = false).
  { apply Z.eqb_neq. rewrite length_app. pose proof (Dialect.encode_record_length
      (EbRecord (Some (EbWrites (base_ret_addr d) vs)) None)). lia. }
  rewrite Hne. destruct replies; [by rewrite app_nil_r|by rewrite <- app_assoc].
Qed.

Lemma eb8008_handle_run p b :
  packet_ok p -> pf p = 0 ->
  eb8008_handle (Dialect.encode 32 p) b = (Ok (reply_bytes (serve (records p) b).1), (serve (records p) b).2).
Proof.
  destruct p as [m f r rs]. intros (Hm & _ & Hr & Hrs) Hf. cbn [magic pf pr records] in *. subst m f.
  assert (Hh : forall x, eb8008_handle (Dialect.encode_header (EbPacket etherbone_magic 0 r rs) ++ x) b =
                         eb_records (S (8 + length x)) x [] b) by (by destruct Hr as [->| ->]).
  unfold Dialect.encode. cbn [records]. rewrite Hh, eb_records_run by (done || lia).
  by destruct (serve rs b) as [[|??] ?].
Qed.

Lemma serve_reads_ok `{!BusLaws B} ads b : Forall word32 (serve_reads ads b).1.
Proof.
  revert b. induction ads as [|a ads IH]; intros b; [constructor|]. simpl.
  pose proof (bus_read_word a b). destruct (bus_read a b) as [v b1].
  specialize (IH b1). destruct (serve_reads ads b1). by constructor.
Qed.

Lemma serve_ok `{!BusLaws B} rs b : Forall record_ok rs -> Forall record_ok (serve rs b).1.
Proof.
  intros Hrs. revert b. induction Hrs as [|[w d] rs [Hw Hd] _ IH]; intros b; [constructor|].
  cbn [serve]. destruct d as [[base ads]|]; [|apply IH]. cbn [base_ret_addr addrs].
  set (b1 := from_option _ b w). pose proof (serve_reads_ok ads b1) as Hv.
  pose proof (serve_reads_length ads b1) as Hl.
  destruct (serve_reads ads b1) as [vs b2]. specialize (IH b2). destruct (serve rs b2) as [replies b3].
  destruct Hd as (Hb & _ & Hn). cbn [fst addrs] in *. constructor; [|done].
  split; [|done]. split_and!; cbn [from_option base_addr datas]; [done|done|lia|lia].
Qed.

End Firmware.

(** Memory safety of the firmware's handler: on any datagram, [eb8008_handle] returns without
    reading outside the request, and its reply is at most 4 bytes longer than the request, so the
    [req_len + 16] bytes its caller provides always suffice. *)
Theorem eb8008_handle_safe {B} `{Bus B} req b :
  Forall is_byte req ->
  exists resp b', eb8008_handle req b = (Ok resp, b') /\ (length resp <= length req + 4)%nat.
Proof.
  intros Hreq. pose proof (eb8008_handle_ok req b Hreq) as (resp & Hr & Hl).
  exists resp, (snd (eb8008_handle req b)). split; [|done]. rewrite <- Hr. by destruct (eb8008_handle req b).
Qed.

(** C14: The firmware implements the Etherbone dialect: for an encoded packet without the probe flag,
    [eb8008_handle] performs exactly the bus accesses of the abstract server (each record's writes in
    order at [base + 4 i], then its reads) and answers nothing when nothing was read; otherwise its
    reply decodes to one record per read record, carrying the requester's return address and the
    values read.  A packet with the probe flag is answered by a packet that decodes with [pr = 1]. *)
Theorem eb8008_handle_serves {B} `{Bus B} `{!BusLaws B} p b :
  packet_ok p ->
  exists reply, eb8008_handle (Dialect.encode 32 p) b =
                  (Ok reply, if pf p =? 0 then (serve (records p) b).2 else b) /\
    if pf p =? 0
    then match (serve (records p) b).1 with
         | [] => reply = []
         | replies => Dialect.decode 32 reply = Some (EbPacket etherbone_magic 0 0 replies)
         end
    else exists q, Dialect.decode 32 reply = Some q /\ magic q = etherbone_magic /\ pf q = 0 /\ pr q = 1.
Proof.
  intros Hp. destruct (Z.eqb_spec (pf p) 0) as [Hf|Hf].
  - eexists. rewrite eb8008_handle_run by done. split; [done|].
    pose proof (serve_ok (records p) b (proj2 (proj2 (proj2 Hp)))) as Hok.
    destruct (serve (records p) b) as [[|r rs] b']; [done|]. cbn [fst reply_bytes] in *.
    apply (eb_decode_encode (C:=Dialect.dialect) (EbPacket etherbone_magic 0 0 (r :: rs))).
    split_and!; [done|by left|by left|done].
  - destruct p as [m f r rs], Hp as (Hm & Hf' & Hr & _). cbn [magic pf pr] in *. subst m.
    destruct Hf' as [->| ->]; [done|].
    exists (put_header true ++ be32 0). split; [by destruct Hr as [->| ->]|]. by eexists.
Qed.

(** ** Runs *)

Module FirmwareRuns.

(** A memory of 32-bit words. *)
#[global] Instance memory_bus : Bus (gmap Z Z) := {|
  bus_read a m := (default 0 (m !! a) mod 2 ^ 32, m);
  bus_write a v m := <[a := v]> m;
|}.

#[global] Instance memory_bus_laws : BusLaws (gmap Z Z).
Proof. split. intros a m. unfold word32. simpl. apply Z.mod_pos_bound. lia. Qed.

(** Write two words, then read one of them back. *)
Definition request : eb_packet :=
  EbPacket etherbone_magic 0 0
    [EbRecord (Some (EbWrites 0xf0000000 [0xcafe; 0xbabe])) (Some (EbReads 7 [0xf0000004]))].

Lemma request_ok : packet_ok request.
Proof.
  split_and!; [done|by left|by left|]. repeat constructor; unfold word32; simpl; lia.
Qed.

Lemma eb8008_handle_safe_witness :
  exists resp b', eb8008_handle (Dialect.encode 32 request) (∅ : gmap Z Z) = (Ok resp, b') /\
                  (length resp <= length (Dialect.encode 32 request) + 4)%nat.
Proof.
  apply (eb8008_handle_safe (Dialect.encode 32 request) (∅ : gmap Z Z)).
  vm_compute. repeat constructor; discriminate.
Defined.

Lemma eb8008_handle_serves_witness :
  exists reply, eb8008_handle (Dialect.encode 32 request) (∅ : gmap Z Z) =
                  (Ok reply, (serve (records request) (∅ : gmap Z Z)).2) /\
    Dialect.decode 32 reply =
      Some (EbPacket etherbone_magic 0 0 [EbRecord (Some (EbWrites 7 [0xbabe])) None]).
Proof. exact (eb8008_handle_serves request (∅ : gmap Z Z) request_ok). Defined.

End FirmwareRuns.
