(* ===== verification/Bytes.v ===== *)
(** * Buffers of bytes

    What the C of the firmware does to a buffer: stores, [memcpy] and big-endian
    loads.  A buffer is the list of its bytes and every access is checked: [None]
    is an access outside of it. *)

From Stdlib Require Import ZArith Lia List Bool.
From stdpp Require Import base list.
From S2P Require Import Prelude Etherbone.

Open Scope Z_scope.

(** ** Stores and loads *)

(** Store the bytes [bs] from [buf + off]. *)
Definition put (buf : list Z) (off : nat) (bs : list Z) : option (list Z) :=
  if (off + length bs <=? length buf)%nat
  then Some (take off buf ++ bs ++ drop (off + length bs) buf) else None.

(** [memcpy(buf + off, data, len)] *)
Definition memcpy (buf : list Z) (off : nat) (data : list Z) (len : nat) : option (list Z) :=
  if (len <=? length data)%nat then put buf off (take len data) else None.

Definition be16 (v : Z) : list Z := [Z.land (Z.shiftr v 8) 255; Z.land v 255].

Definition put8 (buf : list Z) (off : nat) (v : Z) : option (list Z) := put buf off [Z.land v 255].
Definition put16be (buf : list Z) (off : nat) (v : Z) : option (list Z) := put buf off (be16 v).
Definition put32be (buf : list Z) (off : nat) (v : Z) : option (list Z) := put buf off (be32 v).

Definition get16be (buf : list Z) (off : nat) : option Z :=
  match take 2 (drop off buf) with
  | [p0; p1] => Some (Z.lor (Z.shiftl p0 8) p1)
  | _ => None
  end.

Definition get32be (buf : list Z) (off : nat) : option Z :=
  match take 4 (drop off buf) with
  | [p0; p1; p2; p3] => Some (of_be32 p0 p1 p2 p3)
  | _ => None
  end.

(** The [n] bytes from [buf + off]. *)
Definition slice (buf : list Z) (off n : nat) : option (list Z) :=
  if (off + n <=? length buf)%nat then Some (take n (drop off buf)) else None.

(** ** Lemmas *)

Lemma drop_cons_lookup {A} (buf : list A) off x rest :
  drop off buf = x :: rest ->
  buf !! off = Some x /\ drop (off + 1) buf = rest /\ (length buf <=? off)%nat = false.
Proof.
  intros H. split_and!.
  - by rewrite <- (Nat.add_0_r off), <- lookup_drop, H.
  - by rewrite <- drop_drop, H.
  - apply Nat.leb_gt. apply (f_equal length) in H. rewrite length_drop in H. simpl in H. lia.
Qed.

Lemma get32be_drop buf off : get32be buf off = get32be (drop off buf) 0.
Proof. unfold get32be. by rewrite drop_drop, Nat.add_0_r. Qed.

Lemma get32be_some buf off : (off + 4 <= length buf)%nat -> is_Some (get32be buf off).
Proof.
  intros H. unfold get32be. pose proof (length_take_le (drop off buf) 4) as Hl.
  rewrite length_drop in Hl. specialize (Hl ltac:(lia)).
  destruct (take 4 (drop off buf)) as [|?[|?[|?[|?[|??]]]]]; simpl in Hl; try lia. by eexists.
Qed.

Lemma put_end a rest bs :
  (length bs <= length rest)%nat -> put (a ++ rest) (length a) bs = Some ((a ++ bs) ++ drop (length bs) rest).
Proof.
  intros H. unfold put. rewrite length_app, (proj2 (Nat.leb_le _ _)) by lia.
  by rewrite take_app_length, drop_app_add, (assoc_L (++)).
Qed.

(** Writing inside a prefix leaves the rest of the buffer. *)
Lemma put_prefix a rest off bs :
  (off + length bs <= length a)%nat -> put (a ++ rest) off bs = (fun x => x ++ rest) <$> put a off bs.
Proof.
  intros H. unfold put. rewrite length_app, !(proj2 (Nat.leb_le _ _)) by lia. simpl.
  by rewrite take_app_le, drop_app_le, <- !(assoc_L (++)) by lia.
Qed.

(** A slice that starts inside the buffer. *)
Lemma slice_app a b c : slice (a ++ b ++ c) (length a) (length b) = Some b.
Proof.
  unfold slice. rewrite !length_app, (proj2 (Nat.leb_le _ _)) by lia.
  by rewrite drop_app_length, take_app_length.
Qed.

Lemma be16_bytes v : Forall is_byte (be16 v).
Proof. repeat constructor; apply land_255_byte. Qed.

Lemma be16_length v : length (be16 v) = 2%nat.
Proof. done. Qed.

Lemma be16_word v : 0 <= v < 2 ^ 16 -> Z.lor (Z.shiftl (Z.land (Z.shiftr v 8) 255) 8) (Z.land v 255) = v.
Proof.
  intros Hv. change 255 with (Z.ones 8). rewrite Z.lor_comm, !Z.land_ones, Z.shiftr_div_pow2 by lia.
  rewrite lor_shiftl_add by (try apply Z.mod_pos_bound; lia).
  rewrite (Z.mod_small (v / 2 ^ 8)); [pose proof (Z.div_mod v (2 ^ 8)); lia|].
  split; [apply Z.div_pos; lia|apply Z.div_lt_upper_bound; lia].
Qed.

Lemma get16be_be16 a v c : 0 <= v < 2 ^ 16 -> get16be (a ++ be16 v ++ c) (length a) = Some v.
Proof.
  intros Hv. unfold get16be. rewrite drop_app_length. cbn [be16 app take]. f_equal. by apply be16_word.
Qed.

Lemma get32be_be32 a v c : word32 v -> get32be (a ++ be32 v ++ c) (length a) = Some v.
Proof.
  intros Hv. unfold get32be. rewrite drop_app_length. cbn [be32 app take]. f_equal. by apply of_be32_be32.
Qed.

(** A list of bytes, by its parts. *)
Ltac bytes :=
  repeat lazymatch goal with
         | |- Forall is_byte (_ ++ _) => apply Forall_app_2
         | |- Forall is_byte (be16 _) => apply be16_bytes
         | |- Forall is_byte (be32 _) => apply be32_bytes
         | |- Forall is_byte [] => apply Forall_nil_2
         | |- Forall is_byte (_ :: _) => apply Forall_cons_2
         | |- Forall is_byte (replicate _ _) => apply Forall_replicate
         | |- Forall is_byte _ => assumption
         | |- is_byte (Z.land _ 255) => apply land_255_byte
         | |- is_byte _ => split; [by apply Z.leb_le|by apply Z.ltb_lt]
         end.

(** ** Safe accesses

    [safe m Q]: [m] makes no access outside a buffer, and its result satisfies [Q].
    [buffer n b]: [b] is a buffer of [n] bytes. *)

Definition safe {A} (m : option A) (Q : A -> Prop) : Prop := exists x, m = Some x /\ Q x.

Definition buffer (n : nat) (b : list Z) : Prop := length b = n /\ Forall is_byte b.

Lemma safe_ret {A} (x : A) (Q : A -> Prop) : Q x -> safe (Some x) Q.
Proof. by exists x. Qed.

Lemma safe_bind {A B} (m : option A) (k : A -> option B) (Q : B -> Prop) :
  safe m (fun x => safe (k x) Q) -> safe (m ≫= k) Q.
Proof. by intros (x & -> & H). Qed.

Lemma safe_mono {A} (m : option A) (P Q : A -> Prop) : safe m P -> (forall x, P x -> Q x) -> safe m Q.
Proof. intros (x & -> & H) HPQ. exists x. auto. Qed.

Lemma safe_put n buf off bs (Q : list Z -> Prop) :
  buffer n buf -> Forall is_byte bs -> (off + length bs <= n)%nat ->
  (forall buf', buffer n buf' -> Q buf') -> safe (put buf off bs) Q.
Proof.
  intros [Hl Hb] Hbs Hn HQ. unfold put. rewrite Hl, (proj2 (Nat.leb_le _ _)) by done. apply safe_ret, HQ. split.
  - rewrite !length_app, length_take, length_drop. lia.
  - apply Forall_app_2; [by apply Forall_take|]. apply Forall_app_2; [done|by apply Forall_drop].
Qed.

Lemma safe_memcpy n buf off data len (Q : list Z -> Prop) :
  buffer n buf -> Forall is_byte data -> (len <= length data)%nat -> (off + len <= n)%nat ->
  (forall buf', buffer n buf' -> Q buf') -> safe (memcpy buf off data len) Q.
Proof.
  intros Hb Hd Hl Hn HQ. unfold memcpy. rewrite (proj2 (Nat.leb_le _ _)) by done.
  eapply safe_put; [done|by apply Forall_take|rewrite length_take; lia|done].
Qed.

Lemma safe_slice n buf off len (Q : list Z -> Prop) :
  buffer n buf -> (off + len <= n)%nat -> (forall bs, buffer len bs -> Q bs) -> safe (slice buf off len) Q.
Proof.
  intros [Hl Hb] Hn HQ. unfold slice. rewrite Hl, (proj2 (Nat.leb_le _ _)) by done. apply safe_ret, HQ. split.
  - rewrite length_take, length_drop. lia.
  - by apply Forall_take, Forall_drop.
Qed.

Lemma safe_lookup n buf off (Q : Z -> Prop) :
  buffer n buf -> (off < n)%nat -> (forall b, is_byte b -> Q b) -> safe (buf !! off) Q.
Proof.
  intros [Hl Hb] Hn HQ. destruct (lookup_lt_is_Some_2 buf off) as [b E]; [lia|]. rewrite E. apply safe_ret, HQ.
  by eapply Forall_lookup_1.
Qed.

Lemma safe_get16be n buf off (Q : Z -> Prop) :
  buffer n buf -> (off + 2 <= n)%nat -> (forall v, 0 <= v < 2 ^ 16 -> Q v) -> safe (get16be buf off) Q.
Proof.
  intros [Hl Hb] Hn HQ. unfold get16be.
  assert (Ht : length (take 2 (drop off buf)) = 2%nat) by (rewrite length_take, length_drop; lia).
  assert (Hf : Forall is_byte (take 2 (drop off buf))) by (by apply Forall_take, Forall_drop).
  destruct (take 2 (drop off buf)) as [|p0 [|p1 [|??]]]; try discriminate.
  apply Forall_cons in Hf as [H0 Hf]. apply Forall_cons in Hf as [H1 _]. unfold is_byte in H0, H1.
  apply safe_ret, HQ. rewrite Z.lor_comm, lor_shiftl_add by lia. lia.
Qed.

Lemma safe_get32be n buf off (Q : Z -> Prop) :
  buffer n buf -> (off + 4 <= n)%nat -> (forall v, word32 v -> Q v) -> safe (get32be buf off) Q.
Proof.
  intros [Hl Hb] Hn HQ. unfold get32be.
  assert (Ht : length (take 4 (drop off buf)) = 4%nat) by (rewrite length_take, length_drop; lia).
  assert (Hf : Forall is_byte (take 4 (drop off buf))) by (by apply Forall_take, Forall_drop).
  destruct (take 4 (drop off buf)) as [|p0 [|p1 [|p2 [|p3 [|??]]]]]; try discriminate.
  rewrite !Forall_cons in Hf. destruct Hf as (H0 & H1 & H2 & H3 & _).
  apply safe_ret, HQ. unfold word32. by apply of_be32_range.
Qed.

(** Deciding that a concrete list is a buffer. *)
Definition is_buffer (n : nat) (b : list Z) : bool :=
  (length b =? n)%nat && forallb (fun x => (0 <=? x) && (x <? 256)) b.

Lemma is_buffer_spec n b : is_buffer n b = true -> buffer n b.
Proof.
  unfold is_buffer. intros [Hl Hb]%andb_prop. apply Nat.eqb_eq in Hl. split; [done|].
  apply Forall_forall. intros x Hx. rewrite forallb_forall in Hb.
  specialize (Hb x (proj1 (list_elem_of_In _ _) Hx)). apply andb_prop in Hb as [H0 H1].
  apply Z.leb_le in H0. apply Z.ltb_lt in H1. by split.
Qed.
