(* ===== verification/Discovery.v ===== *)
(** * Board discovery: [host/b8008net/discovery.py]

    The cache file, the resolver, the broadcast probe and the subnet sweep,
    over the operating system of [HostOS] and an arbitrary Etherbone codec.
    The theorems: addresses round-trip, the sweep covers exactly the other
    hosts of the subnet, the cache round-trips, the probes return the sender
    of the first datagram that is a probe reply and came before the deadline,
    and [discover] follows its order of strategies and leaves the cache and
    the sockets as it should. *)

From Stdlib Require Import ZArith Lia List Bool Ascii.
From stdpp Require Import base list strings pretty gmap.
From S2P Require Import Prelude Text HostOS Etherbone.

Open Scope Z_scope.

(** ** Constants *)

Definition ETHERBONE_PORT : Z := 1234.
Definition DNS_NAMES : list string := ["b8008"; "b8008.lan"]%string.
(** 0.5 s *)
Definition SWEEP_TIMEOUT_S : Z := 500000.

(** ** Dotted addresses: [socket.inet_aton] and [socket.inet_ntoa] *)

Fixpoint parse_digits (base acc : Z) (s : string) : option Z :=
  match s with
  | EmptyString => Some acc
  | String c rest => d ← digit_val c;
                     if d <? base then parse_digits base (acc * base + d) rest else None
  end.

(** A number as [strtoul] reads it in base 0. *)
Definition parse_number (s : string) : option Z :=
  match s with
  | EmptyString => None
  | String c rest =>
      if (c =? "0")%char then
        match rest with
        | String x (String _ _ as hex) =>
            if ((x =? "x") || (x =? "X"))%char then parse_digits 16 0 hex else parse_digits 8 0 rest
        | _ => parse_digits 8 0 rest
        end
      else parse_digits 10 0 s
  end.

(** The parts between dots. *)
Fixpoint split_dots (s : string) : list string :=
  match s with
  | EmptyString => [EmptyString]
  | String c rest =>
      if (c =? ".")%char then EmptyString :: split_dots rest
      else match split_dots rest with
           | p :: ps => String c p :: ps
           | [] => [String c EmptyString]
           end
  end.

(** The address ends at the first white space of the C locale. *)
Fixpoint until_space (s : string) : string :=
  match s with
  | EmptyString => EmptyString
  | String c rest =>
      let n := N_of_ascii c in
      if (((9 <=? n) && (n <=? 13)) || (n =? 32))%N then EmptyString
      else String c (until_space rest)
  end.

(** One to four parts; the last one fills the remaining bytes. *)
Definition inet_aton (s : string) : option Z :=
  ps ← mapM parse_number (split_dots (until_space s));
  match ps with
  | [a] => if a <? 2 ^ 32 then Some a else None
  | [a; b] => if (a <? 256) && (b <? 2 ^ 24) then Some (a * 2 ^ 24 + b) else None
  | [a; b; c] =>
      if (a <? 256) && (b <? 256) && (c <? 2 ^ 16) then Some (a * 2 ^ 24 + b * 2 ^ 16 + c) else None
  | [a; b; c; d] =>
      if (a <? 256) && (b <? 256) && (c <? 256) && (d <? 256)
      then Some (a * 2 ^ 24 + b * 2 ^ 16 + c * 2 ^ 8 + d) else None
  | _ => None
  end.

Definition inet_ntoa (n : Z) : string :=
  match be32 n with
  | [a; b; c; d] => pretty a +:+ "." +:+ pretty b +:+ "." +:+ pretty c +:+ "." +:+ pretty d
  | _ => ""
  end.

Definition _ip_to_int {W} (ip : string) : M W Z :=
  match inet_aton ip with Some n => ret n | None => raise OSError end.

Definition _int_to_ip (n : Z) : string := inet_ntoa (Z.land n 0xFFFFFFFF).

(** ** The subnet *)

Definition subnet_candidates {W} (ip netmask : string) : M W (list string) :=
  let! ip_i := _ip_to_int ip in
  let! mask_i := _ip_to_int netmask in
  let network := Z.land ip_i mask_i in
  let broadcast := Z.lor network (Z.land (Z.lnot mask_i) 0xFFFFFFFF) in
  ret (_int_to_ip <$> filter (fun host => host <> ip_i)
                        (seqZ (network + 1) (broadcast - (network + 1)))).

(** ** The cache *)

Definition save_cache (path ip : string) : M host unit :=
  write_file path (strip ip +:+ String "010" EmptyString).

Definition load_cache (path : string) : M host (option string) :=
  try_except (let! text := read_file path in ret (or_none (strip text)))
    (fun e => bool_decide (e = FileNotFoundError))
    (fun _ => ret None).

Definition clear_cache (path : string) : M host unit :=
  try_except (os_remove path) (fun e => bool_decide (e = FileNotFoundError)) (fun _ => ret tt).

(** ** The resolver *)

Fixpoint resolve_dns (names : list string) : M host (option string) :=
  match names with
  | [] => ret None
  | name :: names' =>
      try_except (let! ip := gethostbyname name in ret (Some ip)) is_OSError
        (fun _ => resolve_dns names')
  end.

(** ** Probes *)

Section Probes.
Context {C : EtherboneCodec}.

Definition probe_packet : list Z := eb_encode 32 (EbPacket etherbone_magic 1 0 []).

Definition _is_probe_reply (data : list Z) : bool :=
  match eb_decode 32 data with
  | None => false
  | Some pkt => (magic pkt =? etherbone_magic) && (pr pkt =? 1)
  end.

Definition local_ipv4_and_netmask : M host (string * string) :=
  let! s := socket_new in
  let! ip := try_finally (socket_connect s ;;; getsockname s) (socket_close s) in
  ret (ip, "255.255.255.0"%string).

(** The receive loop both probes end with. *)
Fixpoint probe_listen (fuel : nat) (sock : nat) (deadline : Z) : M host (option string) :=
  match fuel with
  | O => diverge
  | S fuel' =>
      let! now := monotonic in
      let remaining := deadline - now in
      if remaining <=? 0 then ret None
      else
        let! readable := select_readable sock remaining in
        if negb readable then ret None
        else
          let! (data, addr) := recvfrom sock 2048 in
          if _is_probe_reply data then ret (Some addr)
          else probe_listen fuel' sock deadline
  end.

(** Enough turns for every datagram the socket will ever have. *)
Definition listen_fuel (sock : nat) : M host nat :=
  gets (fun h => S (from_option (fun s => length (sk_inbox s)) 0%nat (socks h !! sock))).

(** [for target in targets: try: sendto ... except OSError: continue],
    counting the sends that succeed. *)
Fixpoint probe_send (sock : nat) (port : Z) (targets : list string) : M host Z :=
  match targets with
  | [] => ret 0
  | target :: targets' =>
      let! one := try_except (sendto sock probe_packet (target, port) ;;; ret 1) is_OSError
                    (fun _ => ret 0) in
      let! n := probe_send sock port targets' in
      ret (one + n)
  end.

(** The targets of the broadcast probe: the subnet-directed form first, when
    the local address is known. *)
Definition broadcast_targets : M host (list string) :=
  try_except
    (let! (ip, netmask) := local_ipv4_and_netmask in
     let! ip_i := _ip_to_int ip in
     let! mask_i := _ip_to_int netmask in
     ret [_int_to_ip (Z.lor ip_i (Z.land (Z.lnot mask_i) 0xFFFFFFFF)); "255.255.255.255"%string])
    is_OSError
    (fun _ => ret ["255.255.255.255"%string]).

(** [try: ... finally: if owns_sock: sock.close()] *)
Definition closing_if {A} (owns : bool) (sock : nat) (m : M host A) : M host A :=
  try_finally m (if owns then socket_close sock else ret tt).

Definition probe_broadcast (port timeout : Z) (given : option nat) : M host (option string) :=
  let! sock := match given with
               | Some s => ret s
               | None => let! s := socket_new in set_broadcast s ;;; ret s
               end in
  closing_if (bool_decide (given = None)) sock
    (let! targets := broadcast_targets in
     let! sent := probe_send sock port targets in
     if sent =? 0 then ret None
     else
       let! now := monotonic in
       let! fuel := listen_fuel sock in
       probe_listen fuel sock (now + timeout)).

Definition probe_sweep (candidates : list string) (port timeout : Z) (given : option nat) :
    M host (option string) :=
  let! sock := match given with Some s => ret s | None => socket_new end in
  closing_if (bool_decide (given = None)) sock
    (probe_send sock port candidates ;;;
     let! now := monotonic in
     let! fuel := listen_fuel sock in
     probe_listen fuel sock (now + timeout)).

(** ** [discover] *)

(** [if found: save_cache(path, found)]: the empty string is not found. *)
Definition found_host (r : option string) : option string := r ≫= or_none.

Definition discover_sweep (cache_path : string) : M host (option string) :=
  let! candidates :=
    try_except
      (let! (ip, netmask) := local_ipv4_and_netmask in
       let! cs := subnet_candidates ip netmask in
       ret (Some cs))
      is_OSError (fun _ => ret None) in
  match candidates with
  | None => ret None
  | Some cs =>
      let! found := probe_sweep cs ETHERBONE_PORT SWEEP_TIMEOUT_S None in
      match found_host found with
      | Some ip => save_cache cache_path ip ;;; ret found
      | None => ret found
      end
  end.

Definition discover_dns (cache_path : string) : M host (option string) :=
  let! dns_host := resolve_dns DNS_NAMES in
  match found_host dns_host with
  | Some ip => save_cache cache_path ip ;;; ret (Some ip)
  | None => discover_sweep cache_path
  end.

Definition discover_network (cache_path : string) : M host (option string) :=
  let! bcast_host := probe_broadcast ETHERBONE_PORT SWEEP_TIMEOUT_S None in
  match found_host bcast_host with
  | Some ip => save_cache cache_path ip ;;; ret (Some ip)
  | None => discover_dns cache_path
  end.

Definition discover (cache_path : string) (use_cache : bool) : M host (option string) :=
  let! cached := if use_cache then load_cache cache_path else ret None in
  match cached with
  | Some ip => ret (Some ip)
  | None => discover_network cache_path
  end.

End Probes.

(** ** Addresses *)

(** Characters that are neither dots nor white space. *)
Fixpoint plain (s : string) : bool :=
  match s with
  | EmptyString => true
  | String c rest =>
      let n := N_of_ascii c in
      negb (c =? ".")%char && negb (((9 <=? n) && (n <=? 13)) || (n =? 32))%N && plain rest
  end.

Lemma split_dots_plain s rest :
  plain s = true -> split_dots (s +:+ "." +:+ rest) = s :: split_dots rest.
Proof.
  induction s as [|c s IH]; [done|]. cbn [plain]. rewrite !andb_true_iff. intros [[Hc _] Hs].
  change (String c s +:+ "." +:+ rest) with (String c (s +:+ "." +:+ rest)).
  cbn [split_dots]. apply negb_true_iff in Hc. by rewrite Hc, IH.
Qed.

Lemma split_dots_last s : plain s = true -> split_dots s = [s].
Proof.
  induction s as [|c s IH]; [done|]. cbn [plain split_dots]. rewrite !andb_true_iff.
  intros [[Hc%negb_true_iff _] Hs]. by rewrite Hc, IH.
Qed.

Lemma until_space_plain s t : plain s = true -> until_space (s +:+ t) = s +:+ until_space t.
Proof.
  induction s as [|c s IH]; [done|]. cbn [plain]. rewrite !andb_true_iff. intros [[_ Hc%negb_true_iff] Hs].
  change (String c s +:+ t) with (String c (s +:+ t)). cbn [until_space]. by rewrite Hc, IH.
Qed.

Lemma until_space_dot s : until_space ("." +:+ s) = "." +:+ until_space s.
Proof. done. Qed.

Lemma until_space_last s : plain s = true -> until_space s = s.
Proof. induction s as [|c s IH]; [done|]. cbn [plain until_space]. rewrite !andb_true_iff.
  intros [[_ Hc%negb_true_iff] Hs]. by rewrite Hc, IH.
Qed.

Lemma byte_text b : is_byte b -> plain (pretty b) = true /\ parse_number (pretty b) = Some b.
Proof.
  intros Hb.
  assert (Hall : forallb (fun n => plain (pretty n) && bool_decide (parse_number (pretty n) = Some n))
                   (seqZ 0 256) = true) by (vm_compute; reflexivity).
  rewrite forallb_forall in Hall. specialize (Hall b).
  rewrite andb_true_iff, bool_decide_eq_true in Hall. apply Hall.
  apply list_elem_of_In, elem_of_seqZ. unfold is_byte in Hb. lia.
Qed.

Lemma inet_aton_quad a b c d :
  is_byte a -> is_byte b -> is_byte c -> is_byte d ->
  inet_aton (pretty a +:+ "." +:+ pretty b +:+ "." +:+ pretty c +:+ "." +:+ pretty d) =
  Some (of_be32 a b c d).
Proof.
  intros Ha Hb Hc Hd. rewrite of_be32_sum by done. unfold inet_aton.
  destruct (byte_text a Ha) as [Pa Na], (byte_text b Hb) as [Pb Nb],
           (byte_text c Hc) as [Pc Nc], (byte_text d Hd) as [Pd Nd].
  do 3 (rewrite until_space_plain, until_space_dot by done). rewrite until_space_last by done.
  rewrite !split_dots_plain, split_dots_last by done. cbn [mapM mbind option_bind].
  rewrite Na, Nb, Nc, Nd. cbn [mbind option_bind mret option_ret]. unfold is_byte in *.
  destruct (Z.ltb_spec a 256), (Z.ltb_spec b 256), (Z.ltb_spec c 256), (Z.ltb_spec d 256); try lia.
  simpl. f_equal. lia.
Qed.

Lemma inet_aton_ntoa n : word32 n -> inet_aton (inet_ntoa n) = Some n.
Proof.
  intros Hn. unfold inet_ntoa, be32. rewrite inet_aton_quad by apply land_255_byte.
  by rewrite of_be32_be32.
Qed.

Lemma land_word n : Z.land n 0xFFFFFFFF = n mod 2 ^ 32.
Proof. change 0xFFFFFFFF with (Z.ones 32). by rewrite Z.land_ones. Qed.

Lemma mod_word32 n : word32 (n mod 2 ^ 32).
Proof. apply Z.mod_pos_bound. lia. Qed.

Lemma inet_aton_int n : inet_aton (_int_to_ip n) = Some (n mod 2 ^ 32).
Proof. unfold _int_to_ip. rewrite land_word. apply inet_aton_ntoa, mod_word32. Qed.

(** Addresses round-trip: [_ip_to_int] reads back what [_int_to_ip] prints, for every integer
    (reduced to 32 bits), so two addresses print alike only if they are the same address. *)
Theorem ip_int_roundtrip n :
  (forall (h : host), _ip_to_int (_int_to_ip n) h = (Ok (n mod 2 ^ 32), h)) /\
  (forall m, _int_to_ip m = _int_to_ip n <-> m mod 2 ^ 32 = n mod 2 ^ 32).
Proof.
  split.
  - intros h. unfold _ip_to_int. by rewrite inet_aton_int.
  - intros m. split; intros Heq.
    + apply (f_equal inet_aton) in Heq. rewrite !inet_aton_int in Heq. by injection Heq.
    + unfold _int_to_ip. by rewrite !land_word, Heq.
Qed.

(** ** The subnet *)

Lemma digit_val_nonneg c d : digit_val c = Some d -> 0 <= d.
Proof.
  unfold digit_val. pose proof (N2Z.is_nonneg (N_of_ascii c)). intros Hd. repeat case_match; simplify_eq;
  repeat match goal with H : _ && _ = true |- _ => apply andb_true_iff in H as [?%Z.leb_le ?] end; lia.
Qed.

Lemma parse_digits_nonneg base acc s n :
  0 <= base -> 0 <= acc -> parse_digits base acc s = Some n -> 0 <= n.
Proof.
  intros Hb. revert acc. induction s as [|c s IH]; intros acc Ha Hn; simplify_eq/=; [done|].
  apply bind_Some in Hn as (d & Hd%digit_val_nonneg & Hn). case_match; [|done].
  eapply IH; [|exact Hn]. nia.
Qed.

Lemma parse_number_nonneg s n : parse_number s = Some n -> 0 <= n.
Proof.
  unfold parse_number. intros Hn.
  repeat case_match; try done; refine (parse_digits_nonneg _ _ _ _ _ _ Hn); lia.
Qed.

Lemma inet_aton_range s n : inet_aton s = Some n -> word32 n.
Proof.
  unfold inet_aton, word32. intros (ps & Hps%mapM_Some_1 & Hn)%bind_Some.
  assert (Hnn : Forall (fun z => 0 <= z) ps).
  { eapply Forall2_Forall_r; [exact Hps|]. apply Forall_true. intros x y. apply parse_number_nonneg. }
  clear Hps.
  destruct ps as [|a [|b [|c [|d [|e ps]]]]]; try done; rewrite !Forall_cons in Hnn; destruct_and! Hnn;
    case_match; simplify_eq;
    repeat match goal with H : _ && _ = true |- _ => apply andb_true_iff in H as [??] end;
    rewrite ?Z.ltb_lt in *; lia.
Qed.

Section Mask.
Context (i k : Z) (Hi : word32 i) (Hk : 0 <= k <= 32).

Lemma pow_le_word : 0 < 2 ^ k <= 2 ^ 32.
Proof. split; [lia|]. apply Z.pow_le_mono_r; lia. Qed.

Lemma mask_host_bits : Z.land (Z.lnot (2 ^ 32 - 2 ^ k)) 0xFFFFFFFF = 2 ^ k - 1.
Proof.
  pose proof pow_le_word. rewrite land_word. unfold Z.lnot. symmetry.
  apply Z.mod_unique with (q := -1); lia.
Qed.

Lemma mask_network : Z.land i (2 ^ 32 - 2 ^ k) = i / 2 ^ k * 2 ^ k.
Proof.
  pose proof pow_le_word.
  replace (2 ^ 32 - 2 ^ k) with (Z.land (Z.lnot (Z.ones k)) (Z.ones 32)).
  - rewrite Z.land_assoc, <- Z.ldiff_land, Z.ldiff_ones_r by lia.
    rewrite Z.land_ones, Z.shiftl_mul_pow2, Z.shiftr_div_pow2 by lia. apply Z.mod_small.
    pose proof (Z.mul_div_le i (2 ^ k)). assert (0 <= i / 2 ^ k) by (apply Z.div_pos; unfold word32 in Hi; lia).
    unfold word32 in Hi. nia.
  - rewrite Z.land_ones, Z.ones_equiv by lia. unfold Z.lnot. symmetry.
    destruct (Z.eq_dec k 32) as [->|]; [done|].
    assert (2 ^ k < 2 ^ 32) by (apply Z.pow_lt_mono_r; lia).
    apply Z.mod_unique with (q := -1); lia.
Qed.

Lemma mask_broadcast : Z.lor (i / 2 ^ k * 2 ^ k) (2 ^ k - 1) = i / 2 ^ k * 2 ^ k + (2 ^ k - 1).
Proof.
  pose proof pow_le_word. rewrite Z.lor_comm, <- Z.shiftl_mul_pow2, lor_shiftl_add by lia.
  rewrite Z.shiftl_mul_pow2; lia.
Qed.

(** The range the comprehension runs over, as a condition on the host part. *)
Lemma subnet_range n :
  i / 2 ^ k * 2 ^ k + 1 <= n < i / 2 ^ k * 2 ^ k + (2 ^ k - 1) <->
  n / 2 ^ k = i / 2 ^ k /\ n mod 2 ^ k <> 0 /\ n mod 2 ^ k <> 2 ^ k - 1.
Proof.
  pose proof pow_le_word. pose proof (Z.div_mod n (2 ^ k)). pose proof (Z.mod_pos_bound n (2 ^ k)).
  split.
  - intros Hn. assert (n / 2 ^ k = i / 2 ^ k) as E.
    { symmetry. apply (Z.div_unique n (2 ^ k) _ (n - i / 2 ^ k * 2 ^ k)); lia. }
    rewrite E in *. lia.
  - intros (E & ? & ?). rewrite E in *. lia.
Qed.

End Mask.

Lemma elem_of_subnet i k n :
  word32 i -> 0 <= k <= 32 ->
  n ∈ seqZ (i / 2 ^ k * 2 ^ k + 1) (2 ^ k - 2) <->
  word32 n /\ n / 2 ^ k = i / 2 ^ k /\ n mod 2 ^ k <> 0 /\ n mod 2 ^ k <> 2 ^ k - 1.
Proof.
  intros Hi Hk. rewrite elem_of_seqZ, <- (subnet_range i k Hk). split; [|lia].
  intros Hn. split; [|lia]. pose proof (pow_le_word k Hk). unfold word32 in *.
  assert (i / 2 ^ k <= (2 ^ 32 - 1) / 2 ^ k) by (apply Z.div_le_mono; lia).
  assert (0 <= i / 2 ^ k) by (apply Z.div_pos; lia).
  assert (2 ^ 32 = 2 ^ (32 - k) * 2 ^ k) as E by (rewrite <- Z.pow_add_r; [f_equal|..]; lia).
  assert ((2 ^ 32 - 1) / 2 ^ k = 2 ^ (32 - k) - 1) as E'.
  { symmetry. apply Z.div_unique with (r := 2 ^ k - 1); lia. }
  nia.
Qed.

Lemma subnet_candidates_run ip netmask i k (h : host) :
  inet_aton ip = Some i -> inet_aton netmask = Some (2 ^ 32 - 2 ^ k) -> 0 <= k <= 32 ->
  subnet_candidates ip netmask h =
  (Ok (_int_to_ip <$> filter (fun n => n <> i) (seqZ (i / 2 ^ k * 2 ^ k + 1) (2 ^ k - 2))), h).
Proof.
  intros Hi Hm Hk. unfold subnet_candidates, _ip_to_int. rewrite Hi, Hm.
  cbn [bind ret]. unfold bind, ret. cbv zeta.
  rewrite mask_host_bits, mask_network, mask_broadcast by eauto using inet_aton_range.
  do 5 f_equal. lia.
Qed.

(** The sweep covers the subnet exactly: for a contiguous netmask [2^32 - 2^k],
    [subnet_candidates] lists, without repetition, the addresses with [ip]'s network part whose host
    part is neither all zeros (the network) nor all ones (the broadcast address), except [ip]. *)
Theorem subnet_candidates_exact ip netmask i k (h : host) :
  inet_aton ip = Some i -> inet_aton netmask = Some (2 ^ 32 - 2 ^ k) -> 0 <= k <= 32 ->
  exists cs, subnet_candidates ip netmask h = (Ok cs, h) /\ NoDup cs /\
    forall s, s ∈ cs <->
      exists n, word32 n /\ s = _int_to_ip n /\
        n / 2 ^ k = i / 2 ^ k /\ n mod 2 ^ k <> 0 /\ n mod 2 ^ k <> 2 ^ k - 1 /\ n <> i.
Proof.
  intros Hi Hm Hk. pose proof (inet_aton_range _ _ Hi) as Hw. eexists.
  split; [by apply subnet_candidates_run|]. split.
  - apply NoDup_fmap_2_strong; [|apply NoDup_filter, NoDup_seqZ].
    intros x y [_ Hx]%list_elem_of_filter [_ Hy]%list_elem_of_filter Heq.
    apply elem_of_subnet in Hx, Hy; [|done..]. apply (f_equal inet_aton) in Heq.
    rewrite !inet_aton_int, !Z.mod_small in Heq by (unfold word32 in *; tauto). by injection Heq.
  - intros s. rewrite list_elem_of_fmap. split.
    + intros (n & -> & [Hn Hin]%list_elem_of_filter). exists n. apply elem_of_subnet in Hin; tauto.
    + intros (n & Hn & -> & Hrest). exists n. split; [done|]. apply list_elem_of_filter.
      split; [tauto|]. apply elem_of_subnet; tauto.
Qed.

(** ** The cache *)

Lemma save_cache_run path ip (h : host) :
  path ∉ denied h ->
  save_cache path ip h = (Ok tt, set_files (<[path := strip ip +:+ newline]> (files h)) h).
Proof. intros Hp. unfold save_cache, write_file, bind, get. by rewrite decide_False. Qed.

(** What the cache at [path] says. *)
Definition cached_host (path : string) (h : host) : option string :=
  files h !! path ≫= fun text => or_none (strip (universal_newlines text)).

Lemma load_cache_run path (h : host) :
  path ∉ denied h -> load_cache path h = (Ok (cached_host path h), h).
Proof.
  intros Hp. unfold load_cache, cached_host, read_file, try_except, bind, get.
  destruct (files h !! path); [by rewrite decide_False|done].
Qed.

Lemma clear_cache_run path (h : host) :
  path ∉ denied h ->
  clear_cache path h = (Ok tt, set_files (delete path (files h)) h).
Proof.
  intros Hp. unfold clear_cache, os_remove, try_except, bind, get.
  destruct (files h !! path) eqn:E; [by rewrite decide_False|].
  cbn. rewrite delete_id by done. by destruct h.
Qed.

Lemma cached_host_saved path ip (h : host) :
  no_cr (strip ip) = true ->
  cached_host path (set_files (<[path := strip ip +:+ newline]> (files h)) h) = or_none (strip ip).
Proof.
  intros Hcr. unfold cached_host. cbn [files set_files]. rewrite lookup_insert_eq. cbn [mbind option_bind].
  rewrite universal_newlines_id by (by rewrite no_cr_app, Hcr). by rewrite strip_line.
Qed.

(** The cache round-trips: after [save_cache] of any host name, [load_cache] gives the name with
    its surrounding white space removed ([None] when nothing is left); after [clear_cache], [None];
    no other file changes. *)
Theorem cache_roundtrip path ip (h : host) :
  path ∉ denied h -> no_cr (strip ip) = true ->
  exists h1 h2, save_cache path ip h = (Ok tt, h1) /\ load_cache path h1 = (Ok (or_none (strip ip)), h1) /\
    clear_cache path h1 = (Ok tt, h2) /\ load_cache path h2 = (Ok None, h2) /\
    forall p, p <> path -> files h1 !! p = files h !! p /\ files h2 !! p = files h !! p.
Proof.
  intros Hp Hcr. eexists _, _.
  split; [by apply save_cache_run|]. split; [by rewrite load_cache_run, cached_host_saved|].
  split; [by apply clear_cache_run|]. split.
  - rewrite load_cache_run by done. unfold cached_host. cbn [files set_files]. by rewrite lookup_delete_eq.
  - intros p Hne. cbn [files set_files]. by rewrite lookup_delete_ne, !lookup_insert_ne.
Qed.

(** ** The receive loop *)

Section Listen.
Context {C : EtherboneCodec}.

(** A datagram as the loop sees it is a probe reply. *)
Definition is_reply (d : dgram) : Prop := _is_probe_reply (take 2048 (d_data d)) = true.

(** The first probe reply of the queue comes from [a] and is there by the
    deadline; everything before it came earlier and was noise. *)
Definition answered (deadline : Z) (inbox : list dgram) (a : string) : Prop :=
  exists pre d post, inbox = pre ++ d :: post /\ is_reply d /\ d_at d <= deadline /\ d_from d = a /\
    Forall (fun x => ~ is_reply x /\ d_at x < deadline) pre.

Lemma answered_nil deadline a : ~ answered deadline [] a.
Proof. intros (pre & d & post & Hq & _). by destruct pre. Qed.

Lemma answered_head deadline d q a :
  is_reply d -> answered deadline (d :: q) a <-> d_at d <= deadline /\ d_from d = a.
Proof.
  intros Hd. split.
  - intros ([|x pre] & d' & post & Hq & Hr & Ht & Ha & Hpre); simplify_eq/=; [done|].
    apply Forall_cons in Hpre as [[] _]. done.
  - intros [Ht Ha]. by exists [], d, q.
Qed.

Lemma answered_skip deadline d q a :
  ~ is_reply d -> answered deadline (d :: q) a <-> d_at d < deadline /\ answered deadline q a.
Proof.
  intros Hd. split.
  - intros ([|x pre] & d' & post & Hq & Hr & Ht & Ha & Hpre); simplify_eq/=; [done|].
    apply Forall_cons in Hpre as [[_ ?] ?]. split; [done|]. by exists pre, d', post.
  - intros (Ht & pre & d' & post & -> & Hr & Ht' & Ha & Hpre). exists (d :: pre), d', post. by split_and!; [..|constructor].
Qed.

Lemma answered_late deadline d q a : deadline < d_at d -> ~ answered deadline (d :: q) a.
Proof.
  intros Hd ([|x pre] & d' & post & Hq & Hr & Ht & Ha & Hpre); simplify_eq/=; [lia|].
  apply Forall_cons in Hpre as [[_ ?] ?]. lia.
Qed.

(** What a finished wait says: the answer if there is one, and how long it took. *)
Definition listened (deadline start t : Z) (inbox : list dgram) (r : option string) : Prop :=
  (forall a, r = Some a <-> start < deadline /\ answered deadline inbox a) /\
  start <= t /\ (start <= deadline -> t <= deadline) /\ (r = None -> deadline <= t).

Lemma listened_timeout deadline start inbox :
  (forall a, start < deadline -> ~ answered deadline inbox a) ->
  listened deadline start (Z.max start deadline) inbox None.
Proof.
  intros Hno. split_and!; [|lia..]. intros a. split; [done|]. intros [Hlt Ha]. destruct (Hno a Hlt Ha).
Qed.

Lemma probe_listen_run fuel i deadline (h : host) s :
  socks h !! i = Some s -> sock_ok s -> (length (sk_inbox s) < fuel)%nat ->
  exists r t q, probe_listen fuel i deadline h = (Ok r, waited h i s t q) /\
                listened deadline (clock h) t (sk_inbox s) r.
Proof.
  revert h s. induction fuel as [|fuel IH]; intros h s Hs Hok Hf; [lia|].
  cbn [probe_listen]. unfold bind at 1, monotonic, gets. cbn [clock].
  destruct (Z.leb_spec (deadline - clock h) 0) as [Hdl|Hdl].
  { exists None, (clock h), (sk_inbox s). rewrite waited_id by done. split; [by destruct h|].
    replace (clock h) with (Z.max (clock h) deadline) at 2 by lia. apply listened_timeout. lia. }
  destruct (sk_inbox s) as [|d q] eqn:Hq.
  { exists None, deadline, []. unfold bind. rewrite (select_nothing _ _ _ _ Hs Hq). cbn [negb].
    rewrite <- Hq, waited_id by done. split; [do 2 f_equal; lia|].
    replace deadline with (Z.max (clock h) deadline) at 2 by lia.
    apply listened_timeout. rewrite Hq. intros a _. apply answered_nil. }
  unfold bind at 1. rewrite (select_head _ _ _ _ _ _ Hs Hq).
  destruct (Z.leb_spec (d_at d) (clock h + (deadline - clock h))) as [Hd|Hd]; cbn [negb].
  2: { exists None, deadline, (d :: q). rewrite <- Hq, waited_id by done. split; [unfold ret; do 2 f_equal; lia|].
       replace deadline with (Z.max (clock h) deadline) at 2 by lia.
       apply listened_timeout. rewrite Hq. intros a _. apply answered_late. lia. }
  unfold bind at 1. set (h1 := set_clock _ h).
  rewrite (recvfrom_ready i 2048 h1 s d q) by (done || (cbn; lia)).
  change (set_socks _ h1) with (waited h i s (Z.max (clock h) (d_at d)) q).
  destruct (_is_probe_reply (take 2048 (d_data d))) eqn:Hr.
  - exists (Some (d_from d)), (Z.max (clock h) (d_at d)), q. split; [done|]. split_and!; [|lia..|done].
    intros a. rewrite (answered_head _ _ _ _ Hr). split; [intros [= <-]; split_and!; [lia|lia|done]|].
    intros (_ & _ & ->). done.
  - assert (Hnr : ~ is_reply d) by (unfold is_reply; congruence).
    destruct (IH (waited h i s (Z.max (clock h) (d_at d)) q) (with_inbox s q)) as (r & t & q' & Hrun & Hl).
    { apply waited_lookup. } { done. } { cbn. cbn in Hf. lia. }
    exists r, t, q'. rewrite waited_waited in Hrun. split; [exact Hrun|].
    destruct Hl as (Hr1 & Hr2 & Hr3 & Hr4). cbn in Hr1, Hr2, Hr3, Hr4. split_and!; [|lia..|done].
    intros a. rewrite Hr1, (answered_skip _ _ _ _ Hnr). split; [intros [??]; split_and!; [lia|lia|done]|].
    intros (? & ? & ?). split; [lia|done].
Qed.

(** ** Sending the probes *)

(** The datagrams that leave the host for [targets]. *)
Definition probes_sent (h : host) (s : sock) (i : nat) (port : Z) (targets : list string) : list sending :=
  (fun t => (i, probe_packet, (t, port))) <$> filter (fun t => accepts (env h) (sk_broadcast s) t = true) targets.

Lemma probe_send_run i port targets (h : host) s :
  socks h !! i = Some s ->
  probe_send i port targets h =
  (Ok (Z.of_nat (length (probes_sent h s i port targets))),
   set_sent (sent h ++ probes_sent h s i port targets) h).
Proof.
  revert h. induction targets as [|t ts IH]; intros h Hs.
  { unfold probes_sent. cbn. rewrite app_nil_r. by destruct h. }
  cbn [probe_send]. unfold bind, try_except at 1. rewrite (sendto_run _ _ _ _ _ Hs). cbn [fst].
  unfold probes_sent. rewrite filter_cons.
  destruct (accepts (env h) (sk_broadcast s) t) eqn:Ha.
  - cbn [is_OSError ret]. rewrite IH by done. rewrite decide_True by done.
    unfold ret. cbn [env set_sent sent fmap list_fmap length]. rewrite <- app_assoc.
    unfold probes_sent. cbn [env set_sent]. f_equal. f_equal. lia.
  - cbn [is_OSError ret]. rewrite IH by done. rewrite decide_False by done. done.
Qed.

(** The address and netmask this host reports, when it can create the
    socket [i] and has a route. *)
Definition local_ip (h : host) (i : nat) : option string :=
  if socket_fails (env h) i then None else route (env h).

Lemma local_ipv4_run (h : host) :
  fresh_socks h ->
  local_ipv4_and_netmask h =
  (match local_ip h (next_sock h) with
   | Some ip => Ok (ip, "255.255.255.0"%string)
   | None => Raise OSError
   end, set_next (S (next_sock h)) h).
Proof.
  intros Hf. unfold local_ipv4_and_netmask, local_ip, bind at 1. rewrite socket_new_run.
  destruct (socket_fails (env h) (next_sock h)); [done|].
  set (h1 := set_next _ _). set (i := next_sock h) in *.
  assert (H1 : socks h1 !! i = Some (new_sock h)) by apply lookup_insert_eq.
  unfold bind, try_finally, socket_connect. rewrite (with_sock_run _ _ _ _ H1). unfold get, bind.
  change (env h1) with (env h). destruct (route (env h)) as [ip|].
  - unfold put_sock, modify, getsockname. erewrite with_sock_run by apply lookup_insert_eq.
    cbn. f_equal. unfold set_socks, set_next. cbn. f_equal.
    rewrite insert_insert_eq. by apply delete_new_sock.
  - cbn. f_equal. unfold set_socks, set_next. cbn. f_equal. by apply delete_new_sock.
Qed.

(** Where the broadcast probe goes. *)
Definition broadcast_addr_of (ip : string) : option string :=
  n ← inet_aton ip; Some (_int_to_ip (Z.lor n 255)).

Definition targets_of (h : host) (i : nat) : list string :=
  match local_ip h i ≫= broadcast_addr_of with
  | Some b => [b; "255.255.255.255"]
  | None => ["255.255.255.255"]
  end%string.

Lemma broadcast_targets_run (h : host) :
  fresh_socks h ->
  broadcast_targets h = (Ok (targets_of h (next_sock h)), set_next (S (next_sock h)) h).
Proof.
  intros Hf. unfold broadcast_targets, try_except, bind, targets_of.
  rewrite (local_ipv4_run h Hf). destruct (local_ip h (next_sock h)) as [ip|]; [|done].
  cbn [mbind option_bind]. unfold broadcast_addr_of, _ip_to_int. by destruct (inet_aton ip).
Qed.

(** ** The probes *)

(** What a probe that owned its socket leaves: the time of the wait and the
    datagrams sent are all that changed. *)
Definition probed (h : host) (t : Z) (n : nat) (out : list sending) : host :=
  Host (env h) t (files h) (denied h) (socks h) n (sent h ++ out).

Lemma probe_wait_run (h0 h : host) i s timeout :
  socks h = <[i := s]> (socks h0) -> socks h0 !! i = None -> sock_ok s ->
  exists r t, closing_if true i
    (let! now := monotonic in let! fuel := listen_fuel i in probe_listen fuel i (now + timeout)) h =
    (Ok r, set_clock t (set_socks (socks h0) h)) /\
    listened (clock h + timeout) (clock h) t (sk_inbox s) r.
Proof.
  intros Hs Hnew Hok. assert (Hi : socks h !! i = Some s) by (rewrite Hs; apply lookup_insert_eq).
  destruct (probe_listen_run (S (length (sk_inbox s))) i (clock h + timeout) h s Hi Hok) as (r & t & q & Hrun & Hl);
    [lia|].
  exists r, t. split; [|exact Hl]. unfold closing_if, try_finally, bind, monotonic, listen_fuel, gets.
  rewrite Hi. cbn [from_option]. rewrite Hrun. cbn. do 2 f_equal.
  unfold waited, set_clock, set_socks. cbn. f_equal. by rewrite Hs, insert_insert_eq, delete_insert_id.
Qed.

Lemma closing_bind {A} i (m : M host A) (k : A -> M host (option string)) (h h' : host) a :
  m h = (Ok a, h') -> closing_if true i (bind m k) h = closing_if true i (k a) h'.
Proof. intros Hm. unfold closing_if, try_finally, bind. by rewrite Hm. Qed.

Lemma probe_sweep_run cs port timeout (h : host) :
  fresh_socks h -> socket_fails (env h) (next_sock h) = false ->
  exists r t, probe_sweep cs port timeout None h =
    (Ok r, probed h t (S (next_sock h)) (probes_sent h (new_sock h) (next_sock h) port cs)) /\
    listened (clock h + timeout) (clock h) t (arrivals (env h) (next_sock h)) r.
Proof.
  intros Hf Hsock. set (i := next_sock h).
  set (h1 := set_next (S i) (set_socks (<[i := new_sock h]> (socks h)) h)).
  assert (H1 : socks h1 !! i = Some (new_sock h)) by apply lookup_insert_eq.
  destruct (probe_wait_run h (set_sent (sent h1 ++ probes_sent h1 (new_sock h) i port cs) h1) i (new_sock h) timeout)
    as (r & t & Hrun & Hl); [done|by apply fresh_socks_next|done|].
  exists r, t. split; [|exact Hl]. unfold probe_sweep, bind at 1. rewrite socket_new_run, Hsock.
  rewrite bool_decide_eq_true_2 by done. fold i h1.
  rewrite (closing_bind i _ _ _ _ _ (probe_send_run i port cs h1 _ H1)). rewrite Hrun. done.
Qed.

(** The socket of the broadcast probe. *)
Definition broadcast_sock (h : host) : sock :=
  Sock true None None None (arrivals (env h) (next_sock h)).

Lemma probe_broadcast_run port timeout (h : host) :
  fresh_socks h -> socket_fails (env h) (next_sock h) = false ->
  let i := next_sock h in
  let out := probes_sent h (broadcast_sock h) i port (targets_of h (S i)) in
  exists r t, probe_broadcast port timeout None h = (Ok r, probed h t (S (S i)) out) /\
    if decide (out = []) then r = None /\ t = clock h
    else listened (clock h + timeout) (clock h) t (arrivals (env h) i) r.
Proof.
  intros Hf Hsock i out.
  set (h1 := set_next (S i) (set_socks (<[i := broadcast_sock h]> (socks h)) h)).
  assert (H1 : socks h1 !! i = Some (broadcast_sock h)) by apply lookup_insert_eq.
  assert (Hf1 : fresh_socks h1).
  { intros j Hj. cbn in Hj |- *. rewrite lookup_insert_ne by lia. apply Hf. unfold i in Hj. lia. }
  assert (Hopen : (let! s := socket_new in set_broadcast s ;;; ret s) h = (Ok i, h1)).
  { unfold bind. rewrite socket_new_run, Hsock. unfold set_broadcast.
    erewrite with_sock_run by apply lookup_insert_eq. cbn. do 2 f_equal. unfold h1, set_socks, set_next. cbn.
    by rewrite insert_insert_eq. }
  set (h2 := set_next (S (S i)) h1).
  assert (Hsend : probe_send i port (targets_of h (S i)) h2 =
                  (Ok (Z.of_nat (length out)), set_sent (sent h ++ out) h2))
    by exact (probe_send_run i port _ h2 (broadcast_sock h) H1).
  assert (Hstart : forall k : Z -> M host (option string), closing_if true i (let! ts := broadcast_targets in
                     let! n := probe_send i port ts in k n) h1 =
                   closing_if true i (k (Z.of_nat (length out))) (set_sent (sent h ++ out) h2)).
  { intros k. rewrite (closing_bind i _ _ _ _ _ (broadcast_targets_run h1 Hf1)).
    by rewrite (closing_bind i _ _ _ _ _ Hsend). }
  unfold probe_broadcast, bind at 1. rewrite Hopen, bool_decide_eq_true_2, Hstart by done.
  destruct (decide (out = [])) as [->|Hne].
  - exists None, (clock h). split; [|done]. unfold closing_if, try_finally. cbn. f_equal.
    unfold set_socks, probed. cbn. f_equal. by apply delete_new_sock.
  - destruct (Z.eqb_spec (Z.of_nat (length out)) 0) as [E|_]; [destruct out; [done|simpl in E; lia]|].
    destruct (probe_wait_run h (set_sent (sent h ++ out) h2) i (broadcast_sock h) timeout)
      as (r & t & Hrun & Hl); [done|by apply fresh_socks_next|done|].
    exists r, t. by rewrite Hrun.
Qed.

Lemma fresh_probed (h : host) t n out : fresh_socks h -> (next_sock h <= n)%nat -> fresh_socks (probed h t n out).
Proof. intros Hf Hn j Hj. apply Hf. cbn in Hj. lia. Qed.

(** ** [discover] *)

(** The first name that resolves. *)
Fixpoint dns_answer (h : host) (names : list string) : option string :=
  match names with
  | [] => None
  | name :: names' => match dns (env h) name with Some ip => Some ip | None => dns_answer h names' end
  end.

Lemma resolve_dns_run names (h : host) : resolve_dns names h = (Ok (dns_answer h names), h).
Proof.
  induction names as [|name names IH]; [done|]. cbn [resolve_dns dns_answer].
  unfold try_except, bind, gethostbyname, bind, get. by destruct (dns (env h) name).
Qed.

(** The cache file after a strategy answered [r]. *)
Definition cache_after (path : string) (r : option string) (fs : gmap string string) : gmap string string :=
  match found_host r with
  | Some ip => <[path := strip ip +:+ newline]> fs
  | None => fs
  end.

(** Nothing but time, the cache and the record of sent datagrams has moved. *)
Definition settled (path : string) (h h' : host) (r : option string) : Prop :=
  env h' = env h /\ denied h' = denied h /\ socks h' = socks h /\ files h' = cache_after path r (files h) /\
  (next_sock h <= next_sock h')%nat.

(** The local /24, as the sweep sees it. *)
Definition local_candidates (h : host) (i : nat) : option (list string) :=
  ip ← local_ip h i; n ← inet_aton ip;
  Some (_int_to_ip <$> filter (fun a => a <> n) (seqZ (n / 256 * 256 + 1) 254)).

(** The answer of the sweep over the socket after the one that finds the
    local address. *)
Definition sweep_answer (h : host) (i : nat) (start : Z) (r : option string) : Prop :=
  match local_candidates h i with
  | None => r = None
  | Some _ => forall a, r = Some a <-> answered (start + SWEEP_TIMEOUT_S) (arrivals (env h) (S i)) a
  end.

(** The answer of the broadcast probe over socket [i]. *)
Definition broadcast_answer (h : host) (i : nat) (r : option string) : Prop :=
  if decide (probes_sent h (broadcast_sock h) i ETHERBONE_PORT (targets_of h (S i)) = []) then r = None
  else forall a, r = Some a <-> answered (clock h + SWEEP_TIMEOUT_S) (arrivals (env h) i) a.

Lemma listened_answer start t inbox r timeout :
  0 < timeout -> listened (start + timeout) start t inbox r ->
  forall a, r = Some a <-> answered (start + timeout) inbox a.
Proof. intros Ht [Hr _] a. rewrite Hr. intuition lia. Qed.

Lemma local_candidates_run (h : host) :
  fresh_socks h ->
  try_except (let! (ip, netmask) := local_ipv4_and_netmask in
              let! cs := subnet_candidates ip netmask in ret (Some cs))
    is_OSError (fun _ => ret None) h =
  (Ok (local_candidates h (next_sock h)), set_next (S (next_sock h)) h).
Proof.
  intros Hf. unfold try_except, bind at 1. rewrite local_ipv4_run by done. unfold local_candidates.
  destruct (local_ip h (next_sock h)) as [ip|]; [|done]. cbn [mbind option_bind].
  destruct (inet_aton ip) as [n|] eqn:Hn; cbn [mbind option_bind].
  - unfold bind. rewrite (subnet_candidates_run ip _ n 8) by (done || lia). done.
  - unfold bind, subnet_candidates, bind, _ip_to_int. by rewrite Hn.
Qed.

(** [if found: save_cache(...)] *)
Lemma save_found path (r : option string) (v : option string) (h : host) :
  path ∉ denied h ->
  match found_host r with
  | Some ip => save_cache path ip ;;; ret (v)
  | None => ret v
  end h = (Ok v, set_files (cache_after path r (files h)) h).
Proof.
  intros Hp. unfold cache_after. destruct (found_host r) as [ip|]; [|by destruct h].
  unfold bind. by rewrite save_cache_run.
Qed.

Lemma discover_sweep_run path (h : host) :
  fresh_socks h -> socket_fails (env h) (S (next_sock h)) = false -> path ∉ denied h ->
  exists r h', discover_sweep path h = (Ok r, h') /\ settled path h h' r /\
               sweep_answer h (next_sock h) (clock h) r.
Proof.
  intros Hf Hs Hp. unfold discover_sweep, bind at 1. rewrite local_candidates_run by done.
  unfold sweep_answer. destruct (local_candidates h (next_sock h)) as [cs|].
  - set (h1 := set_next (S (next_sock h)) h).
    destruct (probe_sweep_run cs ETHERBONE_PORT SWEEP_TIMEOUT_S h1) as (r & t & Hrun & Hl).
    { intros j Hj. apply Hf. cbn in Hj. lia. } { done. }
    exists r. unfold bind at 1. rewrite Hrun. rewrite save_found by done. eexists. split; [done|].
    split; [split_and!; try done; cbn; lia|]. by eapply listened_answer.
  - eexists None, _. split; [done|]. split; [split_and!; try done; cbn; lia|done].
Qed.

Lemma discover_dns_run path (h : host) :
  fresh_socks h -> socket_fails (env h) (S (next_sock h)) = false -> path ∉ denied h ->
  exists r h', discover_dns path h = (Ok r, h') /\ settled path h h' r /\
    match found_host (dns_answer h DNS_NAMES) with
    | Some ip => r = Some ip
    | None => sweep_answer h (next_sock h) (clock h) r
    end.
Proof.
  intros Hf Hs Hp. unfold discover_dns, bind at 1. rewrite resolve_dns_run.
  destruct (found_host (dns_answer h DNS_NAMES)) as [ip|] eqn:Hd.
  - exists (Some ip). unfold bind. rewrite save_cache_run by done. eexists. split; [done|]. split; [|done].
    unfold settled, cache_after. apply bind_Some in Hd as (x & _ & Hx). destruct x; simplify_eq/=. split_and!; try done; cbn; lia.
  - by apply discover_sweep_run.
Qed.

Lemma discover_network_run path (h : host) :
  fresh_socks h -> (forall j, socket_fails (env h) j = false) -> path ∉ denied h ->
  exists r h', discover_network path h = (Ok r, h') /\ settled path h h' r /\
    exists rb tb, broadcast_answer h (next_sock h) rb /\ clock h <= tb <= clock h + SWEEP_TIMEOUT_S /\
      match found_host rb, found_host (dns_answer h DNS_NAMES) with
      | Some ip, _ => r = Some ip
      | None, Some ip => r = Some ip
      | None, None => sweep_answer h (S (S (next_sock h))) tb r
      end.
Proof.
  intros Hf Hs Hp.
  destruct (probe_broadcast_run ETHERBONE_PORT SWEEP_TIMEOUT_S h Hf (Hs _)) as (rb & tb & Hrun & Hl).
  set (out := probes_sent _ _ _ _ _) in *. set (h1 := probed h tb (S (S (next_sock h))) out) in *.
  assert (Hb : broadcast_answer h (next_sock h) rb /\ clock h <= tb <= clock h + SWEEP_TIMEOUT_S).
  { unfold broadcast_answer. fold out. destruct (decide (out = [])).
    - destruct Hl as [-> ->]. unfold SWEEP_TIMEOUT_S. split; [done|lia].
    - split; [by eapply listened_answer|]. destruct Hl as (_ & ? & ? & _). unfold SWEEP_TIMEOUT_S in *. lia. }
  unfold discover_network, bind at 1. rewrite Hrun.
  destruct (found_host rb) as [ip|] eqn:Hrb.
  - exists (Some ip). unfold bind. rewrite save_cache_run by done. eexists. split; [done|]. split.
    + unfold settled, cache_after. apply bind_Some in Hrb as (x & _ & Hx). destruct x; simplify_eq/=. split_and!; try done; cbn; lia.
    + exists rb, tb. rewrite Hrb. by destruct Hb.
  - destruct (discover_dns_run path h1) as (r & h' & Hd & Hset & Hans).
    { apply fresh_probed; [done|lia]. } { apply Hs. } { done. }
    exists r, h'. split; [exact Hd|].
    split; [destruct Hset as (? & ? & ? & ? & ?); split_and!; try done; cbn in *; lia|]. exists rb, tb. rewrite Hrb.
    split; [by destruct Hb|]. split; [by destruct Hb|]. exact Hans.
Qed.

End Listen.

(** ** The contracts of the probes and of [discover] *)

Section Contracts.
Context {C : EtherboneCodec}.

(** The sweep answers with the first probe reply: with a socket to be had, [probe_sweep] returns
    (whatever arrives, in whatever order and amount), sends one probe to every candidate the kernel
    accepts, and yields [Some a] exactly when the first datagram that is a probe reply came from [a]
    within the timeout; it waits no longer than the timeout, all of it only when it yields [None],
    and closes the socket it opened. *)
Theorem probe_sweep_first_reply cs port timeout (h : host) :
  fresh_socks h -> socket_fails (env h) (next_sock h) = false -> 0 < timeout ->
  exists r h', probe_sweep cs port timeout None h = (Ok r, h') /\
    (forall a, r = Some a <-> answered (clock h + timeout) (arrivals (env h) (next_sock h)) a) /\
    clock h <= clock h' <= clock h + timeout /\ (r = None -> clock h' = clock h + timeout) /\
    sent h' = sent h ++ probes_sent h (new_sock h) (next_sock h) port cs /\
    socks h' = socks h /\ files h' = files h.
Proof.
  intros Hf Hs Ht. destruct (probe_sweep_run cs port timeout h Hf Hs) as (r & t & Hrun & Hl).
  pose proof (listened_answer _ _ _ _ _ Ht Hl) as Ha. destruct Hl as (_ & Hge & Hle & Hnone).
  exists r. eexists. split; [exact Hrun|]. split; [exact Ha|]. cbn.
  assert (t <= clock h + timeout) by (apply Hle; lia).
  split; [lia|]. split; [|done]. intros Hr. specialize (Hnone Hr). lia.
Qed.

(** The broadcast probe sends the subnet-directed form first (when the local address is known)
    and then the limited one, and answers with the first probe reply: [Some a] exactly when a send
    was accepted and the first datagram that is a probe reply came from [a] within the timeout.  The
    echo of its own probe is never taken for a reply.  The socket is closed on every path. *)
Theorem probe_broadcast_first_reply `{!EtherboneLaws C} port timeout (h : host) :
  fresh_socks h -> socket_fails (env h) (next_sock h) = false -> 0 < timeout ->
  _is_probe_reply probe_packet = false /\
  exists r h', probe_broadcast port timeout None h = (Ok r, h') /\
    sent h' = sent h ++ probes_sent h (broadcast_sock h) (next_sock h) port (targets_of h (S (next_sock h))) /\
    (forall a, r = Some a <-> sent h' <> sent h /\
                              answered (clock h + timeout) (arrivals (env h) (next_sock h)) a) /\
    clock h <= clock h' <= clock h + timeout /\
    socks h' = socks h /\ files h' = files h.
Proof.
  intros Hf Hs Ht. split.
  { unfold _is_probe_reply, probe_packet. rewrite eb_decode_encode; [done|].
    split_and!; [done|by right|by left|constructor]. }
  destruct (probe_broadcast_run port timeout h Hf Hs) as (r & t & Hrun & Hl).
  exists r. eexists. split; [exact Hrun|]. split; [done|]. cbn [sent probed].
  set (out := probes_sent _ _ _ _ _) in *.
  assert (Hout : sent h ++ out <> sent h <-> out <> []).
  { split; intros Hne Heq; apply Hne; [by rewrite Heq, app_nil_r|].
    apply (f_equal length) in Heq. rewrite length_app in Heq. apply length_zero_iff_nil. lia. }
  destruct (decide (out = [])) as [E|E].
  - destruct Hl as [-> ->]. split; [|cbn; split; [lia|done]]. intros a. rewrite Hout. split; [done|]. by intros [? _].
  - split; [|destruct Hl as (_ & ? & Hle & _); cbn; split; [specialize (Hle); lia|done]].
    intros a. rewrite (listened_answer _ _ _ _ _ Ht Hl a), Hout. tauto.
Qed.

(** C12: [discover] follows its order of strategies.  A cached host is returned at once, with nothing
    sent, no time spent and no file touched.  Otherwise the answer is the broadcast probe's if it has
    one, else the first name that resolves, else the sweep's over the local /24; whatever it is, it
    is written back to the cache (and the cache is untouched when there is none), and no socket is
    left open. *)
Theorem discover_order (path : string) (use_cache : bool) (h : host) :
  fresh_socks h -> (forall j, socket_fails (env h) j = false) -> path ∉ denied h ->
  match (if use_cache then cached_host path h else None) with
  | Some ip => discover path use_cache h = (Ok (Some ip), h)
  | None =>
      exists r h', discover path use_cache h = (Ok r, h') /\ settled path h h' r /\
        exists rb tb, broadcast_answer h (next_sock h) rb /\ clock h <= tb <= clock h + SWEEP_TIMEOUT_S /\
          match found_host rb, found_host (dns_answer h DNS_NAMES) with
          | Some ip, _ => r = Some ip
          | None, Some ip => r = Some ip
          | None, None => sweep_answer h (S (S (next_sock h))) tb r
          end
  end.
Proof.
  intros Hf Hs Hp. unfold discover, bind.
  replace ((if use_cache then load_cache path else ret None) h)
    with (Ok (if use_cache then cached_host path h else None), h)
    by (destruct use_cache; [by rewrite load_cache_run|done]).
  destruct (if use_cache then cached_host path h else None); [done|]. by apply discover_network_run.
Qed.

End Contracts.

(** ** Runs *)

Module DiscoveryRuns.
Import Dialect.

(** A probe reply as the firmware sends it. *)
Definition probe_reply : list Z := put_header true ++ be32 0.

(** Noise, the echo of the probe, then the board. *)
Definition traffic : list dgram :=
  [Dgram 100 [1; 2; 3] "192.168.7.9"; Dgram 200 probe_packet "192.168.7.2";
   Dgram 300 probe_reply "192.168.7.45"]%string.

Definition lan : host_env :=
  HostEnv (fun i => if Nat.eqb i 0 then traffic else []) (fun _ => false) (fun _ _ => true) (fun _ => false)
          (Some "192.168.7.2"%string) (fun _ => None).

Definition start : host := Host lan 0 ∅ ∅ ∅ 0 [].

Lemma start_fresh : fresh_socks start.
Proof. intros i _. apply lookup_empty. Qed.

Example discover_finds_board :
  (discover "cache" true start).1 = Ok (Some "192.168.7.45"%string) /\
  files (discover "cache" true start).2 !! "cache"%string = Some ("192.168.7.45" +:+ newline)%string /\
  clock (discover "cache" true start).2 = 300.
Proof. vm_compute. done. Qed.

Example local_subnet_size :
  length <$> local_candidates start 0 = Some 253%nat.
Proof. vm_compute. done. Qed.

Lemma subnet_candidates_exact_witness :
  exists cs, subnet_candidates "192.168.7.23" "255.255.255.0" start = (Ok cs, start) /\ NoDup cs /\
    forall s, s ∈ cs <->
      exists n, word32 n /\ s = _int_to_ip n /\
        n / 2 ^ 8 = 3232237335 / 2 ^ 8 /\ n mod 2 ^ 8 <> 0 /\ n mod 2 ^ 8 <> 2 ^ 8 - 1 /\ n <> 3232237335.
Proof.
  apply (subnet_candidates_exact "192.168.7.23" "255.255.255.0" 3232237335 8 start);
    [vm_compute; reflexivity|vm_compute; reflexivity|lia].
Defined.

Lemma cache_roundtrip_witness :
  exists h1 h2, save_cache "cache" " b8008.lan" start = (Ok tt, h1) /\
    load_cache "cache" h1 = (Ok (or_none (strip " b8008.lan")), h1) /\
    clear_cache "cache" h1 = (Ok tt, h2) /\ load_cache "cache" h2 = (Ok None, h2) /\
    forall p, p <> "cache"%string -> files h1 !! p = files start !! p /\ files h2 !! p = files start !! p.
Proof. apply (cache_roundtrip "cache" " b8008.lan" start); [apply not_elem_of_empty|reflexivity]. Defined.

Lemma probe_sweep_first_reply_witness :
  exists r h', probe_sweep ["192.168.7.45"%string] 1234 500000 None start = (Ok r, h') /\
    (forall a, r = Some a <-> answered (0 + 500000) traffic a) /\
    0 <= clock h' <= 0 + 500000 /\ (r = None -> clock h' = 0 + 500000) /\
    sent h' = [] ++ probes_sent start (new_sock start) 0 1234 ["192.168.7.45"%string] /\
    socks h' = ∅ /\ files h' = ∅.
Proof.
  apply (probe_sweep_first_reply ["192.168.7.45"%string] 1234 500000 start); [apply start_fresh|reflexivity|lia].
Defined.

Lemma probe_broadcast_first_reply_witness :
  _is_probe_reply probe_packet = false /\
  exists r h', probe_broadcast 1234 500000 None start = (Ok r, h') /\
    sent h' = [] ++ probes_sent start (broadcast_sock start) 0 1234 (targets_of start 1) /\
    (forall a, r = Some a <-> sent h' <> [] /\ answered (0 + 500000) traffic a) /\
    0 <= clock h' <= 0 + 500000 /\ socks h' = ∅ /\ files h' = ∅.
Proof.
  apply (probe_broadcast_first_reply 1234 500000 start); [apply start_fresh|reflexivity|lia].
Defined.

Lemma discover_order_witness :
  exists r h', discover "cache" true start = (Ok r, h') /\ settled "cache" start h' r /\
    exists rb tb, broadcast_answer start 0 rb /\ 0 <= tb <= 0 + SWEEP_TIMEOUT_S /\
      match found_host rb, found_host (dns_answer start DNS_NAMES) with
      | Some ip, _ => r = Some ip
      | None, Some ip => r = Some ip
      | None, None => sweep_answer start 2 tb r
      end.
Proof.
  apply (discover_order "cache" true start); [apply start_fresh|reflexivity|apply not_elem_of_empty].
Defined.

End DiscoveryRuns.
