(* ===== verification/EbServer.v ===== *)
(** * The broadcast transport: [host/b8008net/eb_server.py]

    [CommUDPBroadcast] over the sockets of [HostOS] and an Etherbone codec:
    [open], [probe] and [read], with the object's fields in [comm].  The
    theorems: a read returns only the values of a reply that carries the
    number of its own latest request, after at most ten requests; over a
    network that loses, repeats, delays and echoes datagrams, the value read
    is the one the firmware's handler put in its answer; the probe accepts
    only probe replies and gives up after three tries. *)

From Stdlib Require Import ZArith Lia List Bool.
From stdpp Require Import base list strings gmap.
From S2P Require Import Prelude HostOS Etherbone Discovery.

Open Scope Z_scope.

(** ** The object *)

(** The fields [CommUDPBroadcast] has (from [CommUDP.__init__]) and sets. *)
Record comm := Comm {
  server : string;
  port : Z;
  timeout : Z;
  addr_width : Z;
  read_counter : Z;
  socket : option nat;
}.

Record comm_world := CommWorld { cw_host : host; self : comm }.

(** Run a system call. *)
Definition sys {A} (m : M host A) : M comm_world A :=
  fun w => let '(r, h) := m (cw_host w) in (r, CommWorld h (self w)).

Definition set_self (f : comm -> comm) : M comm_world unit :=
  modify (fun w => CommWorld (cw_host w) (f (self w))).

(** [self.socket]: an [AttributeError] before [open]. *)
Definition self_socket : M comm_world nat :=
  let! c := gets self in
  match socket c with Some s => ret s | None => raise AttributeError end.

(** The size [recvfrom] is given. *)
Definition RECV_MAX : nat := Z.to_nat 8192.

Lemma RECV_MAX_Z : Z.of_nat RECV_MAX = 8192.
Proof. apply Z2Nat.id. lia. Qed.

#[global] Opaque RECV_MAX.

Section Transport.
Context {C : EtherboneCodec}.

Definition broadcast_addr : M host string :=
  try_except
    (let! (ip, netmask) := local_ipv4_and_netmask in
     let! ip_i := _ip_to_int ip in
     let! mask_i := _ip_to_int netmask in
     ret (_int_to_ip (Z.lor ip_i (Z.land (Z.lnot mask_i) 0xFFFFFFFF))))
    is_OSError
    (fun _ => ret "255.255.255.255"%string).

(** Enough turns for everything the socket will ever receive. *)
Definition recv_fuel (s : nat) : M comm_world nat := sys (listen_fuel s).

(** ** [probe] *)

Definition probe_request (aw : Z) : list Z :=
  eb_encode aw (EbPacket etherbone_magic 1 0 []) ++ [0; 0; 0; 0].

(** [while True] of [probe]; a [socket.timeout] of [recvfrom] ends it. *)
Fixpoint probe_recv (fuel : nat) (s : nat) : M comm_world Z :=
  match fuel with
  | O => diverge
  | S fuel' =>
      let! (datas, _) := sys (recvfrom s RECV_MAX) in
      let! c := gets self in
      match eb_decode (addr_width c) datas with
      | None => probe_recv fuel' s
      | Some reply => if pr reply =? 1 then ret 1 else probe_recv fuel' s
      end
  end.

(** [for _ in range(3)], with [n] tries left. *)
Fixpoint probe_tries (n : nat) (ip : string) (p : Z) (request : list Z) (loose : bool) : M comm_world Z :=
  match n with
  | O => if loose then ret 0 else raise ConnectionRefusedError
  | S n' =>
      let! r := try_except
                  (let! s := self_socket in
                   sys (sendto s request (ip, p)) ;;;
                   let! fuel := recv_fuel s in
                   let! one := probe_recv fuel s in
                   ret (Some one))
                  (fun e => bool_decide (e = SocketTimeout)) (fun _ => ret None) in
      match r with
      | Some one => ret one
      | None => probe_tries n' ip p request loose
      end
  end.

Definition probe (ip : string) (p : Z) (loose : bool) : M comm_world Z :=
  let! c := gets self in
  probe_tries 3 ip p (probe_request (addr_width c)) loose.

(** ** [open] *)

Definition open (do_probe : bool) : M comm_world unit :=
  let! c := gets self in
  match socket c with
  | Some _ => ret tt
  | None =>
      let! s := sys socket_new in
      set_self (fun c => Comm (server c) (port c) (timeout c) (addr_width c) (read_counter c) (Some s)) ;;;
      sys (set_broadcast s) ;;;
      sys (socket_bind s (port c)) ;;;
      sys (settimeout s (timeout c)) ;;;
      if do_probe then probe (server c) (port c) false ;;; ret tt else ret tt
  end.

(** ** [read] *)

Definition read_addrs (addr : Z) (length_int : Z) : list Z :=
  (fun j => addr + 4 * j) <$> seqZ 0 length_int.

Definition read_request (aw counter : Z) (ads : list Z) : list Z :=
  eb_encode aw (EbPacket etherbone_magic 0 0 [EbRecord None (Some (EbReads counter ads))]).

(** The values of a datagram that answers request [counter]; [None] covers
    every [continue] of the loop: it does not decode, its last record has no
    writes, or it answers another request. *)
Definition reply_values (aw counter : Z) (datas : list Z) : option (list Z) :=
  reply ← eb_decode aw datas;
  rec ← last (records reply);
  w ← writes rec;
  if base_addr w =? counter then Some (Etherbone.datas w) else None.

(** [while True] of [read]: [None] is [timed_out]. *)
Fixpoint read_recv (fuel : nat) (s : nat) : M comm_world (option (list Z)) :=
  match fuel with
  | O => diverge
  | S fuel' =>
      let! received := try_except (let! (datas, _) := sys (recvfrom s RECV_MAX) in ret (Some datas))
                         (fun e => bool_decide (e = SocketTimeout)) (fun _ => ret None) in
      match received with
      | None => ret None
      | Some datas =>
          let! c := gets self in
          match reply_values (addr_width c) (read_counter c) datas with
          | None => read_recv fuel' s
          | Some values => ret (Some values)
          end
      end
  end.

Definition read_attempt (ads : list Z) : M comm_world (option (list Z)) :=
  set_self (fun c => Comm (server c) (port c) (timeout c) (addr_width c) (read_counter c + 1) (socket c)) ;;;
  let! c := gets self in
  let! s := self_socket in
  sys (sendto s (read_request (addr_width c) (read_counter c) ads) (server c, port c)) ;;;
  let! fuel := recv_fuel s in
  read_recv fuel s.

(** [for _ in range(10): ... else: raise socket.timeout] *)
Fixpoint read_tries (n : nat) (ads : list Z) : M comm_world (list Z) :=
  match n with
  | O => raise SocketTimeout
  | S n' =>
      let! r := read_attempt ads in
      match r with
      | Some values => ret values
      | None => read_tries n' ads
      end
  end.

(** A read of one word or of a list of words. *)
Inductive read_value := Word (v : Z) | Words (vs : list Z).

Definition read (addr : Z) (length : option Z) (burst : string) : M comm_world read_value :=
  if negb (bool_decide (burst = "incr"%string)) then raise AssertionError
  else
    let length_int := default 1 length in
    let! values := read_tries 10 (read_addrs addr length_int) in
    match length with
    | None => match values with v :: _ => ret (Word v) | [] => raise IndexError end
    | Some _ => ret (Words values)
    end.

(** ** Receiving *)

(** The object's socket is open with timeout [T] and the kernel takes what it sends. *)
Record ready (w : comm_world) (i : nat) (k : sock) (T : Z) : Prop := {
  ready_socket : socket (self w) = Some i;
  ready_open : socks (cw_host w) !! i = Some k;
  ready_timeout : sk_timeout k = Some T;
  ready_sends : forall target, accepts (env (cw_host w)) (sk_broadcast k) target = true;
}.

(** What the object makes of a datagram, as the answer to request [n]. *)
Definition values_of (w : comm_world) (n : Z) (d : dgram) : option (list Z) :=
  reply_values (addr_width (self w)) n (take RECV_MAX (d_data d)).

Definition waited_world (w : comm_world) (i : nat) (k : sock) (t : Z) (q : list dgram) : comm_world :=
  CommWorld (waited (cw_host w) i k t q) (self w).

Lemma waited_world_id w i k T t :
  ready w i k T -> CommWorld (set_clock t (cw_host w)) (self w) = waited_world w i k t (sk_inbox k).
Proof. intros Hr. unfold waited_world. by rewrite waited_id by apply Hr. Qed.

Lemma waited_world_twice w i k t q t' q' :
  waited_world (waited_world w i k t q) i (with_inbox k q) t' q' = waited_world w i k t' q'.
Proof. unfold waited_world. cbn [cw_host self]. by rewrite waited_waited. Qed.

Lemma ready_waited w i k T t q :
  ready w i k T -> ready (waited_world w i k t q) i (with_inbox k q) T.
Proof. intros []. split; [done|apply waited_lookup|done|done]. Qed.

(** One turn of the receive loop of [read]. *)
Lemma read_recv_unfold fuel w i k T :
  ready w i k T ->
  read_recv (S fuel) i w =
  match sk_inbox k with
  | d :: q =>
      if d_at d <=? clock (cw_host w) + T
      then let w' := waited_world w i k (Z.max (clock (cw_host w)) (d_at d)) q in
           match values_of w (read_counter (self w)) d with
           | Some vs => (Ok (Some vs), w')
           | None => read_recv fuel i w'
           end
      else (Ok None, waited_world w i k (clock (cw_host w) + T) (sk_inbox k))
  | [] => (Ok None, waited_world w i k (clock (cw_host w) + T) (sk_inbox k))
  end.
Proof.
  intros Hr. cbn [read_recv]. unfold bind at 1, try_except, bind at 1, sys.
  rewrite (recvfrom_timeout i RECV_MAX _ k T) by apply Hr.
  destruct (sk_inbox k) as [|d q] eqn:Hq.
  { cbn [is_OSError]. rewrite bool_decide_eq_true_2 by done. cbn. rewrite <- Hq.
    by rewrite (waited_world_id w i k T). }
  destruct (d_at d <=? clock (cw_host w) + T).
  - cbn [ret]. unfold bind, gets, values_of. cbn [self].
    by destruct (reply_values _ _ _).
  - rewrite bool_decide_eq_true_2 by done. cbn. rewrite <- Hq. by rewrite (waited_world_id w i k T).
Qed.

(** The datagrams one attempt takes off the queue, and what it returns. *)
Definition attempt_result (w : comm_world) (n : Z) (used : list dgram) (r : option (list Z)) : Prop :=
  match r with
  | None => Forall (fun d => values_of w n d = None) used
  | Some vs => exists pre d, used = pre ++ [d] /\ values_of w n d = Some vs /\
                             Forall (fun x => values_of w n x = None) pre
  end.

Lemma read_recv_run fuel w i k T :
  ready w i k T -> (length (sk_inbox k) < fuel)%nat ->
  exists r t used q, read_recv fuel i w = (Ok r, waited_world w i k t q) /\
    sk_inbox k = used ++ q /\ attempt_result w (read_counter (self w)) used r.
Proof.
  revert w k. induction fuel as [|fuel IH]; intros w k Hr Hf; [lia|].
  rewrite (read_recv_unfold _ _ _ _ _ Hr). destruct (sk_inbox k) as [|d q] eqn:Hq.
  { exists None, (clock (cw_host w) + T), [], []. split; [done|]. split; [done|]. constructor. }
  destruct (d_at d <=? clock (cw_host w) + T).
  2: { exists None, (clock (cw_host w) + T), [], (d :: q). split; [done|]. split; [done|]. constructor. }
  cbv zeta. destruct (values_of w (read_counter (self w)) d) as [vs|] eqn:Hv.
  - exists (Some vs), (Z.max (clock (cw_host w)) (d_at d)), [d], q. split; [done|]. split; [done|].
    by exists [], d.
  - destruct (IH _ _ (ready_waited w i k T (Z.max (clock (cw_host w)) (d_at d)) q Hr)) as (r & t & used & q' & Hrun & Hin & Hres).
    { cbn. cbn in Hf. lia. }
    exists r, t, (d :: used), q'. rewrite waited_world_twice in Hrun. split; [exact Hrun|].
    cbn in Hin. split; [by rewrite Hin|]. destruct r as [vs|]; [|by constructor].
    destruct Hres as (pre & x & -> & Hx & Hpre). exists (d :: pre), x. split; [done|]. split; [done|]. by constructor.
Qed.

(** A reply that is there in time, behind datagrams that are not it, is found. *)
Lemma read_recv_finds fuel w i k T pre d post vs :
  ready w i k T -> sk_inbox k = pre ++ d :: post -> (length pre < fuel)%nat ->
  Forall (fun x => d_at x <= clock (cw_host w) + T /\ values_of w (read_counter (self w)) x = None) pre ->
  d_at d <= clock (cw_host w) + T -> values_of w (read_counter (self w)) d = Some vs ->
  exists t, read_recv fuel i w = (Ok (Some vs), waited_world w i k t post).
Proof.
  revert w k fuel. induction pre as [|x pre IH]; intros w k [|fuel] Hr Hq Hf Hpre Hd Hv; try (simpl in Hf; lia);
    rewrite (read_recv_unfold _ _ _ _ _ Hr), Hq; cbn [app].
  - destruct (Z.leb_spec (d_at d) (clock (cw_host w) + T)); [|lia]. cbv zeta. rewrite Hv. by eexists.
  - apply Forall_cons in Hpre as [[Hx Hxv] Hpre].
    destruct (Z.leb_spec (d_at x) (clock (cw_host w) + T)); [|lia]. cbv zeta. rewrite Hxv.
    set (t1 := Z.max (clock (cw_host w)) (d_at x)).
    destruct (IH (waited_world w i k t1 (pre ++ d :: post)) (with_inbox k (pre ++ d :: post)) fuel) as [t Ht];
      [by apply ready_waited|done|simpl in Hf; lia| |cbn; lia|done|].
    + eapply Forall_impl; [exact Hpre|]. intros y [Hy Hyv]. split; [cbn; lia|exact Hyv].
    + exists t. by rewrite waited_world_twice in Ht.
Qed.

(** ** Attempts *)

Definition bump (c : comm) (n : Z) : comm :=
  Comm (server c) (port c) (timeout c) (addr_width c) (read_counter c + n) (socket c).

(** The request of attempt [n] as it leaves. *)
Definition request_sent (w : comm_world) (i : nat) (ads : list Z) (n : Z) : sending :=
  (i, read_request (addr_width (self w)) (read_counter (self w) + n) ads, (server (self w), port (self w))).

(** The world after [n] attempts at reading [ads] that left the queue [q]. *)
Definition after_attempts (w : comm_world) (i : nat) (k : sock) (ads : list Z) (n : Z) (t : Z) (q : list dgram) :
    comm_world :=
  CommWorld (set_sent (sent (cw_host w) ++ (request_sent w i ads <$> seqZ 1 n)) (waited (cw_host w) i k t q))
            (bump (self w) n).

Lemma attempt_started w i k T ads :
  ready w i k T ->
  read_attempt ads w =
  read_recv (S (length (sk_inbox k))) i (after_attempts w i k ads 1 (clock (cw_host w)) (sk_inbox k)).
Proof.
  intros Hr. unfold read_attempt, set_self, self_socket, recv_fuel, sys, listen_fuel, gets, modify, bind, ret.
  cbn [self cw_host socket read_counter addr_width server port]. rewrite (ready_socket _ _ _ _ Hr).
  erewrite sendto_run by apply Hr. cbn [fst]. rewrite (ready_sends _ _ _ _ Hr).
  cbn [cw_host set_sent socks self]. rewrite (ready_open _ _ _ _ Hr). cbn [from_option]. f_equal.
  unfold after_attempts. rewrite waited_id by apply Hr. unfold bump, request_sent. cbn. rewrite (ready_socket _ _ _ _ Hr). by destruct (cw_host w).
Qed.

Lemma after_attempts_ready w i k T ads n t q :
  ready w i k T -> ready (after_attempts w i k ads n t q) i (with_inbox k q) T.
Proof. intros []. split; [done|apply waited_lookup|done|done]. Qed.

Lemma after_attempts_trans w i k ads n t q m t' q' :
  0 <= n -> 0 <= m ->
  after_attempts (after_attempts w i k ads n t q) i (with_inbox k q) ads m t' q' =
  after_attempts w i k ads (n + m) t' q'.
Proof.
  intros Hn Hm. unfold after_attempts. cbn [cw_host self].
  replace (waited _ i (with_inbox k q) t' q') with
    (set_sent (sent (cw_host w) ++ (request_sent w i ads <$> seqZ 1 n)) (waited (cw_host w) i k t' q'))
    by (unfold waited, set_sent; cbn; by rewrite insert_insert_eq).
  rewrite seqZ_app, fmap_app by done. unfold set_sent, bump. cbn. f_equal; [f_equal|f_equal; lia].
  rewrite <- app_assoc. do 2 f_equal.
  replace (seqZ (1 + n) m) with (Z.add n <$> seqZ 1 m) by (rewrite fmap_add_seqZ; f_equal; lia).
  rewrite <- list_fmap_compose. apply list_fmap_ext. intros _ j _. unfold request_sent, compose. cbn.
  do 3 f_equal. lia.
Qed.

Lemma waited_after w i k ads n t q t' q' :
  waited_world (after_attempts w i k ads n t q) i (with_inbox k q) t' q' = after_attempts w i k ads n t' q'.
Proof. unfold waited_world, after_attempts, waited, set_sent. cbn. by rewrite insert_insert_eq. Qed.

Lemma read_attempt_run w i k T ads :
  ready w i k T ->
  exists r t used q, read_attempt ads w = (Ok r, after_attempts w i k ads 1 t q) /\
    sk_inbox k = used ++ q /\ attempt_result w (read_counter (self w) + 1) used r.
Proof.
  intros Hr. rewrite (attempt_started _ _ _ _ _ Hr).
  destruct (read_recv_run (S (length (sk_inbox k))) _ _ _ _
              (after_attempts_ready w i k T ads 1 (clock (cw_host w)) (sk_inbox k) Hr))
    as (r & t & used & q & Hrun & Hin & Hres); [cbn; lia|].
  exists r, t, used, q. rewrite waited_after in Hrun. split; [exact Hrun|]. split; [exact Hin|exact Hres].
Qed.

(** Where the values of a successful read come from. *)
Definition from_reply (w : comm_world) (n : Z) (used : list dgram) (vs : list Z) : Prop :=
  exists d, last used = Some d /\ values_of w n d = Some vs.

Lemma read_tries_run n w i k T ads :
  ready w i k T ->
  exists m t used q, 0 <= m <= Z.of_nat n /\ sk_inbox k = used ++ q /\
    snd (read_tries n ads w) = after_attempts w i k ads m t q /\
    match fst (read_tries n ads w) with
    | Ok vs => 1 <= m /\ from_reply w (read_counter (self w) + m) used vs
    | Raise e => e = SocketTimeout /\ m = Z.of_nat n
    | Diverged => False
    end.
Proof.
  revert w k. induction n as [|n IH]; intros w k Hr.
  { exists 0, (clock (cw_host w)), [], (sk_inbox k). split; [lia|]. split; [done|]. split; [|done].
    unfold after_attempts, bump. cbn. rewrite waited_id by apply Hr. rewrite app_nil_r, Z.add_0_r.
    by destruct w as [[] []]. }
  destruct (read_attempt_run w i k T ads Hr) as (r & t & used & q & Hrun & Hin & Hres).
  cbn [read_tries]. unfold bind. rewrite Hrun. destruct r as [vs|].
  - exists 1, t, used, q. split; [lia|]. split; [done|]. split; [done|]. split; [lia|].
    destruct Hres as (pre & d & -> & Hd & _). exists d. split; [apply last_snoc|done].
  - destruct (IH _ _ (after_attempts_ready w i k T ads 1 t q Hr)) as (m & t' & used' & q' & Hm & Hin' & Hw & Hout).
    cbn in Hin'. exists (1 + m), t', (used ++ used'), q'. split; [lia|].
    split; [by rewrite Hin, Hin', app_assoc|]. rewrite after_attempts_trans in Hw by lia. split; [exact Hw|].
    destruct (fst _) as [vs|e|]; [|by destruct Hout; split; [|lia]|done].
    destruct Hout as (Hm1 & d & Hlast & Hd). split; [lia|]. exists d. split.
    + by rewrite last_app, Hlast.
    + unfold values_of in *. cbn in Hd. replace (read_counter (self w) + (1 + m)) with (read_counter (self w) + 1 + m) by lia. done.
Qed.

End Transport.

(** What a read makes of the values. *)
Definition read_returns (length : option Z) (vs : list Z) (r : outcome read_value) : Prop :=
  r = match length with
      | Some _ => Ok (Words vs)
      | None => match vs with v :: _ => Ok (Word v) | [] => Raise IndexError end
      end.

Section ReadSpec.
Context {C : EtherboneCodec}.

Lemma read_run w i k T addr length :
  ready w i k T ->
  exists m t used q, 1 <= m <= 10 /\ sk_inbox k = used ++ q /\
    snd (read addr length "incr" w) = after_attempts w i k (read_addrs addr (default 1 length)) m t q /\
    ((fst (read addr length "incr" w) = Raise SocketTimeout /\ m = 10) \/
     exists vs, from_reply w (read_counter (self w) + m) used vs /\
                read_returns length vs (fst (read addr length "incr" w))).
Proof.
  intros Hr. destruct (read_tries_run 10 w i k T (read_addrs addr (default 1 length)) Hr)
    as (m & t & used & q & Hm & Hin & Hw & Hout).
  exists m, t, used, q. unfold read. cbn [negb bool_decide]. change (bool_decide _) with true. cbn [negb].
  unfold bind. destruct (read_tries 10 _ w) as [[vs|e|] w']; cbn [fst snd] in *; [| |done].
  - destruct Hout as [Hm1 Hfrom]. split; [lia|]. split; [done|]. split; [|right; exists vs; split; [done|]].
    + destruct length; [done|]. by destruct vs.
    + destruct length; [done|]. by destruct vs.
  - destruct Hout as [-> ->]. split; [lia|]. split; [done|]. split; [done|]. by left.
Qed.

(** Every value [read] returns is the answer to its own latest request: it comes from a received
    datagram whose last record writes back to the number of that request, so a stale or foreign
    reply, an echo or noise never surfaces.  At most ten requests are sent, numbered consecutively,
    and [read] always ends: with the values, or with [socket.timeout] after the tenth request (or
    with an [IndexError] when a one-word reply carries no word). *)
Theorem read_correlated w i k T addr length :
  ready w i k T ->
  exists m used q, 1 <= m <= 10 /\ sk_inbox k = used ++ q /\
    let w' := snd (read addr length "incr" w) in
    read_counter (self w') = read_counter (self w) + m /\
    sent (cw_host w') = sent (cw_host w) ++
      (request_sent w i (read_addrs addr (default 1 length)) <$> seqZ 1 m) /\
    ((fst (read addr length "incr" w) = Raise SocketTimeout /\ m = 10) \/
     exists vs, from_reply w (read_counter (self w) + m) used vs /\
                read_returns length vs (fst (read addr length "incr" w))).
Proof.
  intros Hr. destruct (read_run w i k T addr length Hr) as (m & t & used & q & Hm & Hin & Hw & Hout).
  exists m, used, q. cbv zeta. rewrite Hw. done.
Qed.

(** A reply in time is found at once: if a datagram answering the next request is in the queue
    within the socket's timeout, behind only datagrams that are there in time and do not answer it,
    [read] returns its values after one request and leaves the datagrams behind it in the queue. *)
Theorem read_finds_reply w i k T addr len pre d post vs :
  ready w i k T -> sk_inbox k = pre ++ d :: post ->
  Forall (fun x => d_at x <= clock (cw_host w) + T /\
                   values_of w (read_counter (self w) + 1) x = None) pre ->
  d_at d <= clock (cw_host w) + T -> values_of w (read_counter (self w) + 1) d = Some vs ->
  exists t, read addr (Some len) "incr" w =
            (Ok (Words vs), after_attempts w i k (read_addrs addr len) 1 t post).
Proof.
  intros Hr Hq Hpre Hd Hv.
  set (w1 := after_attempts w i k (read_addrs addr len) 1 (clock (cw_host w)) (sk_inbox k)).
  destruct (read_recv_finds (S (length (sk_inbox k))) w1 i (with_inbox k (sk_inbox k)) T pre d post vs)
    as [t Ht]; try done.
  - by apply after_attempts_ready.
  - rewrite Hq, length_app. simpl. lia.
  - exists t. unfold read. change (bool_decide _) with true. cbn [negb read_tries]. unfold bind.
    cbn [default from_option id]. rewrite (attempt_started _ _ _ _ _ Hr). fold w1. rewrite Ht.
    unfold w1. by rewrite waited_after.
Qed.

End ReadSpec.

(** ** Over the air: the firmware at the other end

    A network that may lose, repeat, reorder and delay datagrams, echo the
    host's own requests and carry noise. [asked n] is what request [n] asked
    for; a reply is what [eb8008_handle] answers to some request, on
    whatever state its bus was in. *)

Section OverTheAir.
Context {B : Type} `{Bus B} `{!BusLaws B} (asked : Z -> list Z).

Inductive lan_datagram (d : dgram) : Prop :=
| lan_echo n : part_ok n (asked n) -> d_data d = read_request 32 n (asked n) -> lan_datagram d
| lan_reply n b b' :
    part_ok n (asked n) -> eb8008_handle (read_request 32 n (asked n)) b = (Ok (d_data d), b') ->
    lan_datagram d
| lan_noise : eb_decode 32 (take RECV_MAX (d_data d)) = None -> lan_datagram d.

Definition read_packet (n : Z) (ads : list Z) : eb_packet :=
  EbPacket etherbone_magic 0 0 [EbRecord None (Some (EbReads n ads))].

Lemma read_packet_ok n ads : part_ok n ads -> packet_ok (read_packet n ads).
Proof. intros Hp. split_and!; [done|by left|by left|].
  constructor; [split; [done|exact Hp]|constructor]. Qed.

Lemma encode_part_small n ads : part_ok n ads -> (length (Dialect.encode_part n ads) <= 1024)%nat.
Proof.
  intros (_ & _ & Hl). unfold Dialect.encode_part. rewrite length_app, be32_length, concat_be32_length. lia.
Qed.

Lemma take_small (l : list Z) : (length l <= 1036)%nat -> take RECV_MAX l = l.
Proof.
  intros Hl. apply take_ge. pose proof RECV_MAX_Z. lia.
Qed.

(** An echo answers nothing. *)
Lemma echo_values n m ads :
  part_ok n ads -> reply_values 32 m (take RECV_MAX (read_request 32 n ads)) = None.
Proof.
  intros Hp. rewrite take_small.
  - unfold reply_values, read_request. fold (read_packet n ads).
    rewrite (eb_decode_encode (C:=Dialect.dialect) (read_packet n ads));
      [done|by apply read_packet_ok].
  - pose proof (encode_part_small n ads Hp). unfold read_request. cbn -[Dialect.encode_part].
    rewrite app_nil_r. lia.
Qed.

(** A reply of the firmware answers the request it was made for, with the
    words read from the bus. *)
Lemma firmware_values n m b b' resp :
  part_ok n (asked n) -> eb8008_handle (read_request 32 n (asked n)) b = (Ok resp, b') ->
  reply_values 32 m (take RECV_MAX resp) =
  if n =? m then Some (serve_reads (asked n) b).1 else None.
Proof.
  intros Hp Hh. pose proof (read_packet_ok n _ Hp) as Hok.
  change (read_request 32 n (asked n)) with (Dialect.encode 32 (read_packet n (asked n))) in Hh.
  rewrite eb8008_handle_run in Hh by done. injection Hh as <- _. cbn [records read_packet serve writes reads].
  pose proof (serve_ok (records (read_packet n (asked n))) b (proj2 (proj2 (proj2 Hok)))) as Hrs.
  cbn [records read_packet serve writes reads from_option base_ret_addr addrs] in Hrs |- *.
  pose proof (serve_reads_length (asked n) b) as Hl.
  destruct (serve_reads (asked n) b) as [vs b1]. cbn [fst reply_bytes] in *.
  rewrite take_small.
  - unfold reply_values. change (Dialect.encode 32 ?p) with (eb_encode 32 p).
    rewrite eb_decode_encode; [done|]. split_and!; [done|by left|by left|done].
  - apply Forall_cons in Hrs as [[Hw _] _]. pose proof (encode_part_small n vs Hw).
    cbn -[Dialect.encode_part]. rewrite !app_nil_r. lia.
Qed.

(** C4: Reads over a bad network are right: if everything that arrives is an echo of a request, a
    firmware reply to some request of the session (old, repeated, reordered) or noise that does not
    decode, then [read] returns the words the firmware read on its bus at exactly the addresses
    asked for, or raises [socket.timeout] after ten requests; nothing else is possible. *)
Theorem read_over_the_air w i k T addr len :
  ready w i k T -> addr_width (self w) = 32 -> Forall lan_datagram (sk_inbox k) ->
  (forall m, 1 <= m <= 10 -> asked (read_counter (self w) + m) = read_addrs addr len) ->
  (exists b, fst (read addr (Some len) "incr" w) = Ok (Words (serve_reads (read_addrs addr len) b).1)) \/
  (fst (read addr (Some len) "incr" w) = Raise SocketTimeout /\
   read_counter (self (snd (read addr (Some len) "incr" w))) = read_counter (self w) + 10).
Proof.
  intros Hr Haw Hlan Hasked.
  destruct (read_run w i k T addr (Some len) Hr) as (m & t & used & q & Hm & Hin & Hw & [[Hout ->]|Hout]).
  { right. rewrite Hw. done. }
  destruct Hout as (vs & (d & Hd & Hv) & Hret). left. cbn in Hret.
  assert (Hdl : lan_datagram d).
  { rewrite Hin in Hlan. apply Forall_app in Hlan as [Hlan _]. rewrite Forall_forall in Hlan.
    apply Hlan. apply last_Some in Hd as [pre ->]. set_solver. }
  unfold values_of in Hv. rewrite Haw in Hv. destruct Hdl as [n Hp Hecho|n b b' Hp Hh|Hnoise].
  - rewrite Hecho, echo_values in Hv by done. done.
  - rewrite (firmware_values n _ b b') in Hv by done.
    destruct (Z.eqb_spec n (read_counter (self w) + m)) as [->|]; [|done]. injection Hv as <-.
    exists b. by rewrite Hret, Hasked.
  - unfold reply_values in Hv. by rewrite Hnoise in Hv.
Qed.

End OverTheAir.

(** ** The probe *)

Section ProbeSpec.
Context {C : EtherboneCodec}.

(** The datagram decodes and has the probe-reply flag. *)
Definition has_pr (w : comm_world) (d : dgram) : bool :=
  match eb_decode (addr_width (self w)) (take RECV_MAX (d_data d)) with
  | Some reply => pr reply =? 1
  | None => false
  end.

Definition no_pr (w : comm_world) (ds : list dgram) : Prop := Forall (fun d => has_pr w d = false) ds.

(** One turn of the receive loop of [probe]. *)
Lemma probe_recv_unfold fuel w i k T :
  ready w i k T ->
  probe_recv (S fuel) i w =
  match sk_inbox k with
  | d :: q =>
      if d_at d <=? clock (cw_host w) + T
      then let w' := waited_world w i k (Z.max (clock (cw_host w)) (d_at d)) q in
           if has_pr w d then (Ok 1, w') else probe_recv fuel i w'
      else (Raise SocketTimeout, waited_world w i k (clock (cw_host w) + T) (sk_inbox k))
  | [] => (Raise SocketTimeout, waited_world w i k (clock (cw_host w) + T) (sk_inbox k))
  end.
Proof.
  intros Hr. cbn [probe_recv]. unfold bind at 1, sys.
  rewrite (recvfrom_timeout i RECV_MAX _ k T) by apply Hr. destruct (sk_inbox k) as [|d q] eqn:Hq.
  { rewrite <- Hq. by rewrite (waited_world_id w i k T). }
  destruct (d_at d <=? clock (cw_host w) + T).
  - unfold bind, gets, has_pr. cbn [self]. destruct (eb_decode _ _) as [reply|]; [|done].
    by destruct (pr reply =? 1).
  - rewrite <- Hq. by rewrite (waited_world_id w i k T).
Qed.

(** What one try took off the queue. *)
Definition try_result (w : comm_world) (used : list dgram) (r : outcome Z) : Prop :=
  (r = Ok 1 /\ exists pre d, used = pre ++ [d] /\ has_pr w d = true /\ no_pr w pre) \/
  (r = Raise SocketTimeout /\ no_pr w used).

Lemma probe_recv_run fuel w i k T :
  ready w i k T -> (length (sk_inbox k) < fuel)%nat ->
  exists r t used q, probe_recv fuel i w = (r, waited_world w i k t q) /\
    sk_inbox k = used ++ q /\ try_result w used r.
Proof.
  revert w k. induction fuel as [|fuel IH]; intros w k Hr Hf; [lia|].
  rewrite (probe_recv_unfold _ _ _ _ _ Hr). destruct (sk_inbox k) as [|d q] eqn:Hq.
  { eexists _, _, [], []. split; [done|]. split; [done|]. right. split; [done|constructor]. }
  destruct (d_at d <=? clock (cw_host w) + T).
  2: { eexists _, _, [], (d :: q). split; [done|]. split; [done|]. right. split; [done|constructor]. }
  cbv zeta. destruct (has_pr w d) eqn:Hd.
  - eexists _, _, [d], q. split; [done|]. split; [done|]. left. split; [done|]. exists [], d.
    split; [done|]. split; [done|constructor].
  - destruct (IH _ _ (ready_waited w i k T (Z.max (clock (cw_host w)) (d_at d)) q Hr))
      as (r & t & used & q' & Hrun & Hin & Hres).
    { cbn. cbn in Hf. lia. }
    exists r, t, (d :: used), q'. rewrite waited_world_twice in Hrun. split; [exact Hrun|].
    cbn in Hin. split; [by rewrite Hin|]. destruct Hres as [(-> & pre & x & -> & Hx & Hpre)|[-> Hno]].
    + left. split; [done|]. exists (d :: pre), x. split; [done|]. split; [done|]. by constructor.
    + right. split; [done|]. by constructor.
Qed.

(** The world after [n] probe requests. *)
Definition after_probes (w : comm_world) (i : nat) (k : sock) (s : sending) (n : nat) (t : Z) (q : list dgram) :
    comm_world :=
  CommWorld (set_sent (sent (cw_host w) ++ replicate n s) (waited (cw_host w) i k t q)) (self w).

Lemma after_probes_ready w i k T s n t q :
  ready w i k T -> ready (after_probes w i k s n t q) i (with_inbox k q) T.
Proof. intros []. split; [done|apply waited_lookup|done|done]. Qed.

Lemma after_probes_waited w i k s n t q t' q' :
  waited_world (after_probes w i k s n t q) i (with_inbox k q) t' q' = after_probes w i k s n t' q'.
Proof. unfold waited_world, after_probes, waited, set_sent. cbn. by rewrite insert_insert_eq. Qed.

Lemma after_probes_trans w i k s n t q m t' q' :
  after_probes (after_probes w i k s n t q) i (with_inbox k q) s m t' q' = after_probes w i k s (n + m) t' q'.
Proof.
  unfold after_probes, waited, set_sent. cbn. rewrite insert_insert_eq, replicate_add. by rewrite app_assoc.
Qed.

(** The probe ended with [r] after [m] of at most [n] requests. *)
Definition probe_outcome (w : comm_world) (n m : nat) (used : list dgram) (loose : bool) (r : outcome Z) : Prop :=
  ((1 <= m)%nat /\ r = Ok 1 /\ exists pre d, used = pre ++ [d] /\ has_pr w d = true /\ no_pr w pre) \/
  (m = n /\ r = (if loose then Ok 0 else Raise ConnectionRefusedError) /\ no_pr w used).

(** One try up to its receive loop. *)
Lemma probe_try_started {A} w i k T ip p request (Hr : ready w i k T) (f : Z -> M comm_world A) :
  (let! sk := self_socket in
   sys (sendto sk request (ip, p)) ;;;
   let! fuel := recv_fuel sk in
   bind (probe_recv fuel sk) f) w =
  bind (probe_recv (S (length (sk_inbox k))) i) f
       (after_probes w i k (i, request, (ip, p)) 1 (clock (cw_host w)) (sk_inbox k)).
Proof.
  unfold self_socket, recv_fuel, listen_fuel, sys, gets, bind, ret. rewrite (ready_socket _ _ _ _ Hr).
  erewrite sendto_run by apply Hr. cbn [fst]. rewrite (ready_sends _ _ _ _ Hr).
  cbn [cw_host set_sent socks self]. rewrite (ready_open _ _ _ _ Hr). cbn [from_option].
  unfold after_probes. rewrite waited_id by apply Hr. cbn [replicate]. by destruct (cw_host w).
Qed.

Lemma probe_tries_run n w i k T ip p request loose :
  ready w i k T ->
  exists m t used q, (m <= n)%nat /\ sk_inbox k = used ++ q /\
    snd (probe_tries n ip p request loose w) = after_probes w i k (i, request, (ip, p)) m t q /\
    probe_outcome w n m used loose (fst (probe_tries n ip p request loose w)).
Proof.
  revert w k. induction n as [|n IH]; intros w k Hr.
  { exists 0%nat, (clock (cw_host w)), [], (sk_inbox k). split; [done|]. split; [done|]. split.
    - unfold after_probes. rewrite waited_id, app_nil_r by apply Hr. cbn. destruct loose; by destruct w as [[] []].
    - right. split; [done|]. split; [by destruct loose|constructor]. }
  set (s := (i, request, (ip, p))).
  set (w1 := after_probes w i k s 1 (clock (cw_host w)) (sk_inbox k)).
  destruct (probe_recv_run (S (length (sk_inbox k))) w1 i (with_inbox k (sk_inbox k)) T)
    as (r & t & used & q & Hrun & Hin & Hres); [by apply after_probes_ready|cbn; lia|].
  unfold w1 in Hrun. rewrite after_probes_waited in Hrun. fold w1 in Hrun.
  pose proof (fun A => probe_try_started (A:=A) w i k T ip p request Hr) as Hstart.
  assert (Heq : probe_tries (S n) ip p request loose w =
                match r with
                | Ok one => (Ok one, after_probes w i k s 1 t q)
                | _ => probe_tries n ip p request loose (after_probes w i k s 1 t q)
                end).
  { cbn [probe_tries]. unfold bind at 1, try_except. rewrite Hstart. fold s w1. unfold bind at 1. rewrite Hrun.
    destruct Hres as [(-> & _)|[-> _]]; [done|]. by rewrite bool_decide_eq_true_2. }
  rewrite Heq. destruct Hres as [(-> & Hpr)|[-> Hno]].
  - exists 1%nat, t, used, q. split; [lia|]. split; [done|]. split; [done|]. left. split; [lia|]. split; [done|exact Hpr].
  - destruct (IH _ _ (after_probes_ready w i k T s 1 t q Hr)) as (m & t' & used' & q' & Hm & Hin' & Hw & Hout).
    cbn in Hin, Hin'. rewrite after_probes_trans in Hw.
    exists (S m), t', (used ++ used'), q'. split; [lia|]. split; [by rewrite Hin, Hin', app_assoc|].
    split; [exact Hw|]. destruct Hout as [(Hm1 & Hok & pre & d & -> & Hd & Hpre)|(-> & Hok & Hno')].
    + left. split; [lia|]. split; [exact Hok|]. exists (used ++ pre), d. split; [by rewrite app_assoc|].
      split; [done|]. by apply Forall_app.
    + right. split; [lia|]. split; [exact Hok|]. by apply Forall_app.
Qed.

(** The probe is sound and bounded: it sends its request at most three times, returns 1 only on a
    received datagram that decodes with the probe-reply flag, everything before which was skipped,
    and otherwise, after the third try, returns 0 if asked to be lenient and raises
    [ConnectionRefusedError] if not; the echo of its own padded request never counts as a reply. *)
Theorem probe_three_tries `{!EtherboneLaws C} w i k T ip p loose :
  ready w i k T -> addr_width (self w) = 32 ->
  (forall d, d_data d = probe_request 32 -> (length (d_data d) <= RECV_MAX)%nat -> has_pr w d = false) /\
  exists m used q, (m <= 3)%nat /\ sk_inbox k = used ++ q /\
    let w' := snd (probe ip p loose w) in
    sent (cw_host w') = sent (cw_host w) ++ replicate m (i, probe_request 32, (ip, p)) /\
    probe_outcome w 3 m used loose (fst (probe ip p loose w)).
Proof.
  intros Hr Haw. split.
  - intros d Hd Hlen. unfold has_pr. rewrite take_ge, Hd, Haw by done.
    destruct (eb_decode 32 (probe_request 32)) as [reply|] eqn:E; [|done].
    apply eb_decode_header in E as (_ & _ & ->); [done|]. split_and!; [done|by right|by left|constructor].
  - unfold probe. unfold bind, gets. rewrite Haw.
    destruct (probe_tries_run 3 w i k T ip p (probe_request 32) loose Hr) as (m & t & used & q & Hm & Hin & Hw & Hout).
    exists m, used, q. cbv zeta. rewrite Hw. done.
Qed.

End ProbeSpec.

(** ** Opening *)

(** [open] creates the socket the transport needs: bound to the port, allowed to broadcast, with
    the object's timeout and with all its traffic still unread, which is the state the theorems
    about [read] and [probe] start from; opening again changes nothing. *)
Theorem open_ready `{C : EtherboneCodec} w :
  let h := cw_host w in
  socket (self w) = None -> socket_fails (env h) (next_sock h) = false ->
  bind_fails (env h) (port (self w)) = false -> (forall target, accepts (env h) true target = true) ->
  exists w' k, open false w = (Ok tt, w') /\ ready w' (next_sock h) k (timeout (self w)) /\
    sk_broadcast k = true /\ sk_bound k = Some (port (self w)) /\
    sk_inbox k = arrivals (env h) (next_sock h) /\ open true w' = (Ok tt, w').
Proof.
  intros h Hs Hsock Hbind Hacc. destruct w as [[e t fs dn ss n sn] c]. cbn in *.
  unfold open. unfold bind at 1, gets. cbn [self]. rewrite Hs.
  unfold bind at 1, sys at 1. rewrite socket_new_run. cbn [env next_sock cw_host]. rewrite Hsock.
  unfold bind at 1, set_self, modify. cbn [cw_host self].
  unfold bind at 1, sys at 1, set_broadcast. cbn [cw_host self]. erewrite with_sock_run by apply lookup_insert_eq.
  cbn -[insert]. unfold bind at 1, sys at 1, socket_bind. cbn [cw_host self].
  erewrite with_sock_run by apply lookup_insert_eq. unfold bind at 1, get. cbn -[insert]. rewrite Hbind.
  unfold put_sock, modify. unfold bind at 1, sys at 1, settimeout. cbn [cw_host self].
  erewrite with_sock_run by apply lookup_insert_eq. cbn -[insert].
  do 2 eexists. split; [done|]. split; [split; [done|apply lookup_insert_eq|done|exact Hacc]|done].
Qed.

(** Setting the low bits. *)
Lemma lor_ones n : Z.lor n (Z.ones 8) = n / 256 * 256 + 255.
Proof.
  transitivity (Z.lor (Z.ones 8) (Z.shiftl (Z.shiftr n 8) 8)).
  - apply Z.bits_inj'. intros j Hj. rewrite !Z.lor_spec, Z.testbit_ones_nonneg, Z.shiftl_spec by lia.
    destruct (Z.ltb_spec j 8); [by rewrite orb_true_r|]. rewrite Z.shiftr_spec, orb_false_r by lia.
    simpl. f_equal. lia.
  - change (Z.ones 8) with 255. rewrite lor_shiftl_add, Z.shiftr_div_pow2 by lia. change (2 ^ 8) with 256. lia.
Qed.

(** Requests go to the subnet-directed broadcast address of the local /24, whose host byte is all
    ones, and to the limited broadcast address only when the local address is not known; finding it
    out leaves no socket open. *)
Theorem broadcast_addr_directed (h : host) :
  fresh_socks h ->
  exists s h', broadcast_addr h = (Ok s, h') /\ socks h' = socks h /\
    match local_ip h (next_sock h) ≫= inet_aton with
    | Some n => inet_aton s = Some (n / 256 * 256 + 255)
    | None => s = "255.255.255.255"%string
    end.
Proof.
  intros Hf. unfold broadcast_addr, try_except, bind. rewrite local_ipv4_run by done.
  destruct (local_ip h (next_sock h)) as [ip|]; [|by eexists _, _]. cbn [mbind option_bind].
  unfold _ip_to_int. destruct (inet_aton ip) as [n|] eqn:Hn; [|by eexists _, _].
  eexists _, _. split; [done|]. split; [done|]. rewrite inet_aton_int.
  change (Z.land (Z.lnot _) 0xFFFFFFFF) with (Z.ones 8).
  apply inet_aton_range in Hn. f_equal.
  rewrite lor_ones, Z.mod_small by (unfold word32 in Hn; Z.to_euclidean_division_equations; lia). done.
Qed.

(** ** Runs *)

Module EbServerRuns.
Import FirmwareRuns.

(** A memory with two words. *)
Definition board_mem : gmap Z Z := <[0xf0000004 := 0xbabe]> {[0xf0000000 := 0xcafe]}.
Definition asked (n : Z) : list Z :=
  if n =? 0 then [0xf0000004] else read_addrs 0xf0000000 2.

(** What the firmware answers to request [n]. *)
Definition firmware_reply (n : Z) : list Z :=
  reply_bytes (serve [EbRecord None (Some (EbReads n (asked n)))] board_mem).1.

(** The echo of the request, a stale reply, noise, then the answer. *)
Definition queue : list dgram :=
  [Dgram 10 (read_request 32 1 (asked 1)) "192.168.7.2"; Dgram 20 (firmware_reply 0) "192.168.7.45";
   Dgram 30 [1; 2; 3] "192.168.7.9"; Dgram 40 (firmware_reply 1) "192.168.7.45";
   Dgram 50 (firmware_reply 1) "192.168.7.45"]%string.

Definition start_sock : sock := Sock true None (Some 1234) (Some 1000000) queue.

Definition start_world : comm_world :=
  CommWorld (Host DiscoveryRuns.lan 0 ∅ ∅ {[0%nat := start_sock]} 1 [])
            (Comm "192.168.7.255" 1234 1000000 32 0 (Some 0%nat)).

Lemma start_ready : ready start_world 0 start_sock 1000000.
Proof. by split. Qed.

Example read_skips_noise :
  (read 0xf0000000 (Some 2) "incr" start_world).1 = Ok (Words [0xcafe; 0xbabe]) /\
  length (sent (cw_host (read 0xf0000000 (Some 2) "incr" start_world).2)) = 1%nat.
Proof. vm_compute. done. Qed.

Lemma asked_ok n : word32 n -> part_ok n (asked n).
Proof.
  intros Hn. split; [done|]. unfold asked. destruct (n =? 0);
    (split; [repeat constructor; unfold word32; lia|simpl; lia]).
Qed.

Lemma queue_lan : Forall (lan_datagram asked) queue.
Proof.
  assert (Hr : forall n, word32 n -> eb8008_handle (read_request 32 n (asked n)) board_mem =
                         (Ok (firmware_reply n), (serve [EbRecord None (Some (EbReads n (asked n)))] board_mem).2)).
  { intros n Hn. apply (eb8008_handle_run (read_packet n (asked n))); [|done]. by apply read_packet_ok, asked_ok. }
  assert (H0 : word32 0) by (unfold word32; lia). assert (H1 : word32 1) by (unfold word32; lia).
  unfold queue. rewrite !Forall_cons. split_and!; [..|constructor].
  - apply (lan_echo asked _ 1); [by apply asked_ok|done].
  - eapply (lan_reply asked _ 0); [by apply asked_ok|by apply Hr].
  - apply lan_noise. vm_compute. done.
  - eapply (lan_reply asked _ 1); [by apply asked_ok|by apply Hr].
  - eapply (lan_reply asked _ 1); [by apply asked_ok|by apply Hr].
Qed.

Lemma read_correlated_witness :
  exists m used q, 1 <= m <= 10 /\ sk_inbox start_sock = used ++ q /\
    let w' := snd (read 0xf0000000 (Some 2) "incr" start_world) in
    read_counter (self w') = read_counter (self start_world) + m /\
    sent (cw_host w') = sent (cw_host start_world) ++
      (request_sent start_world 0 (read_addrs 0xf0000000 (default 1 (Some 2))) <$> seqZ 1 m) /\
    ((fst (read 0xf0000000 (Some 2) "incr" start_world) = Raise SocketTimeout /\ m = 10) \/
     exists vs, from_reply start_world (read_counter (self start_world) + m) used vs /\
                read_returns (Some 2) vs (fst (read 0xf0000000 (Some 2) "incr" start_world))).
Proof. exact (read_correlated start_world 0 start_sock 1000000 0xf0000000 (Some 2) start_ready). Defined.

Lemma read_finds_reply_witness :
  exists t, read 0xf0000000 (Some 2) "incr" start_world =
    (Ok (Words [0xcafe; 0xbabe]), after_attempts start_world 0 start_sock (read_addrs 0xf0000000 2) 1 t (drop 4 queue)).
Proof.
  apply (read_finds_reply start_world 0 start_sock 1000000 0xf0000000 2 (take 3 queue)
           (Dgram 40 (firmware_reply 1) "192.168.7.45") (drop 4 queue) [0xcafe; 0xbabe]).
  - exact start_ready.
  - reflexivity.
  - repeat constructor; try (simpl; lia); vm_compute; reflexivity.
  - simpl. lia.
  - vm_compute. reflexivity.
Defined.

Lemma read_over_the_air_witness :
  (exists b, fst (read 0xf0000000 (Some 2) "incr" start_world) =
             Ok (Words (serve_reads (B:=gmap Z Z) (read_addrs 0xf0000000 2) b).1)) \/
  (fst (read 0xf0000000 (Some 2) "incr" start_world) = Raise SocketTimeout /\
   read_counter (self (snd (read 0xf0000000 (Some 2) "incr" start_world))) = 0 + 10).
Proof.
  apply (read_over_the_air asked start_world 0 start_sock 1000000 0xf0000000 2).
  - exact start_ready.
  - reflexivity.
  - exact queue_lan.
  - intros m Hm. unfold asked. cbn [start_world self read_counter]. destruct (Z.eqb_spec (0 + m) 0); [lia|reflexivity].
Defined.

Lemma probe_three_tries_witness :
  (forall d, d_data d = probe_request 32 -> (length (d_data d) <= RECV_MAX)%nat -> has_pr start_world d = false) /\
  exists m used q, (m <= 3)%nat /\ sk_inbox start_sock = used ++ q /\
    let w' := snd (probe "192.168.7.255" 1234 false start_world) in
    sent (cw_host w') = sent (cw_host start_world) ++ replicate m (0%nat, probe_request 32, ("192.168.7.255"%string, 1234)) /\
    probe_outcome start_world 3 m used false (fst (probe "192.168.7.255" 1234 false start_world)).
Proof.
  apply (probe_three_tries start_world 0 start_sock 1000000 "192.168.7.255" 1234 false);
    [exact start_ready|reflexivity].
Defined.

Definition closed_world : comm_world :=
  CommWorld DiscoveryRuns.start (Comm "192.168.7.255" 1234 1000000 32 0 None).

Lemma open_ready_witness :
  exists w' k, open false closed_world = (Ok tt, w') /\ ready w' 0 k 1000000 /\
    sk_broadcast k = true /\ sk_bound k = Some 1234 /\
    sk_inbox k = DiscoveryRuns.traffic /\ open true w' = (Ok tt, w').
Proof. apply (open_ready closed_world); reflexivity. Defined.

Lemma broadcast_addr_directed_witness :
  exists s h', broadcast_addr DiscoveryRuns.start = (Ok s, h') /\ socks h' = ∅ /\
    inet_aton s = Some (3232237314 / 256 * 256 + 255).
Proof. exact (broadcast_addr_directed DiscoveryRuns.start DiscoveryRuns.start_fresh). Defined.

End EbServerRuns.
