(* ===== verification/Dhcp.v ===== *)
(** * The DHCP messages of the firmware

    firmware/dhcp8008.c: the builders of DISCOVER and REQUEST and the parser of
    OFFER and ACK.  A buffer is the list of its bytes; every access is checked,
    and [None] is an access outside the buffer.  The relation [options] is the
    option field of RFC 2132 as a specification: the parser refines it on any
    datagram, and the builders' messages satisfy it. *)

From Stdlib Require Import ZArith Lia List Bool.
From stdpp Require Import base list.
From S2P Require Import Prelude Etherbone Bytes.

Open Scope Z_scope.

Definition DHCP_MAGIC_COOKIE : Z := 0x63825363.
Definition DHCP_OP_BOOTREQUEST : Z := 1.
Definition DHCP_OP_BOOTREPLY : Z := 2.
Definition DHCP_HTYPE_ETHERNET : Z := 1.
Definition DHCP_HLEN_ETHERNET : Z := 6.
Definition DHCP_MSG_DISCOVER : Z := 1.
Definition DHCP_MSG_OFFER : Z := 2.
Definition DHCP_MSG_REQUEST : Z := 3.
Definition DHCP_MSG_ACK : Z := 5.
Definition DHCP_OPT_PAD : Z := 0.
Definition DHCP_OPT_HOSTNAME : Z := 12.
Definition DHCP_OPT_REQUESTED_IP : Z := 50.
Definition DHCP_OPT_LEASE_TIME : Z := 51.
Definition DHCP_OPT_MSG_TYPE : Z := 53.
Definition DHCP_OPT_SERVER_ID : Z := 54.
Definition DHCP_OPT_PARAM_REQ_LIST : Z := 55.
Definition DHCP_OPT_CLIENT_ID : Z := 61.
Definition DHCP_OPT_END : Z := 255.
Definition DHCP_OPTIONS_OFFSET : nat := 240.
Definition DHCP_MIN_PACKET_LEN : nat := 300.

(** The bytes of [DHCP_HOSTNAME], "b8008", without its terminator. *)
Definition DHCP_HOSTNAME : list Z := [0x62; 0x38; 0x30; 0x30; 0x38].

(** ** The builders *)

(** Each returns the buffer and the offset after what it wrote. *)
Definition build_header (buf chaddr : list Z) (xid : Z) : option (list Z * nat) :=
  buf ← put buf 0 (replicate DHCP_OPTIONS_OFFSET 0);
  buf ← put8 buf 0 DHCP_OP_BOOTREQUEST;
  buf ← put8 buf 1 DHCP_HTYPE_ETHERNET;
  buf ← put8 buf 2 DHCP_HLEN_ETHERNET;
  buf ← put8 buf 3 0;
  buf ← put32be buf 4 xid;
  buf ← put16be buf 8 0;
  buf ← put16be buf 10 0x8000;
  buf ← memcpy buf 28 chaddr 6;
  buf ← put32be buf 236 DHCP_MAGIC_COOKIE;
  Some (buf, DHCP_OPTIONS_OFFSET).

Definition put_option (buf : list Z) (off : nat) (code : Z) (data : list Z) (len : nat)
    : option (list Z * nat) :=
  buf ← put8 buf off code;
  buf ← put8 buf (off + 1) (Z.of_nat len);
  buf ← memcpy buf (off + 2) data len;
  Some (buf, (off + 2 + len)%nat).

Definition build_common_options (buf : list Z) (off : nat) (chaddr : list Z) (msg_type : Z)
    : option (list Z * nat) :=
  '(buf, off) ← put_option buf off DHCP_OPT_MSG_TYPE [Z.land msg_type 255] 1;
  '(buf, off) ← put_option buf off DHCP_OPT_PARAM_REQ_LIST [1; 3; 6] 3;
  '(buf, off) ← put_option buf off DHCP_OPT_HOSTNAME DHCP_HOSTNAME (length DHCP_HOSTNAME);
  client_id ← memcpy [DHCP_HTYPE_ETHERNET; 0; 0; 0; 0; 0; 0] 1 chaddr 6;
  put_option buf off DHCP_OPT_CLIENT_ID client_id 7.

(** [while (off < DHCP_MIN_PACKET_LEN)], with [n] turns to go. *)
Fixpoint pad_loop (n : nat) (buf : list Z) (off : nat) : option (list Z * nat) :=
  match n with
  | O => Some (buf, off)
  | S n' => buf ← put8 buf off DHCP_OPT_PAD; pad_loop n' buf (off + 1)
  end.

Definition finish_options (buf : list Z) (off : nat) : option (list Z * nat) :=
  buf ← put8 buf off DHCP_OPT_END;
  pad_loop (DHCP_MIN_PACKET_LEN - (off + 1)) buf (off + 1).

Definition dhcp_build_discover (buf chaddr : list Z) (xid : Z) : option (list Z * nat) :=
  '(buf, off) ← build_header buf chaddr xid;
  '(buf, off) ← build_common_options buf off chaddr DHCP_MSG_DISCOVER;
  finish_options buf off.

Definition dhcp_build_request (buf chaddr : list Z) (xid requested_ip server_id : Z) : option (list Z * nat) :=
  '(buf, off) ← build_header buf chaddr xid;
  '(buf, off) ← build_common_options buf off chaddr DHCP_MSG_REQUEST;
  ipbuf ← put32be [0; 0; 0; 0] 0 requested_ip;
  '(buf, off) ← put_option buf off DHCP_OPT_REQUESTED_IP ipbuf 4;
  ipbuf ← put32be ipbuf 0 server_id;
  '(buf, off) ← put_option buf off DHCP_OPT_SERVER_ID ipbuf 4;
  finish_options buf off.

(** ** The parser *)

(** The local variables [got_server], [got_lease] and [msg_type]. *)
Record reply_fields := ReplyFields { got_server : Z; got_lease : Z; msg_type : Z }.

(** [while (off < len)] over the options. *)
Fixpoint parse_options (fuel : nat) (buf : list Z) (off : nat) (f : reply_fields) : option reply_fields :=
  match fuel with
  | O => None
  | S fuel' =>
      if (length buf <=? off)%nat then Some f
      else
        code ← buf !! off;
        let off := (off + 1)%nat in
        if code =? DHCP_OPT_END then Some f
        else if code =? DHCP_OPT_PAD then parse_options fuel' buf off f
        else if (length buf <=? off)%nat then Some f
        else
          olen ← buf !! off;
          let off := (off + 1)%nat in
          if Z.of_nat off + olen >? Z.of_nat (length buf) then Some f
          else
            f ← (if code =? DHCP_OPT_MSG_TYPE then
                   if 1 <=? olen
                   then v ← buf !! off; Some (ReplyFields (got_server f) (got_lease f) v) else Some f
                 else if code =? DHCP_OPT_SERVER_ID then
                   if 4 <=? olen
                   then v ← get32be buf off; Some (ReplyFields v (got_lease f) (msg_type f)) else Some f
                 else if code =? DHCP_OPT_LEASE_TIME then
                   if 4 <=? olen
                   then v ← get32be buf off; Some (ReplyFields (got_server f) v (msg_type f)) else Some f
                 else Some f);
            parse_options fuel' buf (off + Z.to_nat olen) f
  end.

(** What a successful parse stores through its pointers. *)
Record lease_reply := LeaseReply { ip : Z; server : Z; lease_secs : Z }.

(** [Some None] is the result 0; [len] is the length of [buf]. *)
Definition parse_reply (buf : list Z) (xid want_msg_type : Z) : option (option lease_reply) :=
  if (length buf <? DHCP_OPTIONS_OFFSET)%nat then Some None
  else
    op ← buf !! 0%nat;
    if negb (op =? DHCP_OP_BOOTREPLY) then Some None
    else
      x ← get32be buf 4;
      if negb (x =? xid) then Some None
      else
        cookie ← get32be buf 236;
        if negb (cookie =? DHCP_MAGIC_COOKIE) then Some None
        else
          yiaddr ← get32be buf 16;
          f ← parse_options (S (length buf)) buf DHCP_OPTIONS_OFFSET (ReplyFields 0 0 (-1));
          if negb (msg_type f =? want_msg_type) then Some None
          else Some (Some (LeaseReply yiaddr (got_server f) (got_lease f))).

Definition dhcp_parse_offer (buf : list Z) (xid : Z) : option (option lease_reply) :=
  parse_reply buf xid DHCP_MSG_OFFER.
Definition dhcp_parse_ack (buf : list Z) (xid : Z) : option (option lease_reply) :=
  parse_reply buf xid DHCP_MSG_ACK.

(** ** The option field, as a specification

    [options bs l]: the option field [bs] holds the options [l], each a code with
    its value, in order.  The field ends with the end option or with the
    buffer; an option cut off by the end of the buffer is not one of [l]. *)

Inductive options : list Z -> list (Z * list Z) -> Prop :=
| options_nil : options [] []
| options_end rest : options (DHCP_OPT_END :: rest) []
| options_pad rest l : options rest l -> options (DHCP_OPT_PAD :: rest) l
| options_cut code : code <> DHCP_OPT_END -> code <> DHCP_OPT_PAD -> options [code] []
| options_short code olen rest :
    code <> DHCP_OPT_END -> code <> DHCP_OPT_PAD -> Z.of_nat (length rest) < olen ->
    options (code :: olen :: rest) []
| options_value code value rest l :
    code <> DHCP_OPT_END -> code <> DHCP_OPT_PAD -> options rest l ->
    options (code :: Z.of_nat (length value) :: value ++ rest) ((code, value) :: l).

(** The last option with this code whose value has at least [n] bytes. *)
Fixpoint last_option (code : Z) (n : nat) (l : list (Z * list Z)) : option (list Z) :=
  match l with
  | [] => None
  | (c, value) :: l' =>
      match last_option code n l' with
      | Some v => Some v
      | None => if (c =? code) && (n <=? length value)%nat then Some value else None
      end
  end.

Definition word_of (value : list Z) : Z := default 0 (get32be value 0).

Definition fields_of (f : reply_fields) (l : list (Z * list Z)) : reply_fields :=
  ReplyFields (from_option word_of (got_server f) (last_option DHCP_OPT_SERVER_ID 4 l))
              (from_option word_of (got_lease f) (last_option DHCP_OPT_LEASE_TIME 4 l))
              (from_option (fun v => default 0 (v !! 0%nat)) (msg_type f) (last_option DHCP_OPT_MSG_TYPE 1 l)).

(** The abstract parser: the fields of the fixed part and the options decide. *)
Definition reply_spec (buf : list Z) (l : list (Z * list Z)) (xid want_msg_type : Z) : option lease_reply :=
  let f := fields_of (ReplyFields 0 0 (-1)) l in
  if (DHCP_OPTIONS_OFFSET <=? length buf)%nat && bool_decide (buf !! 0%nat = Some DHCP_OP_BOOTREPLY)
     && bool_decide (get32be buf 4 = Some xid) && bool_decide (get32be buf 236 = Some DHCP_MAGIC_COOKIE)
     && (msg_type f =? want_msg_type)
  then Some (LeaseReply (default 0 (get32be buf 16)) (got_server f) (got_lease f))
  else None.

(** *** Every option field has exactly one reading *)

Lemma options_exists bs : Forall is_byte bs -> exists l, options bs l.
Proof.
  induction bs as [bs IH] using (induction_ltof1 _ (@length Z)). unfold ltof in IH.
  intros Hbs. destruct bs as [|code rest]; [eexists; constructor|].
  apply Forall_cons in Hbs as [_ Hrest].
  destruct (decide (code = DHCP_OPT_END)) as [->|Hend]; [eexists; constructor|].
  destruct (decide (code = DHCP_OPT_PAD)) as [->|Hpad].
  { destruct (IH rest) as [l Hl]; [simpl; lia|done|]. eexists. by constructor. }
  destruct rest as [|olen rest]; [eexists; by constructor|].
  apply Forall_cons in Hrest as [Hlen Hrest]. unfold is_byte in Hlen.
  destruct (decide (Z.of_nat (length rest) < olen)) as [Hs|Hs]; [eexists; by constructor|].
  destruct (IH (drop (Z.to_nat olen) rest)) as [l Hl].
  { rewrite length_drop. simpl. lia. }
  { by apply Forall_drop. }
  exists ((code, take (Z.to_nat olen) rest) :: l).
  rewrite <- (take_drop (Z.to_nat olen) rest) at 1.
  replace olen with (Z.of_nat (length (take (Z.to_nat olen) rest))) at 1 by (rewrite length_take; lia).
  by constructor.
Qed.

Lemma options_functional bs l1 l2 : options bs l1 -> options bs l2 -> l1 = l2.
Proof.
  intros H1. revert l2. induction H1; intros l2 H2; inversion H2; subst; try done; auto.
  - rewrite length_app in *. lia.
  - rewrite length_app in *. lia.
  - assert (value0 = value /\ rest0 = rest) as [-> ->].
    { apply (app_inj_1 value0 value); [lia|done]. }
    f_equal. auto.
Qed.

(** *** The parser refines the specification *)

Lemma get32be_app value rest : (4 <= length value)%nat -> get32be (value ++ rest) 0 = Some (word_of value).
Proof. destruct value as [|?[|?[|?[|??]]]]; simpl; intros; try lia. done. Qed.

Lemma fields_of_cons f code value l :
  fields_of f ((code, value) :: l) =
  fields_of (if (code =? DHCP_OPT_MSG_TYPE) && (1 <=? length value)%nat
             then ReplyFields (got_server f) (got_lease f) (default 0 (value !! 0%nat))
             else if (code =? DHCP_OPT_SERVER_ID) && (4 <=? length value)%nat
             then ReplyFields (word_of value) (got_lease f) (msg_type f)
             else if (code =? DHCP_OPT_LEASE_TIME) && (4 <=? length value)%nat
             then ReplyFields (got_server f) (word_of value) (msg_type f) else f) l.
Proof.
  unfold fields_of. cbn [last_option].
  destruct (last_option DHCP_OPT_SERVER_ID 4 l), (last_option DHCP_OPT_LEASE_TIME 4 l),
    (last_option DHCP_OPT_MSG_TYPE 1 l);
  destruct (Z.eqb_spec code DHCP_OPT_MSG_TYPE) as [->|]; try (destruct (1 <=? length value)%nat; done);
  destruct (Z.eqb_spec code DHCP_OPT_SERVER_ID) as [->|]; try (destruct (4 <=? length value)%nat; done);
  destruct (code =? DHCP_OPT_LEASE_TIME); try (destruct (4 <=? length value)%nat; done); done.
Qed.

(** The switch on an option whose value lies in the buffer. *)
Lemma parse_option_value buf off code value rest f :
  drop off buf = value ++ rest ->
  (if code =? DHCP_OPT_MSG_TYPE then
     if 1 <=? Z.of_nat (length value)
     then v ← buf !! off; Some (ReplyFields (got_server f) (got_lease f) v) else Some f
   else if code =? DHCP_OPT_SERVER_ID then
     if 4 <=? Z.of_nat (length value)
     then v ← get32be buf off; Some (ReplyFields v (got_lease f) (msg_type f)) else Some f
   else if code =? DHCP_OPT_LEASE_TIME then
     if 4 <=? Z.of_nat (length value)
     then v ← get32be buf off; Some (ReplyFields (got_server f) v (msg_type f)) else Some f
   else Some f) =
  Some (if (code =? DHCP_OPT_MSG_TYPE) && (1 <=? length value)%nat
        then ReplyFields (got_server f) (got_lease f) (default 0 (value !! 0%nat))
        else if (code =? DHCP_OPT_SERVER_ID) && (4 <=? length value)%nat
        then ReplyFields (word_of value) (got_lease f) (msg_type f)
        else if (code =? DHCP_OPT_LEASE_TIME) && (4 <=? length value)%nat
        then ReplyFields (got_server f) (word_of value) (msg_type f) else f).
Proof.
  intros Hd.
  assert (H4 : (4 <=? Z.of_nat (length value)) = (4 <=? length value)%nat)
    by (apply eq_true_iff_eq; rewrite Z.leb_le, Nat.leb_le; lia).
  assert (H1 : (1 <=? Z.of_nat (length value)) = (1 <=? length value)%nat)
    by (apply eq_true_iff_eq; rewrite Z.leb_le, Nat.leb_le; lia).
  rewrite H1, H4, get32be_drop, Hd.
  destruct (Z.eqb_spec code DHCP_OPT_MSG_TYPE) as [->|_]; cbn [andb].
  { destruct value as [|v value]; [done|].
    apply drop_cons_lookup in Hd as (-> & _). done. }
  destruct (Nat.leb_spec 4 (length value)).
  - rewrite get32be_app by done. rewrite !andb_true_r.
    destruct (code =? DHCP_OPT_SERVER_ID); [done|]. by destruct (code =? DHCP_OPT_LEASE_TIME).
  - rewrite !andb_false_r. destruct (code =? DHCP_OPT_SERVER_ID); [done|].
    by destruct (code =? DHCP_OPT_LEASE_TIME).
Qed.

Lemma parse_options_refines buf bs l :
  options bs l -> forall off fuel f, drop off buf = bs -> (length bs < fuel)%nat ->
  parse_options fuel buf off f = Some (fields_of f l).
Proof.
  induction 1 as [|rest|rest l Hl IH|code Hend Hpad|code olen rest Hend Hpad Hs
                 |code value rest l Hend Hpad Hl IH];
    intros off fuel f Hd Hf; (destruct fuel as [|fuel]; [simpl in Hf; lia|]); cbn [parse_options].
  { apply (f_equal length) in Hd. rewrite length_drop in Hd. simpl in Hd.
    rewrite (proj2 (Nat.leb_le _ _)) by lia. by destruct f. }
  all: apply drop_cons_lookup in Hd as (-> & Hd & ->); cbn [mbind option_bind].
  - by destruct f.
  - rewrite (proj2 (Z.eqb_neq DHCP_OPT_PAD DHCP_OPT_END)), Z.eqb_refl by done.
    apply IH; [done|]. simpl in Hf. lia.
  - rewrite (proj2 (Z.eqb_neq _ _) Hend), (proj2 (Z.eqb_neq _ _) Hpad).
    apply (f_equal length) in Hd. rewrite length_drop in Hd. simpl in Hd.
    rewrite (proj2 (Nat.leb_le _ _)) by lia. by destruct f.
  - rewrite (proj2 (Z.eqb_neq _ _) Hend), (proj2 (Z.eqb_neq _ _) Hpad).
    pose proof Hd as Hlen. apply (f_equal length) in Hlen. rewrite length_drop in Hlen. simpl in Hlen.
    apply drop_cons_lookup in Hd as (-> & Hd & ->). cbn [mbind option_bind].
    destruct (Z.gtb_spec (Z.of_nat (off + 1 + 1) + olen) (Z.of_nat (length buf))); [by destruct f|lia].
  - rewrite (proj2 (Z.eqb_neq _ _) Hend), (proj2 (Z.eqb_neq _ _) Hpad).
    pose proof Hd as Hlen. apply (f_equal length) in Hlen. rewrite length_drop in Hlen.
    cbn [length] in Hlen. rewrite length_app in Hlen. cbn [length] in Hf. rewrite length_app in Hf.
    apply drop_cons_lookup in Hd as (-> & Hd & ->). cbn [mbind option_bind].
    destruct (Z.gtb_spec (Z.of_nat (off + 1 + 1) + Z.of_nat (length value)) (Z.of_nat (length buf))); [lia|].
    rewrite (parse_option_value _ _ _ _ _ _ Hd), fields_of_cons. cbn [mbind option_bind].
    apply IH; [|lia]. rewrite Nat2Z.id, <- drop_drop, Hd. apply drop_app_length.
Qed.

(** ** The messages the builders write *)

(** The fixed part, the cookie included, of a message of the client. *)
Definition header_bytes (chaddr : list Z) (xid : Z) : list Z :=
  [DHCP_OP_BOOTREQUEST; DHCP_HTYPE_ETHERNET; DHCP_HLEN_ETHERNET; 0] ++ be32 xid ++ [0; 0; 0x80; 0] ++
  replicate 16 0 ++ chaddr ++ replicate 202 0 ++ be32 DHCP_MAGIC_COOKIE.

Definition option_bytes (o : Z * list Z) : list Z := o.1 :: Z.of_nat (length o.2) :: o.2.

Definition common_options (chaddr : list Z) (msg_type : Z) : list (Z * list Z) :=
  [(DHCP_OPT_MSG_TYPE, [msg_type]); (DHCP_OPT_PARAM_REQ_LIST, [1; 3; 6]);
   (DHCP_OPT_HOSTNAME, DHCP_HOSTNAME); (DHCP_OPT_CLIENT_ID, DHCP_HTYPE_ETHERNET :: chaddr)].

(** A message with its options, the end option and the padding. *)
Definition message_bytes (chaddr : list Z) (xid : Z) (l : list (Z * list Z)) : list Z :=
  let body := header_bytes chaddr xid ++ concat (map option_bytes l) ++ [DHCP_OPT_END] in
  body ++ replicate (DHCP_MIN_PACKET_LEN - length body) DHCP_OPT_PAD.

Lemma put_option_end a rest code data :
  is_byte code -> (length data < 256)%nat -> (2 + length data <= length rest)%nat ->
  put_option (a ++ rest) (length a) code data (length data) =
  Some ((a ++ option_bytes (code, data)) ++ drop (2 + length data) rest, (length a + (2 + length data))%nat).
Proof.
  intros Hc Hd Hr. unfold put_option, put8, memcpy.
  rewrite put_end by (simpl; lia). cbn [mbind option_bind].
  replace (length a + 1)%nat with (length (a ++ [Z.land code 255])) by (rewrite length_app; simpl; lia).
  rewrite put_end by (rewrite length_drop; simpl; lia). cbn [mbind option_bind].
  rewrite Nat.leb_refl, firstn_all.
  replace (length a + 2)%nat
    with (length ((a ++ [Z.land code 255]) ++ [Z.land (Z.of_nat (length data)) 255]))
    by (rewrite !length_app; simpl; lia).
  rewrite put_end by (rewrite !length_drop; simpl; lia). cbn [mbind option_bind].
  rewrite !drop_drop, !land_255_id by (done || (unfold is_byte; lia)).
  rewrite <- !(assoc_L (++)). simpl. do 2 f_equal. rewrite !length_app. simpl. lia.
Qed.

Lemma pad_loop_end n a rest :
  (n <= length rest)%nat ->
  pad_loop n (a ++ rest) (length a) = Some ((a ++ replicate n DHCP_OPT_PAD) ++ drop n rest, (length a + n)%nat).
Proof.
  revert a rest. induction n as [|n IH]; intros a rest H; cbn [pad_loop].
  { by rewrite app_nil_r, Nat.add_0_r. }
  unfold put8. rewrite put_end by (simpl; lia). cbn [mbind option_bind].
  replace (length a + 1)%nat with (length (a ++ [Z.land DHCP_OPT_PAD 255])) by (rewrite length_app; simpl; lia).
  rewrite IH by (rewrite length_drop; simpl; lia).
  rewrite drop_drop, <- !(assoc_L (++)), !length_app. simpl. do 2 f_equal. lia.
Qed.

Lemma build_header_run buf chaddr xid :
  (DHCP_OPTIONS_OFFSET <= length buf)%nat -> length chaddr = 6%nat ->
  build_header buf chaddr xid =
  Some (header_bytes chaddr xid ++ drop DHCP_OPTIONS_OFFSET buf, DHCP_OPTIONS_OFFSET).
Proof.
  intros Hb Hc. unfold build_header. rewrite (put_end [] buf) by (rewrite length_replicate; lia).
  cbn [mbind option_bind app]. rewrite length_replicate.
  generalize (drop DHCP_OPTIONS_OFFSET buf). intros rest.
  destruct chaddr as [|c0 [|c1 [|c2 [|c3 [|c4 [|c5 [|??]]]]]]]; simpl in Hc; try lia. reflexivity.
Qed.

(** The options of a message, written one after the other. *)
Lemma put_options_end a rest l :
  Forall (fun o => is_byte o.1 /\ (length o.2 < 256)%nat) l ->
  (length (concat (map option_bytes l)) <= length rest)%nat ->
  foldl (fun (r : option (list Z * nat)) o => '(buf, off) ← r; put_option buf off o.1 o.2 (length o.2))
        (Some (a ++ rest, length a)) l =
  Some ((a ++ concat (map option_bytes l)) ++ drop (length (concat (map option_bytes l))) rest,
        length (a ++ concat (map option_bytes l))).
Proof.
  intros Hl. revert a rest. induction Hl as [|[code data] l [Hc Hd] _ IH]; intros a rest Hr.
  { simpl. by rewrite app_nil_r. }
  cbn [foldl fst snd] in *. cbn [map concat] in Hr |- *. rewrite length_app in Hr. cbn [length option_bytes fst snd] in Hr.
  cbn [mbind option_bind]. rewrite put_option_end by (done || lia).
  replace (length a + (2 + length data))%nat with (length (a ++ option_bytes (code, data)))
    by (rewrite length_app; done).
  rewrite IH by (rewrite length_drop; lia). rewrite drop_drop, <- !(assoc_L (++)), !length_app. done.
Qed.

Lemma message_length chaddr xid l :
  length chaddr = 6%nat -> (length (concat (map option_bytes l)) < 60)%nat ->
  length (message_bytes chaddr xid l) = DHCP_MIN_PACKET_LEN.
Proof.
  intros Hc Hl. unfold message_bytes, header_bytes, DHCP_MIN_PACKET_LEN.
  rewrite !length_app, !length_replicate, !be32_length, Hc. cbn [length]. lia.
Qed.

(** A builder: the header, the options of [l] and the end. *)
Lemma build_run buf chaddr xid l :
  (DHCP_MIN_PACKET_LEN <= length buf)%nat -> length chaddr = 6%nat ->
  Forall (fun o => is_byte o.1 /\ (length o.2 < 256)%nat) l -> (length (concat (map option_bytes l)) < 60)%nat ->
  (r ← foldl (fun (r : option (list Z * nat)) o => '(buf, off) ← r; put_option buf off o.1 o.2 (length o.2))
             (build_header buf chaddr xid) l; finish_options r.1 r.2) =
  Some (message_bytes chaddr xid l ++ drop DHCP_MIN_PACKET_LEN buf, DHCP_MIN_PACKET_LEN).
Proof.
  intros Hb Hc Hl Hn. pose proof (message_length chaddr xid l Hc Hn) as Hm.
  assert (Hh : length (header_bytes chaddr xid) = DHCP_OPTIONS_OFFSET).
  { unfold header_bytes. rewrite !length_app, !length_replicate, !be32_length, Hc. done. }
  assert (Hk : (DHCP_OPTIONS_OFFSET = 240 /\ DHCP_MIN_PACKET_LEN = 300)%nat) by done.
  rewrite build_header_run by (done || lia). rewrite <- Hh at 2.
  rewrite put_options_end by (done || (rewrite length_drop; lia)).
  cbn [mbind option_bind fst snd]. unfold finish_options, put8.
  rewrite put_end by (rewrite !length_drop; simpl; lia).
  cbn [mbind option_bind]. rewrite land_255_id by (unfold is_byte, DHCP_OPT_END; lia).
  set (body := (header_bytes chaddr xid ++ concat (map option_bytes l)) ++ [DHCP_OPT_END]).
  assert (Hbody : length body = (240 + length (concat (map option_bytes l)) + 1)%nat).
  { unfold body. rewrite !length_app, Hh. simpl. lia. }
  replace (length (header_bytes chaddr xid ++ concat (map option_bytes l)) + 1)%nat with (length body)
    by (rewrite Hbody, length_app, Hh; lia).
  rewrite pad_loop_end by (rewrite !length_drop; cbn [length]; lia).
  unfold message_bytes. rewrite !(assoc_L (++)). fold body.
  rewrite !drop_drop. do 2 f_equal; [|lia]. do 2 f_equal. cbn [length]. lia.
Qed.

Definition request_options (requested_ip server_id : Z) : list (Z * list Z) :=
  [(DHCP_OPT_REQUESTED_IP, be32 requested_ip); (DHCP_OPT_SERVER_ID, be32 server_id)].

(** The end option closes what the options of [l] wrote. *)
Lemma options_encoded l rest :
  Forall (fun o => o.1 <> DHCP_OPT_END /\ o.1 <> DHCP_OPT_PAD) l ->
  options (concat (map option_bytes l) ++ DHCP_OPT_END :: rest) l.
Proof.
  induction 1 as [|[code value] l [Hend Hpad] _ IH]; [constructor|].
  cbn [map concat option_bytes fst snd]. rewrite <- (assoc_L (++)). by constructor.
Qed.

Lemma message_bytes_ok chaddr xid l :
  Forall is_byte chaddr -> Forall (fun o => is_byte o.1 /\ (length o.2 < 256)%nat /\ Forall is_byte o.2) l ->
  Forall is_byte (message_bytes chaddr xid l).
Proof.
  intros Hc Hl.
  assert (Ho : Forall is_byte (concat (map option_bytes l))).
  { induction Hl as [|[code value] l (H1 & H2 & H3) _ IH]; [constructor|]. cbn [map concat option_bytes fst snd] in *.
    apply Forall_app_2; [|done]. apply Forall_cons. split; [done|]. apply Forall_cons. split; [|done]. unfold is_byte. cbn [snd]. lia. }
  unfold message_bytes, header_bytes. bytes.
Qed.

(** What a reader of a message of the builders finds in it. *)
Definition client_message (chaddr : list Z) (xid : Z) (l : list (Z * list Z)) (msg : list Z) : Prop :=
  length msg = DHCP_MIN_PACKET_LEN /\
  take 4 msg = [DHCP_OP_BOOTREQUEST; DHCP_HTYPE_ETHERNET; DHCP_HLEN_ETHERNET; 0] /\
  get32be msg 4 = Some xid /\ take 2 (drop 10 msg) = be16 0x8000 /\
  Forall (fun off => get32be msg off = Some 0) [12; 16; 20; 24]%nat /\
  take 16 (drop 28 msg) = chaddr ++ replicate 10 0 /\
  get32be msg 236 = Some DHCP_MAGIC_COOKIE /\ options (drop DHCP_OPTIONS_OFFSET msg) l.

Lemma message_read chaddr xid l :
  length chaddr = 6%nat -> word32 xid -> (length (concat (map option_bytes l)) < 60)%nat ->
  Forall (fun o => o.1 <> DHCP_OPT_END /\ o.1 <> DHCP_OPT_PAD) l ->
  client_message chaddr xid l (message_bytes chaddr xid l).
Proof.
  intros Hc Hx Hn Hl. split; [by apply message_length|].
  unfold message_bytes. cbv zeta. generalize (DHCP_MIN_PACKET_LEN - length (header_bytes chaddr xid ++
    concat (map option_bytes l) ++ [DHCP_OPT_END]))%nat. intros n.
  rewrite <- !(assoc_L (++)). simpl ([DHCP_OPT_END] ++ _).
  assert (Ho : drop DHCP_OPTIONS_OFFSET (header_bytes chaddr xid ++ concat (map option_bytes l) ++
    DHCP_OPT_END :: replicate n DHCP_OPT_PAD) = concat (map option_bytes l) ++ DHCP_OPT_END :: replicate n DHCP_OPT_PAD).
  { apply drop_app_length'. unfold header_bytes. by rewrite !length_app, !length_replicate, !be32_length, Hc. }
  rewrite Ho. generalize (concat (map option_bytes l) ++ DHCP_OPT_END :: replicate n DHCP_OPT_PAD),
    (options_encoded l (replicate n DHCP_OPT_PAD) Hl). intros rest Hopt.
  destruct chaddr as [|c0 [|c1 [|c2 [|c3 [|c4 [|c5 [|??]]]]]]]; simpl in Hc; try lia.
  split_and!; [done| |done|by repeat constructor|done|done|].
  - unfold header_bytes, get32be. cbn. f_equal. by apply of_be32_be32.
  - done.
Qed.

(** The options of the firmware have codes in range and short values. *)
Ltac short_options :=
  repeat (apply Forall_cons; split;
          [split; [split; [by apply Z.leb_le|by apply Z.ltb_lt]|by apply Nat.ltb_lt]|]);
  apply Forall_nil_2.

Ltac build_steps :=
  repeat match goal with
         | |- context [put_option ?b ?o ?c ?d ?n] =>
             destruct (put_option b o c d n) as [[??]|]; cbn [mbind option_bind fst snd]; [|done]
         end; done.

Lemma build_discover_run buf chaddr xid :
  (DHCP_MIN_PACKET_LEN <= length buf)%nat -> length chaddr = 6%nat ->
  dhcp_build_discover buf chaddr xid =
  Some (message_bytes chaddr xid (common_options chaddr DHCP_MSG_DISCOVER) ++ drop DHCP_MIN_PACKET_LEN buf,
        DHCP_MIN_PACKET_LEN).
Proof.
  intros Hb Hc.
  destruct chaddr as [|c0 [|c1 [|c2 [|c3 [|c4 [|c5 [|??]]]]]]]; simpl in Hc; try lia.
  rewrite <- build_run by (done || (simpl; lia) || short_options).
  unfold dhcp_build_discover, build_common_options. cbn [foldl common_options fst snd length DHCP_HOSTNAME].
  rewrite build_header_run by (done || (unfold DHCP_MIN_PACKET_LEN, DHCP_OPTIONS_OFFSET in *; lia)).
  change (memcpy [DHCP_HTYPE_ETHERNET; 0; 0; 0; 0; 0; 0] 1 [c0; c1; c2; c3; c4; c5] 6)
    with (Some [DHCP_HTYPE_ETHERNET; c0; c1; c2; c3; c4; c5]).
  change (Z.land DHCP_MSG_DISCOVER 255) with DHCP_MSG_DISCOVER. cbn [mbind option_bind]. build_steps.
Qed.

Lemma build_request_run buf chaddr xid requested_ip server_id :
  (DHCP_MIN_PACKET_LEN <= length buf)%nat -> length chaddr = 6%nat ->
  dhcp_build_request buf chaddr xid requested_ip server_id =
  Some (message_bytes chaddr xid (common_options chaddr DHCP_MSG_REQUEST ++ request_options requested_ip server_id)
          ++ drop DHCP_MIN_PACKET_LEN buf, DHCP_MIN_PACKET_LEN).
Proof.
  intros Hb Hc.
  destruct chaddr as [|c0 [|c1 [|c2 [|c3 [|c4 [|c5 [|??]]]]]]]; simpl in Hc; try lia.
  rewrite <- build_run by (done || (simpl; lia) || short_options).
  unfold dhcp_build_request, build_common_options.
  cbn [foldl common_options request_options app fst snd length DHCP_HOSTNAME].
  rewrite build_header_run by (done || (unfold DHCP_MIN_PACKET_LEN, DHCP_OPTIONS_OFFSET in *; lia)).
  change (memcpy [DHCP_HTYPE_ETHERNET; 0; 0; 0; 0; 0; 0] 1 [c0; c1; c2; c3; c4; c5] 6)
    with (Some [DHCP_HTYPE_ETHERNET; c0; c1; c2; c3; c4; c5]).
  change (put32be [0; 0; 0; 0] 0 requested_ip) with (Some (be32 requested_ip)).
  change (Z.land DHCP_MSG_REQUEST 255) with DHCP_MSG_REQUEST. rewrite !be32_length. cbn [mbind option_bind].
  change (put32be (be32 requested_ip) 0 server_id) with (Some (be32 server_id)).
  build_steps.
Qed.

Lemma client_options_ok chaddr requested_ip server_id m :
  length chaddr = 6%nat -> Forall is_byte chaddr -> is_byte m ->
  Forall (fun o => is_byte o.1 /\ (length o.2 < 256)%nat /\ Forall is_byte o.2)
    (common_options chaddr m ++ request_options requested_ip server_id).
Proof.
  intros Hl Hc Hm. unfold common_options, request_options, DHCP_HOSTNAME. cbn [app].
  repeat (apply Forall_cons; split;
    [split; [bytes|split; cbn [fst snd DHCP_HOSTNAME];
                   [rewrite ?be32_length; cbn [length]; lia|solve [bytes] || (apply Forall_cons; split; [done|bytes])]]|]).
  apply Forall_nil_2.
Qed.

Lemma parse_reply_spec buf xid want_msg_type :
  Forall is_byte buf ->
  exists l, options (drop DHCP_OPTIONS_OFFSET buf) l /\
    (forall l', options (drop DHCP_OPTIONS_OFFSET buf) l' -> l' = l) /\
    parse_reply buf xid want_msg_type = Some (reply_spec buf l xid want_msg_type).
Proof.
  intros Hb. destruct (options_exists (drop DHCP_OPTIONS_OFFSET buf)) as [l Hl]; [by apply Forall_drop|].
  exists l. split; [done|]. split; [intros l' Hl'; by eapply options_functional|].
  unfold parse_reply, reply_spec. destruct (Nat.ltb_spec (length buf) DHCP_OPTIONS_OFFSET) as [Hs|Hs].
  { by rewrite (proj2 (Nat.leb_gt _ _)) by done. }
  rewrite (proj2 (Nat.leb_le _ _)) by done. cbn [andb].
  rewrite (parse_options_refines _ _ _ Hl) by (done || (rewrite length_drop; lia)).
  unfold DHCP_OPTIONS_OFFSET in Hs.
  destruct (lookup_lt_is_Some_2 buf 0) as [op ->]; [lia|].
  destruct (get32be_some buf 4) as [x ->]; [lia|]. destruct (get32be_some buf 236) as [cookie ->]; [lia|].
  destruct (get32be_some buf 16) as [yiaddr ->]; [lia|]. cbn [mbind option_bind].
  destruct (Z.eqb_spec op DHCP_OP_BOOTREPLY) as [->|]; [|by rewrite bool_decide_eq_false_2 by congruence].
  rewrite bool_decide_eq_true_2 by done.
  destruct (Z.eqb_spec x xid) as [->|]; [|by rewrite bool_decide_eq_false_2 by congruence].
  rewrite bool_decide_eq_true_2 by done.
  destruct (Z.eqb_spec cookie DHCP_MAGIC_COOKIE) as [->|]; [|by rewrite bool_decide_eq_false_2 by congruence].
  rewrite bool_decide_eq_true_2 by done. cbn [negb andb].
  by destruct (msg_type _ =? want_msg_type).
Qed.

(** C25: The parsers of the firmware refine the specification of a DHCP reply: on any datagram they read
    only inside the buffer and return; the option field has exactly one reading, and the result
    is a lease exactly when the datagram is a BOOTREPLY of the client's transaction with the
    cookie and the message type of an OFFER, or of an ACK: the address given, and the last server
    identifier and lease time present (0 when absent). *)
Theorem dhcp_parse_refines buf xid :
  Forall is_byte buf ->
  exists l, options (drop DHCP_OPTIONS_OFFSET buf) l /\
    (forall l', options (drop DHCP_OPTIONS_OFFSET buf) l' -> l' = l) /\
    dhcp_parse_offer buf xid = Some (reply_spec buf l xid DHCP_MSG_OFFER) /\
    dhcp_parse_ack buf xid = Some (reply_spec buf l xid DHCP_MSG_ACK).
Proof.
  intros Hb. destruct (parse_reply_spec buf xid DHCP_MSG_OFFER Hb) as (l & Hl & Hu & Hoffer).
  destruct (parse_reply_spec buf xid DHCP_MSG_ACK Hb) as (l' & Hl' & _ & Hack).
  rewrite (Hu l' Hl') in Hack. by exists l.
Qed.

(** C32: The builders' messages read back: given a buffer of at least [DHCP_MIN_PACKET_LEN] bytes, both
    builders write exactly its first [DHCP_MIN_PACKET_LEN] bytes and return that length; the
    message is a BOOTREQUEST with the transaction, the broadcast flag, no claimed address, the
    hardware address and the cookie, and its options are the intended ones in order: for a
    REQUEST, the address and the server of the offer among them. *)
Theorem build_messages_read_back buf chaddr xid requested_ip server_id :
  (DHCP_MIN_PACKET_LEN <= length buf)%nat -> length chaddr = 6%nat ->
  word32 xid ->
  (exists msg, dhcp_build_discover buf chaddr xid = Some (msg ++ drop DHCP_MIN_PACKET_LEN buf, DHCP_MIN_PACKET_LEN) /\
     client_message chaddr xid (common_options chaddr DHCP_MSG_DISCOVER) msg) /\
  (exists msg, dhcp_build_request buf chaddr xid requested_ip server_id =
                 Some (msg ++ drop DHCP_MIN_PACKET_LEN buf, DHCP_MIN_PACKET_LEN) /\
     client_message chaddr xid
       (common_options chaddr DHCP_MSG_REQUEST ++
        [(DHCP_OPT_REQUESTED_IP, be32 requested_ip); (DHCP_OPT_SERVER_ID, be32 server_id)]) msg).
Proof.
  intros Hb Hc Hx. rewrite build_discover_run, build_request_run by done.
  split; (eexists; split; [done|]); (apply message_read; [done|done| |]).
  1, 3: destruct chaddr as [|?[|?[|?[|?[|?[|?[|??]]]]]]]; simpl in Hc |- *; lia.
  all: repeat (apply Forall_cons; split; [done|]); apply Forall_nil_2.
Qed.

(** The firmware's own messages, which a broadcast brings back to it, are not replies. *)
Lemma own_message_rejected chaddr xid l msg xid' want :
  client_message chaddr xid l msg -> parse_reply msg xid' want = Some None.
Proof.
  intros (Hn & H0 & _). unfold parse_reply. rewrite Hn. cbn [Nat.ltb Nat.leb DHCP_MIN_PACKET_LEN DHCP_OPTIONS_OFFSET].
  destruct msg as [|op msg]; [done|]. injection H0 as -> _. done.
Qed.

(** ** Runs *)

Module DhcpRuns.

(** An OFFER of 192.168.1.50 by 192.168.1.1 for 7200 s; a pad, a short lease time that is ignored
    and an option cut off by the end of the datagram are in it. *)
Definition offer (xid : Z) (msg_type : Z) : list Z :=
  [2; 1; 6; 0] ++ be32 xid ++ replicate 8 0 ++ be32 0xc0a80132 ++ replicate 216 0 ++ be32 DHCP_MAGIC_COOKIE ++
  [53; 1; msg_type; 0; 54; 4] ++ be32 0xc0a80101 ++ [51; 4] ++ be32 7200 ++ [51; 2; 9; 9; 6; 8; 1].

Lemma dhcp_parse_refines_witness :
  (exists l, options (drop DHCP_OPTIONS_OFFSET (offer 0x1234 2)) l /\
    (forall l', options (drop DHCP_OPTIONS_OFFSET (offer 0x1234 2)) l' -> l' = l) /\
    dhcp_parse_offer (offer 0x1234 2) 0x1234 = Some (reply_spec (offer 0x1234 2) l 0x1234 DHCP_MSG_OFFER) /\
    dhcp_parse_ack (offer 0x1234 2) 0x1234 = Some (reply_spec (offer 0x1234 2) l 0x1234 DHCP_MSG_ACK)) /\
  dhcp_parse_offer (offer 0x1234 2) 0x1234 = Some (Some (LeaseReply 0xc0a80132 0xc0a80101 7200)) /\
  dhcp_parse_ack (offer 0x1234 2) 0x1234 = Some None.
Proof.
  split; [|by split].
  apply (dhcp_parse_refines (offer 0x1234 2) 0x1234).
  exact (proj2 (is_buffer_spec 263 (offer 0x1234 2) ltac:(vm_compute; reflexivity))).
Defined.

Definition chaddr : list Z := [0x10; 0xe2; 0xd5; 0; 0; 1].

Lemma build_messages_read_back_witness :
  (exists msg, dhcp_build_discover (replicate 310 0xaa) chaddr 0x1234 =
                 Some (msg ++ drop DHCP_MIN_PACKET_LEN (replicate 310 0xaa), DHCP_MIN_PACKET_LEN) /\
     client_message chaddr 0x1234 (common_options chaddr DHCP_MSG_DISCOVER) msg) /\
  (exists msg, dhcp_build_request (replicate 310 0xaa) chaddr 0x1234 0xc0a80132 0xc0a80101 =
                 Some (msg ++ drop DHCP_MIN_PACKET_LEN (replicate 310 0xaa), DHCP_MIN_PACKET_LEN) /\
     client_message chaddr 0x1234
       (common_options chaddr DHCP_MSG_REQUEST ++
        [(DHCP_OPT_REQUESTED_IP, be32 0xc0a80132); (DHCP_OPT_SERVER_ID, be32 0xc0a80101)]) msg).
Proof.
  apply (build_messages_read_back (replicate 310 0xaa) chaddr 0x1234 0xc0a80132 0xc0a80101).
  - apply Nat.leb_le. reflexivity.
  - reflexivity.
  - unfold word32. lia.
Defined.

End DhcpRuns.
