(* ===== verification/Udp.v ===== *)
(** * The firmware's UDP driver

    firmware/udp.c, a fork of LiteX's driver, in the build with
    [HW_PREAMBLE_CRC] and [ETH_UDP_BROADCAST] (the build the tests under
    firmware/hostmocks use): the frames the driver sends, the checksums, and
    what it does with a received frame.  The record [udp_state] holds the static
    variables and the two transmit slots; [process_frame] works on a receive
    slot of [ETHMAC_SLOT_SIZE] bytes, of which [rxlen] belong to the frame.
    Every access to a slot is checked: [None] is an access outside of it.  The
    MAC is taken to be ready when a frame is sent. *)

From Stdlib Require Import ZArith Lia List Bool.
From stdpp Require Import base list.
From S2P Require Import Prelude Etherbone Bytes.

Open Scope Z_scope.

Definition ETHERTYPE_ARP : Z := 0x0806.
Definition ETHERTYPE_IP : Z := 0x0800.
Definition ARP_HWTYPE_ETHERNET : Z := 1.
Definition ARP_PROTO_IP : Z := 0x0800.
Definition ARP_PACKET_LENGTH : nat := 60.
Definition ARP_OPCODE_REQUEST : Z := 1.
Definition ARP_OPCODE_REPLY : Z := 2.
Definition IP_IPV4 : Z := 0x45.
Definition IP_DONT_FRAGMENT : Z := 0x4000.
Definition IP_TTL : Z := 64.
Definition IP_PROTO_UDP : Z := 0x11.
Definition IP_PROTO_ICMP : Z := 1.
Definition ICMP_ECHO_REPLY : Z := 0.
Definition ICMP_ECHO : Z := 8.
Definition ETHMAC_SLOT_SIZE : nat := 2048.
Definition ETHMAC_TX_SLOTS : nat := 2.

(** [sizeof] of the packed structures, and the offset of the UDP payload. *)
Definition sizeof_ethernet_header : nat := 14.
Definition sizeof_ip_header : nat := 20.
Definition sizeof_udp_header : nat := 8.
Definition sizeof_udp_frame : nat := 28.
Definition sizeof_icmp_header : nat := 8.
Definition sizeof_icmp_frame : nat := 28.
Definition payload_offset : nat := 42.

(** A callback is the function the program installs, or the null pointer. *)
Inductive udp_callback := dhcp_rx | eb_rx.

Record udp_state := UdpState {
  my_mac : list Z; my_ip : Z;
  cached_mac : list Z; cached_ip : Z;
  udp_last_src_mac : list Z;
  rx_callback : option udp_callback; bx_callback : option udp_callback;
  txslot : nat; tx_slots : list (list Z);
  ping_seq_number : Z; ping_ts_send : Z
}.

(** What a callback is handed. *)
Record datagram := Datagram { src_ip : Z; src_port : Z; dst_port : Z; data : list Z }.

Definition with_tx (s : udp_state) (slot : nat) (slots : list (list Z)) : udp_state :=
  UdpState (my_mac s) (my_ip s) (cached_mac s) (cached_ip s) (udp_last_src_mac s)
    (rx_callback s) (bx_callback s) slot slots (ping_seq_number s) (ping_ts_send s).

Definition udp_set_ip (ip : Z) (s : udp_state) : udp_state :=
  UdpState (my_mac s) ip (cached_mac s) (cached_ip s) (udp_last_src_mac s)
    (rx_callback s) (bx_callback s) (txslot s) (tx_slots s) (ping_seq_number s) (ping_ts_send s).

(** [udp_set_peer]; also the writes to the one entry of the ARP cache. *)
Definition udp_set_peer (ip : Z) (mac : list Z) (s : udp_state) : udp_state :=
  UdpState (my_mac s) (my_ip s) mac ip (udp_last_src_mac s)
    (rx_callback s) (bx_callback s) (txslot s) (tx_slots s) (ping_seq_number s) (ping_ts_send s).

Definition broadcast : list Z := replicate 6 0xff.

Definition udp_set_broadcast (s : udp_state) : udp_state := udp_set_peer 0xffffffff broadcast s.

Definition udp_set_callback (c : option udp_callback) (s : udp_state) : udp_state :=
  UdpState (my_mac s) (my_ip s) (cached_mac s) (cached_ip s) (udp_last_src_mac s)
    c (bx_callback s) (txslot s) (tx_slots s) (ping_seq_number s) (ping_ts_send s).

Definition udp_set_broadcast_callback (c : option udp_callback) (s : udp_state) : udp_state :=
  UdpState (my_mac s) (my_ip s) (cached_mac s) (cached_ip s) (udp_last_src_mac s)
    (rx_callback s) c (txslot s) (tx_slots s) (ping_seq_number s) (ping_ts_send s).

Definition record_src_mac (mac : list Z) (s : udp_state) : udp_state :=
  UdpState (my_mac s) (my_ip s) (cached_mac s) (cached_ip s) mac
    (rx_callback s) (bx_callback s) (txslot s) (tx_slots s) (ping_seq_number s) (ping_ts_send s).

(** [udp_start], with the transmit memory as it was. *)
Definition udp_start (mac : list Z) (ip : Z) (s : udp_state) : udp_state :=
  UdpState mac ip (replicate 6 0) 0 (udp_last_src_mac s) None None 0 (tx_slots s)
    (ping_seq_number s) (ping_ts_send s).

(** The state of a ping: its number, and whether its reply is awaited (the build has no uptime
    counter, so the time stamp of a sent ping is 1). *)
Definition set_ping (seq ts : Z) (s : udp_state) : udp_state :=
  UdpState (my_mac s) (my_ip s) (cached_mac s) (cached_ip s) (udp_last_src_mac s)
    (rx_callback s) (bx_callback s) (txslot s) (tx_slots s) seq ts.

(** ** Checksums *)

(** The 16-bit words of the bytes, and their sum in 32 bits. *)
Fixpoint sum16 (r : Z) (bs : list Z) : Z :=
  match bs with
  | b1 :: b0 :: rest => sum16 ((r + Z.lor (Z.shiftl b1 8) b0) mod 2 ^ 32) rest
  | _ => r
  end.

(** [while (r >> 16)]: a 32-bit sum folds in two turns. *)
Fixpoint fold16 (fuel : nat) (r : Z) : Z :=
  match fuel with
  | O => r
  | S fuel' => if Z.shiftr r 16 =? 0 then r else fold16 fuel' (Z.land r 0xffff + Z.shiftr r 16)
  end.

Definition ip_checksum (r : Z) (buffer : list Z) (complete : bool) : Z :=
  let r := fold16 3 (sum16 r buffer) in
  if complete
  then let r := Z.land (Z.lnot r) 0xffff in if r =? 0 then 0xffff else r
  else r.

(** ** Sending *)

Definition fill_eth_header (buf destmac srcmac : list Z) (ethertype : Z) : option (list Z) :=
  buf ← memcpy buf 0 destmac 6;
  buf ← memcpy buf 6 srcmac 6;
  put16be buf 12 ethertype.

(** The frame the MAC is started with, and the driver after it. *)
Definition send_packet (s : udp_state) (buf : list Z) (txlen : nat) : option (udp_state * list Z) :=
  '(buf, txlen) ← (if (txlen <? 100)%nat
                   then buf ← put buf txlen (replicate (100 - txlen) 0); Some (buf, 100%nat)
                   else Some (buf, txlen));
  frame ← slice buf 0 txlen;
  Some (with_tx s ((txslot s + 1) mod ETHMAC_TX_SLOTS) (<[txslot s := buf]> (tx_slots s)), frame).

(** The IP header with its checksum. *)
Definition put_ip_header (buf : list Z) (total_length proto : Z) (src dst : Z) : option (list Z) :=
  buf ← put8 buf 14 IP_IPV4;
  buf ← put8 buf 15 0;
  buf ← put16be buf 16 total_length;
  buf ← put16be buf 18 0;
  buf ← put16be buf 20 IP_DONT_FRAGMENT;
  buf ← put8 buf 22 IP_TTL;
  buf ← put8 buf 23 proto;
  buf ← put16be buf 24 0;
  buf ← put32be buf 26 src;
  buf ← put32be buf 30 dst;
  hdr ← slice buf 14 sizeof_ip_header;
  put16be buf 24 (ip_checksum 0 hdr true).

Definition pseudo_header (src dst udp_length : Z) : list Z :=
  be32 src ++ be32 dst ++ [0; IP_PROTO_UDP] ++ be16 udp_length.

Definition max_payload : nat := (ETHMAC_SLOT_SIZE - sizeof_ethernet_header - sizeof_udp_frame)%nat.

(** [udp_send]: its result, the driver after it and the frame it sent.  The payload is what the
    caller left in the transmit slot. *)
Definition udp_send (s : udp_state) (src_port dst_port : Z) (len : nat)
    : option (bool * udp_state * list (list Z)) :=
  if forallb (fun b => b =? 0) (cached_mac s) then Some (false, s, [])
  else if (max_payload <? len)%nat then Some (false, s, [])
  else
    let txlen := (len + sizeof_ethernet_header + sizeof_udp_frame)%nat in
    let txlen := if (txlen <? ARP_PACKET_LENGTH)%nat then ARP_PACKET_LENGTH else txlen in
    buf ← tx_slots s !! txslot s;
    buf ← fill_eth_header buf (cached_mac s) (my_mac s) ETHERTYPE_IP;
    buf ← put_ip_header buf (Z.of_nat (len + sizeof_udp_frame)) IP_PROTO_UDP (my_ip s) (cached_ip s);
    buf ← put16be buf 34 src_port;
    buf ← put16be buf 36 dst_port;
    buf ← put16be buf 38 (Z.of_nat (len + sizeof_udp_header));
    buf ← put16be buf 40 0;
    let r := ip_checksum 0 (pseudo_header (my_ip s) (cached_ip s) (Z.of_nat (len + sizeof_udp_header))) false in
    '(buf, len) ← (if Nat.odd len then buf ← put8 buf (payload_offset + len) 0; Some (buf, S len)
                   else Some (buf, len));
    udp ← slice buf 34 (sizeof_udp_header + len);
    buf ← put16be buf 40 (ip_checksum r udp true);
    '(s, frame) ← send_packet s buf txlen;
    Some (true, s, [frame]).

(** The body of an ARP frame. *)
Definition put_arp (buf : list Z) (opcode : Z) (sender_mac : list Z) (sender_ip : Z)
    (target_mac : list Z) (target_ip : Z) : option (list Z) :=
  buf ← put16be buf 14 ARP_HWTYPE_ETHERNET;
  buf ← put16be buf 16 ARP_PROTO_IP;
  buf ← put8 buf 18 6;
  buf ← put8 buf 19 4;
  buf ← put16be buf 20 opcode;
  buf ← put32be buf 28 sender_ip;
  buf ← put buf 42 (replicate 18 0);
  buf ← memcpy buf 22 sender_mac 6;
  buf ← put32be buf 38 target_ip;
  memcpy buf 32 target_mac 6.

(** An ARP request for [ip]. *)
Definition arp_request (s : udp_state) (ip : Z) : option (udp_state * list (list Z)) :=
  buf ← tx_slots s !! txslot s;
  buf ← fill_eth_header buf broadcast (my_mac s) ETHERTYPE_ARP;
  buf ← put_arp buf ARP_OPCODE_REQUEST (my_mac s) (my_ip s) (replicate 6 0) ip;
  '(s, frame) ← send_packet s buf ARP_PACKET_LENGTH;
  Some (s, [frame]).

Definition udp_announce_arp (s : udp_state) : option (udp_state * list (list Z)) :=
  if (my_ip s =? 0) || (my_ip s =? 0xffffffff) then Some (s, []) else arp_request s (my_ip s).

(** [cached_mac] has a byte that is not 0. *)
Definition has_mac (s : udp_state) : bool := negb (forallb (fun b => b =? 0) (cached_mac s)).

(** ** Receiving *)

Definition process_arp (s : udp_state) (rx : list Z) (rxlen : nat) : option (udp_state * list (list Z)) :=
  if (rxlen <? ARP_PACKET_LENGTH)%nat then Some (s, [])
  else
    hwtype ← get16be rx 14; proto ← get16be rx 16; hwsize ← rx !! 18%nat; protosize ← rx !! 19%nat;
    if negb (hwtype =? ARP_HWTYPE_ETHERNET) then Some (s, [])
    else if negb (proto =? ARP_PROTO_IP) then Some (s, [])
    else if negb (hwsize =? 6) then Some (s, [])
    else if negb (protosize =? 4) then Some (s, [])
    else
      opcode ← get16be rx 20; sender_mac ← slice rx 22 6; sender_ip ← get32be rx 28; target_ip ← get32be rx 38;
      if opcode =? ARP_OPCODE_REPLY then
        Some (if sender_ip =? cached_ip s then udp_set_peer (cached_ip s) sender_mac s else s, [])
      else if opcode =? ARP_OPCODE_REQUEST then
        if target_ip =? my_ip s then
          buf ← tx_slots s !! txslot s;
          buf ← fill_eth_header buf sender_mac (my_mac s) ETHERTYPE_ARP;
          buf ← put_arp buf ARP_OPCODE_REPLY (my_mac s) (my_ip s) sender_mac sender_ip;
          '(s, frame) ← send_packet s buf ARP_PACKET_LENGTH;
          Some (s, [frame])
        else Some (s, [])
      else Some (s, []).

(** A 16-bit field in the byte order of the processor. *)
Definition le16 (v : Z) : list Z := [Z.land v 255; Z.land (Z.shiftr v 8) 255].
Definition of_le16 (bs : list Z) : Z := match bs with [b0; b1] => b0 + 256 * b1 | _ => 0 end.

Definition PING_IDENTIFIER : Z := 0xbe7c.

(** An ICMP message in the transmit slot, with its checksum; the identifier and the number are two
    bytes each. *)
Definition put_icmp (buf : list Z) (type : Z) (ident seq payload : list Z) : option (list Z) :=
  buf ← put8 buf 34 type;
  buf ← put8 buf 35 0;
  buf ← put buf 38 ident;
  buf ← put buf 40 seq;
  buf ← put buf payload_offset payload;
  buf ← put16be buf 36 0;
  icmp ← slice buf 34 (length payload + sizeof_icmp_header);
  put16be buf 36 (ip_checksum 0 icmp true).

(** [process_icmp], without the lines it prints. *)
Definition process_icmp (s : udp_state) (rx : list Z) (rxlen : nat) : option (udp_state * list (list Z)) :=
  if (rxlen <? sizeof_ethernet_header + sizeof_icmp_frame)%nat then Some (s, [])
  else
    total ← get16be rx 16;
    if total <? Z.of_nat sizeof_icmp_frame then Some (s, [])
    else if Z.of_nat sizeof_ethernet_header + total >? Z.of_nat rxlen then Some (s, [])
    else
      let len := (Z.to_nat total - sizeof_icmp_frame)%nat in
      type ← rx !! 34%nat;
      if type =? ICMP_ECHO then
        srcmac ← slice rx 6 6; src ← get32be rx 26; ident ← slice rx 38 2; seq ← slice rx 40 2;
        payload ← slice rx payload_offset len;
        buf ← tx_slots s !! txslot s;
        buf ← fill_eth_header buf srcmac (my_mac s) ETHERTYPE_IP;
        buf ← put_ip_header buf (Z.of_nat (len + sizeof_icmp_frame)) IP_PROTO_ICMP (my_ip s) src;
        buf ← put_icmp buf ICMP_ECHO_REPLY ident seq payload;
        '(s, frame) ← send_packet s buf (len + sizeof_ethernet_header + sizeof_icmp_frame);
        Some (s, [frame])
      else if type =? ICMP_ECHO_REPLY then
        seq ← slice rx 40 2; ident ← slice rx 38 2;
        if negb (of_le16 seq =? ping_seq_number s) then Some (s, [])
        else if negb (of_le16 ident =? PING_IDENTIFIER) then Some (s, [])
        else Some (set_ping (ping_seq_number s) 0 s, [])
      else Some (s, []).

Definition max_ping : nat := (ETHMAC_SLOT_SIZE - sizeof_ethernet_header - sizeof_icmp_frame)%nat.

(** The frame of [send_ping], once the address is resolved. *)
Definition ping_frame (s : udp_state) (ip : Z) (payload_length : nat) : option (udp_state * list (list Z)) :=
  buf ← tx_slots s !! txslot s;
  buf ← fill_eth_header buf (cached_mac s) (my_mac s) ETHERTYPE_IP;
  buf ← put_ip_header buf (Z.of_nat (payload_length + sizeof_icmp_frame)) IP_PROTO_ICMP (my_ip s) ip;
  let seq := (ping_seq_number s + 1) mod 2 ^ 32 in
  buf ← put_icmp buf ICMP_ECHO (le16 PING_IDENTIFIER) (le16 seq)
          ((fun i => Z.land (Z.of_nat i) 255) <$> List.seq 0 payload_length);
  '(s, frame) ← send_packet (set_ping seq (ping_ts_send s) s) buf
                  (payload_length + sizeof_ethernet_header + sizeof_icmp_frame);
  Some (set_ping seq 1 s, [frame]).

(** [process_udp]: the callback that is called, with what it is handed. *)
Definition process_udp (s : udp_state) (rx : list Z) (rxlen : nat)
    : option (udp_state * option (udp_callback * datagram)) :=
  if (rxlen <? sizeof_ethernet_header + sizeof_udp_frame)%nat then Some (s, None)
  else
    ip_total_length ← get16be rx 16;
    if ip_total_length <? Z.of_nat sizeof_udp_frame then Some (s, None)
    else if Z.of_nat sizeof_ethernet_header + ip_total_length >? Z.of_nat rxlen then Some (s, None)
    else
      proto ← rx !! 23%nat;
      if negb (proto =? IP_PROTO_UDP) then Some (s, None)
      else
        udp_length ← get16be rx 38;
        if udp_length <? Z.of_nat sizeof_udp_header then Some (s, None)
        else if udp_length >? ip_total_length - Z.of_nat sizeof_ip_header then Some (s, None)
        else
          srcmac ← slice rx 6 6;
          let s := record_src_mac srcmac s in
          dst_ip ← get32be rx 30; src ← get32be rx 26; sport ← get16be rx 34; dport ← get16be rx 36;
          payload ← slice rx payload_offset (Z.to_nat udp_length - sizeof_udp_header);
          let dg := Datagram src sport dport payload in
          if negb (dst_ip =? my_ip s) then
            if (dst_ip =? 0xffffffff) || (dst_ip =? Z.lor (my_ip s) 0xff)
            then Some (s, (fun c => (c, dg)) <$> bx_callback s)
            else Some (s, None)
          else
            match rx_callback s with
            | Some c => Some (s, Some (c, dg))
            | None => Some (s, (fun c => (c, dg)) <$> bx_callback s)
            end.

(** [process_frame], without the counters for diagnostics. *)
Definition process_frame (s : udp_state) (rx : list Z) (rxlen : nat)
    : option (udp_state * list (list Z) * option (udp_callback * datagram)) :=
  if (rxlen <? sizeof_ethernet_header)%nat then Some (s, [], None)
  else if (ETHMAC_SLOT_SIZE <? rxlen)%nat then Some (s, [], None)
  else
    ethertype ← get16be rx 12;
    if ethertype =? ETHERTYPE_ARP then '(s, sent) ← process_arp s rx rxlen; Some (s, sent, None)
    else if ethertype =? ETHERTYPE_IP then
      dst_ip ← get32be rx 30;
      version ← rx !! 14%nat;
      if negb (version =? IP_IPV4) then Some (s, [], None)
      else if negb (dst_ip =? my_ip s) && negb (dst_ip =? 0xffffffff) && negb (dst_ip =? Z.lor (my_ip s) 0xff)
      then Some (s, [], None)
      else
        proto ← rx !! 23%nat;
        if proto =? IP_PROTO_UDP then '(s, call) ← process_udp s rx rxlen; Some (s, [], call)
        else if proto =? IP_PROTO_ICMP then '(s, sent) ← process_icmp s rx rxlen; Some (s, sent, None)
        else Some (s, [], None)
    else Some (s, [], None).

(** ** The frames the driver sends *)

Definition ip_bytes (total_length proto checksum src dst : Z) : list Z :=
  [IP_IPV4; 0] ++ be16 total_length ++ be16 0 ++ be16 IP_DONT_FRAGMENT ++ [IP_TTL; Z.land proto 255] ++
  be16 checksum ++ be32 src ++ be32 dst.

Definition udp_bytes (sport dport udp_length checksum : Z) : list Z :=
  be16 sport ++ be16 dport ++ be16 udp_length ++ be16 checksum.

(** The headers of a UDP frame of [s] with [len] bytes of payload. *)
Definition udp_headers (s : udp_state) (sport dport : Z) (len : nat) (udp_checksum : Z) : list Z :=
  let total := Z.of_nat (len + sizeof_udp_frame) in
  cached_mac s ++ my_mac s ++ be16 ETHERTYPE_IP ++
  ip_bytes total IP_PROTO_UDP
    (ip_checksum 0 (ip_bytes total IP_PROTO_UDP 0 (my_ip s) (cached_ip s)) true) (my_ip s) (cached_ip s) ++
  udp_bytes sport dport (Z.of_nat (len + sizeof_udp_header)) udp_checksum.

Lemma headers_run {A} s sport dport len hdr tail (k : list Z -> option A) :
  length (cached_mac s) = 6%nat -> length (my_mac s) = 6%nat -> length hdr = payload_offset ->
  (buf ← fill_eth_header (hdr ++ tail) (cached_mac s) (my_mac s) ETHERTYPE_IP;
   buf ← put_ip_header buf (Z.of_nat (len + sizeof_udp_frame)) IP_PROTO_UDP (my_ip s) (cached_ip s);
   buf ← put16be buf 34 sport;
   buf ← put16be buf 36 dport;
   buf ← put16be buf 38 (Z.of_nat (len + sizeof_udp_header));
   buf ← put16be buf 40 0; k buf) = k (udp_headers s sport dport len 0 ++ tail).
Proof.
  destruct s as [mymac ip mac dst l c1 c2 n slots ps pt]. cbn [cached_mac my_mac my_ip cached_ip].
  intros Hm Hy Hh. unfold payload_offset in Hh.
  do 6 (destruct mac as [|? mac]; [discriminate|]). destruct mac; [|discriminate].
  do 6 (destruct mymac as [|? mymac]; [discriminate|]). destruct mymac; [|discriminate].
  do 42 (destruct hdr as [|? hdr]; [discriminate|]). destruct hdr; [|discriminate].
  reflexivity.
Qed.

Lemma headers_length s sport dport len c :
  length (cached_mac s) = 6%nat -> length (my_mac s) = 6%nat ->
  length (udp_headers s sport dport len c) = payload_offset.
Proof. intros Hm Hy. unfold udp_headers, ip_bytes. rewrite !length_app, Hm, Hy. done. Qed.

Lemma headers_bytes s sport dport len c :
  Forall is_byte (cached_mac s) -> Forall is_byte (my_mac s) -> Forall is_byte (udp_headers s sport dport len c).
Proof. intros Hm Hy. unfold udp_headers, ip_bytes, udp_bytes. bytes. Qed.

(** The checksum of the payload, padded to an even length. *)
Definition padding (len : nat) : list Z := if Nat.odd len then [0] else [].

Definition udp_checksum_of (s : udp_state) (sport dport : Z) (payload : list Z) : Z :=
  let udp_length := Z.of_nat (length payload + sizeof_udp_header) in
  ip_checksum (ip_checksum 0 (pseudo_header (my_ip s) (cached_ip s) udp_length) false)
    (udp_bytes sport dport udp_length 0 ++ payload ++ padding (length payload)) true.

(** The last two bytes of the headers are the UDP checksum. *)
Lemma put_udp_checksum s sport dport len tail c :
  length (cached_mac s) = 6%nat -> length (my_mac s) = 6%nat ->
  put16be (udp_headers s sport dport len 0 ++ tail) 40 c = Some (udp_headers s sport dport len c ++ tail).
Proof.
  intros Hm Hy. unfold put16be.
  set (pre := cached_mac s ++ my_mac s ++ be16 ETHERTYPE_IP ++
    ip_bytes (Z.of_nat (len + sizeof_udp_frame)) IP_PROTO_UDP
     (ip_checksum 0 (ip_bytes (Z.of_nat (len + sizeof_udp_frame)) IP_PROTO_UDP 0 (my_ip s) (cached_ip s)) true)
     (my_ip s) (cached_ip s) ++ be16 sport ++ be16 dport ++ be16 (Z.of_nat (len + sizeof_udp_header))).
  assert (He : forall x, udp_headers s sport dport len x = pre ++ be16 x).
  { intros x. unfold udp_headers, udp_bytes, pre. by rewrite <- !(assoc_L (++)). }
  assert (Hl : length pre = 40%nat).
  { unfold pre, ip_bytes. rewrite !length_app, Hm, Hy. done. }
  rewrite !He, <- !(assoc_L (++)), <- Hl, put_end by (rewrite length_app; simpl; lia).
  by rewrite <- (assoc_L (++)).
Qed.

(** [send_packet] sends the first [txlen] bytes of the slot, padded with zeros to 100. *)
Lemma send_packet_run s buf txlen :
  (txlen <= length buf)%nat -> (100 <= length buf)%nat ->
  exists buf', length buf' = length buf /\ (Forall is_byte buf -> Forall is_byte buf') /\
  send_packet s buf txlen =
    Some (with_tx s ((txslot s + 1) mod ETHMAC_TX_SLOTS) (<[txslot s := buf']> (tx_slots s)),
          take txlen buf ++ replicate (100 - txlen) 0).
Proof.
  intros Ht Hb. unfold send_packet, slice. destruct (Nat.ltb_spec txlen 100) as [Hs|Hs].
  - exists (take txlen buf ++ replicate (100 - txlen) 0 ++ drop 100 buf). unfold put.
    rewrite length_replicate, (proj2 (Nat.leb_le _ _)) by lia. cbn [mbind option_bind].
    replace (txlen + (100 - txlen))%nat with 100%nat by lia.
    assert (Hl : length (take txlen buf ++ replicate (100 - txlen) 0 ++ drop 100 buf) = length buf)
      by (rewrite !length_app, length_take, length_replicate, length_drop; lia).
    split_and!; [done| |].
    + intros Hf. apply Forall_app_2; [by apply Forall_take|].
      apply Forall_app_2; [apply Forall_replicate; unfold is_byte; lia|by apply Forall_drop].
    + rewrite Hl, (proj2 (Nat.leb_le _ _)) by lia. cbn [mbind option_bind drop].
      do 2 f_equal. rewrite (assoc_L (++)). apply take_app_length'.
      rewrite length_app, length_take, length_replicate. lia.
  - exists buf. cbn [mbind option_bind]. rewrite (proj2 (Nat.leb_le _ _)) by lia. cbn [mbind option_bind drop].
    replace (100 - txlen)%nat with 0%nat by lia. by rewrite app_nil_r.
Qed.

(** The driver's invariant: MAC addresses of six bytes and two transmit slots. *)
Definition mac_ok (m : list Z) : Prop := buffer 6 m.
Definition slot_ok (b : list Z) : Prop := buffer ETHMAC_SLOT_SIZE b.
Definition udp_ok (s : udp_state) : Prop :=
  mac_ok (my_mac s) /\ mac_ok (cached_mac s) /\ mac_ok (udp_last_src_mac s) /\
  word32 (my_ip s) /\ word32 (cached_ip s) /\
  (txslot s < ETHMAC_TX_SLOTS)%nat /\ length (tx_slots s) = ETHMAC_TX_SLOTS /\ Forall slot_ok (tx_slots s).

Lemma with_tx_ok s buf :
  udp_ok s -> slot_ok buf ->
  udp_ok (with_tx s ((txslot s + 1) mod ETHMAC_TX_SLOTS) (<[txslot s := buf]> (tx_slots s))).
Proof.
  intros (? & ? & ? & ? & ? & ? & Hl & Hs) Hb. split_and!; try done; cbn [txslot tx_slots with_tx].
  - by apply Nat.mod_upper_bound.
  - by rewrite length_insert.
  - by apply Forall_insert.
Qed.

Lemma tx_slot s : udp_ok s -> exists buf, tx_slots s !! txslot s = Some buf /\ slot_ok buf.
Proof.
  intros (_ & _ & _ & _ & _ & Ht & Hl & Hs). destruct (lookup_lt_is_Some_2 (tx_slots s) (txslot s)) as [buf Hb].
  { by rewrite Hl. }
  exists buf. split; [done|]. by eapply Forall_lookup_1.
Qed.

(** The byte after an odd payload is cleared for the checksum. *)
Lemma pad_run {A} a payload rest (k : list Z -> nat -> option A) :
  length a = payload_offset -> (length payload <= max_payload)%nat ->
  length (a ++ payload ++ rest) = ETHMAC_SLOT_SIZE ->
  ('(buf, len) ← (if Nat.odd (length payload)
                  then buf ← put8 (a ++ payload ++ rest) (payload_offset + length payload) 0;
                       Some (buf, S (length payload))
                  else Some (a ++ payload ++ rest, length payload)); k buf len) =
  k (a ++ payload ++ padding (length payload) ++ drop (length (padding (length payload))) rest)
    (length (payload ++ padding (length payload))).
Proof.
  intros Ha Hlen Hl. rewrite !length_app in Hl. unfold padding. rewrite length_app.
  destruct (Nat.odd (length payload)) eqn:Hodd; cbn [mbind option_bind length].
  - unfold put8. rewrite (assoc_L (++)), <- Ha, <- length_app. rewrite put_end.
    + cbn [mbind option_bind]. rewrite <- !(assoc_L (++)). simpl. f_equal. lia.
    + assert (length payload <> max_payload) by (intros He; by rewrite He in Hodd).
      unfold max_payload, sizeof_ethernet_header, sizeof_udp_frame, ETHMAC_SLOT_SIZE, payload_offset in *.
      simpl. lia.
  - by rewrite Nat.add_0_r.
Qed.

(** The slice of the headers and the payload the UDP checksum is taken over. *)
Lemma udp_slice s sport dport payload rest :
  length (cached_mac s) = 6%nat -> length (my_mac s) = 6%nat ->
  slice (udp_headers s sport dport (length payload) 0 ++ payload ++ padding (length payload) ++ rest) 34
    (sizeof_udp_header + length (payload ++ padding (length payload))) =
  Some (udp_bytes sport dport (Z.of_nat (length payload + sizeof_udp_header)) 0 ++ payload ++ padding (length payload)).
Proof.
  intros Hm Hy. unfold udp_headers. cbv zeta.
  set (ipb := ip_bytes _ _ _ _ _). set (u := udp_bytes _ _ _ _).
  pose proof (slice_app (cached_mac s ++ my_mac s ++ be16 ETHERTYPE_IP ++ ipb)
    (u ++ payload ++ padding (length payload)) rest) as Hs.
  rewrite <- !(assoc_L (++)) in Hs |- *. etrans; [|exact Hs]. f_equal.
  - by rewrite <- (assoc_L (++) payload).
  - rewrite !length_app, Hm, Hy. done.
Qed.

Lemma udp_send_run s sport dport hdr payload rest :
  udp_ok s -> forallb (fun b => b =? 0) (cached_mac s) = false ->
  tx_slots s !! txslot s = Some (hdr ++ payload ++ rest) -> length hdr = payload_offset ->
  (length payload <= max_payload)%nat ->
  exists buf' trail,
    udp_send s sport dport (length payload) =
      Some (true, with_tx s ((txslot s + 1) mod ETHMAC_TX_SLOTS) (<[txslot s := buf']> (tx_slots s)),
            [udp_headers s sport dport (length payload) (udp_checksum_of s sport dport payload) ++ payload ++ trail]) /\
    slot_ok buf' /\
    (payload_offset + length payload + length trail <= ETHMAC_SLOT_SIZE)%nat.
Proof.
  intros Hok Hmac Hslot Hhdr Hlen.
  pose proof (tx_slot s Hok) as (buf0 & Hb0 & Hsl & Hsb). rewrite Hslot in Hb0. injection Hb0 as <-.
  rewrite !length_app in Hsl. apply Forall_app in Hsb as [_ Hsb]. apply Forall_app in Hsb as [Hpb Hrb].
  destruct Hok as ((Hy & Hyb) & (Hm & Hmb) & _).
  unfold udp_send. rewrite Hmac, Hslot. rewrite (proj2 (Nat.ltb_ge _ _)) by done.
  cbn [mbind option_bind]. cbv zeta. rewrite headers_run by done.
  assert (HH : forall c, length (udp_headers s sport dport (length payload) c) = payload_offset)
    by (intros; by apply headers_length).
  rewrite pad_run by (rewrite ?length_app, ?HH; (done || lia)). cbv beta.
  rewrite udp_slice by done. cbn [mbind option_bind]. rewrite put_udp_checksum by done. cbn [mbind option_bind].
  fold (udp_checksum_of s sport dport payload). set (c := udp_checksum_of s sport dport payload).
  set (tail := padding (length payload) ++ drop (length (padding (length payload))) rest).
  assert (Ht : length tail = length rest).
  { unfold tail, padding. destruct (Nat.odd (length payload)) eqn:Hodd; [|done]. simpl. rewrite length_drop.
    assert (length payload <> max_payload) by (intros He; by rewrite He in Hodd).
    unfold max_payload, sizeof_ethernet_header, sizeof_udp_frame, ETHMAC_SLOT_SIZE, payload_offset in *. lia. }
  set (txlen := if (_ <? ARP_PACKET_LENGTH)%nat then _ else _).
  assert (Htx : (payload_offset + length payload <= txlen <= ETHMAC_SLOT_SIZE)%nat).
  { unfold txlen, max_payload, sizeof_ethernet_header, sizeof_udp_frame, ETHMAC_SLOT_SIZE, payload_offset,
      ARP_PACKET_LENGTH in *.
    destruct (Nat.ltb_spec (length payload + 14 + 28) 60); lia. }
  destruct (send_packet_run s (udp_headers s sport dport (length payload) c ++ payload ++ tail) txlen)
    as (buf' & Hl' & Hb' & Hsend).
  { rewrite !length_app, HH. lia. } { rewrite !length_app, HH. unfold ETHMAC_SLOT_SIZE in Hsl. lia. }
  rewrite Hsend. cbn [mbind option_bind].
  exists buf', (take (txlen - (payload_offset + length payload)) tail ++ replicate (100 - txlen) 0).
  rewrite (assoc_L (++)) in Hl'. split_and!.
  - do 3 f_equal. rewrite !(assoc_L (++)). f_equal.
    rewrite take_app_ge by (rewrite length_app, HH; lia). by rewrite length_app, HH.
  - split; [rewrite Hl', !length_app, HH; lia|]. apply Hb'.
    apply Forall_app_2; [by apply headers_bytes|]. apply Forall_app_2; [done|].
    apply Forall_app_2; [|by apply Forall_drop]. unfold padding. destruct (Nat.odd _); bytes.
  - rewrite length_app, length_take, length_replicate.
    unfold ETHMAC_SLOT_SIZE, payload_offset in *. lia.
Qed.

(** What a receiver reads in the headers. *)
Lemma headers_fields s sport dport len c tail :
  mac_ok (cached_mac s) -> mac_ok (my_mac s) -> word32 (my_ip s) -> word32 (cached_ip s) ->
  0 <= sport < 2 ^ 16 -> 0 <= dport < 2 ^ 16 -> (len <= max_payload)%nat ->
  let rx := udp_headers s sport dport len c ++ tail in
  get16be rx 12 = Some ETHERTYPE_IP /\ rx !! 14%nat = Some IP_IPV4 /\
  get16be rx 16 = Some (Z.of_nat (len + sizeof_udp_frame)) /\ rx !! 23%nat = Some IP_PROTO_UDP /\
  get32be rx 26 = Some (my_ip s) /\ get32be rx 30 = Some (cached_ip s) /\
  get16be rx 34 = Some sport /\ get16be rx 36 = Some dport /\
  get16be rx 38 = Some (Z.of_nat (len + sizeof_udp_header)) /\ slice rx 6 6 = Some (my_mac s).
Proof.
  destruct s as [mymac ip mac dst l c1 c2 n slots ps pt]. cbn [cached_mac my_mac my_ip cached_ip].
  intros [Hm _] [Hy _] Hip Hdst Hs Hd Hlen. cbv zeta.
  assert (Hn : (len <= 2006)%nat) by exact Hlen.
  do 6 (destruct mac as [|? mac]; [discriminate|]). destruct mac; [|discriminate].
  do 6 (destruct mymac as [|? mymac]; [discriminate|]). destruct mymac; [|discriminate].
  split_and!; try reflexivity; unfold get16be, get32be; cbn [udp_headers ip_bytes udp_bytes be16 be32 app drop take];
    f_equal; first [by apply be16_word | by apply of_be32_be32 | apply be16_word]; unfold sizeof_udp_frame, sizeof_udp_header; lia.
Qed.

(** ** The checksums are right *)

Lemma fold16_step r : 0 <= r -> Z.land r 0xffff + Z.shiftr r 16 = r - 65535 * (r / 65536).
Proof.
  intros Hr. change (Z.land r 0xffff) with (Z.land r (Z.ones 16)).
  rewrite Z.land_ones, Z.shiftr_div_pow2 by lia.
  change (2 ^ 16) with 65536. pose proof (Z.div_mod r 65536). lia.
Qed.

(** The loop of [ip_checksum] ends within its fuel, keeps the sum modulo 65535, and is 0 only for 0. *)
Lemma fold16_spec r :
  0 <= r < 2 ^ 32 ->
  0 <= fold16 3 r < 2 ^ 16 /\ fold16 3 r mod 65535 = r mod 65535 /\ (0 < r -> 0 < fold16 3 r).
Proof.
  assert (Hsmall : forall n x, 0 <= x < 2 ^ 16 -> fold16 (S n) x = x).
  { intros n x Hx. cbn [fold16]. by rewrite Z.shiftr_div_pow2, Z.div_small by lia. }
  assert (Hstep : forall n x, 2 ^ 16 <= x -> fold16 (S n) x = fold16 n (x - 65535 * (x / 65536))).
  { intros n x Hx. cbn [fold16]. rewrite fold16_step, Z.shiftr_div_pow2 by lia.
    destruct (Z.eqb_spec (x / 2 ^ 16) 0) as [E|]; [|done].
    pose proof (Z.div_str_pos x (2 ^ 16)). lia. }
  intros Hr. destruct (decide (r < 2 ^ 16)) as [H|H].
  { rewrite Hsmall by lia. split_and!; (lia || done). }
  rewrite Hstep by lia. set (q := r / 65536).
  assert (Hq : 65536 * q <= r < 65536 * q + 65536).
  { unfold q. pose proof (Z.mod_pos_bound r 65536). pose proof (Z.div_mod r 65536). lia. }
  assert (Hm : (r - 65535 * q) mod 65535 = r mod 65535).
  { replace (r - 65535 * q) with (r + (- q) * 65535) by lia. by rewrite Z.mod_add. }
  clearbody q. destruct (decide (r - 65535 * q < 2 ^ 16)) as [H1|H1].
  { rewrite Hsmall by lia. split_and!; (lia || done). }
  rewrite Hstep by lia. replace ((r - 65535 * q) / 65536) with 1
    by (apply (Z.div_unique _ _ _ (r - 65535 * q - 65536)); lia).
  rewrite Hsmall by lia. split_and!; try lia. rewrite <- Hm.
  replace (r - 65535 * q - 65535 * 1) with (r - 65535 * q + (-1) * 65535) by lia. by rewrite Z.mod_add.
Qed.

(** Lists by pairs. *)
Lemma list_ind2 {A} (P : list A -> Prop) :
  P [] -> (forall x, P [x]) -> (forall x y l, P l -> P (x :: y :: l)) -> forall l, P l.
Proof. intros H0 H1 H2. fix F 1. intros [|x [|y l]]; [done|done|]. apply H2, F. Qed.

(** The sum of the words, without the 32-bit wrap. *)
Fixpoint words16 (bs : list Z) : Z :=
  match bs with
  | b1 :: b0 :: rest => 256 * b1 + b0 + words16 rest
  | _ => 0
  end.

Lemma words16_app a b : Nat.even (length a) = true -> words16 (a ++ b) = words16 a + words16 b.
Proof.
  induction a as [|x|x y a IH] using list_ind2; [done|done|].
  cbn [length app words16 Nat.even]. intros He. rewrite IH by done. lia.
Qed.

Lemma words16_bound bs : Forall is_byte bs -> 0 <= words16 bs <= 65535 * Z.of_nat (length bs).
Proof.
  induction bs as [|x|x y bs IH] using list_ind2; cbn [words16 length]; intros Hb; [lia|lia|].
  apply Forall_cons in Hb as [Hx Hb]. apply Forall_cons in Hb as [Hy Hb]. unfold is_byte in Hx, Hy.
  specialize (IH Hb). lia.
Qed.

Lemma sum16_words r bs :
  Forall is_byte bs -> 0 <= r -> r + 65535 * Z.of_nat (length bs) < 2 ^ 32 -> sum16 r bs = r + words16 bs.
Proof.
  revert r. induction bs as [|x|x y bs IH] using list_ind2; cbn [sum16 words16 length]; intros r Hb Hr Hn; [lia|lia|].
  apply Forall_cons in Hb as [Hx Hb]. apply Forall_cons in Hb as [Hy Hb]. unfold is_byte in Hx, Hy.
  rewrite Z.lor_comm, lor_shiftl_add by lia. change (2 ^ 8) with 256.
  rewrite Z.mod_small by lia. rewrite IH; simpl; (done || lia).
Qed.

Lemma words16_be16 c : 0 <= c < 2 ^ 16 -> words16 (be16 c) = c.
Proof.
  intros Hc. pose proof (be16_word c Hc) as H. rewrite Z.lor_comm, lor_shiftl_add in H.
  - cbn [be16 words16]. lia.
  - lia.
  - pose proof (land_255_byte c). unfold is_byte in *. lia.
Qed.

(** A checksum stored over the zero it was computed with makes the sum 0xffff, the test of
    RFC 1071. *)
Lemma checksum_verifies r a b :
  Forall is_byte a -> Forall is_byte b -> Nat.even (length a) = true ->
  0 <= r -> r + 65535 * Z.of_nat (length a + length b + 4) < 2 ^ 32 ->
  ip_checksum r (a ++ be16 (ip_checksum r (a ++ be16 0 ++ b) true) ++ b) false = 0xffff.
Proof.
  intros Ha Hb He Hr Hn.
  assert (Hbytes : forall c, Forall is_byte (a ++ be16 c ++ b))
    by (intros c; repeat (apply Forall_app_2; [done || apply be16_bytes|]); done).
  assert (Hsum : forall c, 0 <= c < 2 ^ 16 -> sum16 r (a ++ be16 c ++ b) = r + words16 a + words16 b + c).
  { intros c Hc. rewrite sum16_words; [|done|done|rewrite !length_app, be16_length; lia].
    rewrite words16_app, words16_app, words16_be16 by done. lia. }
  pose proof (words16_bound a Ha). pose proof (words16_bound b Hb).
  unfold ip_checksum at 1. set (S := r + words16 a + words16 b) in *.
  destruct (fold16_spec S) as (Hf & Hmod & _); [lia|].
  assert (Hc : exists k, ip_checksum r (a ++ be16 0 ++ b) true = 65535 * k - fold16 3 S /\
    0 < 65535 * k - fold16 3 S < 2 ^ 16).
  { unfold ip_checksum. rewrite Hsum, Z.add_0_r by lia.
    change (Z.land (Z.lnot (fold16 3 S)) 0xffff) with (Z.land (Z.lnot (fold16 3 S)) (Z.ones 16)).
    rewrite Z.land_ones by lia. unfold Z.lnot.
    replace (Z.pred (- fold16 3 S) mod 2 ^ 16) with (65535 - fold16 3 S)
      by (apply (Z.mod_unique_pos _ _ (-1)); lia).
    destruct (Z.eqb_spec (65535 - fold16 3 S) 0); [exists 2|exists 1]; lia. }
  destruct Hc as (k & -> & Hc). rewrite Hsum by lia. cbv zeta.
  destruct (fold16_spec (S + (65535 * k - fold16 3 S))) as (Hf' & Hmod' & Hpos); [lia|].
  specialize (Hpos ltac:(lia)).
  assert (Hz : (S + (65535 * k - fold16 3 S)) mod 65535 = 0).
  { pose proof (Z.div_mod S 65535). pose proof (Z.div_mod (fold16 3 S) 65535).
    replace (S + (65535 * k - fold16 3 S)) with ((k + S / 65535 - fold16 3 S / 65535) * 65535) by lia.
    by rewrite Z.mod_mul. }
  rewrite Hz in Hmod'. apply Z.mod_divide in Hmod' as [q Hq]; lia.
Qed.

(** ** A frame of one driver at another *)

(** The destinations a driver takes, and the callback that gets the datagram. *)
Definition addressed (r : udp_state) (dst : Z) : bool :=
  (dst =? my_ip r) || (dst =? 0xffffffff) || (dst =? Z.lor (my_ip r) 0xff).

Definition callback_for (r : udp_state) (dst : Z) : option udp_callback :=
  if dst =? my_ip r then match rx_callback r with Some c => Some c | None => bx_callback r end
  else bx_callback r.

Lemma process_udp_frame s r sport dport payload c tail rxlen :
  mac_ok (cached_mac s) -> mac_ok (my_mac s) -> word32 (my_ip s) -> word32 (cached_ip s) ->
  0 <= sport < 2 ^ 16 -> 0 <= dport < 2 ^ 16 -> (length payload <= max_payload)%nat ->
  (payload_offset + length payload <= rxlen <= ETHMAC_SLOT_SIZE)%nat -> addressed r (cached_ip s) = true ->
  process_frame r (udp_headers s sport dport (length payload) c ++ payload ++ tail) rxlen =
  Some (record_src_mac (my_mac s) r, [],
        (fun cb => (cb, Datagram (my_ip s) sport dport payload)) <$> callback_for r (cached_ip s)).
Proof.
  intros Hm Hy Hip Hdst Hs Hd Hlen Hrx Haddr.
  pose proof (headers_fields s sport dport (length payload) c (payload ++ tail) Hm Hy Hip Hdst Hs Hd Hlen) as HF.
  cbv zeta in HF. destruct HF as (F12 & F14 & F16 & F23 & F26 & F30 & F34 & F36 & F38 & Fmac).
  pose proof (slice_app (udp_headers s sport dport (length payload) c) payload tail) as Hpay.
  rewrite headers_length in Hpay by (apply Hm || apply Hy).
  unfold ETHMAC_SLOT_SIZE, payload_offset in *. unfold process_frame, process_udp.
  unfold sizeof_ethernet_header, sizeof_udp_frame, sizeof_udp_header, sizeof_ip_header, ETHMAC_SLOT_SIZE in *.
  rewrite (proj2 (Nat.ltb_ge rxlen 14)), (proj2 (Nat.ltb_ge 2048 rxlen)) by lia.
  rewrite F12, F14, F16, F23, F26, F30, F34, F36, F38, Fmac. cbn [mbind option_bind].
  rewrite (proj2 (Nat.ltb_ge rxlen (14 + 28))) by lia.
  rewrite (proj2 (Z.ltb_ge _ 28)) by lia.
  destruct (Z.gtb_spec (Z.of_nat 14 + Z.of_nat (length payload + 28)) (Z.of_nat rxlen)); [lia|].
  cbn [negb Z.eqb Pos.eqb ETHERTYPE_IP ETHERTYPE_ARP IP_IPV4 IP_PROTO_UDP mbind option_bind].
  rewrite (proj2 (Z.ltb_ge _ 8)) by lia.
  destruct (Z.gtb_spec (Z.of_nat (length payload + 8)) (Z.of_nat (length payload + 28) - Z.of_nat 20)); [lia|].
  replace (Z.to_nat (Z.of_nat (length payload + 8)) - 8)%nat with (length payload) by lia.
  unfold payload_offset. rewrite Hpay. cbn [mbind option_bind].
  unfold addressed in Haddr. unfold callback_for. cbn [record_src_mac my_ip rx_callback bx_callback].
  destruct (cached_ip s =? my_ip r); cbn [negb andb orb] in *.
  - by destruct (rx_callback r).
  - destruct (cached_ip s =? 4294967295); cbn [negb andb orb] in *; [done|]. by rewrite Haddr.
Qed.

Lemma ip_header_verifies total proto src dst :
  ip_checksum 0 (ip_bytes total proto (ip_checksum 0 (ip_bytes total proto 0 src dst) true) src dst) false = 0xffff.
Proof.
  pose proof (checksum_verifies 0 ([IP_IPV4; 0] ++ be16 total ++ be16 0 ++ be16 IP_DONT_FRAGMENT ++ [IP_TTL; Z.land proto 255])
    (be32 src ++ be32 dst)) as H.
  rewrite <- !(assoc_L (++)) in H. apply H; (done || bytes).
Qed.

(** The UDP checksum, over the pseudo-header, the header and the padded payload. *)
Lemma udp_header_verifies s sport dport payload :
  Forall is_byte payload -> (length payload <= max_payload)%nat ->
  ip_checksum (ip_checksum 0 (pseudo_header (my_ip s) (cached_ip s) (Z.of_nat (length payload + sizeof_udp_header))) false)
    (udp_bytes sport dport (Z.of_nat (length payload + sizeof_udp_header)) (udp_checksum_of s sport dport payload)
       ++ payload ++ padding (length payload)) false = 0xffff.
Proof.
  intros Hp Hlen. unfold max_payload, ETHMAC_SLOT_SIZE, sizeof_ethernet_header, sizeof_udp_frame in Hlen.
  unfold udp_checksum_of. cbv zeta. set (ul := Z.of_nat _). set (ph := pseudo_header _ _ _).
  assert (Hr : 0 <= ip_checksum 0 ph false < 2 ^ 16).
  { assert (Hph : Forall is_byte ph) by (unfold ph, pseudo_header; bytes).
    assert (Hpl : length ph = 12%nat) by done. pose proof (words16_bound ph Hph).
    apply fold16_spec. rewrite sum16_words; (done || lia). }
  pose proof (checksum_verifies (ip_checksum 0 ph false) (be16 sport ++ be16 dport ++ be16 ul)
    (payload ++ padding (length payload))) as H.
  unfold udp_bytes. rewrite <- !(assoc_L (++)) in H |- *. apply H; [bytes| |reflexivity|lia|].
  - unfold padding. destruct (Nat.odd _); bytes.
  - rewrite !length_app, !be16_length. unfold padding. destruct (Nat.odd _); cbn [length]; lia.
Qed.

(** The two headers in a frame. *)
Lemma headers_parts s sport dport len c tail :
  mac_ok (cached_mac s) -> mac_ok (my_mac s) ->
  let total := Z.of_nat (len + sizeof_udp_frame) in
  take 6 (udp_headers s sport dport len c ++ tail) = cached_mac s /\
  take sizeof_ip_header (drop sizeof_ethernet_header (udp_headers s sport dport len c ++ tail)) =
    ip_bytes total IP_PROTO_UDP (ip_checksum 0 (ip_bytes total IP_PROTO_UDP 0 (my_ip s) (cached_ip s)) true)
      (my_ip s) (cached_ip s) /\
  drop 34 (udp_headers s sport dport len c ++ tail) =
    udp_bytes sport dport (Z.of_nat (len + sizeof_udp_header)) c ++ tail.
Proof.
  destruct s as [mymac ip mac dst l c1 c2 n slots ps pt]. cbn [cached_mac my_mac my_ip cached_ip].
  intros [Hm _] [Hy _].
  do 6 (destruct mac as [|? mac]; [discriminate|]). destruct mac; [|discriminate].
  do 6 (destruct mymac as [|? mymac]; [discriminate|]). destruct mymac; [|discriminate].
  by split_and!.
Qed.

(** C22: A datagram sent arrives unchanged: for a peer with a MAC address and a payload of at most
    [max_payload] bytes in the transmit slot, [udp_send] sends one frame to that MAC, inside the
    slot, whose IP and UDP checksums verify; a driver the peer's address addresses, whatever its
    receive slot held before, hands its callback exactly the payload with the sender's address
    and ports, and remembers the sender's MAC. *)
Theorem udp_send_received s sport dport hdr payload rest :
  udp_ok s -> forallb (fun b => b =? 0) (cached_mac s) = false ->
  tx_slots s !! txslot s = Some (hdr ++ payload ++ rest) -> length hdr = payload_offset ->
  (length payload <= max_payload)%nat -> 0 <= sport < 2 ^ 16 -> 0 <= dport < 2 ^ 16 ->
  exists s' frame, udp_send s sport dport (length payload) = Some (true, s', [frame]) /\
    take 6 frame = cached_mac s /\ (length frame <= ETHMAC_SLOT_SIZE)%nat /\
    ip_checksum 0 (take sizeof_ip_header (drop sizeof_ethernet_header frame)) false = 0xffff /\
    ip_checksum (ip_checksum 0 (pseudo_header (my_ip s) (cached_ip s) (Z.of_nat (length payload + sizeof_udp_header))) false)
      (take (sizeof_udp_header + length payload) (drop 34 frame) ++ padding (length payload)) false = 0xffff /\
    forall r stale, addressed r (cached_ip s) = true ->
      process_frame r (frame ++ stale) (length frame) =
      Some (record_src_mac (my_mac s) r, [],
            (fun cb => (cb, Datagram (my_ip s) sport dport payload)) <$> callback_for r (cached_ip s)).
Proof.
  intros Hok Hmac Hslot Hhdr Hlen Hs Hd.
  destruct (udp_send_run s sport dport hdr payload rest Hok Hmac Hslot Hhdr Hlen)
    as (buf' & trail & Hsend & _ & Htrail).
  pose proof (tx_slot s Hok) as (b0 & Hb0 & _ & Hbytes). rewrite Hslot in Hb0. injection Hb0 as <-.
  apply Forall_app in Hbytes as [_ Hbytes]. apply Forall_app in Hbytes as [Hbytes _].
  destruct Hok as (Hy & Hm & _ & Hip & Hdst & _).
  eexists _, _. split; [exact Hsend|].
  destruct (headers_parts s sport dport (length payload) (udp_checksum_of s sport dport payload)
    (payload ++ trail) Hm Hy) as (-> & -> & ->).
  split_and!; [done| | | |].
  - rewrite !length_app, headers_length by (apply Hm || apply Hy). lia.
  - apply ip_header_verifies.
  - rewrite (assoc_L (++)), take_app_length' by (by rewrite length_app). rewrite <- (assoc_L (++)).
    by apply udp_header_verifies.
  - intros r stale Haddr. rewrite <- !(assoc_L (++)). apply process_udp_frame; try done.
    rewrite !length_app, headers_length by (apply Hm || apply Hy). lia.
Qed.

(** ** Memory safety *)

(** A frame handed to the MAC, and a datagram handed to a callback. *)
Definition frame_ok (f : list Z) : Prop := (100 <= length f <= ETHMAC_SLOT_SIZE)%nat /\ Forall is_byte f.
Definition datagram_ok (d : datagram) : Prop :=
  word32 (src_ip d) /\ 0 <= src_port d < 2 ^ 16 /\ 0 <= dst_port d < 2 ^ 16 /\
  Forall is_byte (data d) /\ (length (data d) <= max_payload)%nat.

(** What no received frame changes. *)
Definition same_config (s s' : udp_state) : Prop :=
  my_mac s' = my_mac s /\ my_ip s' = my_ip s /\ cached_ip s' = cached_ip s /\
  rx_callback s' = rx_callback s /\ bx_callback s' = bx_callback s.

Lemma slot_room n : (n <=? 2048)%nat = true -> (n <= ETHMAC_SLOT_SIZE)%nat.
Proof. apply Nat.leb_le. Qed.

(** One access to a slot, at a fixed offset. *)
Ltac room := first [ apply slot_room; reflexivity | apply Nat.leb_le; reflexivity | lia ].
Ltac access :=
  unfold put8, put16be, put32be;
  first [ apply safe_bind
        | eapply safe_lookup; [eassumption|room|intros ??]
        | eapply safe_get16be; [eassumption|room|intros ??]
        | eapply safe_get32be; [eassumption|room|intros ??]
        | eapply safe_slice; [eassumption|room|intros ??]
        | eapply safe_memcpy; [eassumption|solve [bytes]|lia|room|intros ??]
        | match goal with
          | H : buffer ?n ?bs |- safe (put _ _ ?bs) _ =>
              eapply safe_put; [eassumption|apply H|rewrite (proj1 H); room|intros ??]
          end
        | eapply safe_put; [eassumption|solve [bytes]|room|intros ??] ].

Lemma fill_eth_header_safe buf destmac srcmac ethertype (Q : list Z -> Prop) :
  slot_ok buf -> mac_ok destmac -> mac_ok srcmac -> (forall buf', slot_ok buf' -> Q buf') ->
  safe (fill_eth_header buf destmac srcmac ethertype) Q.
Proof.
  intros Hb [Hd Hdb] [Hs Hsb] HQ. unfold fill_eth_header, slot_ok in *. repeat access. auto.
Qed.

Lemma put_ip_header_safe buf total proto src dst (Q : list Z -> Prop) :
  slot_ok buf -> (forall buf', slot_ok buf' -> Q buf') -> safe (put_ip_header buf total proto src dst) Q.
Proof. intros Hb HQ. unfold put_ip_header, slot_ok in *. repeat access. auto. Qed.

Lemma put_arp_safe buf opcode smac sip tmac tip (Q : list Z -> Prop) :
  slot_ok buf -> mac_ok smac -> mac_ok tmac -> (forall buf', slot_ok buf' -> Q buf') ->
  safe (put_arp buf opcode smac sip tmac tip) Q.
Proof.
  intros Hb [Hs Hsb] [Ht Htb] HQ. unfold put_arp, slot_ok in *. repeat access. auto.
Qed.

Lemma send_packet_safe s buf txlen (Q : udp_state * list Z -> Prop) :
  udp_ok s -> slot_ok buf -> (txlen <= ETHMAC_SLOT_SIZE)%nat ->
  (forall s' f, udp_ok s' -> frame_ok f -> same_config s s' -> Q (s', f)) -> safe (send_packet s buf txlen) Q.
Proof.
  intros Hs [Hl Hb] Ht HQ.
  assert (Hk : ETHMAC_SLOT_SIZE = 2048%nat) by done.
  destruct (send_packet_run s buf txlen) as (buf' & Hl' & Hb' & ->); [lia|lia|].
  apply safe_ret, HQ.
  - apply with_tx_ok; [done|]. split; [lia|auto].
  - split; [rewrite length_app, length_take, length_replicate; lia|].
    apply Forall_app_2; [by apply Forall_take|]. apply Forall_replicate. unfold is_byte. lia.
  - done.
Qed.

Lemma same_config_refl s : same_config s s.
Proof. done. Qed.

Lemma udp_set_peer_ok ip mac s : udp_ok s -> word32 ip -> mac_ok mac -> udp_ok (udp_set_peer ip mac s).
Proof. intros (? & ? & ? & ? & ? & ? & ? & ?) ??. by split_and!. Qed.

Lemma record_src_mac_ok mac s : udp_ok s -> mac_ok mac -> udp_ok (record_src_mac mac s).
Proof. intros (? & ? & ? & ? & ? & ? & ? & ?) ?. by split_and!. Qed.

Lemma mac_of_buffer m : buffer 6 m -> mac_ok m.
Proof. done. Qed.

Lemma same_config_peer mac s : same_config s (udp_set_peer (cached_ip s) mac s).
Proof. done. Qed.

Lemma same_config_record mac s : same_config s (record_src_mac mac s).
Proof. done. Qed.

Lemma set_ping_ok seq ts s : udp_ok s -> udp_ok (set_ping seq ts s).
Proof. done. Qed.

Lemma same_config_ping seq ts s : same_config s (set_ping seq ts s).
Proof. done. Qed.

Create HintDb udp discriminated.
#[export] Hint Resolve set_ping_ok same_config_ping mac_of_buffer same_config_refl same_config_peer same_config_record udp_set_peer_ok record_src_mac_ok Forall_nil_2 Forall_cons_2 : udp.

(** Decide a guard of the driver; the refused branch returns the state as it was. *)
Ltac by_cases :=
  match goal with
  | |- safe (if ?c then _ else _) _ => let E := fresh "E" in destruct c eqn:E
  end.

Lemma process_arp_safe s rx rxlen :
  udp_ok s -> slot_ok rx ->
  safe (process_arp s rx rxlen)
    (fun '(s', sent) => udp_ok s' /\ Forall frame_ok sent /\ same_config s s').
Proof.
  intros Hs Hrx. pose proof (tx_slot s Hs) as (buf & Hslot & Hbuf). unfold process_arp, slot_ok in *.
  assert (Hmy : mac_ok (my_mac s)) by apply Hs. assert (Hip : word32 (cached_ip s)) by apply Hs.
  by_cases; [apply safe_ret; auto with udp|]. do 8 access.
  do 4 (by_cases; [apply safe_ret; auto with udp|]). do 8 access.
  by_cases.
  { apply safe_ret. destruct (_ =? cached_ip s); auto with udp. }
  by_cases; [|apply safe_ret; auto with udp]. by_cases; [|apply safe_ret; auto with udp].
  rewrite Hslot. cbn [mbind option_bind].
  access. eapply fill_eth_header_safe; [done|done|done|intros b1 Hb1].
  access. eapply put_arp_safe; [done|done|done|intros b2 Hb2].
  access. eapply send_packet_safe; [done|done|room|]. intros s' f ???. apply safe_ret. auto with udp.
Qed.

Lemma arp_request_safe s ip :
  udp_ok s ->
  safe (arp_request s ip) (fun '(s', out) => udp_ok s' /\ Forall frame_ok out /\ same_config s s').
Proof.
  intros Hs. pose proof (tx_slot s Hs) as (buf & Hslot & Hbuf). unfold arp_request.
  rewrite Hslot. cbn [mbind option_bind].
  access. eapply fill_eth_header_safe; [done|by apply is_buffer_spec|apply Hs|intros b1 Hb1].
  access. eapply put_arp_safe; [done|apply Hs|by apply is_buffer_spec|intros b2 Hb2].
  access. eapply send_packet_safe; [done|done|room|]. intros s' f ???. apply safe_ret. auto with udp.
Qed.

Lemma udp_announce_arp_safe s :
  udp_ok s ->
  safe (udp_announce_arp s) (fun '(s', out) => udp_ok s' /\ Forall frame_ok out /\ same_config s s').
Proof.
  intros Hs. unfold udp_announce_arp. by_cases; [apply safe_ret; auto with udp|by apply arp_request_safe].
Qed.

Lemma put_icmp_safe buf type ident seq payload (Q : list Z -> Prop) :
  slot_ok buf -> buffer 2 ident -> buffer 2 seq -> Forall is_byte payload -> (length payload <= max_ping)%nat ->
  (forall buf', slot_ok buf' -> Q buf') -> safe (put_icmp buf type ident seq payload) Q.
Proof.
  intros Hb Hi Hs Hp Hl HQ. unfold put_icmp, slot_ok in *.
  assert (Hk : (ETHMAC_SLOT_SIZE = 2048 /\ max_ping = 2006)%nat) by done.
  assert (Hpl : buffer (length payload) payload) by done.
  unfold payload_offset, sizeof_icmp_header. repeat access. auto.
Qed.

Lemma process_icmp_safe s rx rxlen :
  udp_ok s -> slot_ok rx -> (rxlen <= ETHMAC_SLOT_SIZE)%nat ->
  safe (process_icmp s rx rxlen)
    (fun '(s', sent) => udp_ok s' /\ Forall frame_ok sent /\ same_config s s').
Proof.
  intros Hs Hrx Hlen. pose proof (tx_slot s Hs) as (buf & Hslot & Hbuf).
  assert (Hk : ETHMAC_SLOT_SIZE = 2048%nat) by done.
  unfold process_icmp, slot_ok in *.
  by_cases; [apply safe_ret; auto with udp|].
  access. eapply safe_get16be; [eassumption|room|intros total Htotal].
  by_cases; [apply safe_ret; auto with udp|]. by_cases; [apply safe_ret; auto with udp|].
  apply Z.ltb_ge in E0. unfold sizeof_icmp_frame, sizeof_ethernet_header, sizeof_icmp_header, payload_offset in *.
  assert (Hn : (42 + (Z.to_nat total - 28) <= 2048)%nat).
  { destruct (Z.gtb_spec (Z.of_nat 14 + total) (Z.of_nat rxlen)); [done|]. lia. }
  generalize dependent (Z.to_nat total - 28)%nat. intros len Hn. do 2 access.
  by_cases.
  2: { by_cases; [|apply safe_ret; auto with udp]. do 4 access.
       by_cases; [apply safe_ret; auto with udp|]. by_cases; apply safe_ret; auto with udp. }
  do 9 access. eapply safe_slice; [eassumption|room|intros payload [Hpl Hpb]].
  rewrite Hslot. cbn [mbind option_bind].
  access. eapply fill_eth_header_safe; [done|done|apply Hs|intros b1 Hb1].
  access. eapply put_ip_header_safe; [done|intros b2 Hb2].
  access. eapply put_icmp_safe; [done|done|done|done|unfold max_ping, sizeof_ethernet_header, sizeof_icmp_frame; lia|].
  intros b3 Hb3.
  access. eapply send_packet_safe; [done|done|lia|]. intros s' f ???. apply safe_ret. auto with udp.
Qed.

Lemma ping_frame_safe s ip n :
  udp_ok s -> (n <= max_ping)%nat ->
  safe (ping_frame s ip n) (fun '(s', out) => udp_ok s' /\ Forall frame_ok out /\ same_config s s').
Proof.
  intros Hs Hn. pose proof (tx_slot s Hs) as (buf & Hslot & Hbuf). unfold ping_frame.
  assert (Hk : (ETHMAC_SLOT_SIZE = 2048 /\ max_ping = 2006)%nat) by done.
  rewrite Hslot. cbn [mbind option_bind].
  access. eapply fill_eth_header_safe; [done|apply Hs|apply Hs|intros b1 Hb1].
  access. eapply put_ip_header_safe; [done|intros b2 Hb2].
  access. eapply put_icmp_safe; [done|by apply is_buffer_spec| | |by rewrite length_fmap, length_seq|intros b3 Hb3].
  { split; [done|]. unfold le16. bytes. }
  { apply Forall_fmap, Forall_forall. intros i _. apply land_255_byte. }
  access. eapply send_packet_safe; [|done|unfold sizeof_ethernet_header, sizeof_icmp_frame; lia|]; [by apply set_ping_ok|].
  intros s' f ???. apply safe_ret. auto with udp.
Qed.

Lemma process_udp_safe s rx rxlen :
  udp_ok s -> slot_ok rx -> (rxlen <= ETHMAC_SLOT_SIZE)%nat ->
  safe (process_udp s rx rxlen)
    (fun '(s', call) => udp_ok s' /\ same_config s s' /\ from_option (fun '(_, d) => datagram_ok d) True call).
Proof.
  intros Hs Hrx Hlen. assert (Hk : ETHMAC_SLOT_SIZE = 2048%nat) by done.
  unfold process_udp, slot_ok in *.
  by_cases; [apply safe_ret; by auto with udp|].
  access. eapply safe_get16be; [eassumption|room|intros total Htotal].
  by_cases; [apply safe_ret; by auto with udp|]. by_cases; [apply safe_ret; by auto with udp|].
  do 2 access. by_cases; [apply safe_ret; by auto with udp|].
  access. eapply safe_get16be; [eassumption|room|intros ulen Hulen].
  by_cases; [apply safe_ret; by auto with udp|]. by_cases; [apply safe_ret; by auto with udp|].
  apply Z.ltb_ge in E0, E3. unfold sizeof_ip_header, sizeof_udp_frame, sizeof_ethernet_header, sizeof_udp_header, payload_offset in *.
  assert (Hn : (42 + (Z.to_nat ulen - 8) <= 2048)%nat).
  { destruct (Z.gtb_spec (Z.of_nat 14 + total) (Z.of_nat rxlen)); [done|].
    destruct (Z.gtb_spec ulen (total - Z.of_nat 20)); [done|]. lia. }
  do 11 access. eapply safe_slice; [eassumption|room|intros payload [Hpl Hpb]].
  set (dg := Datagram _ _ _ _). assert (Hdg : datagram_ok dg).
  { do 4 (split; [assumption|]). unfold dg. cbn [data]. rewrite Hpl.
    unfold max_payload, sizeof_ethernet_header, sizeof_udp_frame. lia. }
  cbn [record_src_mac my_ip rx_callback bx_callback].
  by_cases; [by_cases|]; [..|destruct (rx_callback s)]; apply safe_ret;
    (split_and!; [auto with udp|done|]); destruct (bx_callback s); done.
Qed.

Lemma process_frame_ok s rx rxlen :
  udp_ok s -> slot_ok rx ->
  exists s' sent call, process_frame s rx rxlen = Some (s', sent, call) /\
    udp_ok s' /\ same_config s s' /\ Forall frame_ok sent /\
    from_option (fun '(_, d) => datagram_ok d) True call.
Proof.
  intros Hs Hrx.
  assert (H : safe (process_frame s rx rxlen) (fun '(s', sent, call) => udp_ok s' /\ same_config s s' /\
    Forall frame_ok sent /\ from_option (fun '(_, d) => datagram_ok d) True call)).
  { unfold process_frame. by_cases; [apply safe_ret; by auto with udp|].
    by_cases; [apply safe_ret; by auto with udp|]. apply Nat.ltb_ge in E0. unfold slot_ok in Hrx. do 2 access.
    by_cases.
    { access. eapply safe_mono; [by apply process_arp_safe|]. intros [s' sent] (? & ? & ?). by apply safe_ret. }
    by_cases; [|apply safe_ret; by auto with udp]. do 4 access.
    by_cases; [apply safe_ret; by auto with udp|]. by_cases; [apply safe_ret; by auto with udp|]. do 2 access.
    by_cases.
    { access. eapply safe_mono; [by apply process_udp_safe|]. intros [s' call] (? & ? & ?). apply safe_ret.
      by auto with udp. }
    by_cases; [|apply safe_ret; by auto with udp].
    access. eapply safe_mono; [by apply process_icmp_safe|]. intros [s' sent] (? & ? & ?). by apply safe_ret. }
  destruct H as ([[s' sent] call] & Hrun & H). by exists s', sent, call.
Qed.

(** ** Runs *)

Module UdpRuns.

Definition board_mac : list Z := [0x10; 0xe2; 0xd5; 0; 0; 2].
Definition peer_mac : list Z := [0xaa; 0xbb; 0xcc; 0xdd; 0xee; 2].

(** A driver with a payload of three bytes in its transmit slot. *)
Definition sender : udp_state :=
  UdpState board_mac 0xc0a8012c peer_mac 0xc0a80107 (replicate 6 0) None None 0
    [replicate 42 7 ++ [1; 2; 3] ++ replicate 2003 9; replicate 2048 0] 0 0.

Lemma slot_is_ok b : is_buffer ETHMAC_SLOT_SIZE b = true -> slot_ok b.
Proof. apply is_buffer_spec. Qed.

Lemma sender_ok : udp_ok sender.
Proof.
  do 3 (split; [by apply is_buffer_spec|]). do 2 (split; [unfold word32; cbn; lia|]).
  split; [apply Nat.ltb_lt; reflexivity|]. split; [done|].
  repeat (apply Forall_cons; split; [apply slot_is_ok; vm_compute; reflexivity|]). apply Forall_nil_2.
Qed.

Lemma udp_send_received_witness :
  exists s' frame, udp_send sender 777 31337 3 = Some (true, s', [frame]) /\
    take 6 frame = peer_mac /\ (length frame <= ETHMAC_SLOT_SIZE)%nat /\
    ip_checksum 0 (take sizeof_ip_header (drop sizeof_ethernet_header frame)) false = 0xffff /\
    ip_checksum (ip_checksum 0 (pseudo_header 0xc0a8012c 0xc0a80107 (Z.of_nat (3 + sizeof_udp_header))) false)
      (take (sizeof_udp_header + 3) (drop 34 frame) ++ padding 3) false = 0xffff /\
    forall r stale, addressed r 0xc0a80107 = true ->
      process_frame r (frame ++ stale) (length frame) =
      Some (record_src_mac board_mac r, [],
            (fun cb => (cb, Datagram 0xc0a8012c 777 31337 [1; 2; 3])) <$> callback_for r 0xc0a80107).
Proof.
  exact (udp_send_received sender 777 31337 (replicate 42 7) [1; 2; 3] (replicate 2003 9) sender_ok
    eq_refl eq_refl eq_refl ltac:(apply Nat.leb_le; reflexivity) ltac:(lia) ltac:(lia)).
Defined.

(** A ping of an odd number of bytes: the checksum of the reply leaves out its last byte, so the
    reply's ICMP checksum does not verify. *)
Definition ping : list Z :=
  let f := board_mac ++ peer_mac ++ be16 ETHERTYPE_IP ++
           ip_bytes 29 IP_PROTO_ICMP 0 0xc0a80107 0xc0a8012c ++ [ICMP_ECHO; 0; 0; 0; 0; 1; 0; 1; 0x55] in
  f ++ replicate (ETHMAC_SLOT_SIZE - length f) 0.

(** The number of a ping is a word, the one of a reply two bytes: past 65,535 no reply is taken. *)
Lemma late_ping_reply_ignored s rx rxlen s' out :
  slot_ok rx -> 65536 <= ping_seq_number s -> rx !! 34%nat = Some ICMP_ECHO_REPLY ->
  process_icmp s rx rxlen = Some (s', out) -> s' = s.
Proof.
  intros [_ Hb] Hseq Htype. unfold process_icmp.
  destruct (_ <? _)%nat; [by intros [= <- _]|]. intros (total & _ & Hrun)%bind_Some.
  destruct (_ <? _); [by injection Hrun|]. destruct (_ >? _); [by injection Hrun|].
  rewrite Htype in Hrun. cbn [mbind option_bind] in Hrun. change (ICMP_ECHO_REPLY =? ICMP_ECHO) with false in Hrun.
  rewrite Z.eqb_refl in Hrun. cbn iota in Hrun. apply bind_Some in Hrun as (sq & Hsq & Hrun).
  apply bind_Some in Hrun as (ident & _ & Hrun).
  assert (Hlt : of_le16 sq < 65536).
  { unfold slice in Hsq. destruct (_ <=? _)%nat; [|discriminate]. injection Hsq as <-.
    assert (Hq : Forall is_byte (take 2 (drop 40 rx))) by (by apply Forall_take, Forall_drop).
    destruct (take 2 (drop 40 rx)) as [|b0 [|b1 [|??]]]; cbn; try lia.
    apply Forall_cons in Hq as [H0 Hq]. apply Forall_cons in Hq as [H1 _]. unfold is_byte in *. lia. }
  rewrite (proj2 (Z.eqb_neq _ _)) in Hrun by lia. by injection Hrun.
Qed.

Lemma odd_ping_checksum_wrong :
  exists s' frame, process_frame sender ping 60 = Some (s', [frame], None) /\
    ip_checksum 0 (take 9 (drop 34 frame) ++ [0]) false <> 0xffff.
Proof. eexists _, _. split; [vm_compute; reflexivity|]. vm_compute. discriminate. Qed.

End UdpRuns.
