(* ===== verification/Arp.v ===== *)
(** * Address resolution between two drivers

    The ARP frames of firmware/udp.c ([Udp]): what [udp_arp_resolve] and [udp_announce_arp] put in
    the transmit slot, what [process_arp] makes of such a frame, and that a request and its answer
    leave the asking driver with the MAC of the one that has the address. *)

From Stdlib Require Import ZArith Lia List Bool.
From stdpp Require Import base list.
From S2P Require Import Prelude Etherbone Bytes Udp.

Open Scope Z_scope.

(** An ARP frame up to its length of 60. *)
Definition arp_bytes (dst src : list Z) (opcode : Z) (smac : list Z) (sip : Z) (tmac : list Z) (tip : Z) : list Z :=
  dst ++ src ++ be16 ETHERTYPE_ARP ++ be16 ARP_HWTYPE_ETHERNET ++ be16 ARP_PROTO_IP ++ [6; 4] ++ be16 opcode ++
  smac ++ be32 sip ++ tmac ++ be32 tip ++ replicate 18 0.

Ltac six_bytes l :=
  do 6 (destruct l as [|? l]; [discriminate|]); destruct l; [|discriminate].

Lemma arp_bytes_length dst src opcode smac sip tmac tip :
  length dst = 6%nat -> length src = 6%nat -> length smac = 6%nat -> length tmac = 6%nat ->
  length (arp_bytes dst src opcode smac sip tmac tip) = ARP_PACKET_LENGTH.
Proof. intros H1 H2 H3 H4. unfold arp_bytes. rewrite !length_app, H1, H2, H3, H4. done. Qed.

Lemma arp_bytes_ok dst src opcode smac sip tmac tip :
  Forall is_byte dst -> Forall is_byte src -> Forall is_byte smac -> Forall is_byte tmac ->
  Forall is_byte (arp_bytes dst src opcode smac sip tmac tip).
Proof. intros. unfold arp_bytes. bytes. Qed.

(** Filling the slot. *)
Lemma arp_frame_run {A} dst src opcode smac sip tmac tip hdr tail (k : list Z -> option A) :
  length dst = 6%nat -> length src = 6%nat -> length smac = 6%nat -> length tmac = 6%nat ->
  length hdr = ARP_PACKET_LENGTH ->
  (buf ← fill_eth_header (hdr ++ tail) dst src ETHERTYPE_ARP;
   buf ← put_arp buf opcode smac sip tmac tip; k buf) = k (arp_bytes dst src opcode smac sip tmac tip ++ tail).
Proof.
  intros H1 H2 H3 H4 Hh. unfold ARP_PACKET_LENGTH in Hh. six_bytes dst. six_bytes src. six_bytes smac. six_bytes tmac.
  do 60 (destruct hdr as [|? hdr]; [discriminate|]). destruct hdr; [|discriminate].
  reflexivity.
Qed.

(** Filling the slot and sending it. *)
Lemma arp_send_run s dst opcode smac sip tmac tip :
  udp_ok s -> mac_ok dst -> mac_ok smac -> mac_ok tmac ->
  exists buf', slot_ok buf' /\
  (buf ← tx_slots s !! txslot s;
   buf ← fill_eth_header buf dst (my_mac s) ETHERTYPE_ARP;
   buf ← put_arp buf opcode smac sip tmac tip;
   '(s, frame) ← send_packet s buf ARP_PACKET_LENGTH;
   Some (s, [frame])) =
  Some (with_tx s ((txslot s + 1) mod ETHMAC_TX_SLOTS) (<[txslot s := buf']> (tx_slots s)),
        [arp_bytes dst (my_mac s) opcode smac sip tmac tip ++ replicate 40 0]).
Proof.
  intros Hs [Hd Hdb] [Hm Hmb] [Ht Htb]. pose proof Hs as ([Hy Hyb] & _).
  destruct (tx_slot s Hs) as (buf & -> & [Hl Hb]). cbn [mbind option_bind].
  rewrite <- (take_drop ARP_PACKET_LENGTH buf). rewrite arp_frame_run; [|done..|].
  2: { rewrite length_take, Hl. reflexivity. }
  set (f := arp_bytes _ _ _ _ _ _ _).
  assert (Hfl : length f = ARP_PACKET_LENGTH) by (by apply arp_bytes_length).
  assert (Hfb : Forall is_byte f) by (by apply arp_bytes_ok).
  assert (Hk : (ARP_PACKET_LENGTH = 60 /\ ETHMAC_SLOT_SIZE = 2048)%nat) by done.
  set (slot := f ++ _). assert (Hsl : length slot = ETHMAC_SLOT_SIZE)
    by (unfold slot; rewrite length_app, length_drop; lia).
  destruct (send_packet_run s slot ARP_PACKET_LENGTH) as (buf' & Hl' & Hb' & ->); [lia|lia|].
  exists buf'. split.
  - split; [lia|]. apply Hb', Forall_app_2; [done|by apply Forall_drop].
  - cbn [mbind option_bind]. unfold slot. rewrite take_app_length' by done. done.
Qed.

(** Reading such a frame back. *)
Lemma arp_fields dst src opcode smac sip tmac tip tail :
  length dst = 6%nat -> length src = 6%nat -> length smac = 6%nat -> length tmac = 6%nat ->
  0 <= opcode < 2 ^ 16 -> word32 sip -> word32 tip ->
  let f := arp_bytes dst src opcode smac sip tmac tip ++ tail in
  get16be f 12 = Some ETHERTYPE_ARP /\ get16be f 14 = Some ARP_HWTYPE_ETHERNET /\ get16be f 16 = Some ARP_PROTO_IP /\
  f !! 18%nat = Some 6 /\ f !! 19%nat = Some 4 /\ get16be f 20 = Some opcode /\ slice f 22 6 = Some smac /\
  get32be f 28 = Some sip /\ get32be f 38 = Some tip.
Proof.
  intros H1 H2 H3 H4 Hop Hs Ht. six_bytes dst. six_bytes src. six_bytes smac. six_bytes tmac. cbv zeta.
  pose proof (get16be_be16 [] opcode []) as E1. pose proof (get32be_be32 [] sip []) as E2.
  pose proof (get32be_be32 [] tip []) as E3. do 5 (split; [reflexivity|]).
  split; [exact (E1 Hop)|]. split; [reflexivity|]. split; [exact (E2 Hs)|exact (E3 Ht)].
Qed.

Section Received.
Variables (dst src smac tmac tail : list Z) (sip tip : Z) (rxlen : nat).
Hypotheses (Hdst : length dst = 6%nat) (Hsrc : length src = 6%nat) (Hsmac : length smac = 6%nat)
  (Htmac : length tmac = 6%nat) (Hsip : word32 sip) (Htip : word32 tip)
  (Hrxlen : (ARP_PACKET_LENGTH <= rxlen <= ETHMAC_SLOT_SIZE)%nat).

(** A reply enters the cache when it is from the address being resolved. *)
Lemma arp_reply_received s :
  process_frame s (arp_bytes dst src ARP_OPCODE_REPLY smac sip tmac tip ++ tail) rxlen =
  Some (if sip =? cached_ip s then udp_set_peer (cached_ip s) smac s else s, [], None).
Proof using All.
  destruct (arp_fields dst src ARP_OPCODE_REPLY smac sip tmac tip tail) as (F1 & F2 & F3 & F4 & F5 & F6 & F7 & F8 & F9);
    try done.
  assert (Hk : (ARP_PACKET_LENGTH = 60 /\ sizeof_ethernet_header = 14)%nat) by done.
  unfold process_frame. rewrite (proj2 (Nat.ltb_ge _ _)) by lia. rewrite (proj2 (Nat.ltb_ge _ _)) by lia.
  rewrite F1. cbn [mbind option_bind]. rewrite Z.eqb_refl. unfold process_arp. rewrite (proj2 (Nat.ltb_ge _ _)) by lia.
  rewrite F2, F3, F4, F5. cbn [mbind option_bind]. rewrite !Z.eqb_refl. cbn [negb].
  rewrite F6, F7, F8, F9. cbn [mbind option_bind]. by rewrite Z.eqb_refl.
Qed.

(** A request is answered by the board that has the address, to the asker, and by no other. *)
Lemma arp_request_received s :
  udp_ok s -> Forall is_byte smac ->
  if tip =? my_ip s
  then exists buf', slot_ok buf' /\
    process_frame s (arp_bytes dst src ARP_OPCODE_REQUEST smac sip tmac tip ++ tail) rxlen =
    Some (with_tx s ((txslot s + 1) mod ETHMAC_TX_SLOTS) (<[txslot s := buf']> (tx_slots s)),
          [arp_bytes smac (my_mac s) ARP_OPCODE_REPLY (my_mac s) (my_ip s) smac sip ++ replicate 40 0], None)
  else process_frame s (arp_bytes dst src ARP_OPCODE_REQUEST smac sip tmac tip ++ tail) rxlen = Some (s, [], None).
Proof using All.
  intros Hs Hb.
  destruct (arp_fields dst src ARP_OPCODE_REQUEST smac sip tmac tip tail) as (F1 & F2 & F3 & F4 & F5 & F6 & F7 & F8 & F9);
    try done.
  assert (Hk : (ARP_PACKET_LENGTH = 60 /\ sizeof_ethernet_header = 14)%nat) by done.
  unfold process_frame. rewrite (proj2 (Nat.ltb_ge _ _)) by lia. rewrite (proj2 (Nat.ltb_ge _ _)) by lia.
  rewrite F1. cbn [mbind option_bind]. rewrite Z.eqb_refl. unfold process_arp. rewrite (proj2 (Nat.ltb_ge _ _)) by lia.
  rewrite F2, F3, F4, F5. cbn [mbind option_bind]. rewrite !Z.eqb_refl. cbn [negb].
  rewrite F6, F7, F8, F9. cbn [mbind option_bind]. rewrite Z.eqb_refl.
  change (ARP_OPCODE_REQUEST =? ARP_OPCODE_REPLY) with false. cbn iota.
  destruct (Z.eqb_spec tip (my_ip s)); [|done].
  assert (Hm : mac_ok smac) by done. assert (Hy : mac_ok (my_mac s)) by apply Hs.
  destruct (arp_send_run s smac ARP_OPCODE_REPLY (my_mac s) (my_ip s) smac sip Hs Hm Hy Hm) as (buf' & Hbuf' & Hrun).
  exists buf'. split; [done|]. by rewrite Hrun.
Qed.

End Received.

(** The frame of a request of [s] for [ip], and of the answer of [r] to [s]. *)
Definition arp_ask (s : udp_state) (ip : Z) : list Z :=
  arp_bytes broadcast (my_mac s) ARP_OPCODE_REQUEST (my_mac s) (my_ip s) (replicate 6 0) ip ++ replicate 40 0.
Definition arp_tell (r s : udp_state) : list Z :=
  arp_bytes (my_mac s) (my_mac r) ARP_OPCODE_REPLY (my_mac r) (my_ip r) (my_mac s) (my_ip s) ++ replicate 40 0.

Lemma arp_request_run s ip :
  udp_ok s ->
  exists buf', slot_ok buf' /\ arp_request s ip =
    Some (with_tx s ((txslot s + 1) mod ETHMAC_TX_SLOTS) (<[txslot s := buf']> (tx_slots s)),
          [arp_ask s ip]).
Proof.
  intros Hs. apply arp_send_run; [done|by apply is_buffer_spec|apply Hs|by apply is_buffer_spec].
Qed.

(** C23: Address resolution works between two boards: the one frame of a request for an address is
    ignored by every board with another address; the board that has it answers with one frame, to
    the asker's MAC; and every driver that is resolving the address takes from that answer the MAC
    of the board that has it, and nothing else changes.  What follows a frame in its receive slot
    does not matter. *)
Theorem arp_exchange s r ip stale :
  udp_ok s -> udp_ok r -> my_ip r = ip ->
  exists s' r', arp_request s ip = Some (s', [arp_ask s ip]) /\ udp_ok s' /\ same_config s s' /\
    (forall q, udp_ok q -> my_ip q <> ip ->
       process_frame q (arp_ask s ip ++ stale) (length (arp_ask s ip)) = Some (q, [], None)) /\
    process_frame r (arp_ask s ip ++ stale) (length (arp_ask s ip)) = Some (r', [arp_tell r s], None) /\
    udp_ok r' /\ same_config r r' /\ take 6 (arp_tell r s) = my_mac s /\
    forall t stale', cached_ip t = ip ->
      process_frame t (arp_tell r s ++ stale') (length (arp_tell r s)) = Some (udp_set_peer ip (my_mac r) t, [], None).
Proof.
  intros Hs Hr Hip. destruct (arp_request_run s ip Hs) as (buf1 & Hb1 & Hreq).
  pose proof Hs as ([Hy Hyb] & _ & _ & Hsip & _). pose proof Hr as ([Hry Hryb] & _ & _ & Hrip & _).
  assert (Hfl : length (arp_ask s ip) = 100%nat)
    by (unfold arp_ask; rewrite length_app, arp_bytes_length, length_replicate; done).
  assert (Hlen : (ARP_PACKET_LENGTH <= 100 <= ETHMAC_SLOT_SIZE)%nat) by (split; by apply Nat.leb_le).
  assert (Hget : forall q, udp_ok q -> if ip =? my_ip q then exists buf', slot_ok buf' /\
      process_frame q (arp_ask s ip ++ stale) (length (arp_ask s ip)) =
      Some (with_tx q ((txslot q + 1) mod ETHMAC_TX_SLOTS) (<[txslot q := buf']> (tx_slots q)), [arp_tell q s], None)
    else process_frame q (arp_ask s ip ++ stale) (length (arp_ask s ip)) = Some (q, [], None)).
  { intros q Hq. rewrite Hfl. unfold arp_ask. rewrite <- (assoc_L (++)).
    apply (arp_request_received broadcast (my_mac s) (my_mac s) (replicate 6 0)); try done. by rewrite <- Hip. }
  pose proof (Hget r Hr) as Hgetr. rewrite Hip, Z.eqb_refl in Hgetr. destruct Hgetr as (buf2 & Hb2 & Hans).
  eexists _, _. split; [exact Hreq|]. split; [by apply with_tx_ok|]. split; [done|].
  split. { intros q Hq Hne. specialize (Hget q Hq). by rewrite (proj2 (Z.eqb_neq _ _)) in Hget by congruence. }
  split; [exact Hans|]. split; [by apply with_tx_ok|]. split; [done|]. unfold arp_tell. split.
  { unfold arp_bytes. rewrite <- !(assoc_L (++)). by apply take_app_length'. }
  intros t stale' Ht. rewrite length_app, arp_bytes_length, length_replicate by done. rewrite <- (assoc_L (++)).
  rewrite arp_reply_received by done. by rewrite Ht, Hip, Z.eqb_refl.
Qed.

(** ** Runs *)

Module ArpRuns.
Import UdpRuns.

Definition asker : udp_state :=
  udp_set_peer 0xc0a80107 (replicate 6 0) sender.
Definition owner : udp_state :=
  UdpState peer_mac 0xc0a80107 (replicate 6 0) 0 (replicate 6 0) None None 1 (tx_slots sender) 0 0.

Lemma asker_ok : udp_ok asker.
Proof. apply udp_set_peer_ok; [exact sender_ok|unfold word32; lia|by apply is_buffer_spec]. Qed.

Lemma owner_ok : udp_ok owner.
Proof.
  pose proof sender_ok as (_ & _ & _ & _ & _ & _ & Hslots). do 3 (split; [by apply is_buffer_spec|]).
  split; [unfold word32; cbn; lia|]. split; [unfold word32; cbn; lia|]. split; [by apply Nat.ltb_lt|exact Hslots].
Qed.

Lemma arp_exchange_witness :
  exists s' r', arp_request asker 0xc0a80107 = Some (s', [arp_ask asker 0xc0a80107]) /\ udp_ok s' /\
    same_config asker s' /\
    (forall q, udp_ok q -> my_ip q <> 0xc0a80107 ->
       process_frame q (arp_ask asker 0xc0a80107 ++ [7]) (length (arp_ask asker 0xc0a80107)) = Some (q, [], None)) /\
    process_frame owner (arp_ask asker 0xc0a80107 ++ [7]) (length (arp_ask asker 0xc0a80107)) =
      Some (r', [arp_tell owner asker], None) /\
    udp_ok r' /\ same_config owner r' /\ take 6 (arp_tell owner asker) = my_mac asker /\
    forall t stale', cached_ip t = 0xc0a80107 ->
      process_frame t (arp_tell owner asker ++ stale') (length (arp_tell owner asker)) =
      Some (udp_set_peer 0xc0a80107 (my_mac owner) t, [], None).
Proof. exact (arp_exchange asker owner 0xc0a80107 [7] asker_ok owner_ok eq_refl). Defined.

End ArpRuns.
