(* ===== verification/Icmp.v ===== *)
(** * Ping between two drivers

    The ICMP frames of firmware/udp.c ([Udp]): what [send_ping] and [process_icmp] put in the
    transmit slot, and what [process_icmp] makes of such a frame at another board: a ping is
    answered by the board that has the address, and the answer ends the wait of the one that asked. *)

From Stdlib Require Import ZArith Lia List Bool.
From stdpp Require Import base list.
From S2P Require Import Prelude Etherbone Bytes Udp Arp.

Open Scope Z_scope.

(** ** The frames *)

(** The ICMP header; the checksum, the identifier and the number are two bytes each. *)
Definition icmp_bytes (type : Z) (checksum ident seq : list Z) : list Z :=
  [Z.land type 255; 0] ++ checksum ++ ident ++ seq.

Definition icmp_headers (dst src : list Z) (sip dip : Z) (len : nat) (type : Z) (checksum ident seq : list Z) : list Z :=
  let total := Z.of_nat (len + sizeof_icmp_frame) in
  dst ++ src ++ be16 ETHERTYPE_IP ++
  ip_bytes total IP_PROTO_ICMP (ip_checksum 0 (ip_bytes total IP_PROTO_ICMP 0 sip dip) true) sip dip ++
  icmp_bytes type checksum ident seq.

Definition icmp_checksum (type : Z) (ident seq payload : list Z) : Z :=
  ip_checksum 0 (icmp_bytes type (be16 0) ident seq ++ payload) true.

Definition icmp_frame (dst src : list Z) (sip dip : Z) (type : Z) (ident seq payload : list Z) : list Z :=
  icmp_headers dst src sip dip (length payload) type (be16 (icmp_checksum type ident seq payload)) ident seq ++ payload.

(** A list of known length, by its elements. *)
Lemma two_elements (l : list Z) : length l = 2%nat -> exists a b, l = [a; b].
Proof. destruct l as [|a [|b [|??]]]; try discriminate. by exists a, b. Qed.

Lemma six_elements (l : list Z) : length l = 6%nat -> exists a b c d e f, l = [a; b; c; d; e; f].
Proof. intros H. six_bytes l. by do 6 eexists. Qed.

(** Two programs that differ in the nesting of their steps. *)
Ltac first_step m := lazymatch m with mbind _ ?m' => first_step m' | _ => m end.
Ltac same_run :=
  repeat lazymatch goal with
         | |- mbind _ ?m = _ => let x := first_step m in destruct x; [cbn [mbind option_bind]|done]
         end; try done.

Section Frame.
Variables (dst src ident seq : list Z) (sip dip type : Z).
Hypotheses (Hdst : length dst = 6%nat) (Hsrc : length src = 6%nat)
  (Hident : length ident = 2%nat) (Hseq : length seq = 2%nat).

Ltac spell_out :=
  destruct (six_elements dst Hdst) as (? & ? & ? & ? & ? & ? & ->), (six_elements src Hsrc) as (? & ? & ? & ? & ? & ? & ->),
    (two_elements ident Hident) as (? & ? & ->), (two_elements seq Hseq) as (? & ? & ->).

Lemma icmp_headers_length len c :
  length c = 2%nat -> length (icmp_headers dst src sip dip len type c ident seq) = payload_offset.
Proof using All.
  intros Hc. unfold icmp_headers, icmp_bytes, ip_bytes. rewrite !length_app, Hdst, Hsrc, Hc, Hident, Hseq. done.
Qed.

Lemma icmp_frame_length payload :
  length (icmp_frame dst src sip dip type ident seq payload) = (payload_offset + length payload)%nat.
Proof using All. unfold icmp_frame. by rewrite length_app, icmp_headers_length. Qed.

(** The headers, before the payload and the checksum. *)
Lemma icmp_headers_run {A} len hdr tail (k : list Z -> option A) :
  length hdr = payload_offset ->
  (buf ← fill_eth_header (hdr ++ tail) dst src ETHERTYPE_IP;
   buf ← put_ip_header buf (Z.of_nat (len + sizeof_icmp_frame)) IP_PROTO_ICMP sip dip;
   buf ← put8 buf 34 type;
   buf ← put8 buf 35 0;
   buf ← put buf 38 ident;
   buf ← put buf 40 seq; k buf) =
  k (icmp_headers dst src sip dip len type (take 2 (drop 36 hdr)) ident seq ++ tail).
Proof using All.
  intros Hh. unfold payload_offset in Hh. spell_out.
  do 42 (destruct hdr as [|? hdr]; [discriminate|]). destruct hdr; [|discriminate].
  reflexivity.
Qed.

Lemma put_icmp_checksum len c tail v :
  length c = 2%nat ->
  put16be (icmp_headers dst src sip dip len type c ident seq ++ tail) 36 v =
  Some (icmp_headers dst src sip dip len type (be16 v) ident seq ++ tail).
Proof using All.
  intros Hc. spell_out. destruct (two_elements c Hc) as (? & ? & ->). reflexivity.
Qed.

(** The parts of the headers. *)
Lemma icmp_headers_parts len c tail :
  length c = 2%nat ->
  let f := icmp_headers dst src sip dip len type c ident seq ++ tail in
  let total := Z.of_nat (len + sizeof_icmp_frame) in
  take 6 f = dst /\
  take sizeof_ip_header (drop sizeof_ethernet_header f) =
    ip_bytes total IP_PROTO_ICMP (ip_checksum 0 (ip_bytes total IP_PROTO_ICMP 0 sip dip) true) sip dip /\
  drop 34 f = icmp_bytes type c ident seq ++ tail /\ drop payload_offset f = tail.
Proof using All.
  intros Hc. spell_out. destruct (two_elements c Hc) as (? & ? & ->). by split_and!.
Qed.

Lemma icmp_slice len payload rest c :
  length c = 2%nat ->
  slice (icmp_headers dst src sip dip len type c ident seq ++ payload ++ rest) 34 (length payload + sizeof_icmp_header) =
  Some (icmp_bytes type c ident seq ++ payload).
Proof using All.
  intros Hc. destruct (icmp_headers_parts len c (payload ++ rest) Hc) as (_ & _ & H34 & _). unfold slice.
  rewrite H34, !length_app, icmp_headers_length, (assoc_L (++) (icmp_bytes _ _ _ _)) by done.
  rewrite (proj2 (Nat.leb_le _ _)) by (unfold payload_offset, sizeof_icmp_header; lia). f_equal.
  apply take_app_length'. unfold icmp_bytes. rewrite !length_app, Hc, Hident, Hseq. unfold sizeof_icmp_header. simpl. lia.
Qed.

(** Filling the slot. *)
Lemma icmp_frame_run {A} payload hdr old rest (k : list Z -> option A) :
  length hdr = payload_offset -> length old = length payload ->
  (buf ← fill_eth_header (hdr ++ old ++ rest) dst src ETHERTYPE_IP;
   buf ← put_ip_header buf (Z.of_nat (length payload + sizeof_icmp_frame)) IP_PROTO_ICMP sip dip;
   buf ← put_icmp buf type ident seq payload; k buf) =
  k (icmp_frame dst src sip dip type ident seq payload ++ rest).
Proof using All.
  intros Hh Ho. unfold put_icmp.
  assert (Hc : length (take 2 (drop 36 hdr)) = 2%nat)
    by (rewrite length_take, length_drop, Hh; unfold payload_offset; lia).
  pose proof (icmp_headers_run (length payload) hdr (old ++ rest) (fun buf =>
    (buf ← put buf payload_offset payload;
     buf ← put16be buf 36 0;
     icmp ← slice buf 34 (length payload + sizeof_icmp_header);
     buf ← put16be buf 36 (ip_checksum 0 icmp true); k buf)) Hh) as Hrun.
  etransitivity; [|etransitivity; [exact Hrun|]].
  - same_run.
  - rewrite <- (icmp_headers_length (length payload) (take 2 (drop 36 hdr)) Hc) at 1.
    rewrite put_end by (rewrite length_app; lia). cbn [mbind option_bind].
    rewrite <- Ho at 2. rewrite drop_app_length, <- (assoc_L (++)), put_icmp_checksum by done. cbn [mbind option_bind].
    rewrite icmp_slice by done. cbn [mbind option_bind]. rewrite put_icmp_checksum by done. cbn [mbind option_bind].
    unfold icmp_frame. by rewrite <- (assoc_L (++)).
Qed.

(** The fields, read back. *)
Lemma icmp_fields len c tail :
  length c = 2%nat -> word32 sip -> word32 dip -> (len <= max_ping)%nat -> is_byte type ->
  let f := icmp_headers dst src sip dip len type c ident seq ++ tail in
  get16be f 12 = Some ETHERTYPE_IP /\ f !! 14%nat = Some IP_IPV4 /\
  get16be f 16 = Some (Z.of_nat (len + sizeof_icmp_frame)) /\ f !! 23%nat = Some IP_PROTO_ICMP /\
  get32be f 26 = Some sip /\ get32be f 30 = Some dip /\ f !! 34%nat = Some type /\
  slice f 6 6 = Some src /\ slice f 38 2 = Some ident /\ slice f 40 2 = Some seq.
Proof using All.
  intros Hc Hs Hd Hl Ht. spell_out. destruct (two_elements c Hc) as (? & ? & ->). cbv zeta.
  assert (Hk : max_ping = 2006%nat) by done.
  pose proof (get16be_be16 [] (Z.of_nat (len + sizeof_icmp_frame)) []) as E1.
  pose proof (get32be_be32 [] sip [] Hs) as E2. pose proof (get32be_be32 [] dip [] Hd) as E3.
  split; [reflexivity|]. split; [reflexivity|]. split; [apply E1; unfold sizeof_icmp_frame; lia|].
  split; [reflexivity|]. split; [exact E2|]. split; [exact E3|]. split; [|done].
  cbn. f_equal. change 255 with (Z.ones 8). rewrite Z.land_ones, Z.mod_small; [done|exact Ht|lia].
Qed.

Lemma icmp_frame_bytes payload :
  Forall is_byte dst -> Forall is_byte src -> Forall is_byte ident -> Forall is_byte seq -> Forall is_byte payload ->
  Forall is_byte (icmp_frame dst src sip dip type ident seq payload).
Proof using Type. intros. unfold icmp_frame, icmp_headers, icmp_bytes, ip_bytes. bytes. Qed.

(** The checksum of the message verifies when its payload is even. *)
Lemma icmp_verifies payload :
  Forall is_byte ident -> Forall is_byte seq -> Forall is_byte payload -> (length payload <= max_ping)%nat ->
  ip_checksum 0 (icmp_bytes type (be16 (icmp_checksum type ident seq payload)) ident seq ++ payload) false = 0xffff.
Proof using Hident Hseq.
  clear Hdst Hsrc. intros Hi Hs Hp Hl. assert (Hk : max_ping = 2006%nat) by done.
  pose proof (checksum_verifies 0 [Z.land type 255; 0] (ident ++ seq ++ payload)) as H.
  unfold icmp_checksum, icmp_bytes. rewrite <- !(assoc_L (++)). apply H; [bytes|bytes|done|lia|].
  rewrite !length_app. cbn [length]. lia.
Qed.

End Frame.

(** ** Sending *)

(** What follows a short frame on the wire. *)
Definition wire (frame : list Z) : list Z := frame ++ replicate (100 - length frame) 0.

Lemma wire_length f : (length f <= ETHMAC_SLOT_SIZE -> length f <= length (wire f) <= ETHMAC_SLOT_SIZE)%nat.
Proof.
  intros Hf. assert (Hk : (ETHMAC_SLOT_SIZE = 2048)%nat) by done. unfold wire. rewrite length_app, length_replicate. lia.
Qed.

Lemma icmp_send_run s s1 dst type dip ident seq payload :
  udp_ok s -> txslot s1 = txslot s -> tx_slots s1 = tx_slots s ->
  mac_ok dst -> buffer 2 ident -> buffer 2 seq -> Forall is_byte payload -> (length payload <= max_ping)%nat ->
  exists buf', slot_ok buf' /\
  (buf ← tx_slots s !! txslot s;
   buf ← fill_eth_header buf dst (my_mac s) ETHERTYPE_IP;
   buf ← put_ip_header buf (Z.of_nat (length payload + sizeof_icmp_frame)) IP_PROTO_ICMP (my_ip s) dip;
   buf ← put_icmp buf type ident seq payload;
   send_packet s1 buf (length payload + sizeof_ethernet_header + sizeof_icmp_frame)) =
  Some (with_tx s1 ((txslot s + 1) mod ETHMAC_TX_SLOTS) (<[txslot s := buf']> (tx_slots s)),
        wire (icmp_frame dst (my_mac s) (my_ip s) dip type ident seq payload)).
Proof.
  intros Hs Ht1 Ht2 [Hd Hdb] [Hi Hib] [Hq Hqb] Hp Hl. pose proof Hs as ([Hy Hyb] & _).
  destruct (tx_slot s Hs) as (buf & -> & [Hbl Hbb]). cbn [mbind option_bind].
  assert (Hk : (ETHMAC_SLOT_SIZE = 2048 /\ payload_offset = 42 /\ max_ping = 2006)%nat) by done.
  rewrite <- (take_drop payload_offset buf), <- (take_drop (length payload) (drop payload_offset buf)).
  rewrite icmp_frame_run; [|done..|rewrite length_take; lia|rewrite length_take, length_drop; lia].
  set (f := icmp_frame _ _ _ _ _ _ _ _).
  assert (Hfl : length f = (payload_offset + length payload)%nat) by (by apply icmp_frame_length).
  assert (Hfb : Forall is_byte f) by (by apply icmp_frame_bytes).
  set (slot := f ++ _). assert (Hsl : length slot = ETHMAC_SLOT_SIZE)
    by (unfold slot; rewrite length_app, !length_drop; lia).
  replace (length payload + sizeof_ethernet_header + sizeof_icmp_frame)%nat with (length f)
    by (unfold sizeof_ethernet_header, sizeof_icmp_frame; lia).
  destruct (send_packet_run s1 slot (length f)) as (buf' & Hl' & Hb' & ->); [lia|lia|].
  exists buf'. split.
  - split; [lia|]. apply Hb', Forall_app_2; [done|by apply Forall_drop, Forall_drop].
  - unfold slot. rewrite take_app_length, Ht1, Ht2. done.
Qed.

(** ** Receiving *)

Section Received.
Variables (dst src ident seq payload stale : list Z) (sip dip type : Z) (rxlen : nat).
Hypotheses (Hdst : length dst = 6%nat) (Hsrc : mac_ok src) (Hident : buffer 2 ident) (Hseq : buffer 2 seq)
  (Hpayload : Forall is_byte payload) (Hlen : (length payload <= max_ping)%nat)
  (Hsip : word32 sip) (Hdip : word32 dip) (Htype : is_byte type)
  (Hrx : (payload_offset + length payload <= rxlen <= ETHMAC_SLOT_SIZE)%nat).

Let frame := icmp_frame dst src sip dip type ident seq payload ++ stale.

(** An ICMP frame reaches [process_icmp] at the boards its address is for, and no other. *)
Lemma icmp_delivered r :
  process_frame r frame rxlen =
  if addressed r dip then '(r, sent) ← process_icmp r frame rxlen; Some (r, sent, None) else Some (r, [], None).
Proof using All.
  unfold frame, icmp_frame. rewrite <- (assoc_L (++)). set (c := be16 _).
  destruct (icmp_fields dst src ident seq sip dip type Hdst (proj1 Hsrc) (proj1 Hident) (proj1 Hseq)
    (length payload) c (payload ++ stale)) as (F12 & F14 & _ & F23 & _ & F30 & _); try done.
  assert (Hk : (ETHMAC_SLOT_SIZE = 2048 /\ payload_offset = 42 /\ sizeof_ethernet_header = 14)%nat) by done.
  unfold process_frame. rewrite (proj2 (Nat.ltb_ge _ _)), (proj2 (Nat.ltb_ge _ _)) by lia.
  rewrite F12, F14, F23, F30. cbn [mbind option_bind ETHERTYPE_IP ETHERTYPE_ARP IP_IPV4 Z.eqb Pos.eqb negb].
  unfold addressed. destruct (dip =? my_ip r), (dip =? 0xffffffff), (dip =? Z.lor (my_ip r) 0xff); reflexivity.
Qed.

(** What [process_icmp] reads of it. *)
Lemma icmp_read :
  get16be frame 16 = Some (Z.of_nat (length payload + sizeof_icmp_frame)) /\ get32be frame 26 = Some sip /\
  frame !! 34%nat = Some type /\ slice frame 6 6 = Some src /\ slice frame 38 2 = Some ident /\
  slice frame 40 2 = Some seq /\ slice frame payload_offset (length payload) = Some payload.
Proof using All.
  unfold frame, icmp_frame. rewrite <- (assoc_L (++)). set (c := be16 _).
  destruct (icmp_fields dst src ident seq sip dip type Hdst (proj1 Hsrc) (proj1 Hident) (proj1 Hseq)
    (length payload) c (payload ++ stale)) as (_ & _ & F16 & _ & F26 & _ & F34 & F6 & F38 & F40); try done.
  do 6 (split; [done|]).
  rewrite <- (icmp_headers_length dst src ident seq sip dip type Hdst (proj1 Hsrc) (proj1 Hident) (proj1 Hseq)
    (length payload) c eq_refl). apply slice_app.
Qed.

Lemma icmp_guards :
  (rxlen <? sizeof_ethernet_header + sizeof_icmp_frame)%nat = false /\
  (Z.of_nat (length payload + sizeof_icmp_frame) <? Z.of_nat sizeof_icmp_frame) = false /\
  (Z.of_nat sizeof_ethernet_header + Z.of_nat (length payload + sizeof_icmp_frame) >? Z.of_nat rxlen) = false /\
  (Z.to_nat (Z.of_nat (length payload + sizeof_icmp_frame)) - sizeof_icmp_frame)%nat = length payload.
Proof using All.
  assert (Hk : (ETHMAC_SLOT_SIZE = 2048 /\ payload_offset = 42 /\ sizeof_ethernet_header = 14 /\ sizeof_icmp_frame = 28)%nat)
    by done. split; [apply Nat.ltb_ge; lia|]. split; [apply Z.ltb_ge; lia|].
  split; [rewrite Z.gtb_ltb; apply Z.ltb_ge; lia|lia].
Qed.

(** A ping is answered, to the MAC and the address it came from. *)
Lemma echo_answered r :
  udp_ok r -> type = ICMP_ECHO ->
  exists buf', slot_ok buf' /\ process_icmp r frame rxlen =
    Some (with_tx r ((txslot r + 1) mod ETHMAC_TX_SLOTS) (<[txslot r := buf']> (tx_slots r)),
          [wire (icmp_frame src (my_mac r) (my_ip r) sip ICMP_ECHO_REPLY ident seq payload)]).
Proof using All.
  intros Hr Ht. destruct icmp_read as (F16 & F26 & F34 & F6 & F38 & F40 & F42).
  destruct icmp_guards as (G1 & G2 & G3 & G4). unfold process_icmp.
  rewrite G1, F16. cbn [mbind option_bind]. rewrite G2, G3, G4, F34. cbn [mbind option_bind]. rewrite Ht, Z.eqb_refl.
  rewrite F6, F26, F38, F40, F42. cbn [mbind option_bind].
  destruct (icmp_send_run r r src ICMP_ECHO_REPLY sip ident seq payload) as (buf' & Hb & Hrun); try done.
  exists buf'. split; [done|].
  transitivity (Some
    (with_tx r ((txslot r + 1) mod ETHMAC_TX_SLOTS) (<[txslot r:=buf']> (tx_slots r)),
     wire (icmp_frame src (my_mac r) (my_ip r) sip ICMP_ECHO_REPLY ident seq payload)) ≫= fun '(s, f) => Some (s, [f]));
    [|done]. rewrite <- Hrun. same_run.
Qed.

(** A reply ends the wait when its number and its identifier are those of the last ping. *)
Lemma reply_taken t :
  type = ICMP_ECHO_REPLY ->
  process_icmp t frame rxlen =
  Some (if (of_le16 seq =? ping_seq_number t) && (of_le16 ident =? PING_IDENTIFIER)
        then set_ping (ping_seq_number t) 0 t else t, []).
Proof using All.
  intros Ht. destruct icmp_read as (F16 & F26 & F34 & F6 & F38 & F40 & F42).
  destruct icmp_guards as (G1 & G2 & G3 & G4). unfold process_icmp.
  rewrite G1, F16. cbn [mbind option_bind]. rewrite G2, G3, G4, F34. cbn [mbind option_bind]. rewrite Ht, Z.eqb_refl.
  change (ICMP_ECHO_REPLY =? ICMP_ECHO) with false. cbn iota. rewrite F38, F40. cbn [mbind option_bind].
  by destruct (of_le16 seq =? ping_seq_number t), (of_le16 ident =? PING_IDENTIFIER).
Qed.

End Received.

(** ** The exchange *)

Lemma of_le16_le16 v : of_le16 (le16 v) = v mod 2 ^ 16.
Proof.
  unfold le16, of_le16. change 255 with (Z.ones 8). rewrite !Z.land_ones, Z.shiftr_div_pow2 by lia.
  change (2 ^ 16) with (2 ^ 8 * 2 ^ 8). by rewrite Z.rem_mul_r by lia.
Qed.

Lemma le16_buffer v : buffer 2 (le16 v).
Proof. split; [done|]. unfold le16. bytes. Qed.

(** The payload of [send_ping]. *)
Definition ping_payload (n : nat) : list Z := (fun i => Z.land (Z.of_nat i) 255) <$> List.seq 0 n.

Lemma ping_payload_length n : length (ping_payload n) = n.
Proof. unfold ping_payload. by rewrite length_fmap, length_seq. Qed.

Lemma ping_payload_bytes n : Forall is_byte (ping_payload n).
Proof. apply Forall_fmap, Forall_forall. intros i _. apply land_255_byte. Qed.

Definition next_seq (s : udp_state) : Z := (ping_seq_number s + 1) mod 2 ^ 32.

(** The frame of a ping of [s], and of the answer of [r] to it. *)
Definition ping_ask (s : udp_state) (ip : Z) (n : nat) : list Z :=
  wire (icmp_frame (cached_mac s) (my_mac s) (my_ip s) ip ICMP_ECHO (le16 PING_IDENTIFIER) (le16 (next_seq s)) (ping_payload n)).
Definition ping_tell (r s : udp_state) (n : nat) : list Z :=
  wire (icmp_frame (my_mac s) (my_mac r) (my_ip r) (my_ip s) ICMP_ECHO_REPLY (le16 PING_IDENTIFIER) (le16 (next_seq s)) (ping_payload n)).

Lemma ping_frame_run s ip n :
  udp_ok s -> (n <= max_ping)%nat ->
  exists s', ping_frame s ip n = Some (s', [ping_ask s ip n]) /\ udp_ok s' /\ same_config s s' /\
    ping_seq_number s' = next_seq s /\ ping_ts_send s' = 1.
Proof.
  intros Hs Hn. unfold ping_frame. fold (ping_payload n) (next_seq s).
  destruct (icmp_send_run s (set_ping (next_seq s) (ping_ts_send s) s) (cached_mac s) ICMP_ECHO ip
    (le16 PING_IDENTIFIER) (le16 (next_seq s)) (ping_payload n)) as (buf' & Hb & Hrun);
    [done..|apply Hs|apply le16_buffer|apply le16_buffer|apply ping_payload_bytes|by rewrite ping_payload_length|].
  rewrite ping_payload_length in Hrun.
  eexists. split.
  - transitivity (Some (with_tx (set_ping (next_seq s) (ping_ts_send s) s) ((txslot s + 1) mod ETHMAC_TX_SLOTS)
      (<[txslot s:=buf']> (tx_slots s)), ping_ask s ip n) ≫= (fun '(u, f) => Some (set_ping (next_seq s) 1 u, [f])));
      [|reflexivity]. unfold ping_ask. rewrite <- Hrun. same_run.
  - split; [|done]. apply set_ping_ok, (with_tx_ok (set_ping (next_seq s) (ping_ts_send s) s)); [by apply set_ping_ok|exact Hb].
Qed.

(** The checksums of an ICMP frame on the wire with a payload of [n] bytes; [ip_checksum] leaves
    out the last byte of an odd message, so its own checksum verifies when the payload is even. *)
Definition checksums_verify (frame : list Z) (n : nat) : Prop :=
  ip_checksum 0 (take sizeof_ip_header (drop sizeof_ethernet_header frame)) false = 0xffff /\
  (Nat.even n = true -> ip_checksum 0 (take (sizeof_icmp_header + n) (drop 34 frame) ++ padding n) false = 0xffff).

Lemma icmp_wire dst src sip dip type ident seq payload :
  mac_ok dst -> mac_ok src -> buffer 2 ident -> buffer 2 seq -> Forall is_byte payload -> (length payload <= max_ping)%nat ->
  let f := wire (icmp_frame dst src sip dip type ident seq payload) in
  take 6 f = dst /\ take (length payload) (drop payload_offset f) = payload /\ checksums_verify f (length payload).
Proof.
  intros [Hd _] [Hy _] [Hi Hib] [Hq Hqb] Hp Hl. cbv zeta. unfold wire, icmp_frame.
  rewrite <- (assoc_L (++)). set (c := be16 (icmp_checksum _ _ _ _)).
  destruct (icmp_headers_parts dst src ident seq sip dip type Hd Hy Hi Hq (length payload) c
    (payload ++ replicate (100 - length (icmp_headers dst src sip dip (length payload) type c ident seq ++ payload)) 0))
    as (E6 & E14 & E34 & E42); [done|].
  unfold checksums_verify. rewrite E6, E14, E34, E42. split; [done|]. split; [by apply take_app_length|].
  split; [apply ip_header_verifies|]. intros He. unfold padding. rewrite <- Nat.negb_even, He, app_nil_r.
  rewrite (assoc_L (++)), take_app_length'; [by apply icmp_verifies|].
  unfold icmp_bytes. rewrite !length_app, Hi, Hq. done.
Qed.

(** A frame with its padding, in a receive slot. *)
Lemma wire_in_slot dst src sip dip type n ident seq stale :
  length dst = 6%nat -> length src = 6%nat -> length ident = 2%nat -> length seq = 2%nat -> (n <= max_ping)%nat ->
  let f := icmp_frame dst src sip dip type ident seq (ping_payload n) in
  wire f ++ stale = f ++ replicate (100 - length f) 0 ++ stale /\
  (payload_offset + length (ping_payload n) <= length (wire f) <= ETHMAC_SLOT_SIZE)%nat.
Proof.
  intros Hd Hs Hi Hq Hn. cbv zeta. set (f := icmp_frame _ _ _ _ _ _ _ _).
  assert (Hk : (ETHMAC_SLOT_SIZE = 2048 /\ payload_offset = 42 /\ max_ping = 2006)%nat) by done.
  assert (Hfl : length f = (payload_offset + length (ping_payload n))%nat) by (by apply icmp_frame_length).
  rewrite ping_payload_length in *. split; [unfold wire; by rewrite (assoc_L (++))|]. rewrite <- Hfl.
  apply wire_length. lia.
Qed.

(** The side conditions of the lemmas on received frames. *)
Ltac icmp_conditions :=
  first [done | apply le16_buffer | apply ping_payload_bytes | by rewrite ping_payload_length | assumption].

Lemma ping_ask_received s r ip n stale :
  udp_ok s -> udp_ok r -> word32 ip -> (n <= max_ping)%nat ->
  if addressed r ip
  then exists r', process_frame r (ping_ask s ip n ++ stale) (length (ping_ask s ip n)) =
         Some (r', [ping_tell r s n], None) /\ udp_ok r' /\ same_config r r'
  else process_frame r (ping_ask s ip n ++ stale) (length (ping_ask s ip n)) = Some (r, [], None).
Proof.
  intros Hs Hr Hip Hn. pose proof Hs as (Hy & [Hm _] & _ & Hsip & _). unfold ping_ask.
  destruct (wire_in_slot (cached_mac s) (my_mac s) (my_ip s) ip ICMP_ECHO n (le16 PING_IDENTIFIER) (le16 (next_seq s)) stale)
    as [-> Hw]; [done|apply Hy|done..|].
  rewrite icmp_delivered by icmp_conditions. destruct (addressed r ip); [|done].
  edestruct (echo_answered (cached_mac s) (my_mac s)) as (buf' & Hb & ->); [icmp_conditions..|].
  eexists. split; [reflexivity|]. split; [by apply with_tx_ok|done].
Qed.

Lemma ping_tell_received s r t n stale :
  udp_ok s -> udp_ok r -> (n <= max_ping)%nat -> addressed t (my_ip s) = true ->
  process_frame t (ping_tell r s n ++ stale) (length (ping_tell r s n)) =
  Some (if ping_seq_number t =? next_seq s mod 2 ^ 16 then set_ping (ping_seq_number t) 0 t else t, [], None).
Proof.
  intros Hs Hr Hn Ht. pose proof Hs as ([Hy _] & _ & _ & Hsip & _). pose proof Hr as (Hry & _ & _ & Hrip & _).
  unfold ping_tell.
  destruct (wire_in_slot (my_mac s) (my_mac r) (my_ip r) (my_ip s) ICMP_ECHO_REPLY n (le16 PING_IDENTIFIER) (le16 (next_seq s)) stale)
    as [-> Hw]; [done|apply Hry|done..|].
  rewrite icmp_delivered, Ht by icmp_conditions. rewrite reply_taken by icmp_conditions.
  by rewrite of_le16_le16, andb_true_r, Z.eqb_sym.
Qed.

(** C24: A ping is answered: the one frame of a ping of at most [max_ping] bytes goes to the resolved
    MAC and its IP checksum verifies; every board the address does not address ignores it; the
    board that has the address answers with one frame, to the MAC the ping came from, with the
    same payload and an IP checksum that verifies; in both frames the ICMP checksum verifies when
    the payload is even; and a driver at the asker's address that gets the answer ends its wait when the number
    of its last ping is the one answered, modulo 2^16, and changes nothing otherwise, so the asker
    does for its first 65,535 pings.  What follows a frame in its receive slot does not matter. *)
Theorem ping_exchange s r ip n stale :
  udp_ok s -> udp_ok r -> my_ip r = ip -> (n <= max_ping)%nat ->
  exists s' r', ping_frame s ip n = Some (s', [ping_ask s ip n]) /\ udp_ok s' /\ same_config s s' /\
    ping_ts_send s' = 1 /\ take 6 (ping_ask s ip n) = cached_mac s /\ checksums_verify (ping_ask s ip n) n /\
    (forall q, udp_ok q -> addressed q ip = false ->
       process_frame q (ping_ask s ip n ++ stale) (length (ping_ask s ip n)) = Some (q, [], None)) /\
    process_frame r (ping_ask s ip n ++ stale) (length (ping_ask s ip n)) = Some (r', [ping_tell r s n], None) /\
    udp_ok r' /\ same_config r r' /\ take 6 (ping_tell r s n) = my_mac s /\ checksums_verify (ping_tell r s n) n /\
    take n (drop payload_offset (ping_tell r s n)) = take n (drop payload_offset (ping_ask s ip n)) /\
    (forall t stale', addressed t (my_ip s) = true ->
       process_frame t (ping_tell r s n ++ stale') (length (ping_tell r s n)) =
       Some (if ping_seq_number t =? next_seq s mod 2 ^ 16 then set_ping (ping_seq_number t) 0 t else t, [], None)) /\
    (0 <= ping_seq_number s < 65535 -> forall stale',
       process_frame s' (ping_tell r s n ++ stale') (length (ping_tell r s n)) =
       Some (set_ping (ping_seq_number s + 1) 0 s', [], None)).
Proof.
  intros Hs Hr <- Hn. destruct (ping_frame_run s (my_ip r) n Hs Hn) as (s' & Hask & Hs' & Hconf & Hseq & Hts).
  pose proof Hs as (Hy & Hm & _). pose proof Hr as (Hry & _ & _ & Hrip & _).
  pose proof (ping_ask_received s r (my_ip r) n stale Hs Hr Hrip Hn) as Hans.
  unfold addressed in Hans. rewrite Z.eqb_refl in Hans. destruct Hans as (r' & Hans & Hr' & Hrconf).
  destruct (icmp_wire (cached_mac s) (my_mac s) (my_ip s) (my_ip r) ICMP_ECHO (le16 PING_IDENTIFIER) (le16 (next_seq s))
    (ping_payload n)) as (A1 & A2 & A3); [icmp_conditions..|].
  destruct (icmp_wire (my_mac s) (my_mac r) (my_ip r) (my_ip s) ICMP_ECHO_REPLY (le16 PING_IDENTIFIER) (le16 (next_seq s))
    (ping_payload n)) as (B1 & B2 & B3); [icmp_conditions..|].
  rewrite ping_payload_length in A2, A3, B2, B3.
  exists s', r'. do 6 (split; [done|]). split.
  { intros q Hq Hne. pose proof (ping_ask_received s q (my_ip r) n stale Hs Hq Hrip Hn) as H. by rewrite Hne in H. }
  do 5 (split; [done|]). split; [by etransitivity|]. split; [intros; by apply ping_tell_received|].
  intros Hb stale'. assert (Hn1 : next_seq s = ping_seq_number s + 1) by (apply Z.mod_small; lia).
  rewrite ping_tell_received by (done || (unfold addressed; destruct Hconf as (_ & -> & _); by rewrite Z.eqb_refl)).
  by rewrite Hseq, Hn1, Z.mod_small, Z.eqb_refl by lia.
Qed.

(** ** Runs *)

Module IcmpRuns.
Import UdpRuns ArpRuns.

Lemma ping_exchange_witness :
  exists s' r', ping_frame asker 0xc0a80107 16 = Some (s', [ping_ask asker 0xc0a80107 16]) /\ udp_ok s' /\
    ping_ts_send s' = 1 /\
    process_frame owner (ping_ask asker 0xc0a80107 16 ++ [7]) (length (ping_ask asker 0xc0a80107 16)) =
      Some (r', [ping_tell owner asker 16], None) /\
    process_frame s' (ping_tell owner asker 16 ++ [7]) (length (ping_tell owner asker 16)) =
      Some (set_ping 1 0 s', [], None).
Proof.
  destruct (ping_exchange asker owner 0xc0a80107 16 [7] asker_ok owner_ok eq_refl ltac:(by apply Nat.leb_le))
    as (s' & r' & H1 & H2 & _ & H4 & _ & _ & _ & H8 & _ & _ & _ & _ & _ & _ & H15).
  exists s', r'. do 4 (split; [assumption|]). apply H15. split; [by apply Z.leb_le|by apply Z.ltb_lt].
Defined.

End IcmpRuns.
