(* ===== verification/EbServe.v ===== *)
(** * The firmware's serve glue

    firmware/eb_serve.c: [eb_rx_callback] stashes one request in callback
    context, [eb_serve_pending] answers it from the main loop through
    [eb8008_handle] and the UDP driver.  The record [eb_state] holds the static
    variables; [None] is an access outside a buffer. *)

From Stdlib Require Import ZArith Lia List Bool.
From stdpp Require Import base list.
From S2P Require Import Prelude Etherbone Bytes Udp.

Open Scope Z_scope.

Definition EB_BUF_LEN : nat := 1500.

Record eb_state := EbState {
  eb_pending : bool;
  eb_src_ip : Z; eb_src_port : Z; eb_dst_port : Z; eb_src_mac : list Z;
  eb_req : list Z; eb_req_len : nat; eb_resp : list Z;
  eb_cb_any : Z; eb_cb_port : Z; eb_served : Z
}.

(** A counter of 32 bits. *)
Definition incr (n : Z) : Z := (n + 1) mod 2 ^ 32.

(** [data[0] != 0x4e || data[1] != 0x6f], for a datagram of at least two bytes. *)
Definition not_etherbone (bs : list Z) : option bool :=
  if (2 <=? length bs)%nat
  then m0 ← bs !! 0%nat; m1 ← bs !! 1%nat; Some (negb (m0 =? 0x4e) || negb (m1 =? 0x6f))
  else Some false.

Definition eb_rx_callback (last_src_mac : list Z) (d : datagram) (e : eb_state) : option eb_state :=
  let e := EbState (eb_pending e) (eb_src_ip e) (eb_src_port e) (eb_dst_port e) (eb_src_mac e)
             (eb_req e) (eb_req_len e) (eb_resp e) (incr (eb_cb_any e)) (eb_cb_port e) (eb_served e) in
  if eb_pending e then Some e
  else
    foreign ← not_etherbone (data d);
    if (foreign : bool) then Some e
    else if (EB_BUF_LEN <? length (data d))%nat then Some e
    else
      mac ← memcpy (eb_src_mac e) 0 last_src_mac 6;
      req ← memcpy (eb_req e) 0 (data d) (length (data d));
      Some (EbState true (src_ip d) (src_port d) (dst_port d) mac req (length (data d)) (eb_resp e)
              (eb_cb_any e) (incr (eb_cb_port e)) (eb_served e)).

Section Serve.
Context {B : Type} `{Bus B}.

(** [eb_serve_pending], on the bus, the driver and the glue; with the frames sent. *)
Definition eb_serve_pending (b : B) (u : udp_state) (e : eb_state)
    : option (B * udp_state * eb_state * list (list Z)) :=
  if negb (eb_pending e) then Some (b, u, e, [])
  else
    req ← slice (eb_req e) 0 (eb_req_len e);
    match eb8008_handle req b with
    | (Ok reply, b) =>
        resp ← put (eb_resp e) 0 reply;
        let resp_len := length reply in
        '(u, served, sent) ←
          (if (resp_len =? 0)%nat then Some (u, eb_served e, [])
           else
             let u := udp_set_peer (eb_src_ip e) (eb_src_mac e) u in
             buf ← tx_slots u !! txslot u;
             buf ← memcpy buf payload_offset resp resp_len;
             let u := with_tx u (txslot u) (<[txslot u := buf]> (tx_slots u)) in
             '(_, u, sent) ← udp_send u (eb_dst_port e) (eb_src_port e) resp_len;
             Some (u, incr (eb_served e), sent));
        Some (b, u, EbState false (eb_src_ip e) (eb_src_port e) (eb_dst_port e) (eb_src_mac e)
                      (eb_req e) (eb_req_len e) resp (eb_cb_any e) (eb_cb_port e) served, sent)
    | _ => None
    end.

End Serve.

(** ** The invariant *)

Definition eb_ok (e : eb_state) : Prop :=
  word32 (eb_src_ip e) /\ 0 <= eb_src_port e < 2 ^ 16 /\ 0 <= eb_dst_port e < 2 ^ 16 /\ mac_ok (eb_src_mac e) /\
  buffer EB_BUF_LEN (eb_req e) /\ (eb_req_len e <= EB_BUF_LEN)%nat /\ buffer (EB_BUF_LEN + 16) (eb_resp e).

(** The stash takes a datagram when none is pending, it is long enough to carry the magic only if
    it does, and it fits. *)
Definition stashes (e : eb_state) (d : datagram) : bool :=
  negb (eb_pending e) && (length (data d) <=? EB_BUF_LEN)%nat &&
  match data d with m0 :: m1 :: _ => (m0 =? 0x4e) && (m1 =? 0x6f) | _ => true end.

Lemma eb_rx_callback_run mac d e :
  eb_ok e -> mac_ok mac -> Forall is_byte (data d) ->
  exists e', eb_rx_callback mac d e = Some e' /\
    if stashes e d
    then eb_pending e' = true /\ eb_src_ip e' = src_ip d /\ eb_src_port e' = src_port d /\
         eb_dst_port e' = dst_port d /\ eb_src_mac e' = mac /\ eb_req_len e' = length (data d) /\
         eb_req e' = data d ++ drop (length (data d)) (eb_req e) /\ eb_resp e' = eb_resp e
    else e' = EbState (eb_pending e) (eb_src_ip e) (eb_src_port e) (eb_dst_port e) (eb_src_mac e)
                (eb_req e) (eb_req_len e) (eb_resp e) (incr (eb_cb_any e)) (eb_cb_port e) (eb_served e).
Proof.
  intros (_ & _ & _ & [Hm _] & [Hr _] & _) [Hmac _] _. unfold eb_rx_callback, stashes. cbn [eb_pending eb_src_mac eb_req].
  destruct (eb_pending e); [by eexists|]. cbn [negb andb].
  assert (Hforeign : not_etherbone (data d) =
    Some (negb match data d with m0 :: m1 :: _ => (m0 =? 0x4e) && (m1 =? 0x6f) | _ => true end)).
  { unfold not_etherbone. destruct (data d) as [|m0 [|m1 rest]]; [done|done|]. simpl. by destruct (m0 =? 78), (m1 =? 111). }
  rewrite Hforeign. cbn [mbind option_bind].
  destruct (match data d with m0 :: m1 :: _ => (m0 =? 0x4e) && (m1 =? 0x6f) | _ => true end);
    cbn [negb]; [|rewrite andb_false_r; by eexists].
  rewrite andb_true_r.
  destruct (Nat.leb_spec (length (data d)) EB_BUF_LEN) as [Hl|Hl];
    [rewrite (proj2 (Nat.ltb_ge _ _)) by done|rewrite (proj2 (Nat.ltb_lt _ _)) by done; by eexists].
  unfold memcpy. rewrite (proj2 (Nat.leb_le 6 _)) by lia. rewrite Nat.leb_refl, firstn_all.
  rewrite (take_ge mac) by lia.
  pose proof (put_end [] (eb_src_mac e) mac) as Hp1. cbn [app length] in Hp1. rewrite Hp1 by lia.
  pose proof (put_end [] (eb_req e) (data d)) as Hp2. cbn [app length] in Hp2. rewrite Hp2 by lia.
  cbn [mbind option_bind]. eexists. split; [done|]. cbn. split_and!; try done.
  rewrite drop_ge by lia. apply app_nil_r.
Qed.

(** ** Serving *)

(** What the main loop leaves of the driver's configuration. *)
Definition same_identity (u u' : udp_state) : Prop :=
  my_mac u' = my_mac u /\ my_ip u' = my_ip u /\ udp_last_src_mac u' = udp_last_src_mac u /\
  rx_callback u' = rx_callback u /\ bx_callback u' = bx_callback u.

(** Storing the payload in the transmit slot. *)
Lemma slot_payload buf resp n :
  slot_ok buf -> Forall is_byte resp -> (n <= length resp)%nat -> (n <= max_payload)%nat ->
  exists hdr rest, memcpy buf payload_offset resp n = Some (hdr ++ take n resp ++ rest) /\
    length hdr = payload_offset /\ slot_ok (hdr ++ take n resp ++ rest).
Proof.
  intros [Hl Hb] Hr Hn Hmax.
  unfold max_payload, ETHMAC_SLOT_SIZE, sizeof_ethernet_header, sizeof_udp_frame, payload_offset in *.
  unfold memcpy, put. rewrite (proj2 (Nat.leb_le n _)) by done. rewrite length_take, Hl, (proj2 (Nat.leb_le _ _)) by lia.
  eexists _, _. split; [reflexivity|]. split; [rewrite length_take; lia|]. split.
  - rewrite !length_app, !length_take, length_drop. unfold ETHMAC_SLOT_SIZE. lia.
  - repeat apply Forall_app_2; [by apply Forall_take|by apply Forall_take|by apply Forall_drop].
Qed.

Lemma stored_ok s buf :
  udp_ok s -> slot_ok buf ->
  let s' := with_tx s (txslot s) (<[txslot s := buf]> (tx_slots s)) in
  udp_ok s' /\ tx_slots s' !! txslot s' = Some buf.
Proof.
  intros (H1 & H2 & H3 & H4 & H5 & Ht & Hl & Hs) Hb. cbv zeta. split.
  - split_and!; try done; cbn [txslot tx_slots with_tx]; [by rewrite length_insert|by apply Forall_insert].
  - cbn [txslot tx_slots with_tx]. apply list_lookup_insert_eq. by rewrite Hl.
Qed.

(** The frame that carries a reply: to the requester's address and MAC, from the port the request
    came to, to the port it came from. *)
Definition reply_frame (u : udp_state) (e : eb_state) (reply trail : list Z) : list Z :=
  let peer := udp_set_peer (eb_src_ip e) (eb_src_mac e) u in
  udp_headers peer (eb_dst_port e) (eb_src_port e) (length reply)
    (udp_checksum_of peer (eb_dst_port e) (eb_src_port e) reply) ++ reply ++ trail.

(** What is sent for a reply: nothing when there is none or the MAC of the requester is unknown,
    and else its frame. *)
Definition answers (u : udp_state) (e : eb_state) (reply : list Z) (sent : list (list Z)) : Prop :=
  if (length reply =? 0)%nat || forallb (fun x => x =? 0) (eb_src_mac e) then sent = []
  else exists trail, sent = [reply_frame u e reply trail] /\
         (payload_offset + length reply + length trail <= ETHMAC_SLOT_SIZE)%nat.

(** Sending a reply that is at the start of the response buffer. *)
Lemma reply_sent u e reply rest :
  udp_ok u -> eb_ok e -> Forall is_byte (reply ++ rest) -> (0 < length reply <= max_payload)%nat ->
  exists ok u' sent, udp_ok u' /\ same_identity u u' /\ answers u e reply sent /\ forall A (k : _ -> option A),
    (let u := udp_set_peer (eb_src_ip e) (eb_src_mac e) u in
     buf ← tx_slots u !! txslot u;
     buf ← memcpy buf payload_offset (reply ++ rest) (length reply);
     let u := with_tx u (txslot u) (<[txslot u := buf]> (tx_slots u)) in
     r ← udp_send u (eb_dst_port e) (eb_src_port e) (length reply);
     k r) = k (ok, u', sent).
Proof.
  intros Hu (Hip & Hsp & Hdp & Hmac & _) Hb Hlen. set (peer := udp_set_peer _ _ u).
  assert (Hpeer : udp_ok peer) by (by apply udp_set_peer_ok).
  destruct (tx_slot peer Hpeer) as (buf & Hbuf & Hslot).
  destruct (slot_payload buf (reply ++ rest) (length reply) Hslot Hb) as (hdr & tail & Hcopy & Hhdr & Hslot');
    [rewrite length_app; lia|lia|].
  rewrite take_app_length in Hcopy, Hslot'.
  destruct (stored_ok peer _ Hpeer Hslot') as [Hs1 Hl1]. set (s1 := with_tx peer _ _) in *.
  unfold answers. destruct (Nat.eqb_spec (length reply) 0); [lia|]. cbn [orb].
  destruct (forallb (fun x => x =? 0) (eb_src_mac e)) eqn:Hzero.
  { exists false, s1, []. do 3 (split; [done|]). intros A k. cbv zeta. rewrite Hbuf. cbn [mbind option_bind].
    rewrite Hcopy. cbn [mbind option_bind]. fold s1. unfold udp_send. change (cached_mac s1) with (eb_src_mac e).
    by rewrite Hzero. }
  destruct (udp_send_run s1 (eb_dst_port e) (eb_src_port e) hdr reply tail Hs1 Hzero Hl1 Hhdr ltac:(lia))
    as (buf' & trail & Hsend & Hbuf' & Hroom).
  eexists true, _, _. split; [by apply with_tx_ok|]. split; [|split; [by exists trail|]]; [done|].
  intros A k. cbv zeta. rewrite Hbuf. cbn [mbind option_bind]. rewrite Hcopy. cbn [mbind option_bind].
  fold s1. by rewrite Hsend.
Qed.

Section ServeRun.
Context {B : Type} `{Bus B}.

Lemma eb_serve_pending_run (b : B) u e :
  eb_ok e -> udp_ok u -> eb_pending e = true ->
  exists reply b' u' e' sent,
    eb8008_handle (take (eb_req_len e) (eb_req e)) b = (Ok reply, b') /\
    (length reply <= eb_req_len e + 4)%nat /\ Forall is_byte reply /\
    eb_serve_pending b u e = Some (b', u', e', sent) /\
    udp_ok u' /\ same_identity u u' /\ eb_ok e' /\ eb_pending e' = false /\ answers u e reply sent.
Proof.
  intros He Hu Hp. pose proof He as (Hip & Hsp & Hdp & Hmac & [Hrl Hrb] & Hlen & [Hrespl Hrespb]).
  set (req := take (eb_req_len e) (eb_req e)).
  assert (Hreq : Forall is_byte req) by (by apply Forall_take).
  assert (Hreql : length req = eb_req_len e) by (unfold req; rewrite length_take; lia).
  destruct (eb8008_handle_ok req b Hreq) as (reply & Hrun & Hreply).
  pose proof (eb8008_handle_bytes req b) as Hbytes. rewrite Hrun in Hbytes.
  destruct (eb8008_handle req b) as [o b'] eqn:E. cbn in Hrun. subst o.
  exists reply, b'. unfold eb_serve_pending. rewrite Hp. cbn [negb].
  assert (Hslice : slice (eb_req e) 0 (eb_req_len e) = Some req)
    by (unfold slice; rewrite Hrl, (proj2 (Nat.leb_le _ _)) by lia; done).
  rewrite Hslice. cbn [mbind option_bind]. rewrite E.
  assert (Hk : (EB_BUF_LEN = 1500 /\ max_payload = 2006)%nat) by done.
  pose proof (put_end [] (eb_resp e) reply) as Hput. cbn [app length] in Hput.
  rewrite Hput by lia. clear Hput. cbn [mbind option_bind].
  assert (Hresp : buffer (EB_BUF_LEN + 16) (reply ++ drop (length reply) (eb_resp e))).
  { split; [rewrite length_app, length_drop; lia|]. apply Forall_app_2; [done|by apply Forall_drop]. }
  assert (Hok : forall c1 c2 c3, eb_ok (EbState false (eb_src_ip e) (eb_src_port e) (eb_dst_port e) (eb_src_mac e)
    (eb_req e) (eb_req_len e) (reply ++ drop (length reply) (eb_resp e)) c1 c2 c3))
    by (intros; refine (conj Hip (conj Hsp (conj Hdp (conj Hmac (conj (conj Hrl Hrb) (conj Hlen Hresp))))))).
  unfold answers. destruct (Nat.eqb_spec (length reply) 0) as [Hz|Hz]; cbn [orb mbind option_bind].
  { do 3 eexists. split; [done|]. split; [lia|]. split; [done|]. split; [reflexivity|]. by split_and!. }
  destruct (reply_sent u e reply (drop (length reply) (eb_resp e)))
    as (ok & u' & sent & Hu' & Hid & Hans & Hsend); [done|done|apply Hresp|lia|].
  cbv zeta in Hsend |- *. rewrite Hsend. cbn [mbind option_bind].
  do 3 eexists. split; [done|]. split; [lia|]. split; [done|]. split; [reflexivity|].
  unfold answers in Hans. destruct (Nat.eqb_spec (length reply) 0); [lia|]. by split_and!.
Qed.

End ServeRun.
