(* ===== verification/Firmware.v ===== *)
(** * The firmware's main loop

    firmware/main.c over the driver ([Udp]), the serve glue ([EbServe]) and the
    DHCP messages ([Dhcp]): polling the MAC, the DHCP client [dhcp_run], and the
    body of the serve loop.  The record [node] is the state of the board's
    software; [air] is what the MAC reports at each poll to come, and nothing
    after its end; [sent] is the frames handed to the MAC; [log] is the history of both, polls
    and frames in the order they happened.  An access outside a buffer is the exception
    [IndexError] of the model. *)

From Stdlib Require Import ZArith Lia List Bool.
From stdpp Require Import base list gmap.
From S2P Require Import Prelude Etherbone Bytes Dhcp Udp EbServe.

Open Scope Z_scope.

Definition chaddr_etherbone : list Z := [0x10; 0xe2; 0xd5; 0x00; 0x00; 0x01].
Definition DHCP_CLIENT_PORT : Z := 68.
Definition DHCP_SERVER_PORT : Z := 67.
Definition DHCP_MAX_TRIES : nat := 5.
Definition DHCP_REPLY_TIMEOUT_LOOPS : nat := Z.to_nat 200000.

(** The size of [rx_msgbuf]. *)
Definition RX_MSGBUF : nat := (DHCP_MIN_PACKET_LEN + 64)%nat.

(** What passes between the program and the MAC: a poll with what it reported, and a frame. *)
Inductive mac_event :=
| Polled (p : option (list Z * nat))
| Handed (frame : list Z).

Record node (B : Type) := Node {
  bus : B; net : udp_state; eb : eb_state;
  xid_seed : Z; rx_got : bool; rx_msgbuf : list Z; rx_msglen : nat;
  air : list (option (list Z * nat)); sent : list (list Z);
  eb_ip_csr : Z; log : list mac_event
}.
Arguments Node {B}.
Arguments bus {B}. Arguments net {B}. Arguments eb {B}. Arguments xid_seed {B}. Arguments rx_got {B}.
Arguments rx_msgbuf {B}. Arguments rx_msglen {B}. Arguments air {B}. Arguments sent {B}.
Arguments eb_ip_csr {B}. Arguments log {B}.

Section Main.
Context {B : Type} `{Bus B}.

Definition set_net (u : udp_state) (out : list (list Z)) (n : node B) : node B :=
  Node (bus n) u (eb n) (xid_seed n) (rx_got n) (rx_msgbuf n) (rx_msglen n) (air n) (sent n ++ out) (eb_ip_csr n)
    (log n ++ (Handed <$> out)).
Definition set_eb (e : eb_state) (n : node B) : node B :=
  Node (bus n) (net n) e (xid_seed n) (rx_got n) (rx_msgbuf n) (rx_msglen n) (air n) (sent n) (eb_ip_csr n) (log n).
Definition set_rx (got : bool) (buf : list Z) (len : nat) (n : node B) : node B :=
  Node (bus n) (net n) (eb n) (xid_seed n) got buf len (air n) (sent n) (eb_ip_csr n) (log n).
(** A poll is made. *)
Definition set_air (p : option (list Z * nat)) (a : list (option (list Z * nat))) (n : node B) : node B :=
  Node (bus n) (net n) (eb n) (xid_seed n) (rx_got n) (rx_msgbuf n) (rx_msglen n) a (sent n) (eb_ip_csr n)
    (log n ++ [Polled p]).
Definition set_seed (x : Z) (n : node B) : node B :=
  Node (bus n) (net n) (eb n) x (rx_got n) (rx_msgbuf n) (rx_msglen n) (air n) (sent n) (eb_ip_csr n) (log n).
(** [eb_ip_ip_write]: the register the gateware's Etherbone core takes its address from. *)
Definition eb_ip_write (ip : Z) : M (node B) unit :=
  modify (fun n => Node (bus n) (net n) (eb n) (xid_seed n) (rx_got n) (rx_msgbuf n) (rx_msglen n) (air n) (sent n) ip (log n)).
Definition on_net (f : udp_state -> udp_state) : M (node B) unit := modify (fun n => set_net (f (net n)) [] n).

(** An access to a buffer. *)
Definition checked {W A} (o : option A) : M W A :=
  match o with Some a => ret a | None => raise IndexError end.

Definition next_xid : M (node B) Z :=
  let! n := get in
  let x := (xid_seed n * 1103515245 + 12345) mod 2 ^ 32 in
  modify (set_seed x) ;;;
  ret x.

Definition dhcp_rx_callback (d : datagram) : M (node B) unit :=
  if negb (dst_port d =? DHCP_CLIENT_PORT) || negb (src_port d =? DHCP_SERVER_PORT) then ret tt
  else
    let len := Nat.min (length (data d)) RX_MSGBUF in
    let! n := get in
    let! buf := checked (memcpy (rx_msgbuf n) 0 (data d) len) in
    modify (set_rx true buf len).

(** [udp_service]: one poll of the MAC; a callback runs inside it. *)
Definition udp_service : M (node B) unit :=
  let! n := get in
  match air n with
  | [] => ret tt
  | None :: rest => modify (set_air None rest)
  | Some (rx, rxlen) :: rest =>
      modify (set_air (Some (rx, rxlen)) rest) ;;;
      let! (u, out, call) := checked (process_frame (net n) rx rxlen) in
      modify (set_net u out) ;;;
      match call with
      | None => ret tt
      | Some (eb_rx, d) =>
          let! e := checked (eb_rx_callback (udp_last_src_mac u) d (eb n)) in
          modify (set_eb e)
      | Some (dhcp_rx, d) => dhcp_rx_callback d
      end
  end.

(** ** The DHCP client *)

(** [for (i = 0; i < DHCP_REPLY_TIMEOUT_LOOPS; i++)], with [n] turns to go. *)
Fixpoint wait_loop (turns : nat) : M (node B) bool :=
  match turns with
  | O => ret false
  | S turns' =>
      udp_service ;;;
      let! got := gets rx_got in
      if got then ret true else wait_loop turns'
  end.

Definition wait_for_reply : M (node B) bool :=
  modify (fun n => set_rx false (rx_msgbuf n) (rx_msglen n) n) ;;;
  wait_loop DHCP_REPLY_TIMEOUT_LOOPS.

(** Build a message in the payload of the transmit slot. *)
Definition put_message (build : list Z -> option (list Z * nat)) : M (node B) nat :=
  let! u := gets net in
  let! buf := checked (tx_slots u !! txslot u) in
  let! (payload, len) := checked (build (drop payload_offset buf)) in
  modify (set_net (with_tx u (txslot u) (<[txslot u := take payload_offset buf ++ payload]> (tx_slots u))) []) ;;;
  ret len.

(** [udp_send(DHCP_CLIENT_PORT, DHCP_SERVER_PORT, len)] *)
Definition dhcp_send (len : nat) : M (node B) bool :=
  let! u := gets net in
  let! (ok, u, out) := checked (udp_send u DHCP_CLIENT_PORT DHCP_SERVER_PORT len) in
  modify (set_net u out) ;;;
  ret ok.

Definition send_message (build : list Z -> option (list Z * nat)) : M (node B) bool :=
  let! len := put_message build in
  dhcp_send len.

(** The message the last callback stored. *)
Definition rx_message : M (node B) (list Z) := gets (fun n => take (rx_msglen n) (rx_msgbuf n)).

(** One turn of the loop of [dhcp_run]; [None] is its [continue]. *)
Definition dhcp_attempt : M (node B) (option (Z * Z)) :=
  let! xid := next_xid in
  on_net (udp_set_ip 0) ;;;
  let! ok := send_message (fun buf => dhcp_build_discover buf chaddr_etherbone xid) in
  if negb ok then ret None
  else
    on_net (udp_set_ip 0xffffffff) ;;;
    let! got := wait_for_reply in
    if negb got then ret None
    else
      let! msg := rx_message in
      let! offer := checked (dhcp_parse_offer msg xid) in
      match offer with
      | None => ret None
      | Some o =>
          on_net (udp_set_ip 0) ;;;
          let! ok := send_message (fun buf => dhcp_build_request buf chaddr_etherbone xid (ip o) (server o)) in
          if negb ok then ret None
          else
            on_net (udp_set_ip 0xffffffff) ;;;
            let! got := wait_for_reply in
            if negb got then ret None
            else
              let! msg := rx_message in
              let! ack := checked (dhcp_parse_ack msg xid) in
              match ack with
              | None => ret None
              | Some a =>
                  if negb (ip a =? ip o) then ret None
                  else ret (Some (ip a, if lease_secs a =? 0 then 3600 else lease_secs a))
              end
      end.

Fixpoint dhcp_attempts (tries : nat) : M (node B) (option (Z * Z)) :=
  match tries with
  | O => ret None
  | S tries' =>
      let! r := dhcp_attempt in
      match r with
      | Some l => ret (Some l)
      | None => dhcp_attempts tries'
      end
  end.

Definition dhcp_run : M (node B) (option (Z * Z)) :=
  on_net (udp_set_callback (Some dhcp_rx)) ;;;
  let! r := dhcp_attempts DHCP_MAX_TRIES in
  on_net (udp_set_callback None) ;;;
  ret r.

(** ** The serve loop *)

Definition serve_pending : M (node B) unit :=
  let! n := get in
  let! (b, u, e, out) := checked (eb_serve_pending (bus n) (net n) (eb n)) in
  modify (fun n => Node b u e (xid_seed n) (rx_got n) (rx_msgbuf n) (rx_msglen n) (air n) (sent n ++ out)
                     (eb_ip_csr n) (log n ++ (Handed <$> out))).

(** [turns] turns of the innermost loop of [main]. *)
Fixpoint serve_loop (turns : nat) : M (node B) unit :=
  match turns with
  | O => ret tt
  | S turns' => udp_service ;;; serve_pending ;;; serve_loop turns'
  end.

End Main.

(** ** The invariant *)

(** The receive slots the MAC will report hold bytes; their lengths are arbitrary. *)
Definition air_ok (a : list (option (list Z * nat))) : Prop :=
  Forall (from_option (fun p => slot_ok p.1) True) a.

(** The frames fit a slot of the MAC. *)
Definition fits (out : list (list Z)) : Prop := Forall (fun f => length f <= ETHMAC_SLOT_SIZE)%nat out.

Definition node_ok {B} (n : node B) : Prop :=
  udp_ok (net n) /\ eb_ok (eb n) /\ buffer RX_MSGBUF (rx_msgbuf n) /\ (rx_msglen n <= RX_MSGBUF)%nat /\
  word32 (xid_seed n) /\ air_ok (air n) /\ fits (sent n).

(** The bytes of [rx_msgbuf] a parser reads. *)
Definition message {B} (n : node B) : list Z := take (rx_msglen n) (rx_msgbuf n).

(** [heard a msg]: [msg] is a datagram from port 67 to port 68 that the driver delivered from one
    of the polls [a], cut to the size of the buffer. *)
Definition heard (a : list (option (list Z * nat))) (msg : list Z) : Prop :=
  exists rx rxlen u u' out d, Some (rx, rxlen) ∈ a /\
    process_frame u rx rxlen = Some (u', out, Some (dhcp_rx, d)) /\
    src_port d = DHCP_SERVER_PORT /\ dst_port d = DHCP_CLIENT_PORT /\ msg = take RX_MSGBUF (data d).

(** The polls and the frames among the events. *)
Definition polls (evs : list mac_event) : list (option (list Z * nat)) :=
  omap (fun e => match e with Polled p => Some p | Handed _ => None end) evs.
Definition frames (evs : list mac_event) : list (list Z) :=
  omap (fun e => match e with Polled _ => None | Handed f => Some f end) evs.

(** [happened n evs n']: between [n] and [n'], exactly the events [evs], in this order. *)
Definition happened {B} (n : node B) (evs : list mac_event) (n' : node B) : Prop :=
  log n' = log n ++ evs /\ air n = polls evs ++ air n' /\ sent n' = sent n ++ frames evs.

(** What polling changes: it consumes polls, may answer with frames, and a stored message is one
    it heard. *)
Definition polled {B} (n n' : node B) : Prop :=
  exists evs, happened n evs n' /\ Forall frame_ok (frames evs) /\
    same_config (net n) (net n') /\ bus n' = bus n /\ eb_ip_csr n' = eb_ip_csr n /\
    (rx_got n' = rx_got n /\ message n' = message n \/ rx_got n' = true /\ heard (polls evs) (message n')).

Section MainProofs.
Context {B : Type} `{Bus B}.
Implicit Types n : node B.

Lemma wp_checked {W A} (o : option A) (P : A -> Prop) (Q : outcome A -> W -> Prop) w :
  safe o P -> (forall a, P a -> Q (Ok a) w) -> wp (checked o) Q w.
Proof. intros (a & -> & Ha) HQ. apply wp_ret. auto. Qed.

Lemma polls_app e1 e2 : polls (e1 ++ e2) = polls e1 ++ polls e2.
Proof. apply omap_app. Qed.

Lemma frames_app e1 e2 : frames (e1 ++ e2) = frames e1 ++ frames e2.
Proof. apply omap_app. Qed.

Lemma polls_handed out : polls (Handed <$> out) = [].
Proof. by induction out. Qed.

Lemma frames_handed out : frames (Handed <$> out) = out.
Proof. induction out as [|f out IH]; [done|]. cbn. by f_equal. Qed.

Lemma happened_refl n : happened n [] n.
Proof. split; [by rewrite app_nil_r|]. split; [done|by rewrite app_nil_r]. Qed.

Lemma happened_trans n1 e1 n2 e2 n3 : happened n1 e1 n2 -> happened n2 e2 n3 -> happened n1 (e1 ++ e2) n3.
Proof.
  intros (L1 & A1 & S1) (L2 & A2 & S2). split; [by rewrite L2, L1, (assoc_L (++))|].
  rewrite polls_app, frames_app. split; [by rewrite A1, A2, (assoc_L (++))|by rewrite S2, S1, (assoc_L (++))].
Qed.

(** A step that neither polls nor sends. *)
Lemma happened_quiet n n' : log n' = log n -> air n' = air n -> sent n' = sent n -> happened n [] n'.
Proof. intros E1 E2 E3. unfold happened. rewrite E1, E2, E3. apply happened_refl. Qed.

Lemma happened_sent u out n : happened n (Handed <$> out) (set_net u out n).
Proof. unfold happened. rewrite polls_handed, frames_handed. done. Qed.

Lemma happened_config u n : happened n [] (set_net u [] n).
Proof. apply (happened_sent u []). Qed.

Lemma happened_poll p rest n : air n = p :: rest -> happened n [Polled p] (set_air p rest n).
Proof. intros Ha. split; [done|]. split; [done|]. cbn. by rewrite app_nil_r. Qed.

Lemma polled_refl n : polled n n.
Proof.
  exists []. split; [apply happened_refl|]. split; [apply Forall_nil_2|]. do 3 (split; [done|]). by left.
Qed.

Lemma heard_mono a1 a2 a3 msg : heard a2 msg -> heard (a1 ++ a2 ++ a3) msg.
Proof.
  intros (rx & rxlen & u & u' & out & d & Hin & Hrest). exists rx, rxlen, u, u', out, d. split; [|done].
  apply elem_of_app. right. apply elem_of_app. by left.
Qed.

Lemma polled_trans n1 n2 n3 : polled n1 n2 -> polled n2 n3 -> polled n1 n3.
Proof.
  intros (e1 & H1 & Hf1 & (C1 & C2 & C3 & C4 & C5) & Hb1 & Hx1 & Hr1)
         (e2 & H2 & Hf2 & (D1 & D2 & D3 & D4 & D5) & Hb2 & Hx2 & Hr2).
  exists (e1 ++ e2). split; [by eapply happened_trans|]. rewrite polls_app, frames_app.
  split; [by apply Forall_app_2|]. split; [by split_and!; congruence|]. do 2 (split; [congruence|]).
  destruct Hr2 as [[Hg2 Hm2]|[Hg2 Hm2]].
  - rewrite Hg2, Hm2. destruct Hr1 as [?|[Hg1 Hm1]]; [by left|right]. split; [done|].
    by apply (heard_mono [] (polls e1) (polls e2)).
  - right. split; [done|]. pose proof (heard_mono (polls e1) (polls e2) [] _ Hm2) as Hh. by rewrite app_nil_r in Hh.
Qed.

Lemma eb_rx_callback_ok mac d e :
  eb_ok e -> mac_ok mac -> datagram_ok d -> safe (eb_rx_callback mac d e) eb_ok.
Proof.
  intros He Hm (Hip & Hsp & Hdp & Hb & Hl).
  destruct (eb_rx_callback_run mac d e He Hm Hb) as (e' & Hrun & Hspec). exists e'. split; [done|].
  destruct He as (E1 & E2 & E3 & E4 & [E5 E5'] & E6 & E7). unfold stashes in Hspec.
  destruct (negb (eb_pending e)); [|simpl in Hspec; by subst e'].
  destruct (Nat.leb_spec (length (data d)) EB_BUF_LEN) as [Hle|]; [|simpl in Hspec; by subst e'].
  cbn [andb] in Hspec.
  destruct (match data d with m0 :: m1 :: _ => (m0 =? 0x4e) && (m1 =? 0x6f) | _ => true end); [|by subst e'].
  unfold eb_ok. destruct Hspec as (_ & -> & -> & -> & -> & -> & -> & ->).
  refine (conj Hip (conj Hsp (conj Hdp (conj Hm (conj _ (conj Hle E7)))))). split.
  - rewrite length_app, length_drop. lia.
  - apply Forall_app_2; [done|by apply Forall_drop].
Qed.

(** Each part of the state keeps the invariant of the others. *)
Lemma set_rx_ok got buf len n :
  node_ok n -> buffer RX_MSGBUF buf -> (len <= RX_MSGBUF)%nat -> node_ok (set_rx got buf len n).
Proof. intros (H1 & H2 & _ & _ & H5) Hb Hl. exact (conj H1 (conj H2 (conj Hb (conj Hl H5)))). Qed.

Lemma set_net_ok u out n : node_ok n -> udp_ok u -> fits out -> node_ok (set_net u out n).
Proof.
  intros (_ & H2 & H3 & H4 & H5 & H6 & H7) Hu Hf.
  exact (conj Hu (conj H2 (conj H3 (conj H4 (conj H5 (conj H6 (Forall_app_2 _ _ _ H7 Hf))))))).
Qed.

(** A write to the driver's own state. *)
Lemma put_net_ok u n : node_ok n -> udp_ok u -> node_ok (set_net u [] n).
Proof. intros Hn Hu. by apply set_net_ok; [| |apply Forall_nil_2]. Qed.

Lemma served_ok (b : B) u e out n :
  node_ok n -> udp_ok u -> eb_ok e -> fits out ->
  node_ok (Node b u e (xid_seed n) (rx_got n) (rx_msgbuf n) (rx_msglen n) (air n) (sent n ++ out) (eb_ip_csr n)
    (log n ++ (Handed <$> out))).
Proof.
  intros (_ & _ & H3 & H4 & H5 & H6 & H7) Hu He Hf.
  exact (conj Hu (conj He (conj H3 (conj H4 (conj H5 (conj H6 (Forall_app_2 _ _ _ H7 Hf))))))).
Qed.

Lemma frames_fit out : Forall frame_ok out -> fits out.
Proof. intros Hf. eapply Forall_impl; [exact Hf|]. by intros f [[_ ?] _]. Qed.

Lemma set_eb_ok e n : node_ok n -> eb_ok e -> node_ok (set_eb e n).
Proof. intros (H1 & _ & H3) He. exact (conj H1 (conj He H3)). Qed.

Lemma set_air_ok p a n : node_ok n -> air_ok a -> node_ok (set_air p a n).
Proof.
  intros (H1 & H2 & H3 & H4 & H5 & _ & H7) Ha. exact (conj H1 (conj H2 (conj H3 (conj H4 (conj H5 (conj Ha H7)))))).
Qed.

Lemma set_seed_ok x n : node_ok n -> word32 x -> node_ok (set_seed x n).
Proof.
  intros (H1 & H2 & H3 & H4 & _ & H6) Hx. exact (conj H1 (conj H2 (conj H3 (conj H4 (conj Hx H6))))).
Qed.

(** A delivered DHCP datagram becomes the message. *)
Lemma dhcp_rx_callback_run d n :
  node_ok n -> datagram_ok d ->
  wp (dhcp_rx_callback d)
     (fun r n' => r = Ok tt /\ node_ok n' /\ bus n' = bus n /\ net n' = net n /\ eb_ip_csr n' = eb_ip_csr n /\
                  air n' = air n /\ sent n' = sent n /\ log n' = log n /\
                  (rx_got n' = rx_got n /\ message n' = message n \/
                   rx_got n' = true /\ src_port d = DHCP_SERVER_PORT /\ dst_port d = DHCP_CLIENT_PORT /\
                   message n' = take RX_MSGBUF (data d))) n.
Proof.
  intros Hn (_ & _ & _ & Hb & _). pose proof Hn as (_ & _ & Hm & Hl & _). unfold dhcp_rx_callback.
  destruct (Z.eqb_spec (dst_port d) DHCP_CLIENT_PORT); cbn [negb orb];
    [|apply wp_ret; do 8 (split; [done|]); by left].
  destruct (Z.eqb_spec (src_port d) DHCP_SERVER_PORT); cbn [negb];
    [|apply wp_ret; do 8 (split; [done|]); by left].
  set (len := Nat.min _ _). apply wp_bind, wp_get. destruct Hm as [Hm Hmb].
  pose proof (put_end [] (rx_msgbuf n) (take len (data d))) as Hput. cbn [app length] in Hput.
  rewrite length_take in Hput.
  assert (Hcopy : memcpy (rx_msgbuf n) 0 (data d) len = Some (take len (data d) ++ drop len (rx_msgbuf n))).
  { unfold memcpy. rewrite (proj2 (Nat.leb_le _ _)) by lia. rewrite Hput by lia. do 3 f_equal. lia. }
  rewrite Hcopy. apply wp_bind, wp_ret, wp_modify. split; [done|]. split.
  { apply set_rx_ok; [done| |lia]. split; [rewrite length_app, length_take, length_drop; lia|].
    apply Forall_app_2; [by apply Forall_take|by apply Forall_drop]. }
  do 6 (split; [done|]). right. do 3 (split; [done|]). unfold message. cbn [rx_msglen rx_msgbuf set_rx].
    rewrite take_app_le by (rewrite length_take; lia). rewrite take_take, Nat.min_id.
    unfold len. destruct (Nat.le_ge_cases (length (data d)) RX_MSGBUF).
    + rewrite Nat.min_l, firstn_all, take_ge by lia. done.
    + by rewrite Nat.min_r by lia.
Qed.


Lemma udp_service_run n :
  node_ok n -> wp udp_service (fun r n' => r = Ok tt /\ node_ok n' /\ polled n n') n.
Proof.
  intros Hn. unfold udp_service. apply wp_bind, wp_get.
  destruct (air n) as [|[[rx rxlen]|] rest] eqn:Hair.
  { apply wp_ret. auto using polled_refl. }
  2: { apply wp_modify. split; [done|]. pose proof Hn as (_ & _ & _ & _ & _ & Ha & _). rewrite Hair in Ha.
       apply Forall_cons in Ha as [_ Ha]. split; [by apply set_air_ok|].
       exists [Polled None]. split; [by apply happened_poll|]. split; [apply Forall_nil_2|].
       do 3 (split; [done|]). by left. }
  pose proof Hn as (Hu & He & _ & _ & _ & Ha & _). rewrite Hair in Ha. apply Forall_cons in Ha as [Hrx Ha].
  apply wp_bind, wp_modify.
  destruct (process_frame_ok (net n) rx rxlen Hu Hrx) as (u & out & call & Hrun & Hu' & Hc & Hf & Hd).
  rewrite Hrun. apply wp_bind, wp_ret, wp_bind, wp_modify.
  set (n1 := set_net u out (set_air (Some (rx, rxlen)) rest n)).
  assert (Hn1 : node_ok n1) by (apply set_net_ok; [by apply set_air_ok|done|by apply frames_fit]).
  assert (Hh1 : happened n (Polled (Some (rx, rxlen)) :: (Handed <$> out)) n1)
    by (apply (happened_trans n [_] (set_air (Some (rx, rxlen)) rest n)); [by apply happened_poll|apply happened_sent]).
  assert (Hp1 : forall n', bus n' = bus n1 -> net n' = net n1 -> eb_ip_csr n' = eb_ip_csr n1 -> air n' = air n1 ->
    sent n' = sent n1 -> log n' = log n1 ->
    (rx_got n' = rx_got n /\ message n' = message n \/ rx_got n' = true /\ heard [Some (rx, rxlen)] (message n')) ->
    polled n n').
  { intros n' E1 E2 E3 E4 E5 E6 E7. eexists. split; [unfold happened in *; rewrite E4, E5, E6; exact Hh1|].
    cbn [polls frames omap list_omap]. fold (polls (Handed <$> out)) (frames (Handed <$> out)).
    rewrite polls_handed, frames_handed, E2, E1, E3. by split_and!. }
  destruct call as [[[] d]|].
  - eapply wp_mono; [apply (dhcp_rx_callback_run d n1 Hn1 Hd)|].
    intros r n' (-> & Hn' & E1 & E2 & E3 & E4 & E5 & El & E6). split_and!; [done|done|]. apply Hp1; try done.
    destruct E6 as [?|(Hg & Hs & Hdp & Hm)]; [by left|right]. split; [done|].
    exists rx, rxlen, (net n), u, out, d. split; [by left|]. done.
  - apply wp_bind. eapply wp_checked; [apply (eb_rx_callback_ok (udp_last_src_mac u) d (eb n)); [done|apply Hu'|done]|].
    intros e He'. apply wp_modify. split_and!; [done|by apply set_eb_ok|]. apply Hp1; try done. by left.
  - apply wp_ret. split_and!; [done|done|]. apply Hp1; try done. by left.
Qed.

Lemma wait_loop_run turns n :
  node_ok n -> rx_got n = false ->
  wp (wait_loop turns) (fun r n' => exists got, r = Ok got /\ node_ok n' /\ polled n n' /\ rx_got n' = got) n.
Proof.
  revert n. induction turns as [|turns IH]; intros n Hn Hg; cbn [wait_loop].
  { apply wp_ret. exists false. auto using polled_refl. }
  apply wp_bind. eapply wp_mono; [by apply udp_service_run|]. intros r n1 (-> & Hn1 & Hp1).
  apply wp_bind, wp_gets. destruct (rx_got n1) eqn:Hg1; [apply wp_ret; by exists true|].
  eapply wp_mono; [by apply IH|]. intros r n2 (got & -> & Hn2 & Hp2 & Hg2). exists got.
  eauto using polled_trans.
Qed.

(** Waiting returns within its turns, and with 1 only for a message heard while it waited. *)
Lemma wait_for_reply_run n :
  node_ok n ->
  wp wait_for_reply
     (fun r n' => exists got evs, r = Ok got /\ node_ok n' /\ happened n evs n' /\
        same_config (net n) (net n') /\ eb_ip_csr n' = eb_ip_csr n /\
        (got = true -> heard (polls evs) (message n'))) n.
Proof.
  intros Hn. unfold wait_for_reply. apply wp_bind, wp_modify.
  eapply wp_mono; [apply wait_loop_run; [|done]; apply set_rx_ok; [done|apply Hn|apply Hn]|].
  intros r n' (got & -> & Hn' & (evs & He & _ & Hc & _ & Hx & Hr) & Hg).
  exists got, evs. do 5 (split; [done|]). intros ->. destruct Hr as [[Hr _]|[_ Hr]]; [|done].
  rewrite Hr in Hg. discriminate.
Qed.

(** ** The DHCP exchange *)

(** A frame that carries [msg] from port 68 of the address 0.0.0.0 to port 67. *)
Definition client_frame (msg f : list Z) : Prop :=
  exists u c trail, my_ip u = 0 /\
    f = udp_headers u DHCP_CLIENT_PORT DHCP_SERVER_PORT (length msg) c ++ msg ++ trail.

Definition discover_message (xid : Z) : list Z :=
  message_bytes chaddr_etherbone xid (common_options chaddr_etherbone DHCP_MSG_DISCOVER).
Definition request_message (xid requested_ip server_id : Z) : list Z :=
  message_bytes chaddr_etherbone xid
    (common_options chaddr_etherbone DHCP_MSG_REQUEST ++ request_options requested_ip server_id).

Lemma chaddr_ok : length chaddr_etherbone = 6%nat /\ Forall is_byte chaddr_etherbone.
Proof. split; [done|]. unfold chaddr_etherbone. bytes. Qed.

Lemma put_message_run build msg n :
  node_ok n -> length msg = DHCP_MIN_PACKET_LEN -> Forall is_byte msg ->
  (forall buf, (DHCP_MIN_PACKET_LEN <= length buf)%nat ->
     build buf = Some (msg ++ drop DHCP_MIN_PACKET_LEN buf, DHCP_MIN_PACKET_LEN)) ->
  wp (put_message build)
     (fun r n' => exists u hdr rest, r = Ok (length msg) /\ n' = set_net u [] n /\ udp_ok u /\
        my_ip u = my_ip (net n) /\ tx_slots u !! txslot u = Some (hdr ++ msg ++ rest) /\
        length hdr = payload_offset) n.
Proof.
  intros Hn Hlen Hb Hbuild. pose proof Hn as (Hu & _). unfold put_message.
  apply wp_bind, wp_gets. destruct (tx_slot _ Hu) as (buf & Hslot & [Hl Hbuf]). rewrite Hslot.
  assert (Hk : (DHCP_MIN_PACKET_LEN = 300 /\ ETHMAC_SLOT_SIZE = 2048 /\ payload_offset = 42)%nat) by done.
  apply wp_bind, wp_ret. rewrite Hbuild by (rewrite length_drop; lia). apply wp_bind, wp_ret.
  rewrite drop_drop. set (buf1 := take payload_offset buf ++ msg ++ drop (payload_offset + DHCP_MIN_PACKET_LEN) buf).
  assert (Hbuf1 : slot_ok buf1).
  { split; unfold buf1; [rewrite !length_app, length_take, length_drop; lia|].
    repeat apply Forall_app_2; [by apply Forall_take|done|by apply Forall_drop]. }
  destruct (stored_ok _ _ Hu Hbuf1) as [Hu1 Hl1]. apply wp_bind, wp_modify, wp_ret.
  eexists _, _, _. split; [by rewrite Hlen|]. split; [done|]. split; [exact Hu1|]. split; [done|].
  split; [exact Hl1|]. rewrite length_take. lia.
Qed.

Lemma dhcp_send_run hdr msg rest n :
  node_ok n -> (length msg <= max_payload)%nat ->
  tx_slots (net n) !! txslot (net n) = Some (hdr ++ msg ++ rest) -> length hdr = payload_offset ->
  wp (dhcp_send (length msg))
     (fun r n' => exists ok out, r = Ok ok /\ node_ok n' /\ happened n (Handed <$> out) n' /\
        (ok = true -> exists f, out = [f] /\ (my_ip (net n) = 0 -> client_frame msg f))) n.
Proof.
  intros Hn Hlen Hslot Hhdr. pose proof Hn as (Hu & _). unfold dhcp_send. apply wp_bind, wp_gets.
  destruct (forallb (fun b => b =? 0) (cached_mac (net n))) eqn:Hz.
  { unfold udp_send. rewrite Hz. apply wp_bind, wp_ret, wp_bind, wp_modify, wp_ret. exists false, [].
    split; [done|]. split; [by apply put_net_ok|]. split; [apply happened_config|]. done. }
  destruct (udp_send_run (net n) DHCP_CLIENT_PORT DHCP_SERVER_PORT hdr msg rest Hu Hz Hslot Hhdr Hlen)
    as (buf' & trail & Hsend & Hbuf' & Hroom).
  rewrite Hsend. apply wp_bind, wp_ret, wp_bind, wp_modify, wp_ret.
  eexists true, _. split; [done|]. split.
  { apply set_net_ok; [done|by apply with_tx_ok|]. apply Forall_singleton.
    rewrite !length_app, headers_length by apply Hu. lia. }
  split; [apply happened_sent|]. intros _. eexists. split; [done|]. intros Hip. by eexists (net n), _, trail.
Qed.

Lemma send_message_run build msg n :
  node_ok n -> my_ip (net n) = 0 -> length msg = DHCP_MIN_PACKET_LEN -> Forall is_byte msg ->
  (forall buf, (DHCP_MIN_PACKET_LEN <= length buf)%nat ->
     build buf = Some (msg ++ drop DHCP_MIN_PACKET_LEN buf, DHCP_MIN_PACKET_LEN)) ->
  wp (send_message build)
     (fun r n' => exists ok out, r = Ok ok /\ node_ok n' /\ happened n (Handed <$> out) n' /\
        (ok = true -> exists f, out = [f] /\ client_frame msg f)) n.
Proof.
  intros Hn Hip Hlen Hb Hbuild. apply wp_bind. eapply wp_mono; [by apply (put_message_run build msg)|].
  intros r n1 (u & hdr & rest & -> & -> & Hu & Hip1 & Hslot & Hhdr).
  eapply wp_mono; [apply (dhcp_send_run hdr msg rest); [by apply put_net_ok| |done|done]|].
  { rewrite Hlen. apply Nat.leb_le. reflexivity. }
  intros r n2 (ok & out & -> & Hn2 & He2 & Hf). exists ok, out. do 2 (split; [done|]).
  split; [exact (happened_trans n [] _ _ _ (happened_config u n) He2)|]. intros Hok. destruct (Hf Hok) as (f & -> & Hcf). exists f. split; [done|]. apply Hcf.
  cbn. by rewrite Hip1.
Qed.

Lemma udp_set_ip_ok ip u : udp_ok u -> word32 ip -> udp_ok (udp_set_ip ip u).
Proof. intros (H1 & H2 & H3 & _ & H5) Hip. exact (conj H1 (conj H2 (conj H3 (conj Hip H5)))). Qed.

Lemma udp_set_callback_ok c u : udp_ok u -> udp_ok (udp_set_callback c u).
Proof. done. Qed.

(** A lease and where it comes from: among the events between [n] and [n'], in this order, the
    DISCOVER is sent, an offer for its transaction is heard, the REQUEST for the offered address is
    sent, and an acknowledgement of that address for the same transaction is heard. *)
Definition acquired (n n' : node B) (leased secs : Z) : Prop :=
  exists xid offer ack o a e0 e1 e2 f1 f2,
    happened n (e0 ++ [Handed f1] ++ e1 ++ [Handed f2] ++ e2) n' /\
    client_frame (discover_message xid) f1 /\
    heard (polls e1) offer /\ dhcp_parse_offer offer xid = Some (Some o) /\
    client_frame (request_message xid (ip o) (server o)) f2 /\
    heard (polls e2) ack /\ dhcp_parse_ack ack xid = Some (Some a) /\
    leased = ip o /\ leased = ip a /\ word32 leased /\ secs = (if lease_secs a =? 0 then 3600 else lease_secs a).

(** What one attempt, or several, do to the state. *)
Definition attempted (n : node B) (r : outcome (option (Z * Z))) (n' : node B) : Prop :=
  exists res evs, r = Ok res /\ node_ok n' /\ happened n evs n' /\
    from_option (fun '(leased, secs) => acquired n n' leased secs) True res.

Lemma attempted_refused n n' evs : node_ok n' -> happened n evs n' -> attempted n (Ok None) n'.
Proof. intros. by exists None, evs. Qed.

Lemma parse_checked msg xid want (Q : outcome (option lease_reply) -> node B -> Prop) n :
  Forall is_byte msg ->
  (forall o, parse_reply msg xid want = Some o -> Q (Ok o) n) -> wp (checked (parse_reply msg xid want)) Q n.
Proof.
  intros Hb HQ. destruct (parse_reply_spec msg xid want Hb) as (l & _ & _ & Hrun).
  rewrite Hrun in HQ |- *. apply wp_ret. auto.
Qed.

Lemma parse_reply_word32 msg xid want o :
  Forall is_byte msg -> parse_reply msg xid want = Some (Some o) -> word32 (ip o).
Proof.
  intros Hb. unfold parse_reply. destruct (Nat.ltb_spec (length msg) DHCP_OPTIONS_OFFSET) as [|Hlen]; [done|].
  assert (Hip : safe (get32be msg 16) word32).
  { apply (safe_get32be (length msg)); [done| |done]. etrans; [|exact Hlen]. by apply Nat.leb_le. }
  destruct Hip as (y & Hy & Hw).
  intros Hrun. repeat (case_match || (apply bind_Some in Hrun as (? & ? & Hrun))); simplify_eq. done.
Qed.

Lemma node_message_bytes n : node_ok n -> Forall is_byte (message n).
Proof. intros (_ & _ & [_ Hb] & _). by apply Forall_take. Qed.

(** Setting the address, sending a message and waiting for a reply: the frame sent comes before
    the message heard. *)
Definition exchange (build : list Z -> option (list Z * nat)) : M (node B) bool :=
  on_net (udp_set_ip 0) ;;;
  let! ok := send_message build in
  if negb ok then ret false
  else on_net (udp_set_ip 0xffffffff) ;;; wait_for_reply.

Lemma exchange_run build msg n :
  node_ok n -> length msg = DHCP_MIN_PACKET_LEN -> Forall is_byte msg ->
  (forall buf, (DHCP_MIN_PACKET_LEN <= length buf)%nat ->
     build buf = Some (msg ++ drop DHCP_MIN_PACKET_LEN buf, DHCP_MIN_PACKET_LEN)) ->
  wp (exchange build)
     (fun r n' => exists got evs, r = Ok got /\ node_ok n' /\ happened n evs n' /\
        (got = true -> exists f e, evs = [Handed f] ++ e /\ client_frame msg f /\ heard (polls e) (message n'))) n.
Proof.
  intros Hn Hlen Hb Hbuild. unfold exchange. apply wp_bind, wp_modify.
  set (n1 := set_net _ _ _). assert (Hn1 : node_ok n1).
  { apply put_net_ok; [done|]. apply udp_set_ip_ok; [apply Hn|]. unfold word32. lia. }
  apply wp_bind. eapply wp_mono; [by apply (send_message_run build msg n1)|].
  intros r n2 (ok & out & -> & Hn2 & He2 & Hf).
  assert (H02 : happened n (Handed <$> out) n2) by exact (happened_trans n [] _ _ _ (happened_config _ n) He2).
  destruct ok; cbn [negb]; [|apply wp_ret; by exists false, (Handed <$> out)].
  destruct (Hf eq_refl) as (f & -> & Hcf). apply wp_bind, wp_modify.
  set (n3 := set_net _ _ n2). assert (Hn3 : node_ok n3).
  { apply put_net_ok; [done|]. apply udp_set_ip_ok; [apply Hn2|]. unfold word32. lia. }
  eapply wp_mono; [by apply wait_for_reply_run|].
  intros r n4 (got & evs & -> & Hn4 & He4 & _ & _ & Hh). exists got, ([Handed f] ++ evs).
  do 2 (split; [done|]).
  split; [exact (happened_trans n _ n2 _ n4 H02 (happened_trans n2 [] n3 _ n4 (happened_config _ n2) He4))|].
  intros Hg. exists f, evs. split; [done|]. split; [done|]. by apply Hh.
Qed.

(** [dhcp_attempt] is two exchanges. *)
Lemma dhcp_attempt_exchanges n :
  dhcp_attempt n =
  (let! xid := next_xid in
   let! got := exchange (fun buf => dhcp_build_discover buf chaddr_etherbone xid) in
   if negb got then ret None
   else
     let! msg := rx_message in
     let! offer := checked (dhcp_parse_offer msg xid) in
     match offer with
     | None => ret None
     | Some o =>
         let! got := exchange (fun buf => dhcp_build_request buf chaddr_etherbone xid (ip o) (server o)) in
         if negb got then ret None
         else
           let! msg := rx_message in
           let! ack := checked (dhcp_parse_ack msg xid) in
           match ack with
           | None => ret None
           | Some a =>
               if negb (ip a =? ip o) then ret None
               else ret (Some (ip a, if lease_secs a =? 0 then 3600 else lease_secs a))
           end
     end) n.
Proof.
  assert (Hex : forall {A} build (k : bool -> M (node B) (option A)) (n : node B),
    (forall w, k false w = ret None w) ->
    (on_net (udp_set_ip 0) ;;;
     let! ok := send_message build in
     if negb ok then ret None
     else on_net (udp_set_ip 0xffffffff) ;;; let! got := wait_for_reply in k got) n =
    (let! got := exchange build in k got) n).
  { intros A build k m Hk. unfold exchange, bind, on_net, modify.
    destruct (send_message build _) as [[[]|e|] w]; [done| |done|done]. cbn. by rewrite Hk. }
  unfold dhcp_attempt. unfold bind at 1. symmetry. unfold bind at 1.
  destruct (next_xid n) as [[xid|e|] n1]; [|done|done]. symmetry. rewrite Hex by done.
  unfold bind at 1. symmetry. unfold bind at 1.
  destruct (exchange _ n1) as [[got|e|] n2]; [|done|done]. symmetry. destruct got; [|done]. cbn [negb].
  unfold bind at 1. symmetry. unfold bind at 1. destruct (rx_message n2) as [[msg|e|] n3]; [|done|done]. symmetry.
  unfold bind at 1. symmetry. unfold bind at 1.
  destruct (checked (dhcp_parse_offer msg xid) n3) as [[[o|]|e|] n4]; [|done|done|done]. symmetry. by rewrite Hex.
Qed.

(** The two messages fit the builders' lemmas. *)
Lemma discover_message_ok xid :
  length (discover_message xid) = DHCP_MIN_PACKET_LEN /\ Forall is_byte (discover_message xid) /\
  forall buf, (DHCP_MIN_PACKET_LEN <= length buf)%nat ->
    dhcp_build_discover buf chaddr_etherbone xid =
    Some (discover_message xid ++ drop DHCP_MIN_PACKET_LEN buf, DHCP_MIN_PACKET_LEN).
Proof.
  destruct chaddr_ok as [Hc Hcb]. unfold discover_message.
  split; [apply message_length; [exact Hc|apply Nat.ltb_lt; reflexivity]|]. split.
  - apply message_bytes_ok; [done|].
    pose proof (client_options_ok chaddr_etherbone 0 0 DHCP_MSG_DISCOVER Hc Hcb ltac:(by split)) as Hall.
    by apply Forall_app in Hall as [Hall _].
  - intros buf Hbuf. apply build_discover_run; [exact Hbuf|exact Hc].
Qed.

Lemma request_message_ok xid requested_ip server_id :
  length (request_message xid requested_ip server_id) = DHCP_MIN_PACKET_LEN /\
  Forall is_byte (request_message xid requested_ip server_id) /\
  forall buf, (DHCP_MIN_PACKET_LEN <= length buf)%nat ->
    dhcp_build_request buf chaddr_etherbone xid requested_ip server_id =
    Some (request_message xid requested_ip server_id ++ drop DHCP_MIN_PACKET_LEN buf, DHCP_MIN_PACKET_LEN).
Proof.
  destruct chaddr_ok as [Hc Hcb]. unfold request_message.
  split; [apply message_length; [exact Hc|apply Nat.ltb_lt; reflexivity]|]. split.
  - apply message_bytes_ok; [done|]. apply client_options_ok; [done|done|by split].
  - intros buf Hbuf. apply build_request_run; [exact Hbuf|exact Hc].
Qed.

Lemma next_xid_run n :
  node_ok n ->
  wp next_xid (fun r n' => exists xid, r = Ok xid /\ node_ok n' /\ happened n [] n') n.
Proof.
  intros Hn. unfold next_xid. apply wp_bind, wp_get, wp_bind, wp_modify, wp_ret. eexists. split; [done|].
  split; [|by apply happened_quiet]. apply set_seed_ok; [done|]. unfold word32. apply Z.mod_pos_bound. lia.
Qed.

Lemma dhcp_attempt_run n : node_ok n -> wp dhcp_attempt (attempted n) n.
Proof.
  intros Hn. unfold wp. rewrite dhcp_attempt_exchanges.
  match goal with |- attempted n (fst (?m n)) _ => change (wp m (attempted n) n) end.
  apply wp_bind. eapply wp_mono; [by apply next_xid_run|]. intros r n1 (xid & -> & Hn1 & H1).
  destruct (discover_message_ok xid) as (Hdl & Hdb & Hdr).
  apply wp_bind. eapply wp_mono; [by eapply exchange_run|].
  intros r n2 (got & ev1 & -> & Hn2 & H12 & Hg1). pose proof (happened_trans _ _ _ _ _ H1 H12) as H2.
  destruct got; cbn [negb]; [|apply wp_ret; by eapply attempted_refused].
  destruct (Hg1 eq_refl) as (f1 & e1 & -> & Hf1 & Hoffer). apply wp_bind, wp_gets. apply wp_bind.
  apply parse_checked; [by apply node_message_bytes|]. intros [o|] Ho; [|apply wp_ret; by eapply attempted_refused].
  destruct (request_message_ok xid (ip o) (server o)) as (Hrl & Hrb & Hrr).
  apply wp_bind. eapply wp_mono; [by eapply exchange_run|].
  intros r n3 (got & ev2 & -> & Hn3 & H23 & Hg2). pose proof (happened_trans _ _ _ _ _ H2 H23) as H3.
  destruct got; cbn [negb]; [|apply wp_ret; by eapply attempted_refused].
  destruct (Hg2 eq_refl) as (f2 & e2 & -> & Hf2 & Hack). apply wp_bind, wp_gets. apply wp_bind.
  apply parse_checked; [by apply node_message_bytes|]. intros [a|] Hpa; [|apply wp_ret; by eapply attempted_refused].
  destruct (Z.eqb_spec (ip a) (ip o)) as [Hip|]; cbn [negb]; apply wp_ret; [|by eapply attempted_refused].
  eexists _, _. do 2 (split; [done|]). split; [exact H3|].
  exists xid, (message n2), (message n3), o, a, [], e1, e2, f1, f2. rewrite <- (assoc_L (++)) in H3. split; [exact H3|].
  pose proof (parse_reply_word32 _ _ _ _ (node_message_bytes n3 Hn3) Hpa) as Hw. by repeat (split; [done|]).
Qed.

(** A lease of a later attempt, after what an earlier one did. *)
Lemma acquired_later n n1 n2 evs leased secs :
  happened n evs n1 -> acquired n1 n2 leased secs -> acquired n n2 leased secs.
Proof.
  intros H1 (xid & offer & ack & o & a & e0 & e1 & e2 & f1 & f2 & H2 & Hrest).
  exists xid, offer, ack, o, a, (evs ++ e0), e1, e2, f1, f2. split; [|exact Hrest].
  rewrite <- (assoc_L (++)). by eapply happened_trans.
Qed.

Lemma dhcp_attempts_run tries n : node_ok n -> wp (dhcp_attempts tries) (attempted n) n.
Proof.
  revert n. induction tries as [|tries IH]; intros n Hn; cbn [dhcp_attempts].
  { apply wp_ret. apply (attempted_refused n n []); [done|apply happened_refl]. }
  apply wp_bind. eapply wp_mono; [by apply dhcp_attempt_run|].
  intros r n1 (res & evs & -> & Hn1 & H1 & Hres). destruct res as [l|].
  { apply wp_ret. by exists (Some l), evs. }
  eapply wp_mono; [by apply IH|]. intros r n2 (res & evs2 & -> & Hn2 & H2 & Hres2).
  exists res, (evs ++ evs2). do 2 (split; [done|]). split; [by eapply happened_trans|].
  destruct res as [[leased secs]|]; [|done]. by eapply acquired_later.
Qed.

(** Time passed: polls were made and frames sent. *)
Definition later n n' : Prop := exists evs, happened n evs n'.

Lemma later_refl n : later n n.
Proof. exists []. apply happened_refl. Qed.

Lemma later_trans n1 n2 n3 : later n1 n2 -> later n2 n3 -> later n1 n3.
Proof. intros [e1 H1] [e2 H2]. exists (e1 ++ e2). by eapply happened_trans. Qed.

Lemma acquired_after n n1 n2 leased secs : later n n1 -> acquired n1 n2 leased secs -> acquired n n2 leased secs.
Proof. intros [evs H1]. by eapply acquired_later. Qed.

(** Writing the driver's configuration is not seen in the polls and the frames. *)
Lemma acquired_config n n' u leased secs : acquired n n' leased secs -> acquired n (set_net u [] n') leased secs.
Proof.
  intros (xid & offer & ack & o & a & e0 & e1 & e2 & f1 & f2 & H1 & Hrest).
  exists xid, offer, ack, o, a, e0, e1, e2, f1, f2. split; [|exact Hrest].
  pose proof (happened_trans _ _ _ _ _ H1 (happened_config u n')) as H2. by rewrite app_nil_r in H2.
Qed.

Lemma acquired_secs n n' leased secs : acquired n n' leased secs -> secs <> 0 /\ word32 leased.
Proof.
  intros (xid & offer & ack & o & a & e0 & e1 & e2 & f1 & f2 & _ & _ & _ & _ & _ & _ & _ & _ & _ & Hw & ->).
  by destruct (Z.eqb_spec (lease_secs a) 0).
Qed.

Lemma dhcp_run_run n :
  node_ok n ->
  wp dhcp_run (fun r n' => exists res, r = Ok res /\ node_ok n' /\ later n n' /\ rx_callback (net n') = None /\
    from_option (fun '(leased, secs) => acquired n n' leased secs) True res) n.
Proof.
  intros Hn. unfold dhcp_run. apply wp_bind, wp_modify. set (n1 := set_net _ _ n).
  assert (Hn1 : node_ok n1) by (apply put_net_ok; [done|apply Hn]).
  assert (H1 : later n n1) by (exists []; apply happened_config).
  apply wp_bind. eapply wp_mono; [by apply dhcp_attempts_run|].
  intros r n2 (res & evs & -> & Hn2 & H2 & Hres). apply wp_bind, wp_modify, wp_ret.
  exists res. split; [done|]. split; [apply put_net_ok; [done|apply Hn2]|]. split.
  { apply (later_trans _ _ _ H1), (later_trans _ n2); [by exists evs|exists []; apply happened_config]. }
  split; [done|]. destruct res as [[leased secs]|]; [|done].
  by apply acquired_config, (acquired_after _ n1).
Qed.

End MainProofs.

(** C13: The DHCP client: from any state the invariant holds in, and whatever arrives, [dhcp_run] returns
    within its tries without an access outside a buffer, keeps the invariant and takes its
    callback out.  When it reports a lease, it sent a DISCOVER from 0.0.0.0, then heard an OFFER
    for that transaction, then sent a REQUEST for the offered address to the offering server, then
    heard an ACK of that transaction for the same address; the lease time is the one of the ACK, or
    3600 when it has none, and never 0. *)
Theorem dhcp_run_lease {B} `{Bus B} (n : node B) :
  node_ok n ->
  exists res n', dhcp_run n = (Ok res, n') /\ node_ok n' /\ rx_callback (net n') = None /\
    match res with
    | None => True
    | Some (leased, secs) => secs <> 0 /\ acquired n n' leased secs
    end.
Proof.
  intros Hn. pose proof (dhcp_run_run n Hn) as Hrun. unfold wp in Hrun.
  destruct (dhcp_run n) as [r n']. destruct Hrun as (res & Hr & Hn' & _ & Hcb & Hres). cbn in Hr. subst r.
  exists res, n'. do 3 (split; [done|]). destruct res as [[leased secs]|]; [|done].
  split; [|done]. by eapply acquired_secs.
Qed.

(** ** What polling and serving keep *)

Section ServeProofs.
Context {B : Type} `{Bus B}.
Implicit Types n : node B.

(** [steady n n']: polls were made and frames that fit a slot were sent; the board's addresses,
    its callbacks and the address register are as they were. *)
Definition steady n n' : Prop :=
  exists evs, happened n evs n' /\ fits (frames evs) /\
    my_mac (net n') = my_mac (net n) /\ my_ip (net n') = my_ip (net n) /\
    rx_callback (net n') = rx_callback (net n) /\ bx_callback (net n') = bx_callback (net n) /\
    eb_ip_csr n' = eb_ip_csr n.

Lemma steady_refl n : steady n n.
Proof. exists []. split; [apply happened_refl|]. split; [apply Forall_nil_2|done]. Qed.

Lemma steady_trans n1 n2 n3 : steady n1 n2 -> steady n2 n3 -> steady n1 n3.
Proof.
  intros (e1 & H1 & F1 & C1 & C2 & C3 & C4 & C5) (e2 & H2 & F2 & D1 & D2 & D3 & D4 & D5).
  exists (e1 ++ e2). split; [by eapply happened_trans|]. rewrite frames_app. split; [by apply Forall_app_2|].
  by split_and!; congruence.
Qed.

Lemma polled_steady n n' : polled n n' -> steady n n'.
Proof.
  intros (evs & He & Hf & (C1 & C2 & _ & C4 & C5) & _ & Hx & _). exists evs. split; [done|].
  split; [by apply frames_fit|]. by split_and!.
Qed.

(** [keeps m]: from a state that satisfies the invariant, [m] returns, in such a state, and steadily. *)
Definition keeps {A} (m : M (node B) A) : Prop :=
  forall n, node_ok n -> wp m (fun r n' => (exists a, r = Ok a) /\ node_ok n' /\ steady n n') n.

Lemma keeps_ret {A} (a : A) : keeps (ret a).
Proof. intros n Hn. apply wp_ret. eauto using steady_refl. Qed.

Lemma keeps_gets {A} (f : node B -> A) : keeps (gets f).
Proof. intros n Hn. apply wp_gets. eauto using steady_refl. Qed.

Lemma keeps_bind {A C} (m : M (node B) A) (k : A -> M (node B) C) :
  keeps m -> (forall a, keeps (k a)) -> keeps (bind m k).
Proof.
  intros Hm Hk n Hn. apply wp_bind. eapply wp_mono; [by apply Hm|]. intros r n1 ([a ->] & Hn1 & H1).
  eapply wp_mono; [by apply Hk|]. intros r n2 (Hr & Hn2 & H2). eauto using steady_trans.
Qed.

Lemma keeps_if {A} (c : bool) (m1 m2 : M (node B) A) : keeps m1 -> keeps m2 -> keeps (if c then m1 else m2).
Proof. by destruct c. Qed.

Lemma keeps_service : keeps udp_service.
Proof.
  intros n Hn. eapply wp_mono; [by apply udp_service_run|]. intros r n' (-> & Hn' & Hp).
  eauto using polled_steady.
Qed.

Lemma answers_fit u e reply out : udp_ok u -> eb_ok e -> answers u e reply out -> fits out.
Proof.
  unfold answers. intros Hu He Hout. destruct (_ || _); [subst out; apply Forall_nil_2|].
  destruct Hout as (trail & -> & Hroom). apply Forall_singleton. unfold reply_frame.
  rewrite !length_app, headers_length; [lia|apply He|apply Hu].
Qed.

Lemma serve_pending_run n :
  node_ok n ->
  wp serve_pending (fun r n' => r = Ok tt /\ node_ok n' /\ steady n n' /\ eb_pending (eb n') = false) n.
Proof.
  intros Hn. pose proof Hn as (Hu & He & _). unfold serve_pending. apply wp_bind, wp_get.
  destruct (eb_pending (eb n)) eqn:Hp.
  - destruct (eb_serve_pending_run (bus n) (net n) (eb n) He Hu Hp)
      as (reply & b' & u' & e' & out & _ & _ & _ & Hrun & Hu' & (C1 & C2 & _ & C4 & C5) & He' & Hp' & Hout).
    pose proof (answers_fit _ _ _ _ Hu He Hout) as Hf.
    rewrite Hrun. apply wp_bind, wp_ret, wp_modify. split; [done|]. split; [by apply served_ok|].
    split; [|done]. exists (Handed <$> out). unfold happened. rewrite polls_handed, frames_handed. by split_and!.
  - unfold eb_serve_pending. rewrite Hp. apply wp_bind, wp_ret, wp_modify.
    assert (Hf : fits []) by apply Forall_nil_2. split; [done|]. split; [by apply served_ok|].
    split; [|done]. exists []. split; [|by split_and!]. split; [done|]. by split.
Qed.

Lemma keeps_serve_pending : keeps serve_pending.
Proof. intros n Hn. eapply wp_mono; [by apply serve_pending_run|]. intros r n' (-> & ? & ? & _). eauto. Qed.

Lemma serve_loop_run turns n :
  node_ok n ->
  wp (serve_loop turns)
     (fun r n' => r = Ok tt /\ node_ok n' /\ steady n n' /\ (0 < turns -> eb_pending (eb n') = false)%nat) n.
Proof.
  revert n. induction turns as [|turns IH]; intros n Hn; cbn [serve_loop].
  { apply wp_ret. split; [done|]. split; [done|]. split; [apply steady_refl|lia]. }
  apply wp_bind. eapply wp_mono; [by apply keeps_service|]. intros r n1 ([? ->] & Hn1 & H1).
  apply wp_bind. eapply wp_mono; [by apply serve_pending_run|]. intros r n2 (-> & Hn2 & H2 & Hp2).
  eapply wp_mono; [by apply wp_self, IH|]. intros r n3 [(-> & Hn3 & H3 & Hp3) Hfinal].
  split; [done|]. split; [done|]. split; [eauto using steady_trans|]. intros _.
  destruct turns; [by rewrite Hfinal|]. apply Hp3. lia.
Qed.

End ServeProofs.

Create HintDb keeps.
#[export] Hint Resolve keeps_ret keeps_gets keeps_bind keeps_if keeps_service keeps_serve_pending : keeps.

(** The serve loop is safe on any traffic: whatever frames the MAC reports, of whatever length, the
    loop of [main] never accesses memory outside a buffer, never sends a frame larger than a
    slot, keeps the invariant, its address and its callbacks, and leaves no request pending. *)
Theorem serve_loop_safe {B} `{Bus B} turns (n : node B) :
  node_ok n -> (0 < turns)%nat ->
  exists n' out, serve_loop turns n = (Ok tt, n') /\ node_ok n' /\ sent n' = sent n ++ out /\
    fits out /\ eb_pending (eb n') = false /\
    my_ip (net n') = my_ip (net n) /\ rx_callback (net n') = rx_callback (net n) /\
    bx_callback (net n') = bx_callback (net n).
Proof.
  intros Hn Ht. pose proof (serve_loop_run turns n Hn) as Hrun. unfold wp in Hrun.
  destruct (serve_loop turns n) as [r n']. cbn [fst snd] in Hrun.
  destruct Hrun as (-> & Hn' & (evs & (_ & _ & Hs) & Hf & _ & H1 & H2 & H3 & _) & Hp). exists n', (frames evs).
  by split_and!; auto.
Qed.

(** A requester: its addresses, and the board's as its peer. *)
Definition client_ok (client : udp_state) : Prop :=
  mac_ok (cached_mac client) /\ mac_ok (my_mac client) /\ word32 (my_ip client) /\ word32 (cached_ip client) /\
  forallb (fun b => b =? 0) (my_mac client) = false.

(** A board that serves: nothing pending, and both callbacks stash. *)
Definition serving {B} (n : node B) : Prop :=
  node_ok n /\ eb_pending (eb n) = false /\ rx_callback (net n) = Some eb_rx /\ bx_callback (net n) = Some eb_rx.

Section Answer.
Context {B : Type} `{Bus B}.
Implicit Types n : node B.

(** Receiving a request stashes it with the requester's address, ports and MAC. *)
Lemma request_stashed n client sport dport request c tail rxlen rest :
  serving n -> client_ok client -> 0 <= sport < 2 ^ 16 -> 0 <= dport < 2 ^ 16 ->
  (length request <= EB_BUF_LEN)%nat -> take 2 request = [0x4e; 0x6f] ->
  addressed (net n) (cached_ip client) = true ->
  air n = Some (udp_headers client sport dport (length request) c ++ request ++ tail, rxlen) :: rest ->
  (payload_offset + length request <= rxlen <= ETHMAC_SLOT_SIZE)%nat ->
  exists e, udp_service n = (Ok tt, set_eb e (set_net (record_src_mac (my_mac client) (net n)) []
      (set_air (Some (udp_headers client sport dport (length request) c ++ request ++ tail, rxlen)) rest n))) /\
    eb_pending e = true /\ eb_src_ip e = my_ip client /\ eb_src_port e = sport /\ eb_dst_port e = dport /\
    eb_src_mac e = my_mac client /\ take (eb_req_len e) (eb_req e) = request /\ eb_ok e.
Proof.
  intros (Hn & Hp & Hrx & Hbx) (C1 & C2 & C3 & C4 & _) Hs Hd Hlen Hmagic Haddr Hair Hrxlen.
  pose proof Hn as (_ & He & _ & _ & _ & Ha & _). rewrite Hair in Ha. apply Forall_cons in Ha as [[_ Hb] _].
  cbn [fst] in Hb. apply Forall_app in Hb as [_ Hb]. apply Forall_app in Hb as [Hb _].
  assert (Hk : (EB_BUF_LEN <= max_payload)%nat) by (apply Nat.leb_le; reflexivity).
  unfold udp_service. unfold bind at 1, get. rewrite Hair. unfold bind at 1, modify at 1.
  rewrite process_udp_frame by (done || lia).
  replace (callback_for (net n) (cached_ip client)) with (Some eb_rx)
    by (unfold callback_for; rewrite Hrx, Hbx; by destruct (_ =? _)).
  set (d := Datagram (my_ip client) sport dport request).
  destruct (eb_rx_callback_run (my_mac client) d (eb n) He C2 Hb) as (e & Hcall & Hspec).
  assert (Hst : stashes (eb n) d = true).
  { unfold stashes. rewrite Hp. cbn [negb andb data d]. rewrite (proj2 (Nat.leb_le _ _)) by done.
    destruct request as [|m0 [|m1 request]]; [done|done|]. by injection Hmagic as -> ->. }
  rewrite Hst in Hspec. destruct Hspec as (E1 & E2 & E3 & E4 & E5 & E6 & E7 & E8).
  exists e. split.
  { unfold checked, bind, ret, modify. cbn [fmap option_fmap option_map udp_last_src_mac record_src_mac]. fold d.
    by rewrite Hcall. }
  do 5 (split; [done|]). split; [rewrite E6, E7; apply take_app_length|].
  destruct (eb_rx_callback_ok (my_mac client) d (eb n) He C2) as (e' & Hcall' & Hok).
  - refine (conj C3 (conj Hs (conj Hd (conj Hb _)))). unfold d. cbn [data]. lia.
  - rewrite Hcall in Hcall'. by injection Hcall' as <-.
Qed.

(** The frame of a reply at the requester. *)
Lemma reply_received u e reply trail r stale :
  udp_ok u -> eb_ok e -> (length reply <= max_payload)%nat ->
  (payload_offset + length reply + length trail <= ETHMAC_SLOT_SIZE)%nat -> my_ip r = eb_src_ip e ->
  process_frame r (reply_frame u e reply trail ++ stale) (length (reply_frame u e reply trail)) =
  Some (record_src_mac (my_mac u) r, [],
        (fun cb => (cb, Datagram (my_ip u) (eb_dst_port e) (eb_src_port e) reply)) <$> callback_for r (my_ip r)).
Proof.
  intros (Hy & _ & _ & Hip & _) (E1 & E2 & E3 & E4 & _) Hlen Hroom Hr. unfold reply_frame. cbv zeta.
  rewrite <- !(assoc_L (++)).
  pose proof (process_udp_frame (udp_set_peer (eb_src_ip e) (eb_src_mac e) u) r (eb_dst_port e) (eb_src_port e) reply
    (udp_checksum_of (udp_set_peer (eb_src_ip e) (eb_src_mac e) u) (eb_dst_port e) (eb_src_port e) reply)
    (trail ++ stale)) as Hrun.
  cbn [cached_mac my_mac my_ip cached_ip udp_set_peer] in Hrun. rewrite Hr. apply Hrun; try done.
  - rewrite !length_app, headers_length; [lia|apply E4|apply Hy].
  - unfold addressed. by rewrite Hr, Z.eqb_refl.
Qed.

(** One turn of the serve loop when the next frame is a request. *)
Lemma request_turn n client sport dport request c tail rxlen rest :
  serving n -> client_ok client -> 0 <= sport < 2 ^ 16 -> 0 <= dport < 2 ^ 16 ->
  (length request <= EB_BUF_LEN)%nat -> take 2 request = [0x4e; 0x6f] ->
  addressed (net n) (cached_ip client) = true ->
  air n = Some (udp_headers client sport dport (length request) c ++ request ++ tail, rxlen) :: rest ->
  (payload_offset + length request <= rxlen <= ETHMAC_SLOT_SIZE)%nat ->
  exists reply n' e out, serve_loop 1 n = (Ok tt, n') /\ eb8008_handle request (bus n) = (Ok reply, bus n') /\
    serving n' /\ air n' = rest /\ sent n' = sent n ++ out /\ (length reply <= length request + 4)%nat /\
    eb_ok e /\ eb_src_ip e = my_ip client /\ eb_src_port e = sport /\ eb_dst_port e = dport /\
    eb_src_mac e = my_mac client /\ answers (record_src_mac (my_mac client) (net n)) e reply out.
Proof.
  intros Hn Hc Hs Hd Hlen Hmagic Haddr Hair Hrxlen.
  destruct (request_stashed n client sport dport request c tail rxlen rest Hn Hc Hs Hd Hlen Hmagic Haddr Hair Hrxlen)
    as (e & Hservice & E1 & E2 & E3 & E4 & E5 & E6 & He).
  destruct Hn as (Hn & _ & Hcb & Hbx). pose proof Hn as (Hu & _ & _ & _ & _ & Ha & _).
  rewrite Hair in Ha. apply Forall_cons in Ha as [_ Ha].
  set (u := record_src_mac (my_mac client) (net n)) in *.
  assert (Hu1 : udp_ok u) by (apply record_src_mac_ok; [done|apply Hc]).
  destruct (eb_serve_pending_run (bus n) u e He Hu1 E1)
    as (reply & b' & u' & e' & out & Hh & Hrl & _ & Hrun & Hu' & (I1 & I2 & _ & I4 & I5) & He' & Hp' & Hout).
  assert (Hreq : length request = eb_req_len e).
  { rewrite <- E6, length_take. destruct He as (_ & _ & _ & _ & [Hl _] & He & _). lia. }
  rewrite E6 in Hh. exists reply. eexists _, e, out. split.
  { cbn [serve_loop]. unfold bind at 1. rewrite Hservice. unfold serve_pending, bind, get, checked. cbn [bus net eb set_eb set_net set_air].
    fold u. rewrite Hrun. reflexivity. }
  set (n1 := set_eb e (set_net u [] (set_air (Some (udp_headers client sport dport (length request) c ++ request ++ tail, rxlen)) rest n))).
  cbn. split; [exact Hh|]. split.
  { split; [apply (served_ok b' u' e' out n1); [|done|done|exact (answers_fit _ _ _ _ Hu1 He Hout)]|].
    { by apply set_eb_ok, He; apply put_net_ok, Hu1; apply set_air_ok. }
    split; [exact Hp'|]. cbn [net]. rewrite I4, I5. by split. }
  rewrite app_nil_r, Hreq. do 8 (split; [done|]). exact Hout.
Qed.

(** The one frame of a reply that is not empty, and who receives it. *)
Lemma answer_delivered u e reply out :
  udp_ok u -> eb_ok e -> reply <> [] -> (length reply <= max_payload)%nat ->
  forallb (fun x => x =? 0) (eb_src_mac e) = false -> answers u e reply out ->
  exists frame, out = [frame] /\ take 6 frame = eb_src_mac e /\
    forall r stale, my_ip r = eb_src_ip e ->
      process_frame r (frame ++ stale) (length frame) =
      Some (record_src_mac (my_mac u) r, [],
            (fun cb => (cb, Datagram (my_ip u) (eb_dst_port e) (eb_src_port e) reply)) <$> callback_for r (my_ip r)).
Proof.
  intros Hu He Hne Hlen Hmac Hout. unfold answers in Hout. rewrite Hmac, orb_false_r in Hout.
  destruct reply as [|x reply]; [done|]. cbn [length Nat.eqb] in Hout. destruct Hout as (trail & -> & Hroom).
  exists (reply_frame u e (x :: reply) trail). split; [done|]. split.
  - unfold reply_frame, udp_headers. rewrite <- !(assoc_L (++)). apply take_app_length'.
    cbn [cached_mac udp_set_peer]. symmetry. apply He.
  - intros r stale Hr. by apply reply_received.
Qed.

End Answer.

(** C5: A request is answered over the air, to the requester alone: when the next frame is an
    Etherbone request, to the board's address or a broadcast, from any requester and any ports, one
    turn of the serve loop handles exactly that request on the bus; with nothing to answer it
    sends nothing, and otherwise one frame, to the MAC the request came from, which the requester's
    driver delivers as the handler's reply, from the port the request was sent to, to the port it
    came from. *)
Theorem request_answered {B} `{Bus B} (n : node B) client sport dport request c tail rxlen rest :
  serving n -> client_ok client -> 0 <= sport < 2 ^ 16 -> 0 <= dport < 2 ^ 16 ->
  (length request <= EB_BUF_LEN)%nat -> take 2 request = [0x4e; 0x6f] ->
  addressed (net n) (cached_ip client) = true ->
  air n = Some (udp_headers client sport dport (length request) c ++ request ++ tail, rxlen) :: rest ->
  (payload_offset + length request <= rxlen <= ETHMAC_SLOT_SIZE)%nat ->
  exists reply n', serve_loop 1 n = (Ok tt, n') /\ eb8008_handle request (bus n) = (Ok reply, bus n') /\
    serving n' /\ air n' = rest /\
    match reply with
    | [] => sent n' = sent n
    | _ => exists frame, sent n' = sent n ++ [frame] /\ take 6 frame = my_mac client /\
             forall r stale, my_ip r = my_ip client ->
               process_frame r (frame ++ stale) (length frame) =
               Some (record_src_mac (my_mac (net n)) r, [],
                     (fun cb => (cb, Datagram (my_ip (net n)) dport sport reply)) <$> callback_for r (my_ip r))
    end.
Proof.
  intros Hn Hc Hs Hd Hlen Hmagic Haddr Hair Hrxlen.
  destruct (request_turn n client sport dport request c tail rxlen rest Hn Hc Hs Hd Hlen Hmagic Haddr Hair Hrxlen)
    as (reply & n' & e & out & Hrun & Hh & Hn' & Ha & Hsent & Hrl & He & E2 & E3 & E4 & E5 & Hout).
  exists reply, n'. do 4 (split; [done|]). destruct reply as [|x reply].
  { unfold answers in Hout. cbn in Hout. subst out. by rewrite Hsent, app_nil_r. }
  destruct Hn as ((Hu & _) & _). destruct Hc as (C1 & C2 & C3 & C4 & C5).
  destruct (answer_delivered (record_src_mac (my_mac client) (net n)) e (x :: reply) out) as (frame & -> & Hto & Hrx);
    [by apply record_src_mac_ok|done|done| |by rewrite E5|done|].
  { assert (Hk : (EB_BUF_LEN + 4 <= max_payload)%nat) by (apply Nat.leb_le; reflexivity). lia. }
  exists frame. rewrite <- E2, <- E3, <- E4, <- E5. by split_and!.
Qed.

(** ** Runs *)

Module FirmwareLoopRuns.
Import UdpRuns DhcpRuns.

Definition board0 (ip : Z) (cb : option udp_callback) (mac : list Z) : udp_state :=
  UdpState board_mac ip mac 0xffffffff (replicate 6 0) cb cb 0 [replicate 2048 0; replicate 2048 0] 0 0.

Definition eb0 : eb_state :=
  EbState false 0 0 0 (replicate 6 0) (replicate 1500 0) 0 (replicate 1516 0) 0 0 0.

(** A receive slot that holds this frame. *)
Definition slot_of (frame : list Z) : list Z := frame ++ replicate (ETHMAC_SLOT_SIZE - length frame) 0.

Definition node0 (u : udp_state) (a : list (option (list Z * nat))) : node (gmap Z Z) :=
  Node {[0xf0000004 := 0xbabe]} u eb0 0x8008a5a5 false (replicate 364 0) 0 a [] 0 [].

Lemma node0_ok u a :
  udp_ok u -> forallb (fun o => match o with Some p => is_buffer ETHMAC_SLOT_SIZE p.1 | None => true end) a = true ->
  node_ok (node0 u a).
Proof.
  intros Hu Ha. split; [done|]. split.
  { do 3 (split; [unfold word32; cbn; lia|]). split; [by apply is_buffer_spec|].
    split; [apply is_buffer_spec; vm_compute; reflexivity|]. split; [apply Nat.leb_le; reflexivity|].
    apply is_buffer_spec. vm_compute. reflexivity. }
  split; [apply is_buffer_spec; vm_compute; reflexivity|]. split; [apply Nat.leb_le; reflexivity|].
  split; [unfold word32; cbn; lia|]. split; [|apply Forall_nil_2]. apply Forall_forall. intros o Ho. rewrite forallb_forall in Ha.
  specialize (Ha o (proj1 (list_elem_of_In _ _) Ho)). destruct o as [p|]; [|done]. by apply is_buffer_spec.
Qed.

Lemma board0_ok ip cb mac : word32 ip -> mac_ok mac -> udp_ok (board0 ip cb mac).
Proof.
  intros Hip Hmac. split; [by apply is_buffer_spec|]. split; [done|]. split; [by apply is_buffer_spec|].
  split; [done|]. split; [unfold word32; cbn; lia|]. split; [apply Nat.ltb_lt; reflexivity|]. split; [done|].
  repeat (apply Forall_cons; split; [apply slot_is_ok; vm_compute; reflexivity|]). apply Forall_nil_2.
Qed.

(** *** DHCP: a stray poll, another client's offer, then the exchange with the server *)

Definition dhcp_server : udp_state :=
  UdpState peer_mac 0xc0a80101 (replicate 6 0xff) 0xffffffff (replicate 6 0) None None 0 [] 0 0.

Definition xid1 : Z := (0x8008a5a5 * 1103515245 + 12345) mod 2 ^ 32.
Definition xid2 : Z := (xid1 * 1103515245 + 12345) mod 2 ^ 32.

Definition dhcp_poll (msg : list Z) : option (list Z * nat) :=
  let f := udp_headers dhcp_server 67 68 (length msg) 0 ++ msg in Some (slot_of f, length f).

Definition exchange_air : list (option (list Z * nat)) :=
  [None; dhcp_poll (offer 99 2); dhcp_poll (offer xid2 2); None; dhcp_poll (offer xid2 5)].

Definition dhcp_node : node (gmap Z Z) := node0 (board0 0 None (replicate 6 0xff)) exchange_air.

Lemma dhcp_run_lease_witness :
  (exists res n', dhcp_run dhcp_node = (Ok res, n') /\ node_ok n' /\ rx_callback (net n') = None /\
    match res with
    | None => True
    | Some (leased, secs) => secs <> 0 /\ acquired dhcp_node n' leased secs
    end) /\
  fst (dhcp_run dhcp_node) = Ok (Some (0xc0a80132, 7200)).
Proof.
  split; [|vm_compute; reflexivity].
  apply (dhcp_run_lease dhcp_node). apply node0_ok; [|vm_compute; reflexivity].
  apply board0_ok; [unfold word32; lia|by apply is_buffer_spec].
Defined.

(** *** Serving: traffic of no interest, then a request *)

Definition serving_board (a : list (option (list Z * nat))) : node (gmap Z Z) :=
  node0 (board0 0xc0a8012c (Some eb_rx) (replicate 6 0)) a.

Lemma serving_board_ok a :
  forallb (fun o => match o with Some p => is_buffer ETHMAC_SLOT_SIZE p.1 | None => true end) a = true ->
  node_ok (serving_board a).
Proof. intros Ha. apply node0_ok; [|done]. apply board0_ok; [unfold word32; lia|by apply is_buffer_spec]. Qed.

Definition junk_air : list (option (list Z * nat)) :=
  [Some (replicate 2048 0xff, 5000%nat); Some (slot_of ping, 3%nat); None; Some (ping, 60%nat)].

Lemma serve_loop_safe_witness :
  (exists n' out, serve_loop 4 (serving_board junk_air) = (Ok tt, n') /\ node_ok n' /\
    sent n' = sent (serving_board junk_air) ++ out /\
    fits out /\ eb_pending (eb n') = false /\
    my_ip (net n') = my_ip (net (serving_board junk_air)) /\
    rx_callback (net n') = rx_callback (net (serving_board junk_air)) /\
    bx_callback (net n') = bx_callback (net (serving_board junk_air))) /\
  length (sent (serve_loop 4 (serving_board junk_air)).2) = 1%nat.
Proof.
  split; [|vm_compute; reflexivity].
  apply (serve_loop_safe 4 (serving_board junk_air)); [|lia].
  apply serving_board_ok. vm_compute. reflexivity.
Defined.

(** A requester that broadcasts to the subnet. *)
Definition requester : udp_state :=
  UdpState peer_mac 0xc0a80107 (replicate 6 0xff) 0xc0a801ff (replicate 6 0) (Some dhcp_rx) None 0 [] 0 0.

Definition read_request : list Z :=
  Dialect.encode 32 (EbPacket etherbone_magic 0 0 [EbRecord None (Some (EbReads 7 [0xf0000004]))]).

Definition request_tail : list Z := replicate (ETHMAC_SLOT_SIZE - payload_offset - length read_request) 0.

Definition request_air : list (option (list Z * nat)) :=
  [Some (udp_headers requester 40000 777 (length read_request) 0 ++ read_request ++ request_tail, 100%nat)].

Lemma request_answered_witness :
  exists reply n', serve_loop 1 (serving_board request_air) = (Ok tt, n') /\
    eb8008_handle read_request (bus (serving_board request_air)) = (Ok reply, bus n') /\
    serving n' /\ air n' = [] /\
    match reply with
    | [] => sent n' = []
    | _ => exists frame, sent n' = [] ++ [frame] /\ take 6 frame = peer_mac /\
             forall r stale, my_ip r = 0xc0a80107 ->
               process_frame r (frame ++ stale) (length frame) =
               Some (record_src_mac board_mac r, [],
                     (fun cb => (cb, Datagram 0xc0a8012c 777 40000 reply)) <$> callback_for r (my_ip r))
    end.
Proof.
  apply (request_answered (serving_board request_air) requester 40000 777 read_request 0 request_tail 100 []).
  - split; [apply serving_board_ok; vm_compute; reflexivity|]. by split_and!.
  - split; [by apply is_buffer_spec|]. split; [by apply is_buffer_spec|].
    split; [unfold word32; cbn; lia|]. split; [unfold word32; cbn; lia|reflexivity].
  - lia.
  - lia.
  - apply Nat.leb_le. reflexivity.
  - reflexivity.
  - reflexivity.
  - reflexivity.
  - split; apply Nat.leb_le; vm_compute; reflexivity.
Defined.

End FirmwareLoopRuns.
