(* ===== verification/Stores.v ===== *)
(** * The stores of the Etherbone handler and the firmware's own state

    On the target, [eb8008_bus_write] of firmware/eb8008.c is a store at any address the CPU
    reaches: the program's own memory, the buffers and registers of its MAC and its address
    register included.  The models of the program keep that state apart from the bus.  This
    file says when they may: [eb_stores] is the addresses a request makes the handler store to,
    [guarded own] is a bus that notices a store to an address of [own], and as long as no datagram
    that arrives asks for one, none is made, whatever else arrives. *)

From Stdlib Require Import ZArith Lia List Bool.
From stdpp Require Import base list gmap.
From S2P Require Import Prelude Etherbone Bytes Dhcp Udp EbServe Firmware.

Open Scope Z_scope.

(** ** Two buses *)

(** [own a]: the program's own state is at the address [a]. *)
Record guarded (own : Z -> bool) (B : Type) := Guarded { inner : B; stray : bool }.
Arguments Guarded {own B}.
Arguments inner {own B}.
Arguments stray {own B}.

#[export] Instance guarded_bus {own B} `{Bus B} : Bus (guarded own B) := {|
  bus_read a g := let '(v, b) := bus_read a (inner g) in (v, Guarded b (stray g));
  bus_write a v g := if own a then Guarded (inner g) true else Guarded (bus_write a v (inner g)) (stray g);
|}.

(** The addresses stored to, on a bus that reads as zeros. *)
Record store_log := StoreLog { stored : list Z }.

#[export] Instance store_log_bus : Bus store_log := {|
  bus_read _ l := (0, l);
  bus_write a _ l := StoreLog (stored l ++ [a]);
|}.

Definition eb_stores (req : list Z) : list Z := stored (snd (eb8008_handle req (StoreLog []))).

(** ** What the handler stores does not depend on what it reads *)

Section Similar.
Context {B1 B2 : Type} `{Bus B1} `{Bus B2}.
Variable R : B1 -> B2 -> Prop.
Hypothesis R_read : forall a b1 b2, R b1 b2 -> R (bus_read a b1).2 (bus_read a b2).2.
Hypothesis R_write : forall a v b1 b2, R b1 b2 -> R (bus_write a v b1) (bus_write a v b2).

(** Both runs end the same way, up to [S] on the results, in related states. *)
Definition similar {A1 A2} (S : A1 -> A2 -> Prop) (m1 : M B1 A1) (m2 : M B2 A2) : Prop :=
  forall b1 b2, R b1 b2 -> R (snd (m1 b1)) (snd (m2 b2)) /\
    match fst (m1 b1), fst (m2 b2) with
    | Ok a1, Ok a2 => S a1 a2
    | Raise _, Raise _ | Diverged, Diverged => True
    | _, _ => False
    end.

Lemma similar_ret {A1 A2} (S : A1 -> A2 -> Prop) a1 a2 : S a1 a2 -> similar S (ret a1) (ret a2).
Proof. intros HS b1 b2 Hb. by split. Qed.

Lemma similar_bind {A1 A2 C1 C2} (S : A1 -> A2 -> Prop) (T : C1 -> C2 -> Prop) m1 m2 k1 k2 :
  similar S m1 m2 -> (forall a1 a2, S a1 a2 -> similar T (k1 a1) (k2 a2)) -> similar T (bind m1 k1) (bind m2 k2).
Proof.
  intros Hm Hk b1 b2 Hb. specialize (Hm b1 b2 Hb). unfold bind.
  destruct (m1 b1) as [[a1|?|] b1'], (m2 b2) as [[a2|?|] b2']; destruct Hm as [Hb' HS]; try done. by apply Hk.
Qed.

Lemma similar_byte_at p i : similar eq (byte_at p i) (byte_at p i).
Proof. intros b1 b2 Hb. unfold byte_at. by destruct (p !! i). Qed.

Lemma similar_get_be32 p : similar eq (get_be32 p) (get_be32 p).
Proof. intros b1 b2 Hb. unfold get_be32. by destruct p as [|? [|? [|? [|? ?]]]]. Qed.

Lemma similar_write_loop n i addr p : similar eq (eb_write_loop n i addr p) (eb_write_loop n i addr p).
Proof using R_write.
  revert i p. induction n as [|n IH]; intros i p; [by apply similar_ret|]. cbn [eb_write_loop].
  eapply similar_bind; [apply similar_get_be32|]. intros v _ <-.
  eapply (similar_bind (fun _ _ => True)); [|intros _ _ _; apply IH].
  intros b1 b2 Hb. split; [by apply R_write|done].
Qed.

Lemma similar_read_loop n p r1 r2 :
  similar (fun x1 x2 => x1.1 = x2.1) (eb_read_loop n p r1) (eb_read_loop n p r2).
Proof using R_read.
  revert p r1 r2. induction n as [|n IH]; intros p r1 r2; [by apply similar_ret|]. cbn [eb_read_loop].
  eapply similar_bind; [apply similar_get_be32|]. intros a _ <-.
  eapply (similar_bind (fun _ _ => True)); [|intros v1 v2 _; apply IH].
  intros b1 b2 Hb. specialize (R_read a b1 b2 Hb). unfold eb8008_bus_read.
  by destruct (bus_read a b1), (bus_read a b2).
Qed.

Lemma similar_record_writes w p : similar eq (eb_record_writes w p) (eb_record_writes w p).
Proof using R_write.
  unfold eb_record_writes. destruct (w =? 0); [by apply similar_ret|]. destruct (_ >? _); [by apply similar_ret|].
  eapply similar_bind; [apply similar_get_be32|]. intros a _ <-.
  eapply similar_bind; [apply similar_write_loop|]. intros q _ <-. by apply similar_ret.
Qed.

Lemma similar_record_reads r p r1 r2 :
  similar (fun x1 x2 => x1.1 = x2.1) (eb_record_reads r p r1) (eb_record_reads r p r2).
Proof using R_read.
  unfold eb_record_reads. destruct (r =? 0); [by apply similar_ret|]. destruct (_ >? _); [by apply similar_ret|].
  eapply similar_bind; [apply similar_get_be32|]. intros a _ <-. cbv zeta.
  eapply similar_bind; [apply similar_read_loop|]. intros [q1 s1] [q2 s2] Hq. cbn in Hq. subst. by apply similar_ret.
Qed.

Lemma similar_records fuel p r1 r2 : similar (fun _ _ => True) (eb_records fuel p r1) (eb_records fuel p r2).
Proof using R_read R_write.
  revert p r1 r2. induction fuel as [|fuel IH]; intros p r1 r2; [by intros b1 b2 Hb|]. cbn [eb_records].
  destruct (length p <? 4)%nat; [by apply similar_ret|].
  eapply similar_bind; [apply similar_byte_at|]. intros w _ <-.
  eapply similar_bind; [apply similar_byte_at|]. intros r _ <-.
  eapply similar_bind; [apply similar_record_writes|]. intros [q|] _ <-; [|by apply similar_ret].
  eapply similar_bind; [apply similar_record_reads|]. intros [q1 s1] [q2 s2] Hq. cbn in Hq. subst q2.
  destruct q1; [apply IH|by apply similar_ret].
Qed.

Lemma similar_handle req : similar (fun _ _ => True) (eb8008_handle req) (eb8008_handle req).
Proof using R_read R_write.
  unfold eb8008_handle. destruct (length req <? 8)%nat; [by apply similar_ret|].
  do 2 (eapply similar_bind; [apply similar_byte_at|]; intros ? _ <-).
  destruct (_ || _); [by apply similar_ret|].
  eapply similar_bind; [apply similar_byte_at|]; intros ? _ <-.
  destruct (negb _); [by apply similar_ret|apply similar_records].
Qed.

End Similar.

(** ** Harmless traffic *)

Definition harmless_request (own : Z -> bool) (req : list Z) : bool := forallb (fun a => negb (own a)) (eb_stores req).

(** A request that asks for no store to [own] makes none. *)
Lemma handle_not_stray {own B} `{Bus B} req (g : guarded own B) :
  harmless_request own req = true -> stray g = false -> stray (snd (eb8008_handle req g)) = false.
Proof.
  intros Hreq Hg.
  pose (R := fun (g : guarded own B) (l : store_log) => forallb (fun a => negb (own a)) (stored l) = true -> stray g = false).
  destruct (similar_handle R) with (req := req) (b1 := g) (b2 := StoreLog []) as [HR _]; [..|by apply HR].
  - intros a b1 b2 HR. cbn. destruct (bus_read a (inner b1)). exact HR.
  - intros a v b1 b2 HR. unfold R in *. cbn. rewrite forallb_app. cbn. intros [Hl Ha]%andb_prop.
    rewrite andb_true_r in Ha. apply negb_true_iff in Ha. rewrite Ha. cbn. auto.
  - by intros _.
Qed.

(** The payload of a UDP frame in a receive slot. *)
Definition udp_payload (rx : list Z) : option (list Z) :=
  udp_length ← get16be rx 38; slice rx payload_offset (Z.to_nat udp_length - sizeof_udp_header).

Lemma udp_delivered u rx rxlen u' c d :
  process_udp u rx rxlen = Some (u', Some (c, d)) -> udp_payload rx = Some (data d).
Proof.
  unfold process_udp, udp_payload. intros Hrun.
  repeat (case_match || (apply bind_Some in Hrun as (? & ? & Hrun))); simplify_option_eq; done.
Qed.

Lemma delivered_payload u rx rxlen u' out c d :
  process_frame u rx rxlen = Some (u', out, Some (c, d)) -> udp_payload rx = Some (data d).
Proof.
  unfold process_frame. intros Hrun. repeat first
    [ progress case_match
    | apply bind_Some in Hrun as ([? ?] & ? & Hrun)
    | apply bind_Some in Hrun as (? & ? & Hrun)]; simplify_eq; eauto using udp_delivered.
Qed.

(** A poll whose frame, if it is delivered as a request, asks for no store to [own]. *)
Definition harmless (own : Z -> bool) (p : option (list Z * nat)) : bool :=
  match p with
  | Some (rx, _) => from_option (harmless_request own) true (udp_payload rx)
  | None => true
  end.

(** ** The invariant *)

Create HintDb guards.

Section Guard.
Context {own : Z -> bool} {B : Type} `{Bus B}.
Implicit Types n : node (guarded own B).

(** The request that waits to be served. *)
Definition pending_harmless (e : eb_state) : Prop :=
  eb_pending e = true -> harmless_request own (take (eb_req_len e) (eb_req e)) = true.

(** No store has hit [own], and neither a poll to come nor the pending request asks for one. *)
Definition guarding n : Prop :=
  stray (bus n) = false /\ Forall (fun p => harmless own p = true) (air n) /\ pending_harmless (eb n).

(** [guards m]: from a state of the invariant, [m] ends in one, however it ends. *)
Definition guards {A} (m : M (node (guarded own B)) A) : Prop := forall n, guarding n -> guarding (snd (m n)).

(** What the invariant is about. *)
Definition guard_view n := (bus n, air n, eb n).

Lemma guards_view {A} (m : M (node (guarded own B)) A) : preserves guard_view m -> guards m.
Proof. intros Hm n Hn. specialize (Hm n). unfold guard_view in Hm. injection Hm as E1 E2 E3. unfold guarding. by rewrite E1, E2, E3. Qed.

Lemma guards_ret {A} (a : A) : guards (ret a).
Proof. by intros n Hn. Qed.

Lemma guards_diverge {A} : guards (diverge (A:=A)).
Proof. by intros n Hn. Qed.

Lemma guards_gets {A} (f : node (guarded own B) -> A) : guards (gets f).
Proof. by intros n Hn. Qed.

Lemma guards_get : guards get.
Proof. by intros n Hn. Qed.

Lemma guards_checked {A} (o : option A) : guards (checked o).
Proof. intros n Hn. by destruct o. Qed.

Lemma guards_bind {A C} (m : M (node (guarded own B)) A) (k : A -> M (node (guarded own B)) C) :
  guards m -> (forall a, guards (k a)) -> guards (bind m k).
Proof.
  intros Hm Hk n Hn. specialize (Hm n Hn). unfold bind. destruct (m n) as [[a|e|] n']; [|done|done]. by apply Hk.
Qed.

Lemma guards_if {A} (c : bool) (m1 m2 : M (node (guarded own B)) A) : guards m1 -> guards m2 -> guards (if c then m1 else m2).
Proof. by destruct c. Qed.

Lemma guards_modify f : (forall n, guard_view (f n) = guard_view n) -> guards (modify f).
Proof. intros Hf. by apply guards_view, preserves_modify. Qed.

Lemma guards_on_net f : guards (on_net f).
Proof. by apply guards_modify. Qed.

Lemma guards_set_net u out : guards (modify (set_net u out)).
Proof. by apply guards_modify. Qed.

Lemma stash_kept (buf bs buf' : list Z) : put buf 0 bs = Some buf' -> take (length bs) buf' = bs.
Proof. unfold put. destruct (_ <=? _)%nat; [|done]. intros [= <-]. apply take_app_length. Qed.

(** The callback stashes what it was handed. *)
Lemma callback_harmless mac d e e' :
  eb_rx_callback mac d e = Some e' -> pending_harmless e -> harmless_request own (data d) = true -> pending_harmless e'.
Proof.
  unfold eb_rx_callback, pending_harmless. cbn [eb_pending eb_req eb_req_len eb_src_mac]. intros Hrun He Hd.
  destruct (eb_pending e) eqn:Hp; [by injection Hrun as <-|].
  apply bind_Some in Hrun as (foreign & _ & Hrun). destruct foreign; [by injection Hrun as <-|].
  destruct (_ <? _)%nat; [by injection Hrun as <-|].
  apply bind_Some in Hrun as (m & _ & Hrun). apply bind_Some in Hrun as (req & Hreq & [= <-]). intros _. cbn.
  unfold memcpy in Hreq. rewrite Nat.leb_refl, firstn_all in Hreq. by rewrite (stash_kept _ _ _ Hreq).
Qed.

Lemma guards_service : guards udp_service.
Proof.
  intros n (Hs & Ha & He). unfold udp_service, bind at 1, get. cbn [fst snd].
  destruct (air n) as [|[[rx rxlen]|] rest] eqn:Hair; [by rewrite <- Hair in Ha| |].
  2: { apply Forall_cons in Ha as [_ Ha]. done. }
  apply Forall_cons in Ha as [Hp Ha]. unfold bind at 1, modify at 1. cbn [fst snd].
  destruct (process_frame (net n) rx rxlen) as [[[u out] call]|] eqn:Hrun; [|exact (conj Hs (conj Ha He))].
  unfold checked at 1, bind at 1, ret at 1, bind at 1, modify at 1. cbn [fst snd].
  assert (Hn1 : guarding (set_net u out (set_air (Some (rx, rxlen)) rest n))) by exact (conj Hs (conj Ha He)).
  destruct call as [[[] d]|]; [|..|done].
  - revert Hn1. apply guards_if; [apply guards_ret|]. apply guards_bind; [apply guards_get|]. intros n1.
    apply guards_bind; [apply guards_checked|]. intros buf. by apply guards_modify.
  - unfold harmless in Hp. rewrite (delivered_payload _ _ _ _ _ _ _ Hrun) in Hp.
    destruct (eb_rx_callback _ d (eb n)) as [e|] eqn:Hcall; [|done]. cbn. do 2 (split; [done|]).
    by eapply callback_harmless.
Qed.

Lemma guards_serve_pending : guards serve_pending.
Proof.
  intros n (Hs & Ha & He). unfold serve_pending, bind, get. cbn [fst snd].
  destruct (eb_serve_pending (bus n) (net n) (eb n)) as [[[[b u] e] out]|] eqn:Hrun; [|done]. cbn.
  unfold eb_serve_pending in Hrun. destruct (eb_pending (eb n)) eqn:Hp; cbn [negb] in Hrun;
    [|injection Hrun as <- <- <- <-; done].
  apply bind_Some in Hrun as (req & Hreq & Hrun). specialize (He Hp).
  unfold slice in Hreq. destruct (_ <=? _)%nat; [|done]. injection Hreq as <-.
  pose proof (handle_not_stray _ _ He Hs) as Hst. cbn [drop] in Hrun.
  destruct (eb8008_handle _ (bus n)) as [[reply|x|] b']; [|done|done].
  apply bind_Some in Hrun as (resp & _ & Hrun). apply bind_Some in Hrun as ([[u1 served] sent] & _ & [= <- <- <- <-]).
  split; [exact Hst|]. by split.
Qed.

#[local] Hint Resolve guards_ret guards_diverge guards_gets guards_checked guards_bind guards_if guards_on_net
  guards_set_net guards_service guards_serve_pending : guards.

Lemma guards_wait_loop turns : guards (wait_loop turns).
Proof. induction turns; cbn [wait_loop]; eauto with guards. Qed.

Lemma guards_wait_for_reply : guards wait_for_reply.
Proof. apply guards_bind; [by apply guards_modify|]. intros _. apply guards_wait_loop. Qed.

Lemma guards_put_message build : guards (put_message build).
Proof.
  unfold put_message. apply guards_bind; [apply guards_gets|]. intros u. apply guards_bind; [apply guards_checked|].
  intros buf. apply guards_bind; [apply guards_checked|]. intros [payload len]. eauto with guards.
Qed.

Lemma guards_dhcp_send len : guards (dhcp_send len).
Proof.
  unfold dhcp_send. apply guards_bind; [apply guards_gets|]. intros u. apply guards_bind; [apply guards_checked|].
  intros [[ok u'] out]. eauto with guards.
Qed.

Lemma guards_next_xid : guards next_xid.
Proof. apply guards_bind; [apply guards_get|]. intros n. apply guards_bind; [by apply guards_modify|]. intros _. apply guards_ret. Qed.

Lemma guards_send_message build : guards (send_message build).
Proof. apply guards_bind; [apply guards_put_message|]. intros len. apply guards_dhcp_send. Qed.
#[local] Hint Resolve guards_wait_for_reply guards_send_message guards_next_xid : guards.

Lemma guards_dhcp_attempt : guards dhcp_attempt.
Proof.
  unfold dhcp_attempt, rx_message. apply guards_bind; [apply guards_next_xid|]. intros xid.
  repeat lazymatch goal with
    | |- guards (bind _ _) => apply guards_bind; [auto with guards|intros ?]
    | |- guards (if _ then _ else _) => apply guards_if; [auto with guards|]
    | |- guards (match ?o with Some _ => _ | None => _ end) => destruct o; [|auto with guards]
    | |- guards (ret _) => apply guards_ret
    end.
Qed.

Lemma guards_dhcp_attempts tries : guards (dhcp_attempts tries).
Proof.
  induction tries as [|tries IH]; [apply guards_ret|]. apply guards_bind; [apply guards_dhcp_attempt|].
  intros [l|]; [apply guards_ret|exact IH].
Qed.

Lemma guards_dhcp_run : guards dhcp_run.
Proof. unfold dhcp_run. pose proof guards_dhcp_attempts. eauto with guards. Qed.

Lemma guards_serve_loop turns : guards (serve_loop turns).
Proof. induction turns; cbn [serve_loop]; eauto with guards. Qed.

End Guard.

#[export] Hint Resolve guards_ret guards_diverge guards_gets guards_checked guards_bind guards_if guards_on_net
  guards_set_net guards_service guards_serve_pending guards_put_message guards_dhcp_send guards_next_xid
  guards_dhcp_run guards_serve_loop : guards.
