(* ===== verification/FirmwareMain.v ===== *)
(** * The firmware's program

    The rest of firmware/main.c and of the driver's blocking calls, over [Firmware]: address
    resolution and ping (firmware/udp.c), which poll the MAC while they wait, and [main]: the
    loopback test, then for ever a lease, the switch to serving on it, serving for half its time
    with the periodic ARP traffic, and again.  What [main] prints, its reads of the PHY and its
    delays are not part of the state.  [main] does not end: [main_loop cycles fuel] is [cycles]
    turns of its loop, in which [while (!dhcp_run(...))] may run [fuel] times. *)

From Stdlib Require Import ZArith Lia List Bool.
From stdpp Require Import base list gmap.
From S2P Require Import Prelude Etherbone Bytes Dhcp Udp Arp EbServe Firmware Stores.

Open Scope Z_scope.

Section Program.
Context {B : Type} `{Bus B}.

(** Run an operation of the driver that may send frames. *)
Definition transmit (f : udp_state -> option (udp_state * list (list Z))) : M (node B) unit :=
  let! u := gets net in
  let! (u, out) := checked (f u) in
  modify (set_net u out).

(** ** Address resolution *)

Definition ARP_TRIES : nat := 8.
Definition ARP_TIMEOUT : nat := Z.to_nat 100000.

Fixpoint arp_wait (turns : nat) : M (node B) bool :=
  match turns with
  | O => ret false
  | S turns' =>
      udp_service ;;;
      let! u := gets net in
      if has_mac u then ret true else arp_wait turns'
  end.

Fixpoint arp_tries (tries : nat) (ip : Z) : M (node B) bool :=
  match tries with
  | O => ret false
  | S tries' =>
      transmit (fun u => arp_request u ip) ;;;
      let! found := arp_wait ARP_TIMEOUT in
      if found then ret true else arp_tries tries' ip
  end.

Definition udp_arp_resolve (ip : Z) : M (node B) bool :=
  let! u := gets net in
  if (cached_ip u =? ip) && has_mac u then ret true
  else
    on_net (udp_set_peer ip (replicate 6 0)) ;;;
    arp_tries ARP_TRIES ip.

Definition udp_arp_refresh (ip : Z) : M (node B) bool :=
  on_net (fun u => udp_set_peer 0 (cached_mac u) u) ;;;
  udp_arp_resolve ip.

Fixpoint ping_wait (turns : nat) : M (node B) Z :=
  match turns with
  | O => ret (-2)
  | S turns' =>
      udp_service ;;;
      let! u := gets net in
      if ping_ts_send u =? 0 then ret 0 else ping_wait turns'
  end.

Definition send_ping (ip : Z) (payload_length : nat) : M (node B) Z :=
  if (max_ping <? payload_length)%nat then ret (-1)
  else
    let! found := udp_arp_resolve ip in
    if negb found then ret (-1)
    else
      transmit (fun u => ping_frame u ip payload_length) ;;;
      ping_wait (Z.to_nat 10000).

(** ** [main] *)

Definition mac_ethmac : list Z := [0x10; 0xe2; 0xd5; 0x00; 0x00; 0x02].
Definition EB_SERVE_LOOPS_PER_SEC : nat := Z.to_nat 400000.

Fixpoint service_loop (turns : nat) : M (node B) unit :=
  match turns with
  | O => ret tt
  | S turns' => udp_service ;;; service_loop turns'
  end.

(** The loopback test: [n] of its three messages to go. *)
Fixpoint loopback (n : nat) : M (node B) unit :=
  match n with
  | O => ret tt
  | S n' =>
      let! xid := next_xid in
      let! len := put_message (fun buf => dhcp_build_discover buf chaddr_etherbone xid) in
      on_net (udp_set_ip 0) ;;;
      dhcp_send len ;;;
      service_loop (Z.to_nat 20000) ;;;
      loopback n'
  end.

(** [main] up to its loop; [phy_found] is what the scan of the MDIO bus said. *)
Definition startup (phy_found : bool) : M (node B) unit :=
  on_net (udp_start mac_ethmac 0) ;;;
  on_net udp_set_broadcast ;;;
  if phy_found then loopback 3 else ret tt.

(** [while (!dhcp_run(&ip, &lease_secs))] *)
Fixpoint acquire (fuel : nat) : M (node B) (Z * Z) :=
  match fuel with
  | O => diverge
  | S fuel' =>
      let! r := dhcp_run in
      match r with
      | Some l => ret l
      | None => acquire fuel'
      end
  end.

Definition announce : M (node B) unit := transmit udp_announce_arp.

(** From the lease to the serve loop. *)
Definition start_serving (ip : Z) : M (node B) unit :=
  eb_ip_write ip ;;;
  on_net (udp_set_ip ip) ;;;
  on_net (udp_set_callback (Some eb_rx)) ;;;
  on_net (udp_set_broadcast_callback (Some eb_rx)) ;;;
  announce.

(** [for (s = 0; s < lease_secs / 2; s++)], with [n] turns to go. *)
Fixpoint serve_seconds (n : nat) (s ip : Z) : M (node B) unit :=
  match n with
  | O => ret tt
  | S n' =>
      (if s mod 30 =? 0 then announce else ret tt) ;;;
      (if s mod 10 =? 1
       then udp_arp_refresh (Z.lor (Z.land ip 0xffffff00) 1) ;;; ret tt
       else ret tt) ;;;
      serve_loop EB_SERVE_LOOPS_PER_SEC ;;;
      serve_seconds n' (s + 1) ip
  end.

(** One turn of [for (;;)]. *)
Definition lease_cycle (fuel : nat) : M (node B) unit :=
  on_net udp_set_broadcast ;;;
  let! (ip, lease_secs) := acquire fuel in
  start_serving ip ;;;
  serve_seconds (Z.to_nat (lease_secs / 2)) 0 ip ;;;
  on_net (udp_set_callback None).

(** [cycles] turns of it, and the program up to there. *)
Fixpoint main_loop (cycles fuel : nat) : M (node B) unit :=
  match cycles with
  | O => ret tt
  | S cycles' => lease_cycle fuel ;;; main_loop cycles' fuel
  end.

Definition firmware_main (phy_found : bool) (cycles fuel : nat) : M (node B) unit :=
  startup phy_found ;;;
  main_loop cycles fuel.

End Program.

(** ** Blocking calls *)

Section ProgramProofs.
Context {B : Type} `{Bus B}.
Implicit Types n : node B.

Lemma keeps_transmit f :
  (forall u, udp_ok u -> safe (f u) (fun '(u', out) => udp_ok u' /\ Forall frame_ok out /\ same_config u u')) ->
  keeps (B:=B) (transmit f).
Proof.
  intros Hf n Hn. unfold transmit. apply wp_bind, wp_gets, wp_bind.
  eapply wp_checked; [apply Hf; apply Hn|]. intros [u out] (Hu & Hout & (C1 & C2 & _ & C4 & C5)).
  apply frames_fit in Hout. apply wp_modify. split; [eauto|]. split; [by apply set_net_ok|].
  exists (Handed <$> out). rewrite frames_handed. by split; [apply happened_sent|].
Qed.

Lemma keeps_peer ip mac :
  word32 ip -> mac_ok mac -> keeps (B:=B) (on_net (udp_set_peer ip mac)).
Proof.
  intros Hip Hm n Hn. apply wp_modify. split; [eauto|].
  split; [|exists []; split; [apply happened_config|]; by split_and!; try apply Forall_nil_2].
  apply put_net_ok; [done|]. apply udp_set_peer_ok; [apply Hn|done|done].
Qed.

Lemma keeps_announce : keeps (B:=B) announce.
Proof. apply keeps_transmit. intros u Hu. by apply udp_announce_arp_safe. Qed.

Lemma keeps_arp_wait turns : keeps (B:=B) (arp_wait turns).
Proof. induction turns; cbn [arp_wait]; eauto with keeps. Qed.

Lemma keeps_arp_request ip : keeps (B:=B) (transmit (fun u => arp_request u ip)).
Proof. apply keeps_transmit. intros u Hu. by apply arp_request_safe. Qed.
#[local] Hint Resolve keeps_arp_wait keeps_arp_request keeps_announce : keeps.

Lemma keeps_arp_tries tries ip : keeps (B:=B) (arp_tries tries ip).
Proof. induction tries; cbn [arp_tries]; eauto 8 with keeps. Qed.
#[local] Hint Resolve keeps_arp_tries : keeps.

Lemma zero_mac_ok : mac_ok (replicate 6 0).
Proof. by apply is_buffer_spec. Qed.

Lemma keeps_arp_resolve ip : word32 ip -> keeps (B:=B) (udp_arp_resolve ip).
Proof.
  intros Hip. unfold udp_arp_resolve. pose proof (keeps_peer ip _ Hip zero_mac_ok). eauto 8 with keeps.
Qed.

Lemma keeps_arp_refresh ip : word32 ip -> keeps (B:=B) (udp_arp_refresh ip).
Proof.
  intros Hip. apply keeps_bind; [|intros _; by apply keeps_arp_resolve].
  intros n Hn. apply (keeps_peer 0 (cached_mac (net n))); [unfold word32; lia|apply Hn|done].
Qed.

Lemma keeps_ping_wait turns : keeps (B:=B) (ping_wait turns).
Proof. induction turns; cbn [ping_wait]; eauto with keeps. Qed.

Lemma keeps_ping_frame ip len : (len <= max_ping)%nat -> keeps (B:=B) (transmit (fun u => ping_frame u ip len)).
Proof. intros Hl. apply keeps_transmit. intros u Hu. by apply ping_frame_safe. Qed.
#[local] Hint Resolve keeps_ping_wait keeps_ping_frame keeps_arp_resolve : keeps.

Lemma keeps_send_ping ip len : word32 ip -> keeps (B:=B) (send_ping ip len).
Proof.
  intros Hip. unfold send_ping. destruct (Nat.ltb_spec max_ping len); eauto 8 with keeps.
Qed.

Lemma keeps_service_loop turns : keeps (B:=B) (service_loop turns).
Proof. induction turns; cbn [service_loop]; eauto with keeps. Qed.

Lemma keeps_serve_loop turns : keeps (B:=B) (serve_loop turns).
Proof. induction turns; cbn [serve_loop]; eauto with keeps. Qed.

(** ** [main] *)

Lemma steady_later n n' : steady n n' -> later n n'.
Proof. intros (evs & He & _). by exists evs. Qed.

Lemma on_net_later f n : later n (set_net (f (net n)) [] n).
Proof. exists []. apply happened_config. Qed.

Lemma gateway_word32 ip : word32 ip -> word32 (Z.lor (Z.land ip 0xffffff00) 1).
Proof.
  unfold word32. intros Hip. set (x := Z.lor _ _).
  enough (Hx : x = x mod 2 ^ 32) by (rewrite Hx; apply Z.mod_pos_bound; lia).
  rewrite <- Z.land_ones by lia. unfold x. rewrite Z.land_lor_distr_l. f_equal.
  rewrite <- Z.land_assoc. f_equal.
Qed.

Lemma keeps_serve_seconds k s ip : word32 ip -> keeps (B:=B) (serve_seconds k s ip).
Proof.
  intros Hip. revert s. induction k as [|k IH]; intros s; cbn [serve_seconds]; [apply keeps_ret|].
  pose proof (keeps_arp_refresh _ (gateway_word32 ip Hip)). pose proof (keeps_serve_loop EB_SERVE_LOOPS_PER_SEC).
  eauto 8 with keeps.
Qed.

Lemma loopback_run k n : node_ok n -> wp (loopback k) (fun r n' => r = Ok tt /\ node_ok n' /\ later n n') n.
Proof.
  revert n. induction k as [|k IH]; intros n Hn; cbn [loopback]; [apply wp_ret; auto using later_refl|].
  apply wp_bind. eapply wp_mono; [by apply next_xid_run|]. intros r n1 (xid & -> & Hn1 & H1).
  destruct (discover_message_ok xid) as (Hdl & Hdb & Hdr).
  apply wp_bind. eapply wp_mono; [by apply (put_message_run _ (discover_message xid))|].
  intros r n2 (u & hdr & rest & -> & -> & Hu & _ & Hslot & Hhdr). apply wp_bind, wp_modify.
  apply wp_bind. eapply wp_mono.
  { apply (dhcp_send_run hdr (discover_message xid) rest); [|rewrite Hdl; by apply Nat.leb_le|exact Hslot|done].
    apply put_net_ok; [by apply put_net_ok|]. apply udp_set_ip_ok; [done|unfold word32; lia]. }
  intros r n3 (ok & out & -> & Hn3 & H3 & _).
  apply wp_bind. eapply wp_mono; [by apply keeps_service_loop|]. intros r n4 ([? ->] & Hn4 & H4%steady_later).
  eapply wp_mono; [by apply IH|]. intros r n5 (-> & Hn5 & H5). split; [done|]. split; [done|].
  apply (later_trans _ n1); [by exists []|]. apply (later_trans _ (set_net u [] n1)); [exists []; apply happened_config|].
  apply (later_trans _ n3); [|eauto using later_trans]. eapply later_trans; [|by eexists].
  exists []. apply happened_config.
Qed.

(** [k] runs of the DHCP client in a row that found no lease. *)
Inductive refused : nat -> node B -> node B -> Prop :=
| refused_O n : refused 0 n n
| refused_S k n n1 n' : dhcp_run n = (Ok None, n1) -> refused k n1 n' -> refused (S k) n n'.

Lemma acquire_run fuel n :
  node_ok n ->
  wp (acquire fuel) (fun r n' => node_ok n' /\ later n n' /\
    ((exists leased secs, r = Ok (leased, secs) /\ acquired n n' leased secs) \/
     r = Diverged /\ refused fuel n n')) n.
Proof.
  revert n. induction fuel as [|fuel IH]; intros n Hn; cbn [acquire].
  { split; [done|]. split; [apply later_refl|]. right. split; [done|constructor]. }
  apply wp_bind. eapply wp_mono; [by apply wp_exact, dhcp_run_run|].
  intros r n1 [(res & -> & Hn1 & H1 & _ & Hres) Hrun]. destruct res as [[leased secs]|].
  { apply wp_ret. split; [done|]. split; [done|]. left. eauto. }
  eapply wp_mono; [by apply IH|]. intros r n2 (Hn2 & H2 & Hr). split; [done|]. split; [eauto using later_trans|].
  destruct Hr as [(leased & secs & -> & Hacq)|[-> Href]]; [left|right].
  - eauto using acquired_after.
  - split; [done|]. by econstructor.
Qed.

(** The switch to serving: the address register and the driver have the leased address, and both
    callbacks stash requests. *)
Lemma start_serving_run leased n :
  node_ok n -> word32 leased ->
  wp (start_serving leased)
     (fun r n' => r = Ok tt /\ node_ok n' /\ later n n' /\ my_ip (net n') = leased /\ eb_ip_csr n' = leased /\
                  rx_callback (net n') = Some eb_rx /\ bx_callback (net n') = Some eb_rx) n.
Proof.
  intros Hn Hip. unfold start_serving. do 4 (apply wp_bind, wp_modify). set (n1 := set_net _ _ _).
  assert (Hn1 : node_ok n1).
  { do 2 (apply put_net_ok; [|apply udp_set_ip_ok; [apply Hn|done]]).
    apply put_net_ok; [exact Hn|]. apply udp_set_ip_ok; [apply Hn|done]. }
  eapply wp_mono; [by apply keeps_announce|]. intros r n2 ([[] ->] & Hn2 & H2).
  split; [done|]. split; [done|].
  split; [apply (later_trans _ n1); [exists []; apply happened_quiet; cbn; by rewrite ?app_nil_r|by apply steady_later]|].
  destruct H2 as (evs & _ & _ & _ & -> & -> & -> & ->). by split_and!.
Qed.

(** How a turn of the loop ends, and several. *)
Definition cycled (fuel : nat) (n : node B) (r : outcome unit) (n' : node B) : Prop :=
  match r with
  | Ok _ => exists n1 leased secs, acquired n n1 leased secs /\ later n1 n' /\
      my_ip (net n') = leased /\ eb_ip_csr n' = leased /\
      rx_callback (net n') = None /\ bx_callback (net n') = Some eb_rx
  | Raise _ => False
  | Diverged => exists n1, later n n1 /\ refused fuel n1 n'
  end.

Lemma cycled_later fuel n n1 r n' : later n n1 -> cycled fuel n1 r n' -> cycled fuel n r n'.
Proof.
  intros H1. destruct r as [x|e|]; cbn; [|done|].
  - intros (n2 & leased & secs & Hacq & Hrest). exists n2, leased, secs. eauto using acquired_after.
  - intros (n2 & H2 & Href). eauto using later_trans.
Qed.

Lemma lease_cycle_run fuel n :
  node_ok n -> wp (lease_cycle fuel) (fun r n' => node_ok n' /\ later n n' /\ cycled fuel n r n') n.
Proof.
  intros Hn. unfold lease_cycle. apply wp_bind, wp_modify. set (n1 := set_net _ _ _).
  assert (Hn1 : node_ok n1).
  { apply put_net_ok; [done|]. apply udp_set_peer_ok; [apply Hn|unfold word32; lia|by apply is_buffer_spec]. }
  assert (H1 : later n n1) by apply on_net_later.
  apply wp_bind. eapply wp_mono; [by apply acquire_run|]. intros r n2 (Hn2 & H2 & Hr).
  destruct Hr as [(leased & secs & -> & Hacq)|[-> Href]];
    [|split; [done|]; split; [eauto using later_trans|by exists n1]].
  pose proof (acquired_secs _ _ _ _ Hacq) as [_ Hw].
  apply wp_bind. eapply wp_mono; [by apply start_serving_run|]. intros r n3 (-> & Hn3 & H3 & C1 & C2 & C3 & C4).
  apply wp_bind. eapply wp_mono; [by apply keeps_serve_seconds|]. intros r n4 ([? ->] & Hn4 & H4).
  assert (H24 : later n2 n4) by eauto using later_trans, steady_later.
  destruct H4 as (_ & _ & _ & _ & D1 & _ & D3 & D4).
  apply wp_modify. split; [apply put_net_ok; [done|apply Hn4]|].
  split; [eauto using later_trans, on_net_later|]. exists n2, leased, secs. split; [by eapply acquired_after|].
  split; [eauto using later_trans, on_net_later|]. cbn. split_and!; congruence.
Qed.

Lemma main_loop_run cycles fuel n :
  node_ok n ->
  wp (main_loop cycles fuel) (fun r n' => node_ok n' /\ later n n' /\
    (cycles = 0%nat /\ r = Ok tt \/ (0 < cycles)%nat /\ cycled fuel n r n')) n.
Proof.
  revert n. induction cycles as [|cycles IH]; intros n Hn; cbn [main_loop].
  { apply wp_ret. eauto using later_refl. }
  apply wp_bind. eapply wp_mono; [by apply lease_cycle_run|]. intros r n1 (Hn1 & H1 & Hr).
  destruct r as [x|e|]; [|done|split; [done|]; split; [done|]; right; split; [lia|done]].
  eapply wp_mono; [by apply wp_self, IH|]. intros r n2 [(Hn2 & H2 & Hcases) Hfinal].
  split; [done|]. split; [eauto using later_trans|]. right. split; [lia|].
  destruct Hcases as [[-> ->]|[_ Hc]]; [by subst n2|by eapply cycled_later].
Qed.

Lemma startup_run phy n : node_ok n -> wp (startup phy) (fun r n' => r = Ok tt /\ node_ok n' /\ later n n') n.
Proof.
  intros Hn. unfold startup. do 2 (apply wp_bind, wp_modify). set (n1 := set_net _ _ _).
  assert (Hu : udp_ok (udp_start mac_ethmac 0 (net n))).
  { destruct Hn as ((_ & _ & H3 & _ & _ & _ & H7) & _). split; [by apply is_buffer_spec|].
    split; [apply zero_mac_ok|]. split; [done|]. split; [unfold word32; cbn; lia|].
    split; [unfold word32; cbn; lia|]. split; [by apply Nat.ltb_lt|exact H7]. }
  assert (Hn1 : node_ok n1).
  { apply put_net_ok; [by apply put_net_ok|]. apply udp_set_peer_ok; [done|unfold word32; lia|by apply is_buffer_spec]. }
  assert (H1 : later n n1) by (exists []; apply happened_quiet; cbn; by rewrite ?app_nil_r).
  destruct phy; [|by apply wp_ret]. eapply wp_mono; [by apply loopback_run|].
  intros r n2 (-> & Hn2 & H2). eauto using later_trans.
Qed.

End ProgramProofs.

(** ** Stores through the bus *)

Section ProgramStores.
Context {own : Z -> bool} {B : Type} `{Bus B}.

Lemma guards_transmit f : guards (own:=own) (B:=B) (transmit f).
Proof.
  unfold transmit. apply guards_bind; [apply guards_gets|]. intros u. apply guards_bind; [apply guards_checked|].
  intros [u' out]. apply guards_set_net.
Qed.
#[local] Hint Resolve guards_transmit : guards.

Lemma guards_arp_wait turns : guards (own:=own) (B:=B) (arp_wait turns).
Proof. induction turns; cbn [arp_wait]; eauto with guards. Qed.
#[local] Hint Resolve guards_arp_wait : guards.

Lemma guards_arp_tries tries ip : guards (own:=own) (B:=B) (arp_tries tries ip).
Proof. induction tries; cbn [arp_tries]; eauto 8 with guards. Qed.
#[local] Hint Resolve guards_arp_tries : guards.

Lemma guards_arp_refresh ip : guards (own:=own) (B:=B) (udp_arp_refresh ip).
Proof. unfold udp_arp_refresh, udp_arp_resolve. eauto 8 with guards. Qed.
#[local] Hint Resolve guards_arp_refresh : guards.

Lemma guards_service_loop turns : guards (own:=own) (B:=B) (service_loop turns).
Proof. induction turns; cbn [service_loop]; eauto with guards. Qed.
#[local] Hint Resolve guards_service_loop : guards.

Lemma guards_loopback k : guards (own:=own) (B:=B) (loopback k).
Proof. induction k; cbn [loopback]; eauto 10 with guards. Qed.
#[local] Hint Resolve guards_loopback : guards.

Lemma guards_acquire fuel : guards (own:=own) (B:=B) (acquire fuel).
Proof.
  induction fuel as [|fuel IH]; cbn [acquire]; [apply guards_diverge|]. apply guards_bind; [apply guards_dhcp_run|].
  intros [l|]; eauto with guards.
Qed.

Lemma guards_start_serving ip : guards (own:=own) (B:=B) (start_serving ip).
Proof. unfold start_serving, announce. apply guards_bind; [by apply guards_modify|]. eauto 8 with guards. Qed.

Lemma guards_serve_seconds k s ip : guards (own:=own) (B:=B) (serve_seconds k s ip).
Proof. revert s. induction k; intros s; cbn [serve_seconds]; unfold announce; eauto 10 with guards. Qed.

Lemma guards_main_loop cycles fuel : guards (own:=own) (B:=B) (main_loop cycles fuel).
Proof.
  induction cycles; cbn [main_loop]; [apply guards_ret|]. apply guards_bind; [|auto]. unfold lease_cycle.
  apply guards_bind; [apply guards_on_net|]. intros _. apply guards_bind; [apply guards_acquire|]. intros [ip secs].
  apply guards_bind; [apply guards_start_serving|]. intros _.
  apply guards_bind; [apply guards_serve_seconds|]. intros _. apply guards_on_net.
Qed.

Lemma guards_firmware_main phy cycles fuel : guards (own:=own) (B:=B) (firmware_main phy cycles fuel).
Proof. unfold firmware_main, startup. pose proof (guards_main_loop cycles fuel). eauto 8 with guards. Qed.

End ProgramStores.

(** C6: The program keeps to its buffers.  The handler of Etherbone stores wherever a request says, the
    program's own state included; let [own] be any set of addresses (the program's memory, the MAC's
    buffers and registers, the address register), and let no datagram that arrives ask for a store
    there.  Then no store of the handler goes there, and from power-up, whatever frames the MAC
    reports and for any number of turns of its loop, [main] never accesses memory outside a buffer,
    keeps the invariant, and never hands the MAC a frame that does not fit a slot.  It is held up only
    by the DHCP client finding no lease, time after time; after a whole number of turns the board's
    address and its address register are the one address it acquired by an exchange with a server,
    and what is left of it is the broadcast callback. *)
Theorem firmware_main_safe {own B} `{Bus B} phy cycles fuel (n : node (guarded own B)) :
  node_ok n -> stray (bus n) = false -> eb_pending (eb n) = false ->
  Forall (fun p => harmless own p = true) (air n) ->
  exists r n', firmware_main phy cycles fuel n = (r, n') /\ node_ok n' /\ stray (bus n') = false /\
    (exists out, sent n' = sent n ++ out /\ fits out) /\
    match r with
    | Ok _ => cycles = 0%nat \/
        exists n1 leased secs, acquired n n1 leased secs /\ later n1 n' /\
          my_ip (net n') = leased /\ eb_ip_csr n' = leased /\
          rx_callback (net n') = None /\ bx_callback (net n') = Some eb_rx
    | Raise _ => False
    | Diverged => exists n1, later n n1 /\ refused fuel n1 n'
    end.
Proof.
  intros Hn Hst Hp Ha. assert (Hrun : wp (firmware_main phy cycles fuel) (fun r n' => node_ok n' /\ later n n' /\
    (cycles = 0%nat /\ r = Ok tt \/ cycled fuel n r n')) n).
  { apply wp_bind. eapply wp_mono; [by apply startup_run|]. intros r n1 (-> & Hn1 & H1).
    eapply wp_mono; [by apply main_loop_run|]. intros r n2 (Hn2 & H2 & Hr). split; [done|].
    split; [eauto using later_trans|]. destruct Hr as [?|[_ Hc]]; [by left|right]. by eapply cycled_later. }
  assert (Hg : guarding (snd (firmware_main phy cycles fuel n))).
  { apply guards_firmware_main. do 2 (split; [done|]). unfold pending_harmless. congruence. }
  unfold wp in Hrun. destruct (firmware_main phy cycles fuel n) as [r n']. cbn [fst snd] in Hrun.
  destruct Hrun as (Hn' & (evs & _ & _ & Hs) & Hr). exists r, n'. do 2 (split; [done|]). split; [apply Hg|]. split.
  - exists (frames evs). split; [done|]. destruct Hn' as (_ & _ & _ & _ & _ & _ & Hf). unfold fits in Hf.
    rewrite Hs in Hf. by apply Forall_app in Hf as [_ Hf].
  - destruct Hr as [[-> ->]|Hc]; [by left|]. destruct r; [by right|done|done].
Qed.

(** ** Resolving an address *)

(** The poll [p] is an ARP reply from [ip] with a MAC that is not all zeros. *)
Definition arp_answer (ip : Z) (p : option (list Z * nat)) : Prop :=
  exists dst src mac tmac tip tail rxlen,
    p = Some (arp_bytes dst src ARP_OPCODE_REPLY mac ip tmac tip ++ tail, rxlen) /\
    length dst = 6%nat /\ length src = 6%nat /\ length mac = 6%nat /\ length tmac = 6%nat /\
    word32 ip /\ word32 tip /\ (ARP_PACKET_LENGTH <= rxlen <= ETHMAC_SLOT_SIZE)%nat /\
    forallb (fun b => b =? 0) mac = false.

Section Resolve.
Context {B : Type} `{Bus B}.
Implicit Types n : node B.

Lemma preserves_checked {A} (o : option A) : preserves (air (B:=B)) (checked o).
Proof. by destruct o. Qed.

#[local] Hint Resolve preserves_checked preserves_modify : frame.

(** A poll is consumed by the call that makes it. *)
Lemma udp_service_air n : air (snd (udp_service n)) = tail (air n).
Proof.
  unfold udp_service, bind at 1, get. cbn. destruct (air n) as [|[[rx rxlen]|] rest] eqn:Hair; [exact Hair| |done].
  unfold bind at 1, modify at 1. match goal with |- air (snd (?m ?w)) = _ => enough (Hp : preserves air m) by apply Hp end.
  apply preserves_bind; [auto with frame|]. intros [[u out] call].
  apply preserves_bind; [auto with frame|]. intros _. destruct call as [[[] d]|]; [|auto with frame..].
  apply preserves_if; [auto with frame|]. apply preserves_bind; [done|]. intros n'. auto with frame.
Qed.

(** Receiving an answer fills the cache. *)
Lemma answer_received n p rest :
  arp_answer (cached_ip (net n)) p -> air n = p :: rest ->
  has_mac (net (snd (udp_service n))) = true.
Proof.
  intros (dst & src & mac & tmac & tip & tail & rxlen & -> & H1 & H2 & H3 & H4 & Hip & Htip & Hlen & Hmac) Hair.
  unfold udp_service, bind at 1, get. rewrite Hair. unfold bind at 1, modify at 1.
  rewrite arp_reply_received by done. rewrite Z.eqb_refl. unfold has_mac. cbn. by rewrite Hmac.
Qed.

(** What address resolution leaves: the outcome says whether the cache has a MAC. *)
Definition resolving (ip : Z) (turns : nat) n (r : outcome bool) n' : Prop :=
  exists found, r = Ok found /\ node_ok n' /\ steady n n' /\ cached_ip (net n') = ip /\ has_mac (net n') = found /\
    forall polls p rest, air n = polls ++ p :: rest -> arp_answer ip p -> (length polls < turns)%nat -> found = true.

Lemma arp_wait_run turns n :
  node_ok n -> (0 < turns)%nat -> wp (arp_wait turns) (resolving (cached_ip (net n)) turns n) n.
Proof.
  revert n. induction turns as [|turns IH]; intros n Hn Ht; [lia|]. cbn [arp_wait].
  apply wp_bind. eapply wp_mono; [by apply wp_exact, udp_service_run|]. intros r n1 [(-> & Hn1 & Hp) Hrun].
  pose proof (udp_service_air n) as Hair. rewrite Hrun in Hair. cbn in Hair.
  assert (Hc : cached_ip (net n1) = cached_ip (net n)).
  { by destruct Hp as (evs & _ & _ & (_ & _ & Hc & _) & _). }
  assert (H1 : steady n n1) by (by apply polled_steady). apply wp_bind, wp_gets.
  destruct (has_mac (net n1)) eqn:Hmac; [apply wp_ret; by exists true|].
  assert (Hnot : forall p rest, air n = p :: rest -> arp_answer (cached_ip (net n)) p -> False).
  { intros p rest Ha Hans. pose proof (answer_received n p rest Hans Ha) as Hm. rewrite Hrun in Hm. cbn in Hm. congruence. }
  destruct turns as [|turns].
  { apply wp_ret. exists false. do 5 (split; [done|]). intros [|? polls] p rest Ha Hans Hl; [|cbn in Hl; lia].
    by destruct (Hnot p rest). }
  rewrite <- Hc. eapply wp_mono; [apply IH; [done|lia]|].
  intros r n2 (found & -> & Hn2 & H2 & Hc2 & Hm2 & Hans2). exists found. do 2 (split; [done|]).
  split; [eauto using steady_trans|]. do 2 (split; [done|]). intros polls p rest Ha Hans Hl.
  destruct polls as [|p0 polls]; [destruct (Hnot p rest); [done|by rewrite <- Hc]|].
  apply (Hans2 polls p rest); [by rewrite Hair, Ha|done|cbn in Hl; lia].
Qed.

Lemma arp_request_sent ip n :
  node_ok n ->
  wp (transmit (fun u => arp_request u ip))
     (fun r n' => r = Ok tt /\ node_ok n' /\ steady n n' /\ air n' = air n /\ cached_ip (net n') = cached_ip (net n)) n.
Proof.
  intros Hn. pose proof (keeps_arp_request ip n Hn) as ([[] Hr] & Hn' & Hs').
  unfold transmit in *. destruct (arp_request_safe (net n) ip) as ([u out] & Hreq & _ & _ & (_ & _ & Hc & _));
    [apply Hn|].
  unfold wp. split; [done|]. split; [done|]. split; [done|].
  unfold bind, gets, checked, modify. by rewrite Hreq.
Qed.

Lemma arp_tries_run tries n :
  node_ok n -> (0 < tries)%nat ->
  wp (arp_tries tries (cached_ip (net n))) (resolving (cached_ip (net n)) ARP_TIMEOUT n) n.
Proof.
  revert n. induction tries as [|tries IH]; intros n Hn Ht; [lia|]. cbn [arp_tries].
  apply wp_bind. eapply wp_mono; [by apply arp_request_sent|]. intros r n1 (-> & Hn1 & H1 & Ha1 & Hc1).
  apply wp_bind. eapply wp_mono; [apply arp_wait_run; [done|by apply Nat.ltb_lt]|].
  intros r n2 (found & -> & Hn2 & H2 & Hc2 & Hm2 & Hans2). rewrite Hc1 in Hc2, Hans2. rewrite Ha1 in Hans2.
  assert (H12 : steady n n2) by eauto using steady_trans.
  destruct found; [apply wp_ret; by exists true|]. destruct tries as [|tries].
  { apply wp_ret. by exists false. }
  rewrite <- Hc2. eapply wp_mono; [apply IH; [done|lia]|].
  intros r n3 (found & -> & Hn3 & H3 & Hc3 & Hm3 & _). exists found. do 2 (split; [done|]).
  split; [eauto using steady_trans|]. do 2 (split; [done|]). intros polls p rest Ha Hans Hl. rewrite Hc2 in Hans.
  discriminate (Hans2 polls p rest Ha Hans Hl).
Qed.

(** The part of [udp_arp_resolve] past its check of the cache. *)
Lemma resolve_tries ip n :
  node_ok n -> word32 ip ->
  wp (on_net (udp_set_peer ip (replicate 6 0)) ;;; arp_tries ARP_TRIES ip) (resolving ip ARP_TIMEOUT n) n.
Proof.
  intros Hn Hip. apply wp_bind. eapply wp_mono; [by apply wp_exact, (keeps_peer ip _ Hip zero_mac_ok)|].
  intros r n1 [(_ & Hn1 & H1) Hrun]. injection Hrun as <- Hrun. 
  assert (Hc : cached_ip (net n1) = ip) by (by rewrite <- Hrun). assert (Ha : air n1 = air n) by (by rewrite <- Hrun).
  rewrite <- Hc at 1. eapply wp_mono; [apply arp_tries_run; [done|by apply Nat.ltb_lt]|].
  rewrite Hc. intros r n2 (found & -> & Hn2 & H2 & Hrest). exists found. do 2 (split; [done|]).
  split; [eauto using steady_trans|]. by rewrite <- Ha.
Qed.

End Resolve.

(** C26: Resolving an address returns within its eight tries, whatever arrives, and tells the truth:
    afterwards the cache is about the address asked for, and it has a MAC exactly when the result
    is 1, which it is whenever one of the polls of the first try is a reply from that address.
    The board's own addresses and callbacks are as they were. *)
Theorem udp_arp_resolve_truthful {B} `{Bus B} ip (n : node B) :
  node_ok n -> word32 ip ->
  exists found n', udp_arp_resolve ip n = (Ok found, n') /\ node_ok n' /\ steady n n' /\
    cached_ip (net n') = ip /\ has_mac (net n') = found /\
    forall polls p rest, air n = polls ++ p :: rest -> arp_answer ip p -> (length polls < ARP_TIMEOUT)%nat -> found = true.
Proof.
  intros Hn Hip. assert (Hrun : wp (udp_arp_resolve ip) (resolving ip ARP_TIMEOUT n) n).
  { unfold udp_arp_resolve. apply wp_bind, wp_gets.
    destruct (Z.eqb_spec (cached_ip (net n)) ip) as [Hc|]; cbn [andb].
    - destruct (has_mac (net n)) eqn:Hm; [apply wp_ret; exists true; by eauto 8 using steady_refl|].
      apply resolve_tries; done.
    - apply resolve_tries; done. }
  unfold wp in Hrun. destruct (udp_arp_resolve ip n) as [r n']. destruct Hrun as (found & Hr & Hrest).
  cbn in Hr. subst r. by exists found, n'.
Qed.

(** ** Runs *)

Module FirmwareMainRuns.
Import UdpRuns DhcpRuns FirmwareLoopRuns.

(** A server that leases for three seconds: one second is served. *)
Definition short_ack (xid : Z) : list Z :=
  take 250 (offer xid 5) ++ [51; 4] ++ be32 3.

(** The memory of the program, the buffers of the MAC and the address register. *)
Definition program_state (a : Z) : bool :=
  ((0x10000000 <=? a) && (a <? 0x10002000)) || ((0x40000000 <=? a) && (a <? 0x40010000)) ||
  ((0x80000000 <=? a) && (a <? 0x80002000)) || (a =? 0xf0001000).

(** A requester that writes the scratch register and reads it back. *)
Definition write_request : list Z :=
  Dialect.encode 32 (EbPacket etherbone_magic 0 0 [EbRecord (Some (EbWrites 0xf0000004 [0x8008])) (Some (EbReads 7 [0xf0000004]))]).

Definition write_poll : option (list Z * nat) :=
  let f := udp_headers requester 40000 1234 (length write_request) 0 ++ write_request in Some (slot_of f, length f).

Definition guard {B} (n : node B) : node (guarded program_state B) :=
  Node (Guarded (bus n) false) (net n) (eb n) (xid_seed n) (rx_got n) (rx_msgbuf n) (rx_msglen n) (air n) (sent n)
    (eb_ip_csr n) (log n).

Definition power_up : node (guarded program_state (gmap Z Z)) :=
  guard (node0 (board0 0 None (replicate 6 0))
           [dhcp_poll (offer xid1 2); None; dhcp_poll (short_ack xid1); Some (slot_of ping, 60%nat); write_poll]).

(** A request to overwrite the program is not harmless. *)
Example overwrite_is_harmful :
  harmless_request program_state
    (Dialect.encode 32 (EbPacket etherbone_magic 0 0 [EbRecord (Some (EbWrites 0x40000000 [0])) None])) = false.
Proof. reflexivity. Qed.

Lemma firmware_main_safe_witness :
  (exists r n', firmware_main false 1 1 power_up = (r, n') /\ node_ok n' /\ stray (bus n') = false /\
    (exists out, sent n' = sent power_up ++ out /\ fits out) /\
    match r with
    | Ok _ => 1%nat = 0%nat \/
        exists n1 leased secs, acquired power_up n1 leased secs /\ later n1 n' /\
          my_ip (net n') = leased /\ eb_ip_csr n' = leased /\
          rx_callback (net n') = None /\ bx_callback (net n') = Some eb_rx
    | Raise _ => False
    | Diverged => exists n1, later power_up n1 /\ refused 1 n1 n'
    end) /\
  (let '(r, n') := firmware_main false 1 1 power_up in
   (r, eb_ip_csr n', length (sent n'), air n', inner (bus n') !! 0xf0000004)) =
  (Ok tt, 0xc0a80132, 5%nat, [], Some 0x8008).
Proof.
  split; [|vm_compute; reflexivity].
  apply (firmware_main_safe false 1 1 power_up).
  - apply (node0_ok (board0 0 None (replicate 6 0))); [|vm_compute; reflexivity].
    apply board0_ok; [unfold word32; lia|by apply is_buffer_spec].
  - reflexivity.
  - reflexivity.
  - repeat (apply Forall_cons; split; [vm_compute; reflexivity|]). apply Forall_nil_2.
Defined.

(** A gateway that answers at the third poll. *)
Definition gateway_answer : list Z := arp_bytes board_mac peer_mac ARP_OPCODE_REPLY peer_mac 0xc0a80101 board_mac 0xc0a8012c.

Definition arp_air : list (option (list Z * nat)) :=
  [None; Some (slot_of ping, 60%nat); Some (gateway_answer ++ replicate 1988 0, 64%nat); None].

Lemma udp_arp_resolve_truthful_witness :
  exists found n', udp_arp_resolve 0xc0a80101 (serving_board arp_air) = (Ok found, n') /\ node_ok n' /\
    steady (serving_board arp_air) n' /\ cached_ip (net n') = 0xc0a80101 /\ has_mac (net n') = found /\ found = true.
Proof.
  destruct (udp_arp_resolve_truthful 0xc0a80101 (serving_board arp_air)) as (found & n' & Hrun & Hn & Hs & Hc & Hm & Hans).
  - apply serving_board_ok. vm_compute. reflexivity.
  - unfold word32. lia.
  - exists found, n'. do 5 (split; [assumption|]).
    apply (Hans [None; Some (slot_of ping, 60%nat)] (Some (gateway_answer ++ replicate 1988 0, 64%nat)) [None]).
    + reflexivity.
    + exists board_mac, peer_mac, peer_mac, board_mac, 0xc0a8012c, (replicate 1988 0), 64%nat.
      do 5 (split; [reflexivity|]). split; [unfold word32; lia|]. split; [unfold word32; lia|].
      split; [split; apply Nat.leb_le; reflexivity|reflexivity].
    + apply Nat.ltb_lt. vm_compute. reflexivity.
Defined.

End FirmwareMainRuns.
