(* ===== verification/Link.v ===== *)
(** * The host and the board

    The composition of both ends of the network: [CommUDPBroadcast.read] of the host ([EbServer])
    with the serve loop of the firmware ([Firmware]).  The request the host sends reaches the board
    in a frame, the board's one turn sends a frame back, and what the host's own network stack
    delivers from that frame makes the pending [read] return the words the board read on its bus. *)

From Stdlib Require Import ZArith Lia List Bool.
From stdpp Require Import base list strings gmap.
From S2P Require Import Prelude HostOS Etherbone Discovery Bytes EbServer Udp EbServe Firmware.

Open Scope Z_scope.

(** The next request of a read of [ads]. *)
Definition next_request (w : comm_world) (ads : list Z) : list Z :=
  read_request (addr_width (self w)) (read_counter (self w) + 1) ads.

(** The poll that reports the frame of [client] with the next read request of [w], from the port
    [sport], with [tail] behind it in the slot. *)
Definition request_poll (client : udp_state) (sport c : Z) (w : comm_world) (ads tail : list Z) (rxlen : nat)
    : option (list Z * nat) :=
  let request := next_request w ads in
  Some (udp_headers client sport (EbServer.port (self w)) (length request) c ++ request ++ tail, rxlen).

Section Link.
Context {B : Type} `{Bus B} `{!BusLaws B}.

(** The request fits the board's buffer and carries the magic. *)
Lemma read_request_shape n ads :
  part_ok n ads ->
  take 2 (read_request 32 n ads) = [0x4e; 0x6f] /\ (length (read_request 32 n ads) <= EB_BUF_LEN)%nat.
Proof.
  intros Hp. split; [reflexivity|]. pose proof (encode_part_small n ads Hp) as Hl.
  assert (Hk : EB_BUF_LEN = 1500%nat) by done. unfold read_request. cbn -[Dialect.encode_part EB_BUF_LEN].
  rewrite app_nil_r. lia.
Qed.

(** What the handler makes of it. *)
Lemma read_request_handled n ads (b b' : B) reply :
  part_ok n ads -> eb8008_handle (read_request 32 n ads) b = (Ok reply, b') ->
  reply <> [] /\ b' = (serve_reads ads b).2 /\ reply_values 32 n (take RECV_MAX reply) = Some (serve_reads ads b).1.
Proof.
  intros Hp Hh. pose proof (firmware_values (fun _ => ads) n n b b' reply Hp Hh) as Hv. rewrite Z.eqb_refl in Hv.
  split; [by intros ->; rewrite take_nil in Hv|]. split; [|done].
  change (read_request 32 n ads) with (Dialect.encode 32 (read_packet n ads)) in Hh.
  rewrite eb8008_handle_run in Hh by (done || by apply read_packet_ok). injection Hh as _ <-.
  cbn [records read_packet serve writes reads from_option addrs]. by destruct (serve_reads ads b).
Qed.

End Link.

(** C3: A read crosses the network: when a frame with the host's read request is the next thing a serving
    board receives, to its address or broadcast, one turn of its serve loop reads exactly the
    requested addresses on its bus and sends one frame, to the host's MAC; the host's stack delivers
    it to the socket's port as one datagram; and as soon as that datagram is in the socket's queue in
    time, behind any others that do not answer this request, [read] returns exactly the words the
    board read, after one request. *)
Theorem read_through_board {B} `{Bus B} `{!BusLaws B} (n : node B) client sport c tail rxlen rest w i k T addr len :
  let ads := read_addrs addr len in
  ready w i k T -> addr_width (self w) = 32 -> part_ok (read_counter (self w) + 1) ads ->
  serving n -> client_ok client -> 0 <= sport < 2 ^ 16 -> 0 <= EbServer.port (self w) < 2 ^ 16 ->
  addressed (net n) (cached_ip client) = true ->
  air n = request_poll client sport c w ads tail rxlen :: rest ->
  (payload_offset + length (next_request w ads) <= rxlen <= ETHMAC_SLOT_SIZE)%nat ->
  exists n' frame reply, serve_loop 1 n = (Ok tt, n') /\ serving n' /\ air n' = rest /\
    bus n' = (serve_reads ads (bus n)).2 /\
    Firmware.sent n' = Firmware.sent n ++ [frame] /\ take 6 frame = my_mac client /\
    (forall r stale, my_ip r = my_ip client ->
       process_frame r (frame ++ stale) (length frame) =
       Some (record_src_mac (my_mac (net n)) r, [],
             (fun cb => (cb, Datagram (my_ip (net n)) (EbServer.port (self w)) sport reply)) <$>
               callback_for r (my_ip r))) /\
    forall pre d post, sk_inbox k = pre ++ d :: post -> d_data d = reply -> d_at d <= clock (cw_host w) + T ->
      Forall (fun x => d_at x <= clock (cw_host w) + T /\ values_of w (read_counter (self w) + 1) x = None) pre ->
      exists t, EbServer.read addr (Some len) "incr" w =
                (Ok (Words (serve_reads ads (bus n)).1), after_attempts w i k ads 1 t post).
Proof.
  intros ads Hr Haw Hp Hn Hc Hsp Hport Haddr Hair Hrxlen. unfold request_poll, next_request in *. rewrite Haw in *.
  destruct (read_request_shape _ _ Hp) as [Hmagic Hlen].
  destruct (request_turn n client sport _ _ c tail rxlen rest Hn Hc Hsp Hport Hlen Hmagic Haddr Hair Hrxlen)
    as (reply & n' & e & out & Hrun & Hh & Hn' & Ha & Hsent & Hrl & He & E2 & E3 & E4 & E5 & Hout).
  destruct (read_request_handled _ _ _ _ _ Hp Hh) as (Hne & Hbus & Hvals).
  destruct Hn as ((Hu & _) & _). destruct Hc as (C1 & C2 & C3 & C4 & C5).
  destruct (answer_delivered (record_src_mac (my_mac client) (net n)) e reply out) as (frame & -> & Hto & Hrx);
    [by apply record_src_mac_ok|done|done| |by rewrite E5|done|].
  { assert (Hk : (EB_BUF_LEN + 4 <= max_payload)%nat) by (apply Nat.leb_le; reflexivity). lia. }
  rewrite E2, E3, E4 in Hrx. exists n', frame, reply. do 5 (split; [done|]). split; [congruence|]. split; [exact Hrx|].
  intros pre d post Hq Hd Ht Hpre. eapply read_finds_reply; [done|exact Hq|exact Hpre|exact Ht|].
  unfold values_of. by rewrite Haw, Hd.
Qed.

(** ** Runs *)

Module LinkRuns.
Import UdpRuns FirmwareLoopRuns.

Definition link_request : list Z := EbServer.read_request 32 1 (read_addrs 0xf0000004 1).

(** What the board's handler answers. *)
Definition link_reply : list Z :=
  match (eb8008_handle link_request (bus (serving_board []))).1 with Ok r => r | _ => [] end.

(** The host: the echo of its broadcast, then the answer. *)
Definition link_sock : sock :=
  Sock true None (Some 1234) (Some 1000000) [Dgram 10 link_request "192.168.1.7"; Dgram 20 link_reply "192.168.1.44"].

Definition link_world : comm_world :=
  CommWorld (Host DiscoveryRuns.lan 0 ∅ ∅ {[0%nat := link_sock]} 1 [])
            (Comm "192.168.1.255" 1234 1000000 32 0 (Some 0%nat)).

Definition link_tail : list Z := replicate (ETHMAC_SLOT_SIZE - payload_offset - length link_request) 0.

Definition link_board : node (gmap Z Z) :=
  serving_board [Some (udp_headers requester 1234 1234 (length link_request) 0 ++ link_request ++ link_tail, 100%nat); None].

Lemma read_through_board_witness :
  (exists n' frame reply, serve_loop 1 link_board = (Ok tt, n') /\ serving n' /\ air n' = [None] /\
    bus n' = (serve_reads (read_addrs 0xf0000004 1) (bus link_board)).2 /\
    Firmware.sent n' = Firmware.sent link_board ++ [frame] /\ take 6 frame = my_mac requester /\
    (forall r stale, my_ip r = my_ip requester ->
       process_frame r (frame ++ stale) (length frame) =
       Some (record_src_mac (my_mac (net link_board)) r, [],
             (fun cb => (cb, Datagram (my_ip (net link_board)) 1234 1234 reply)) <$> callback_for r (my_ip r))) /\
    forall pre d post, sk_inbox link_sock = pre ++ d :: post -> d_data d = reply -> d_at d <= 0 + 1000000 ->
      Forall (fun x => d_at x <= 0 + 1000000 /\ values_of link_world (0 + 1) x = None) pre ->
      exists t, EbServer.read 0xf0000004 (Some 1) "incr" link_world =
                (Ok (Words (serve_reads (read_addrs 0xf0000004 1) (bus link_board)).1),
                 after_attempts link_world 0 link_sock (read_addrs 0xf0000004 1) 1 t post)) /\
  (EbServer.read 0xf0000004 (Some 1) "incr" link_world).1 = Ok (Words [0xbabe]).
Proof.
  split; [|vm_compute; reflexivity].
  apply (read_through_board link_board requester 1234 0 link_tail 100 [None] link_world 0 link_sock 1000000 0xf0000004 1).
  - by split.
  - reflexivity.
  - split; [unfold word32; cbn; lia|]. split; [repeat constructor; unfold word32; lia|simpl; lia].
  - split; [apply serving_board_ok; vm_compute; reflexivity|]. by split_and!.
  - split; [by apply is_buffer_spec|]. split; [by apply is_buffer_spec|].
    split; [unfold word32; cbn; lia|]. split; [unfold word32; cbn; lia|reflexivity].
  - lia.
  - cbn. lia.
  - reflexivity.
  - reflexivity.
  - split; apply Nat.leb_le; vm_compute; reflexivity.
Defined.

End LinkRuns.
