(* ===== verification/Board.v ===== *)
(** * Connecting to the board: [host/b8008net/board.py]

    The single-instance lock, the life cycle of the spawned bridge, the
    identifier check, [Board._connect_to], [Board.connect] and [Board.close].
    The world is the host of [HostOS] with file locks, child processes and
    [RemoteClient] objects; what the environment does at each interaction
    (does the port answer, does the child die, does the client raise) is a
    function of an event counter, over which the theorems quantify.

    The theorems: a failed attempt leaves no lock, no running child and no
    open client; a successful one holds the lock until [close]; a second
    instance is refused and changes nothing; only a cached host is retried,
    once. *)

From Stdlib Require Import ZArith Lia List Bool Ascii.
From stdpp Require Import base list strings gmap.
From S2P Require Import Prelude Text HostOS Etherbone Discovery.

Open Scope Z_scope.

(** ** Constants, in microseconds *)

Definition LITEX_SERVER_HOST : string := "localhost".
Definition LITEX_SERVER_PORT : Z := 1234.
Definition SERVER_STARTUP_TIMEOUT_S : Z := 15000000.
Definition SERVER_SHUTDOWN_TIMEOUT_S : Z := 3000000.

(** ** The world *)

(** A child: running, sent SIGTERM, sent SIGKILL, or waited for. *)
Inductive proc_state := Running | Terminated | Killed | Reaped.
Inductive client_state := Opened | Closed.

#[export] Instance proc_state_eq_dec : EqDecision proc_state.
Proof. solve_decision. Defined.

(** What the environment does at event [n]. *)
Record board_env := BoardEnv {
  listening : nat -> bool;           (** the TCP port accepts a connection *)
  connect_delay : nat -> N;          (** how long that took to find out *)
  spawn_fails : nat -> bool;
  survives : proc_state -> nat -> bool;  (** the child is still alive (never after SIGKILL) *)
  factory_raises : nat -> option pyexn;
  open_raises : nat -> option pyexn;
  close_raises : nat -> option pyexn;
  client_word : nat -> Z -> pyexn + Z;
  identifier_mem : option Z;
}.

(** The local variables the cleanup of [_connect_to] looks at. *)
Record frame := Frame { loc_server : option nat; loc_client : option nat }.

Record world := World {
  benv : board_env;
  base : host;
  ticks : nat;
  fds : gmap nat string;
  next_fd : nat;
  flocks : gmap string nat;
  procs : gmap nat proc_state;
  next_proc : nat;
  clients : gmap nat client_state;
  next_client : nat;
  warnings : list (string * string);
  locals : frame;
}.

Definition on_host {A} (m : M host A) : M world A :=
  fun w => let '(r, h) := m (base w) in
           (r, World (benv w) h (ticks w) (fds w) (next_fd w) (flocks w) (procs w) (next_proc w)
                     (clients w) (next_client w) (warnings w) (locals w)).

(** The next event. *)
Definition tick : M world nat := fun w =>
  (Ok (ticks w),
   World (benv w) (base w) (S (ticks w)) (fds w) (next_fd w) (flocks w) (procs w) (next_proc w)
         (clients w) (next_client w) (warnings w) (locals w)).

Definition set_fds (f : gmap nat string) (n : nat) (w : world) : world :=
  World (benv w) (base w) (ticks w) f n (flocks w) (procs w) (next_proc w) (clients w) (next_client w)
        (warnings w) (locals w).
Definition set_flocks (f : gmap string nat) (w : world) : world :=
  World (benv w) (base w) (ticks w) (fds w) (next_fd w) f (procs w) (next_proc w) (clients w) (next_client w)
        (warnings w) (locals w).
Definition set_procs (p : gmap nat proc_state) (n : nat) (w : world) : world :=
  World (benv w) (base w) (ticks w) (fds w) (next_fd w) (flocks w) p n (clients w) (next_client w)
        (warnings w) (locals w).
Definition set_clients (c : gmap nat client_state) (n : nat) (w : world) : world :=
  World (benv w) (base w) (ticks w) (fds w) (next_fd w) (flocks w) (procs w) (next_proc w) c n
        (warnings w) (locals w).
Definition set_locals (f : frame) (w : world) : world :=
  World (benv w) (base w) (ticks w) (fds w) (next_fd w) (flocks w) (procs w) (next_proc w) (clients w)
        (next_client w) (warnings w) f.
Definition add_warning (x : string * string) (w : world) : world :=
  World (benv w) (base w) (ticks w) (fds w) (next_fd w) (flocks w) (procs w) (next_proc w) (clients w)
        (next_client w) (warnings w ++ [x]) (locals w).

Definition pass_time (d : Z) : M world unit := on_host (modify (fun h => set_clock (clock h + d) h)).

(** Raise what the environment says, if anything. *)
Definition raise_if (o : option pyexn) : M world unit :=
  match o with Some e => raise e | None => ret tt end.

(** ** The lock *)

Record Lock := MkLock { lock_path : string; _fh : option nat }.

Definition fd_open (path : string) : M world nat :=
  on_host (write_file path "") ;;;
  let! w := get in
  modify (set_fds (<[next_fd w := path]> (fds w)) (S (next_fd w))) ;;;
  ret (next_fd w).

(** Closing a file gives up its lock. *)
Definition fd_close (fd : nat) : M world unit :=
  modify (fun w => set_flocks (filter (fun x => x.2 <> fd) (flocks w)) (set_fds (delete fd (fds w)) (next_fd w) w)).

(** [flock(fd, LOCK_EX | LOCK_NB)]: the lock belongs to the open file. *)
Definition flock_ex_nb (fd : nat) (path : string) : M world unit :=
  let! w := get in
  match flocks w !! path with
  | Some holder => if Nat.eqb holder fd then ret tt else raise OSError
  | None => modify (set_flocks (<[path := fd]> (flocks w)))
  end.

Definition flock_un (fd : nat) (path : string) : M world unit :=
  modify (fun w => match flocks w !! path with
                   | Some holder => if Nat.eqb holder fd then set_flocks (delete path (flocks w)) w else w
                   | None => w
                   end).

Definition Lock_acquire (self : Lock) : M world Lock :=
  let! fd := fd_open (lock_path self) in
  try_except (flock_ex_nb fd (lock_path self)) is_OSError (fun _ => fd_close fd ;;; raise BoardBusy) ;;;
  ret (MkLock (lock_path self) (Some fd)).

Definition Lock_release (self : Lock) : M world Lock :=
  match _fh self with
  | Some fd => flock_un fd (lock_path self) ;;; fd_close fd ;;; ret (MkLock (lock_path self) None)
  | None => ret self
  end.

Definition acquire_lock (path : string) : M world Lock := Lock_acquire (MkLock path None).

(** ** The bridge process *)

(** [socket.create_connection] in a [with]: the connection is closed again. *)
Definition _port_listening : M world bool :=
  let! n := tick in
  let! w := get in
  pass_time (Z.of_N (connect_delay (benv w) n)) ;;;
  ret (listening (benv w) n).

(** The argument is dropped: the bridge broadcasts. *)
Definition _spawn_litex_server (host : string) : M world nat :=
  let! n := tick in
  let! w := get in
  if spawn_fails (benv w) n then raise OSError
  else modify (set_procs (<[next_proc w := Running]> (procs w)) (S (next_proc w))) ;;;
       ret (next_proc w).

(** [Popen.terminate] and [Popen.kill]: nothing happens to a child that was
    waited for. *)
Definition proc_signal (proc : nat) (st : proc_state) : M world unit :=
  modify (fun w => match procs w !! proc with
                   | Some Reaped | None => w
                   | Some _ => set_procs (<[proc := st]> (procs w)) (next_proc w) w
                   end).

(** Is the child still alive at event [n]? *)
Definition proc_alive (w : world) (proc : nat) (n : nat) : bool :=
  match procs w !! proc with
  | Some Killed | Some Reaped | None => false
  | Some st => survives (benv w) st n
  end.

(** [Popen.wait(timeout)]: reaps a child that is dead; a bounded wait for a
    live one expires, an unbounded one does not return. *)
Definition proc_wait (proc : nat) (t : option Z) : M world unit :=
  let! n := tick in
  let! w := get in
  if proc_alive w proc n
  then match t with
       | Some t => pass_time t ;;; raise TimeoutExpired
       | None => diverge
       end
  else modify (set_procs (<[proc := Reaped]> (procs w)) (next_proc w)).

Definition _terminate_server (proc : nat) : M world unit :=
  proc_signal proc Terminated ;;;
  try_except (proc_wait proc (Some SERVER_SHUTDOWN_TIMEOUT_S))
    (fun e => bool_decide (e = TimeoutExpired))
    (fun _ => proc_signal proc Killed ;;; proc_wait proc None).

(** ** The client *)

Definition client_factory : M world nat :=
  let! n := tick in
  let! w := get in
  raise_if (factory_raises (benv w) n) ;;;
  modify (set_clients (<[next_client w := Closed]> (clients w)) (S (next_client w))) ;;;
  ret (next_client w).

Definition client_open (c : nat) : M world unit :=
  let! n := tick in
  let! w := get in
  raise_if (open_raises (benv w) n) ;;;
  modify (set_clients (<[c := Opened]> (clients w)) (next_client w)).

Definition client_close (c : nat) : M world unit :=
  let! n := tick in
  let! w := get in
  modify (set_clients (<[c := Closed]> (clients w)) (next_client w)) ;;;
  raise_if (close_raises (benv w) n).

Definition client_read (addr : Z) : M world Z :=
  let! n := tick in
  let! w := get in
  match client_word (benv w) n addr with inl e => raise e | inr v => ret v end.

(** [for i in range(256)], with [n] words to go from word [i]. *)
Fixpoint read_identifier_loop (n : nat) (i base_addr : Z) : M world string :=
  match n with
  | O => ret ""%string
  | S n' =>
      let! v := client_read (base_addr + 4 * i) in
      let c := Z.land v 0xFF in
      if c =? 0 then ret ""%string
      else
        let! chars := read_identifier_loop n' (i + 1) base_addr in
        ret (String (ascii_of_N (Z.to_N c)) chars)
  end.

Definition read_identifier : M world (option string) :=
  let! w := get in
  match identifier_mem (benv w) with
  | None => ret None
  | Some b => let! s := read_identifier_loop 256 0 b in ret (Some s)
  end.

(** ** csr.csv *)

(** The state machine of [csv.reader] with its default dialect. *)
Inductive csv_state := StartRecord | StartField | InField | InQuotedField | QuoteInQuotedField | EatCrnl.

(** State, the field being read and the fields before it. *)
Record csv_parser := Csv { csv_st : csv_state; csv_field : string; csv_row : list string }.

Definition csv_save (st : csv_state) (p : csv_parser) : csv_parser :=
  Csv st EmptyString (csv_row p ++ [csv_field p]).
Definition csv_add (st : csv_state) (c : ascii) (p : csv_parser) : csv_parser :=
  Csv st (csv_field p +:+ String c EmptyString) (csv_row p).

Definition is_nl (c : ascii) : bool := ((c =? "010") || (c =? "013"))%char.

(** One character; [None] is [csv.Error]. *)
Definition csv_char (c : ascii) (p : csv_parser) : option csv_parser :=
  let start_field :=
    if is_nl c then csv_save EatCrnl p
    else if (c =? "034")%char then Csv InQuotedField (csv_field p) (csv_row p)
    else if (c =? ",")%char then csv_save StartField p
    else csv_add InField c p in
  match csv_st p with
  | StartRecord => if is_nl c then Some (Csv EatCrnl (csv_field p) (csv_row p)) else Some start_field
  | StartField => Some start_field
  | InField => if is_nl c then Some (csv_save EatCrnl p)
               else if (c =? ",")%char then Some (csv_save StartField p)
               else Some (csv_add InField c p)
  | InQuotedField => if (c =? "034")%char then Some (Csv QuoteInQuotedField (csv_field p) (csv_row p))
                     else Some (csv_add InQuotedField c p)
  | QuoteInQuotedField =>
      if (c =? "034")%char then Some (csv_add InQuotedField c p)
      else if (c =? ",")%char then Some (csv_save StartField p)
      else if is_nl c then Some (csv_save EatCrnl p)
      else Some (csv_add InField c p)
  | EatCrnl => if is_nl c then Some p else None
  end.

Fixpoint csv_chars (s : string) (p : csv_parser) : option csv_parser :=
  match s with
  | EmptyString => Some p
  | String c rest => p' ← csv_char c p; csv_chars rest p'
  end.

(** The end of a line handed to the reader. *)
Definition csv_eol (p : csv_parser) : csv_parser :=
  match csv_st p with
  | StartRecord => p
  | StartField | InField | QuoteInQuotedField => csv_save StartRecord p
  | InQuotedField => p
  | EatCrnl => Csv StartRecord (csv_field p) (csv_row p)
  end.

(** The rows of the lines, up to an error ([None] as the last element). *)
Fixpoint csv_rows (ls : list string) (p : csv_parser) : list (option (list string)) :=
  match ls with
  | [] => match csv_st p with
          | InQuotedField => [Some (csv_row (csv_save StartRecord p))]
          | _ => []
          end
  | l :: ls' =>
      match csv_chars l p with
      | None => [None]
      | Some p1 =>
          let p2 := csv_eol p1 in
          match csv_st p2 with
          | StartRecord => Some (csv_row p2) :: csv_rows ls' (Csv StartRecord EmptyString [])
          | _ => csv_rows ls' p2
          end
      end
  end.

(** [filter(lambda r: r and r[0] != "#", f)] *)
Definition not_comment (l : string) : bool :=
  match l with String c _ => negb (c =? "#")%char | EmptyString => false end.

(** The loop over the rows; [csv.Error] is a [ValueError] of the model. *)
Fixpoint find_identifier (rows : list (option (list string))) : M world (option string) :=
  match rows with
  | [] => ret None
  | None :: _ => raise ValueError
  | Some row :: rows' =>
      match row with
      | a :: b :: c :: _ =>
          if bool_decide (a = "constant"%string) && bool_decide (b = "config_identifier"%string)
          then ret (Some c) else find_identifier rows'
      | _ => find_identifier rows'
      end
  end.

Definition _read_config_identifier (csr_csv : string) : M world (option string) :=
  let! text := on_host (read_file csr_csv) in
  find_identifier (csv_rows (filter (fun l => not_comment l = true) (lines text)) (Csv StartRecord EmptyString [])).

(** ** [Board] *)

Record Board := MkBoard {
  client : nat;
  board_host : string;
  board_csr_csv : string;
  _lock : option Lock;
  _server_proc : option nat;
}.

Definition identifier : M world string :=
  let! s := read_identifier in ret (default EmptyString s).

(** What the wrapper hands on to the methods of its client; [n] and [burst] have defaults. *)
Section Delegated.
Context {Regs Words Values : Type}.
Variables (client_regs : nat -> Regs) (client_read : nat -> Z -> Z -> string -> M world Words)
  (client_write : nat -> Z -> Values -> M world unit).

Definition Board_regs (b : Board) : Regs := client_regs (client b).

Definition Board_read (b : Board) (addr : Z) (n : option Z) (burst : option string) : M world Words :=
  client_read (client b) addr (default 1 n) (default "incr"%string burst).

Definition Board_write (b : Board) (addr : Z) (values : Values) : M world unit :=
  client_write (client b) addr values.

End Delegated.

Definition close (b : Board) : M world Board :=
  client_close (client b) ;;;
  let! sp := match _server_proc b with
             | Some p => _terminate_server p ;;; ret None
             | None => ret None
             end in
  let! lk := match _lock b with
             | Some l => Lock_release l ;;; ret None
             | None => ret None
             end in
  ret (MkBoard (client b) (board_host b) (board_csr_csv b) lk sp).

(** [while time.time() < deadline: ... else: raise RuntimeError].  [time.time] is the
    wall clock, which an administrator can set back; the model's clock does not go back, so what is
    proved of the length of this wait holds as long as nobody does. *)
Fixpoint wait_for_server (fuel : nat) (deadline : Z) : M world unit :=
  match fuel with
  | O => diverge
  | S fuel' =>
      let! now := on_host monotonic in
      if now <? deadline then
        let! up := _port_listening in
        if up then ret tt
        else pass_time 100000 ;;; wait_for_server fuel' deadline
      else raise RuntimeError
  end.

(** Each turn sleeps 0.1 s of the 15 s. *)
Definition STARTUP_FUEL : nat := 151.

(** The protected block. *)
Definition connect_body (csr_csv host : string) (lock : Lock) : M world Board :=
  let! up := _port_listening in
  (if up then ret tt
   else
     let! proc := _spawn_litex_server host in
     modify (fun w => set_locals (Frame (Some proc) (loc_client (locals w))) w) ;;;
     let! now := on_host monotonic in
     wait_for_server STARTUP_FUEL (now + SERVER_STARTUP_TIMEOUT_S)) ;;;
  let! c := client_factory in
  modify (fun w => set_locals (Frame (loc_server (locals w)) (Some c)) w) ;;;
  client_open c ;;;
  let! loc := gets locals in
  let board := MkBoard c host csr_csv (Some lock) (loc_server loc) in
  let! expected := _read_config_identifier csr_csv in
  let! actual := identifier in
  match expected with
  | Some e => if negb (bool_decide (actual = EmptyString)) && negb (bool_decide (actual = e))
              then modify (add_warning (actual, e)) else ret tt
  | None => ret tt
  end ;;;
  ret board.

(** The cleanup of the [except Exception] clause, before it raises again. *)
Definition connect_cleanup (lock : Lock) : M world unit :=
  let! loc := gets locals in
  match loc_client loc with
  | Some c => try_except (client_close c) is_Exception (fun _ => ret tt)
  | None => ret tt
  end ;;;
  match loc_server loc with
  | Some p => _terminate_server p
  | None => ret tt
  end ;;;
  Lock_release lock ;;;
  ret tt.

Definition _connect_to (csr_csv host lock_path : string) : M world Board :=
  let! lock := acquire_lock lock_path in
  modify (set_locals (Frame None None)) ;;;
  try_except (connect_body csr_csv host lock) is_Exception
    (fun e => connect_cleanup lock ;;; raise e).

Section Connect.
Context {C : EtherboneCodec}.

(** The [try] of [connect]: an attempt and its one retry. *)
Definition connect_attempts (csr_csv h lock_path cache_path : string) (from_cache : bool) : M world Board :=
  try_except (_connect_to csr_csv h lock_path)
    (fun e => is_Exception e && negb (bool_decide (e = BoardBusy)))
    (fun e =>
       if negb from_cache then raise e
       else
         on_host (clear_cache cache_path) ;;;
         let! retried_host := on_host (discover cache_path false) in
         match retried_host with
         | None => raise e
         | Some rh => _connect_to csr_csv rh lock_path
         end).

Definition connect (csr_csv : string) (host : option string) (lock_path cache_path : string) (use_cache : bool) :
    M world Board :=
  let! (h, from_cache) :=
    match host with
    | Some h => ret (h, false)
    | None =>
        let! cached := if use_cache then on_host (load_cache cache_path) else ret None in
        match cached with
        | Some c => ret (c, true)
        | None =>
            let! found := on_host (discover cache_path false) in
            match found with
            | Some f => ret (f, false)
            | None => raise RuntimeError
            end
        end
    end in
  connect_attempts csr_csv h lock_path cache_path from_cache.

End Connect.

(** ** Frames and termination *)

(** Everything [_connect_to] manages. *)
Definition obs (w : world) :=
  (flocks w, fds w, next_fd w, procs w, next_proc w, clients w, next_client w, locals w).

Definition no_diverge {W A} (m : M W A) : Prop := forall w, fst (m w) <> Diverged.

Section NoDiverge.
Context {W A B : Type}.

Lemma no_diverge_ret (a : A) : no_diverge (W:=W) (ret a).
Proof. done. Qed.

Lemma no_diverge_raise e : no_diverge (W:=W) (raise (A:=A) e).
Proof. done. Qed.

Lemma no_diverge_bind (m : M W A) (k : A -> M W B) :
  no_diverge m -> (forall a, no_diverge (k a)) -> no_diverge (bind m k).
Proof.
  intros Hm Hk w. unfold bind. specialize (Hm w). destruct (m w) as [[a|e|] w']; simpl in *; try done. apply Hk.
Qed.

End NoDiverge.

Lemma preserves_raise {W X A} (f : W -> X) e : preserves f (raise (A:=A) e).
Proof. done. Qed.

Lemma preserves_get {W X A} (f : W -> X) (k : W -> M W A) :
  (forall w, preserves f (k w)) -> preserves f (bind get k).
Proof. intros Hk w. apply (Hk w w). Qed.

Lemma preserves_on_host {A} (m : M host A) : preserves obs (on_host m).
Proof. intros w. unfold on_host. by destruct (m (base w)). Qed.

Lemma preserves_tick : preserves obs tick.
Proof. done. Qed.

Lemma preserves_raise_if o : preserves obs (raise_if o).
Proof. by destruct o. Qed.

Lemma no_diverge_on_host {A} (m : M host A) : no_diverge m -> no_diverge (on_host m).
Proof. intros Hm w. unfold on_host. specialize (Hm (base w)). by destruct (m (base w)). Qed.

Lemma no_diverge_tick : no_diverge tick.
Proof. done. Qed.

Lemma no_diverge_get {W} : no_diverge (W:=W) get.
Proof. done. Qed.

Lemma no_diverge_raise_if o : no_diverge (raise_if o).
Proof. by destruct o. Qed.

Lemma no_diverge_host_modify (f : host -> host) : no_diverge (on_host (modify f)).
Proof. by apply no_diverge_on_host. Qed.

(** The calls that touch nothing observed, or always end. *)
Create HintDb quiet discriminated.
#[local] Hint Resolve preserves_ret preserves_raise preserves_on_host preserves_tick preserves_raise_if
  no_diverge_ret no_diverge_raise no_diverge_host_modify no_diverge_tick no_diverge_get
  no_diverge_raise_if : quiet.

(** Walk through a program that only touches what is not observed. *)
Ltac framed :=
  repeat lazymatch goal with
    | |- forall _ : ?T, preserves _ _ => intro
    | |- forall _ : ?T, no_diverge _ => intro
    | |- preserves _ (bind get _) => apply preserves_get
    | |- preserves _ (bind _ _) => apply preserves_bind
    | |- preserves _ (match ?x with _ => _ end) => destruct x
    | |- no_diverge (bind _ _) => apply no_diverge_bind
    | |- no_diverge (match ?x with _ => _ end) => destruct x
    | |- _ => solve [auto with quiet nocore | match goal with H : _ |- _ => apply H end]
    end.

Lemma preserves_port_listening : preserves obs _port_listening.
Proof. unfold _port_listening, pass_time. framed. Qed.

Lemma no_diverge_port_listening : no_diverge _port_listening.
Proof. unfold _port_listening, pass_time. framed. Qed.

#[local] Hint Resolve preserves_port_listening no_diverge_port_listening : quiet.

Lemma preserves_wait_for_server fuel deadline : preserves obs (wait_for_server fuel deadline).
Proof.
  induction fuel as [|fuel IH]; [done|]. cbn [wait_for_server]. unfold pass_time.
  framed.
Qed.

Lemma preserves_read_config_identifier p : preserves obs (_read_config_identifier p).
Proof.
  apply preserves_bind; [apply preserves_on_host|]. intros text.
  set (rows := csv_rows _ _). induction rows as [|[row|] rows IH]; [done| |done].
  cbn [find_identifier]. by repeat case_match.
Qed.

Lemma no_diverge_read_config_identifier p : no_diverge (_read_config_identifier p).
Proof.
  apply no_diverge_bind.
  - apply no_diverge_on_host. intros h. unfold read_file, bind, get. by repeat case_match.
  - intros text. set (rows := csv_rows _ _). induction rows as [|[row|] rows IH]; [done| |done].
    cbn [find_identifier]. by repeat case_match.
Qed.

Lemma preserves_identifier : preserves obs identifier.
Proof.
  assert (Hl : forall n i b, preserves obs (read_identifier_loop n i b)).
  { induction n as [|n IH]; intros i b; [done|]. cbn [read_identifier_loop]. unfold client_read. framed. }
  unfold identifier, read_identifier. framed.
Qed.

Lemma no_diverge_identifier : no_diverge identifier.
Proof.
  assert (Hl : forall n i b, no_diverge (read_identifier_loop n i b)).
  { induction n as [|n IH]; intros i b; [done|]. cbn [read_identifier_loop]. unfold client_read. framed. }
  unfold identifier, read_identifier. framed.
Qed.

(** *** The startup wait is bounded *)

Lemma port_listening_run (w : world) :
  exists w', _port_listening w = (Ok (listening (benv w) (ticks w)), w') /\
    benv w' = benv w /\ ticks w' = S (ticks w) /\ obs w' = obs w /\
    clock (base w') = clock (base w) + Z.of_N (connect_delay (benv w) (ticks w)).
Proof. eexists. split; [reflexivity|]. done. Qed.

Lemma wait_for_server_unfold fuel deadline (w : world) :
  wait_for_server (S fuel) deadline w =
  if clock (base w) <? deadline then
    let '(_, w') := _port_listening w in
    if listening (benv w) (ticks w) then (Ok tt, w')
    else wait_for_server fuel deadline (snd (pass_time 100000 w'))
  else (Raise RuntimeError, w).
Proof.
  destruct w as [e h n ? ? ? ? ? ? ? ? ?]. cbn. unfold bind at 1. cbn.
  destruct (clock h <? deadline); [|done]. unfold bind at 1. cbn. by destruct (listening e n).
Qed.

(** Every turn uses up a tenth of a second of the time left. *)
Lemma wait_for_server_total fuel deadline (w : world) :
  deadline - clock (base w) <= 100000 * Z.of_nat fuel ->
  fst (wait_for_server (S fuel) deadline w) = Ok tt \/
  fst (wait_for_server (S fuel) deadline w) = Raise RuntimeError.
Proof.
  revert w. induction fuel as [|fuel IH]; intros w Hf; rewrite wait_for_server_unfold;
    destruct (Z.ltb_spec (clock (base w)) deadline); try (by right); [lia|].
  destruct (port_listening_run w) as (w' & -> & He & Hn & _ & Hc).
  destruct (listening (benv w) (ticks w)); [by left|]. apply IH. cbn. lia.
Qed.

(** ** The connection attempt *)

(** Descriptors, children and clients not created yet do not exist, and no
    lock is held through a descriptor not opened yet. *)
Record world_ok (w : world) : Prop := {
  ok_flocks : forall p fd, flocks w !! p = Some fd -> (fd < next_fd w)%nat;
  ok_fds : forall fd, (next_fd w <= fd)%nat -> fds w !! fd = None;
  ok_procs : forall p, (next_proc w <= p)%nat -> procs w !! p = None;
  ok_clients : forall c, (next_client w <= c)%nat -> clients w !! c = None;
}.

(** What the protected block has created since [w0], as its local variables
    record it. *)
Record body_inv (w0 w : world) : Prop := {
  bi_flocks : flocks w = flocks w0;
  bi_fds : fds w = fds w0;
  bi_next_fd : next_fd w = next_fd w0;
  bi_procs : match loc_server (locals w) with
             | None => procs w = procs w0 /\ next_proc w = next_proc w0
             | Some p => p = next_proc w0 /\ procs w = <[p := Running]> (procs w0) /\ next_proc w = S p
             end;
  bi_clients : match loc_client (locals w) with
               | None => clients w = clients w0 /\ next_client w = next_client w0
               | Some c => c = next_client w0 /\ next_client w = S c /\ exists st, clients w = <[c := st]> (clients w0)
               end;
}.

Lemma body_inv_obs w0 w w' : obs w' = obs w -> body_inv w0 w -> body_inv w0 w'.
Proof.
  unfold obs. intros [= E1 E2 E3 E4 E5 E6 E7 E8] [H1 H2 H0 H3 H4].
  split; rewrite ?E1, ?E2, ?E3, ?E4, ?E5, ?E6, ?E7, ?E8; done.
Qed.

(** A call that is quiet and ends. *)
Lemma wp_quiet {A} (m : M world A) (Q : outcome A -> world -> Prop) (w : world) :
  preserves obs m -> no_diverge m ->
  (forall w', obs w' = obs w -> (forall a, Q (Ok a) w') /\ (forall e, Q (Raise e) w')) -> wp m Q w.
Proof.
  intros Hp Hn HQ. specialize (Hp w). specialize (Hn w). unfold wp.
  destruct (m w) as [[a|e|] w']; cbn in *; [apply HQ, Hp|apply HQ, Hp|done].
Qed.

(** What the block ends with. *)
Definition body_post (w0 : world) (csr_csv host : string) (lock : Lock) (r : outcome Board) (w : world) : Prop :=
  body_inv w0 w /\
  match r with
  | Ok b => b = MkBoard (client b) host csr_csv (Some lock) (loc_server (locals w)) /\
            loc_client (locals w) = Some (client b) /\ clients w !! client b = Some Opened
  | Raise _ => True
  | Diverged => False
  end.

(** The part after the bridge is up. *)
Definition connect_client (csr_csv host : string) (lock : Lock) : M world Board :=
  let! c := client_factory in
  modify (fun w => set_locals (Frame (loc_server (locals w)) (Some c)) w) ;;;
  client_open c ;;;
  let! loc := gets locals in
  let board := MkBoard c host csr_csv (Some lock) (loc_server loc) in
  let! expected := _read_config_identifier csr_csv in
  let! actual := identifier in
  match expected with
  | Some e => if negb (bool_decide (actual = EmptyString)) && negb (bool_decide (actual = e))
              then modify (add_warning (actual, e)) else ret tt
  | None => ret tt
  end ;;;
  ret board.

Lemma connect_check_ok (w0 w : world) csr_csv host lock c :
  body_inv w0 w -> loc_client (locals w) = Some c -> clients w !! c = Some Opened ->
  wp (let! expected := _read_config_identifier csr_csv in
      let! actual := identifier in
      match expected with
      | Some e => if negb (bool_decide (actual = EmptyString)) && negb (bool_decide (actual = e))
                  then modify (add_warning (actual, e)) else ret tt
      | None => ret tt
      end ;;;
      ret (MkBoard c host csr_csv (Some lock) (loc_server (locals w))))
     (body_post w0 csr_csv host lock) w.
Proof.
  intros Hinv Hc Ho. apply wp_bind, wp_quiet;
    [apply preserves_read_config_identifier|apply no_diverge_read_config_identifier|].
  intros w1 E1. split; [|intros e; split; [by eapply body_inv_obs|done]]. intros expected.
  apply wp_bind, wp_quiet; [apply preserves_identifier|apply no_diverge_identifier|].
  intros w2 E2. rewrite E1 in E2. split; [|intros e; split; [by eapply body_inv_obs|done]]. intros actual.
  apply wp_bind. apply wp_quiet; [by repeat case_match|by repeat case_match|].
  intros w3 E3. rewrite E2 in E3. split; [|intros e; split; [by eapply body_inv_obs|done]]. intros _.
  split; [by eapply body_inv_obs|]. unfold obs in E3. injection E3 as _ _ _ _ _ E6 _ E8.
  cbn. rewrite E6, E8. done.
Qed.

Lemma connect_client_ok (w0 w : world) csr_csv host lock :
  body_inv w0 w -> loc_client (locals w) = None ->
  wp (connect_client csr_csv host lock) (body_post w0 csr_csv host lock) w.
Proof.
  intros Hinv Hc. destruct w as [e h n f nf fl p np cl nc wa [ls lc]]. cbn in Hc. subst lc.
  destruct Hinv as [H1 H2 H0 H3 H4]. cbn in H1, H2, H0, H3, H4. destruct H4 as [-> ->]. subst f fl nf.
  unfold connect_client, client_factory. cbn.
  apply wp_bind. unfold wp at 1, bind at 1, tick, get. cbn. unfold bind at 1. cbn.
  destruct (factory_raises e n) as [x|]; cbn; [by split|].
  eapply wp_bind_ok; [reflexivity|]. cbn.
  apply wp_bind. unfold wp at 1, client_open, bind at 1, tick, get. cbn. unfold bind at 1. cbn.
  destruct (open_raises e (S n)) as [x|]; cbn.
  { split; [|done]. split; cbn; [done|done|done|done|]. split; [done|]. split; [done|]. by eexists. }
  eapply wp_bind_ok; [reflexivity|]. cbn.
  apply connect_check_ok; [|done|apply lookup_insert_eq].
  split; cbn; [done|done|done|done|]. split; [done|]. split; [done|]. eexists. apply insert_insert_eq.
Qed.

Lemma wait_for_server_quiet (now : Z) (w : world) (Q : outcome unit -> world -> Prop) :
  clock (base w) = now ->
  (forall w', obs w' = obs w -> Q (Ok tt) w' /\ Q (Raise RuntimeError) w') ->
  wp (wait_for_server STARTUP_FUEL (now + SERVER_STARTUP_TIMEOUT_S)) Q w.
Proof.
  intros Hc HQ. pose proof (preserves_wait_for_server STARTUP_FUEL (now + SERVER_STARTUP_TIMEOUT_S) w) as Hp.
  pose proof (wait_for_server_total 150 (now + SERVER_STARTUP_TIMEOUT_S) w) as Ht.
  change (S 150) with STARTUP_FUEL in Ht. unfold wp. destruct (wait_for_server _ _ w) as [r w']. cbn in *.
  destruct Ht as [-> | ->]; [unfold SERVER_STARTUP_TIMEOUT_S; lia|by apply HQ|by apply HQ].
Qed.

Lemma connect_body_ok (w : world) csr_csv host lock :
  locals w = Frame None None ->
  wp (connect_body csr_csv host lock) (body_post w csr_csv host lock) w.
Proof.
  intros Hloc. assert (Hinv : body_inv w w) by (split; rewrite ?Hloc; done).
  unfold connect_body. fold (connect_client csr_csv host lock).
  apply wp_bind. destruct (port_listening_run w) as (w1 & Hrun & He & Hn & Hobs & Hclk).
  unfold wp at 1. rewrite Hrun. cbn [fst snd]. pose proof (body_inv_obs _ _ _ Hobs Hinv) as Hinv1.
  assert (Hloc1 : locals w1 = Frame None None) by (unfold obs in Hobs; congruence).
  destruct (listening (benv w) (ticks w)).
  { apply wp_bind, wp_ret, connect_client_ok; [done|by rewrite Hloc1]. }
  apply wp_bind, wp_bind. unfold wp at 1, _spawn_litex_server, bind at 1, tick. cbn. unfold bind at 1, get. cbn.
  destruct (spawn_fails (benv w1) (ticks w1)); cbn.
  { split; [|done]. by eapply body_inv_obs; [|exact Hinv1]. }
  eapply wp_bind_ok; [reflexivity|]. eapply wp_bind_ok; [reflexivity|]. cbn.
  destruct Hinv1 as [H1 H2 H0 H3 H4]. rewrite Hloc1 in H3, H4. cbn in H3, H4. destruct H3 as [Hp Hnp].
  apply wait_for_server_quiet; [done|]. intros w2 E2.
  assert (Hinv2 : body_inv w w2).
  { eapply body_inv_obs; [exact E2|]. split; cbn; [done|done|done| |].
    - split; [done|]. by rewrite Hp.
    - rewrite Hloc1. done. }
  assert (Hloc2 : loc_client (locals w2) = None) 
    by (unfold obs in E2; cbn in E2; injection E2 as _ _ _ _ _ _ _ ->; by rewrite Hloc1).
  split; [by apply connect_client_ok|by split].
Qed.

(** ** Cleaning up *)

(** The world with child [proc] reaped; only time has passed besides. *)
Definition reaped (w : world) (proc n : nat) (h : host) : world :=
  World (benv w) h n (fds w) (next_fd w) (flocks w) (<[proc := Reaped]> (procs w)) (next_proc w)
        (clients w) (next_client w) (warnings w) (locals w).

Lemma proc_wait_run proc t (w : world) :
  proc_wait proc t w =
  if proc_alive w proc (ticks w)
  then match t with
       | Some t => (Raise TimeoutExpired, snd (pass_time t (snd (tick w))))
       | None => (Diverged, snd (tick w))
       end
  else (Ok tt, reaped w proc (S (ticks w)) (base w)).
Proof.
  destruct w as [e h n f nf fl p np cl nc wa lo]. unfold proc_wait, bind at 1, tick. cbn.
  unfold bind, get, proc_alive. cbn.
  destruct (p !! proc) as [[]|]; [destruct (survives e Running n)|destruct (survives e Terminated n)|..];
    by destruct t.
Qed.

#[local] Arguments proc_wait : simpl never.

Lemma terminate_server_run proc (w : world) :
  exists n h, _terminate_server proc w = (Ok tt, reaped w proc n h).
Proof.
  destruct w as [e h n f nf fl p np cl nc wa lo].
  unfold _terminate_server, bind at 1, proc_signal at 1, modify. cbn.
  unfold try_except. rewrite proc_wait_run. unfold proc_alive. 
  destruct (p !! proc) as [[]|] eqn:E; cbn; rewrite ?E, ?lookup_insert_eq; cbn.
  all: try (do 2 eexists; reflexivity).
  all: destruct (survives e Terminated n); cbn; [|do 2 eexists; unfold reaped; cbn; by rewrite insert_insert_eq].
  all: rewrite bool_decide_eq_true_2 by done.
  all: unfold bind, proc_signal, modify; cbn; rewrite lookup_insert_eq, proc_wait_run; unfold proc_alive; cbn;
       rewrite lookup_insert_eq; do 2 eexists; unfold reaped; cbn; by rewrite !insert_insert_eq.
Qed.

(** ** The lock *)

Definition with_base (h : host) (w : world) : world :=
  World (benv w) h (ticks w) (fds w) (next_fd w) (flocks w) (procs w) (next_proc w) (clients w)
        (next_client w) (warnings w) (locals w).

(** The host after the lock file was opened for writing. *)
Definition lock_file_opened (path : string) (w : world) : host := set_files (<[path := ""%string]> (files (base w))) (base w).

Lemma flocks_without (w : world) fd :
  world_ok w -> (next_fd w <= fd)%nat -> filter (fun x => x.2 <> fd) (flocks w) = flocks w.
Proof. intros Hok Hfd. apply map_filter_id. intros p f Hf. apply (ok_flocks w Hok) in Hf. cbn. lia. Qed.

Lemma acquire_lock_run path (w : world) :
  world_ok w ->
  acquire_lock path w =
  if decide (path ∈ denied (base w)) then (Raise OSError, w) else
  match flocks w !! path with
  | Some _ => (Raise BoardBusy, set_fds (fds w) (S (next_fd w)) (with_base (lock_file_opened path w) w))
  | None => (Ok (MkLock path (Some (next_fd w))),
             set_flocks (<[path := next_fd w]> (flocks w))
               (set_fds (<[next_fd w := path]> (fds w)) (S (next_fd w)) (with_base (lock_file_opened path w) w)))
  end.
Proof.
  intros Hok. unfold acquire_lock, Lock_acquire, fd_open, on_host, write_file. cbn [lock_path].
  unfold bind, get. case_decide; [by destruct w|]. cbn -[insert]. unfold try_except, flock_ex_nb, bind, get.
  cbn -[insert]. destruct (flocks w !! path) as [holder|] eqn:Hh; [|done].
  pose proof (ok_flocks w Hok _ _ Hh). destruct (Nat.eqb_spec holder (next_fd w)); [lia|]. cbn -[insert].
  unfold set_flocks, set_fds. cbn -[insert]. rewrite flocks_without by done.
  rewrite delete_insert_id by (by apply (ok_fds w Hok)). done.
Qed.

Lemma release_run path fd (w : world) :
  flocks w !! path = Some fd ->
  Lock_release (MkLock path (Some fd)) w =
  (Ok (MkLock path None),
   set_flocks (filter (fun x => x.2 <> fd) (delete path (flocks w))) (set_fds (delete fd (fds w)) (next_fd w) w)).
Proof.
  intros Hl. unfold Lock_release, flock_un, fd_close, modify, bind, ret. cbn. rewrite Hl, Nat.eqb_refl. done.
Qed.

(** ** A failed attempt leaves nothing behind *)

(** [m'] is [m] with new entries, all of them [x]. *)
Definition extends_with {A} (x : A) (m m' : gmap nat A) : Prop :=
  forall p, m' !! p = m !! p \/ m !! p = None /\ m' !! p = Some x.

Lemma extends_refl {A} (x : A) m : extends_with x m m.
Proof. intros p. by left. Qed.

Lemma extends_insert {A} (x : A) m p : m !! p = None -> extends_with x m (<[p := x]> m).
Proof.
  intros Hp q. destruct (decide (q = p)) as [->|]; [right|left].
  - split; [done|apply lookup_insert_eq].
  - by apply lookup_insert_ne.
Qed.

Lemma extends_trans {A} (x : A) m1 m2 m3 : extends_with x m1 m2 -> extends_with x m2 m3 -> extends_with x m1 m3.
Proof.
  intros H12 H23 p. destruct (H12 p) as [E1|[N1 S1]], (H23 p) as [E2|[N2 S2]]; [left|right|right|right]; split || idtac;
    congruence.
Qed.

(** The resources of [w'] are those of [w], but for reaped children and closed clients. *)
Definition clean (w w' : world) : Prop :=
  flocks w' = flocks w /\ fds w' = fds w /\
  extends_with Reaped (procs w) (procs w') /\ extends_with Closed (clients w) (clients w').

Lemma clean_refl w : clean w w.
Proof. split_and!; [done|done|apply extends_refl|apply extends_refl]. Qed.

Lemma clean_trans w1 w2 w3 : clean w1 w2 -> clean w2 w3 -> clean w1 w3.
Proof.
  intros (A1 & B1 & C1 & D1) (A2 & B2 & C2 & D2).
  split_and!; [congruence|congruence|by eapply extends_trans|by eapply extends_trans].
Qed.

(** The world right after the lock was taken. *)
Definition locked (path : string) (w : world) : world :=
  set_locals (Frame None None)
    (set_flocks (<[path := next_fd w]> (flocks w))
      (set_fds (<[next_fd w := path]> (fds w)) (S (next_fd w)) (with_base (lock_file_opened path w) w))).

Lemma client_close_run c (w : world) :
  client_close c w =
  (match close_raises (benv w) (ticks w) with Some e => Raise e | None => Ok tt end,
   set_clients (<[c := Closed]> (clients w)) (next_client w) (snd (tick w))).
Proof. unfold client_close, bind, tick, get. cbn. by destruct (close_raises (benv w) (ticks w)). Qed.

(** One more entry than [m], with value [x] and the number [n], or none; [n'] is the next number. *)
Definition maybe_new {A} (x : A) (m m' : gmap nat A) (n n' : nat) : Prop :=
  (m' = m /\ n' = n) \/ (m' = <[n := x]> m /\ n' = S n).

Lemma maybe_new_extends {A} (x : A) m m' n n' :
  m !! n = None -> maybe_new x m m' n n' -> extends_with x m m'.
Proof. intros Hn [[-> _]|[-> _]]; [apply extends_refl|by apply extends_insert]. Qed.

Lemma maybe_new_fresh {A} (x : A) m m' n n' :
  (forall p, (n <= p)%nat -> m !! p = None) -> maybe_new x m m' n n' ->
  forall p, (n' <= p)%nat -> m' !! p = None.
Proof.
  intros Hm [[-> ->]|[-> ->]] p Hp; [by apply Hm|]. rewrite lookup_insert_ne by lia. apply Hm. lia.
Qed.

(** The client part of the cleanup, which swallows what it raises. *)
Lemma cleanup_client_ok (w0 w : world) :
  body_inv w0 w ->
  wp (match loc_client (locals w) with
      | Some c => try_except (client_close c) is_Exception (fun _ => ret tt)
      | None => ret tt
      end)
     (fun r w' => match r with Ok _ => True | Raise e => is_Exception e = false | Diverged => False end /\
        flocks w' = flocks w /\ fds w' = fds w /\ next_fd w' = next_fd w /\
        procs w' = procs w /\ next_proc w' = next_proc w /\
        maybe_new Closed (clients w0) (clients w') (next_client w0) (next_client w')) w.
Proof.
  intros [_ _ _ _ H4]. destruct (loc_client (locals w)) as [c|].
  2: { apply wp_ret. split_and!; try done. by left. }
  destruct H4 as (-> & Hnc & st & Hst). apply wp_try_except. unfold wp at 1. rewrite client_close_run. cbn [fst snd].
  assert (Hcl : clients (set_clients (<[next_client w0 := Closed]> (clients w)) (next_client w) (snd (tick w))) =
                <[next_client w0 := Closed]> (clients w0)) by (cbn; by rewrite Hst, insert_insert_eq).
  destruct (close_raises (benv w) (ticks w)) as [e|]; [destruct (is_Exception e) eqn:He|];
    [apply wp_ret|..]; split_and!; try done; by right.
Qed.

Lemma cleanup_server_ok (w0 w1 w : world) :
  match loc_server (locals w1) with
  | None => procs w = procs w0 /\ next_proc w = next_proc w0
  | Some p => p = next_proc w0 /\ procs w = <[p := Running]> (procs w0) /\ next_proc w = S p
  end ->
  wp (match loc_server (locals w1) with Some p => _terminate_server p | None => ret tt end)
     (fun r w' => r = Ok tt /\ flocks w' = flocks w /\ fds w' = fds w /\ next_fd w' = next_fd w /\
        clients w' = clients w /\ next_client w' = next_client w /\
        maybe_new Reaped (procs w0) (procs w') (next_proc w0) (next_proc w')) w.
Proof.
  destruct (loc_server (locals w1)) as [p|].
  - intros (-> & Hp & Hn). destruct (terminate_server_run (next_proc w0) w) as (n & h & Hrun).
    unfold wp. rewrite Hrun. cbn. split_and!; try done. right. by rewrite Hp, insert_insert_eq.
  - intros Hp. apply wp_ret. split_and!; try done. by left.
Qed.

Lemma connect_cleanup_ok path (w w1 : world) e :
  world_ok w -> flocks w !! path = None -> body_inv (locked path w) w1 ->
  wp (connect_cleanup (MkLock path (Some (next_fd w))) ;;; raise (A:=Board) e)
     (fun r w' => exists e', r = Raise e' /\ (is_Exception e' = true -> clean w w' /\ world_ok w')) w1.
Proof.
  intros Hok Hfree Hinv. unfold connect_cleanup. apply wp_bind, wp_bind, wp_gets, wp_bind.
  eapply wp_mono; [by apply cleanup_client_ok|].
  intros r w2 (Hr & Hfl & Hfd & Hnf & Hpr & Hnp & Hcl). destruct r as [[]|e'|]; [|by exists e'; rewrite Hr|done].
  destruct Hinv as [H1 H2 H0 H3 _]. apply wp_bind. eapply wp_mono.
  { apply (cleanup_server_ok (locked path w) w1 w2). by rewrite Hpr, Hnp. }
  intros r w3 (-> & Hfl3 & Hfd3 & Hnf3 & Hcl3 & Hnc3 & Hpr3). rewrite <- Hcl3, <- Hnc3 in Hcl.
  assert (Hfl' : flocks w3 = <[path := next_fd w]> (flocks w)) by (by rewrite Hfl3, Hfl, H1).
  assert (Hfd' : fds w3 = <[next_fd w := path]> (fds w)) by (by rewrite Hfd3, Hfd, H2).
  assert (Hnf' : next_fd w3 = S (next_fd w)) by (by rewrite Hnf3, Hnf, H0).
  apply wp_bind. unfold wp at 1. rewrite release_run by (rewrite Hfl'; apply lookup_insert_eq). cbn [fst snd].
  apply wp_ret, wp_raise. exists e. split; [done|]. intros _. unfold clean. cbn.
  rewrite Hfl', Hfd', !delete_insert_id by (done || by apply (ok_fds w Hok)). rewrite flocks_without by done.
  cbn in Hpr3, Hcl. split; [split_and!; [done|done|..]|].
  - eapply maybe_new_extends, Hpr3. by apply (ok_procs w Hok).
  - eapply maybe_new_extends, Hcl. by apply (ok_clients w Hok).
  - split; cbn; rewrite ?Hnf'.
    + intros p fd Hp%(ok_flocks w Hok). lia.
    + intros fd Hlt. apply (ok_fds w Hok). lia.
    + eapply maybe_new_fresh, Hpr3. apply (ok_procs w Hok).
    + eapply maybe_new_fresh, Hcl. apply (ok_clients w Hok).
Qed.

(** What a connection attempt ends with. *)
Definition attempt_post (w : world) (host lock_path : string) (r : outcome Board) (w' : world) : Prop :=
  match r with
  | Ok b => flocks w !! lock_path = None /\ flocks w' = <[lock_path := next_fd w]> (flocks w) /\
            fds w' = <[next_fd w := lock_path]> (fds w) /\
            _lock b = Some (MkLock lock_path (Some (next_fd w))) /\ board_host b = host /\
            match _server_proc b with
            | None => procs w' = procs w
            | Some p => procs w !! p = None /\ procs w' = <[p := Running]> (procs w)
            end /\
            clients w !! client b = None /\ clients w' = <[client b := Opened]> (clients w)
  | Raise e => is_Exception e = true -> clean w w' /\ world_ok w'
  | Diverged => False
  end.

Lemma connect_to_ok csr_csv host lock_path (w : world) :
  world_ok w -> wp (_connect_to csr_csv host lock_path) (attempt_post w host lock_path) w.
Proof.
  intros Hok. unfold _connect_to. apply wp_bind. unfold wp at 1. rewrite acquire_lock_run by done.
  case_decide; [intros _; split; [apply clean_refl|done]|].
  destruct (flocks w !! lock_path) eqn:Hfree; cbn [fst snd].
  { intros _. split; [split_and!; [done|done|apply extends_refl|apply extends_refl]|].
    destruct Hok as [O1 O2 O3 O4]. split; cbn; [|by intros; apply O2; lia|done|done].
    intros p fd Hp%O1. lia. }
  apply wp_bind, wp_modify. fold (locked lock_path w). apply wp_try_except.
  eapply wp_mono; [by apply connect_body_ok|]. intros r w1 [Hinv Hr]. destruct r as [b|e|]; [|clear Hr|done].
  - destruct Hr as (Hb & Hc & Ho). destruct Hinv as [H1 H2 _ H3 H4]. rewrite Hc in H4. destruct H4 as (Hcl & _ & st & Hst).
    rewrite Hb. cbn. split_and!; try done.
    + destruct (loc_server (locals w1)) as [p|]; [|by destruct H3]. destruct H3 as (-> & Hp & _).
      split; [by apply (ok_procs w Hok)|exact Hp].
    + rewrite Hcl. by apply (ok_clients w Hok).
    + rewrite Hst in Ho |- *. rewrite lookup_insert_eq in Ho. by injection Ho as ->.
  - destruct (is_Exception e) eqn:He; [|cbn; by rewrite He].
    eapply wp_mono; [by apply connect_cleanup_ok|]. intros r w2 (e' & -> & Hclean). done.
Qed.

(** ** What discovery needs is not touched by an attempt *)

Definition net_obs (w : world) := (env (base w), denied (base w), socks (base w), next_sock (base w)).

Lemma preserves_try_except {W X A} (f : W -> X) (m : M W A) c h :
  preserves f m -> (forall e, preserves f (h e)) -> preserves f (try_except m c h).
Proof.
  intros Hm Hh w. unfold try_except. specialize (Hm w). destruct (m w) as [[a|e|] w']; cbn in *; try done.
  destruct (c e); [by rewrite Hh|done].
Qed.

Lemma preserves_gets {W X A} (f : W -> X) (g : W -> A) : preserves f (gets g).
Proof. done. Qed.

Lemma net_on_host {A} (m : M host A) :
  preserves (fun h => (env h, denied h, socks h, next_sock h)) m -> preserves net_obs (on_host m).
Proof. intros Hm w. unfold on_host. specialize (Hm (base w)). by destruct (m (base w)). Qed.

(** Walk through a program that leaves an observation alone, with a rule for the host's part. *)
Ltac framed_by on_host_rule :=
  repeat lazymatch goal with
    | |- forall _ : _, preserves _ _ => intro
    | |- preserves _ (bind get _) => apply preserves_get
    | |- preserves _ (bind _ _) => apply preserves_bind
    | |- preserves _ (try_except _ _ _) => apply preserves_try_except
    | |- preserves _ (match ?x with _ => _ end) => destruct x
    | |- preserves _ (on_host _) => on_host_rule
    | |- preserves _ (modify _) => apply preserves_modify; intro; cbn; repeat case_match; done
    | |- preserves _ (gets _) => apply preserves_gets
    | |- preserves _ tick => done
    | |- preserves _ diverge => done
    | |- preserves _ (raise_if ?o) => unfold raise_if
    | |- preserves _ (ret _) => apply preserves_ret
    | |- preserves _ (raise _) => apply preserves_raise
    | |- _ => solve [match goal with H : _ |- _ => apply H end]
    end.
Ltac net_framed := framed_by ltac:(apply net_on_host).

Lemma net_wait_for_server fuel deadline : preserves net_obs (wait_for_server fuel deadline).
Proof.
  induction fuel as [|fuel IH]; [done|].
  cbn [wait_for_server]. unfold _port_listening, pass_time, monotonic. net_framed.
Qed.

Lemma net_find_identifier rows : preserves net_obs (find_identifier rows).
Proof. induction rows as [|[row|] rows IH]; [done| |done]. cbn [find_identifier]. by repeat case_match. Qed.

Lemma net_identifier : preserves net_obs identifier.
Proof.
  assert (Hl : forall n i b, preserves net_obs (read_identifier_loop n i b)).
  { induction n as [|n IH]; intros i b; [done|]. cbn [read_identifier_loop]. unfold client_read. net_framed. }
  unfold identifier, read_identifier. net_framed.
Qed.

Lemma net_terminate_server p : preserves net_obs (_terminate_server p).
Proof. unfold _terminate_server, proc_signal, proc_wait, pass_time. net_framed. Qed.

Lemma net_release l : preserves net_obs (Lock_release l).
Proof. unfold Lock_release, flock_un, fd_close. net_framed. Qed.

Lemma net_connect_body csr_csv host lock : preserves net_obs (connect_body csr_csv host lock).
Proof.
  pose proof net_wait_for_server as Hw. pose proof net_find_identifier as Hf. pose proof net_identifier as Hi.
  unfold connect_body, _port_listening, _spawn_litex_server, pass_time, monotonic, client_factory, client_open,
    _read_config_identifier, read_file. net_framed.
Qed.

Lemma net_connect_to csr_csv host lock_path : preserves net_obs (_connect_to csr_csv host lock_path).
Proof.
  pose proof net_connect_body as Hb. pose proof net_terminate_server as Ht. pose proof net_release as Hr.
  unfold _connect_to, acquire_lock, Lock_acquire, fd_open, write_file, flock_ex_nb, fd_close,
    connect_cleanup, client_close. net_framed.
Qed.

(** ** The environment is never changed *)

Lemma benv_on_host {A} (m : M host A) : preserves benv (on_host m).
Proof. intros w. unfold on_host. by destruct (m (base w)). Qed.
Ltac benv_framed := framed_by ltac:(apply benv_on_host).

Lemma benv_wait_for_server fuel deadline : preserves benv (wait_for_server fuel deadline).
Proof.
  induction fuel as [|fuel IH]; [done|].
  cbn [wait_for_server]. unfold _port_listening, pass_time, monotonic. benv_framed.
Qed.

Lemma benv_find_identifier rows : preserves benv (find_identifier rows).
Proof. induction rows as [|[row|] rows IH]; [done| |done]. cbn [find_identifier]. by repeat case_match. Qed.

Lemma benv_identifier : preserves benv identifier.
Proof.
  assert (Hl : forall n i b, preserves benv (read_identifier_loop n i b)).
  { induction n as [|n IH]; intros i b; [done|]. cbn [read_identifier_loop]. unfold client_read. benv_framed. }
  unfold identifier, read_identifier. benv_framed.
Qed.

Lemma benv_connect_to csr_csv host lock_path : preserves benv (_connect_to csr_csv host lock_path).
Proof.
  pose proof benv_wait_for_server as Hw. pose proof benv_find_identifier as Hf. pose proof benv_identifier as Hi.
  unfold _connect_to, acquire_lock, Lock_acquire, fd_open, flock_ex_nb, fd_close, connect_body, _port_listening,
    _spawn_litex_server, pass_time, client_factory, client_open, _read_config_identifier, connect_cleanup,
    client_close, _terminate_server, proc_signal, proc_wait, pass_time, Lock_release, flock_un, fd_close.
  benv_framed.
Qed.

Lemma benv_connect {C : EtherboneCodec} csr_csv host lock_path cache_path use_cache :
  preserves benv (connect csr_csv host lock_path cache_path use_cache).
Proof. pose proof benv_connect_to as Hc. unfold connect, connect_attempts. benv_framed. Qed.

(** ** Contracts *)

(** The network part of the host is in order and the cache is accessible. *)
Record net_ok (cache_path : string) (w : world) : Prop := {
  net_fresh : fresh_socks (base w);
  net_sockets : forall j, socket_fails (env (base w)) j = false;
  net_cache : cache_path ∉ denied (base w);
}.

Lemma net_ok_obs cache_path w w' : net_obs w' = net_obs w -> net_ok cache_path w -> net_ok cache_path w'.
Proof.
  unfold net_obs. intros [= E1 E2 E3 E4] [H1 H2 H3]. split; rewrite ?E1, ?E2; try done.
  intros i Hi. rewrite E3. apply H1. by rewrite <- E4.
Qed.

Lemma on_host_run {A} (m : M host A) (w : world) : on_host m w = (fst (m (base w)), with_base (snd (m (base w))) w).
Proof. unfold on_host. by destruct (m (base w)). Qed.

Section ConnectSpec.
Context {C : EtherboneCodec}.

Lemma discover_fresh_run cache_path (h : host) :
  fresh_socks h -> (forall j, socket_fails (env h) j = false) -> cache_path ∉ denied h ->
  exists r h', discover cache_path false h = (Ok r, h') /\ settled cache_path h h' r.
Proof.
  intros H1 H2 H3. destruct (discover_network_run cache_path h H1 H2 H3) as (r & h' & Hrun & Hs & _).
  exists r, h'. split; [exact Hrun|exact Hs].
Qed.

(** A connected board holds the lock through a descriptor of its own, its
    client is open, and its bridge is the only child it left running;
    everything else it made is reaped or closed. *)
Definition connected (w : world) (lock_path : string) (b : Board) (w' : world) : Prop :=
  exists fd, flocks w !! lock_path = None /\ flocks w' = <[lock_path := fd]> (flocks w) /\
    (forall p, flocks w !! p <> Some fd) /\ fds w !! fd = None /\ fds w' = <[fd := lock_path]> (fds w) /\
    _lock b = Some (MkLock lock_path (Some fd)) /\ clients w' !! client b = Some Opened /\
    extends_with Closed (clients w) (<[client b := Closed]> (clients w')) /\
    extends_with Reaped (procs w)
      (match _server_proc b with Some p => <[p := Reaped]> (procs w') | None => procs w' end) /\
    (forall p, _server_proc b = Some p -> procs w !! p = None /\ procs w' !! p = Some Running) /\
    (forall p, procs w' !! p = Some Running -> procs w !! p = Some Running \/ _server_proc b = Some p).

Lemma attempt_connected w0 w host lock_path b w' :
  clean w0 w -> world_ok w -> attempt_post w host lock_path (Ok b) w' -> connected w0 lock_path b w'.
Proof.
  intros (Hfl & Hfd & Hpr & Hcl) Hok (Hfree & Hfl' & Hfd' & Hl & Hh & Hs & Hc & Hc').
  exists (next_fd w). rewrite <- Hfl, <- Hfd. split_and!; try done.
  - intros p Hp%(ok_flocks w Hok). lia.
  - by apply (ok_fds w Hok).
  - rewrite Hc'. apply lookup_insert_eq.
  - rewrite Hc', insert_insert_eq. eapply extends_trans; [exact Hcl|]. by apply extends_insert.
  - eapply extends_trans; [exact Hpr|]. destruct (_server_proc b) as [p|]; [|rewrite Hs; apply extends_refl].
    destruct Hs as [Hp ->]. rewrite insert_insert_eq. by apply extends_insert.
  - intros p Hp. rewrite Hp in Hs. destruct Hs as [Hn Hs]. split.
    + destruct (Hpr p) as [<-|[? ?]]; [done|congruence].
    + rewrite Hs. apply lookup_insert_eq.
  - intros p Hp. assert (Hw : forall q, procs w !! q = Some Running -> procs w0 !! q = Some Running).
    { intros q Hq. destruct (Hpr q) as [E|[_ E]]; congruence. }
    destruct (_server_proc b) as [q|]; [|left; apply Hw; congruence]. destruct Hs as [_ Hs]. rewrite Hs in Hp.
    destruct (decide (p = q)) as [->|]; [by right|left]. apply Hw. by rewrite lookup_insert_ne in Hp.
Qed.

(** What [connect] ends with. *)
Definition connect_post (w : world) (lock_path : string) (r : outcome Board) (w' : world) : Prop :=
  match r with
  | Ok b => connected w lock_path b w'
  | Raise e => is_Exception e = true -> clean w w'
  | Diverged => False
  end.

Lemma attempt_connect_post w0 w csr_csv host lock_path :
  clean w0 w -> world_ok w -> wp (_connect_to csr_csv host lock_path) (connect_post w0 lock_path) w.
Proof.
  intros Hc Hok. eapply wp_mono; [by apply connect_to_ok|]. intros r w' Hr. destruct r as [b|e|]; [|..|done].
  - by eapply attempt_connected.
  - intros He. destruct (Hr He). by eapply clean_trans.
Qed.

Lemma clean_with_base w0 w h : clean w0 w -> clean w0 (with_base h w).
Proof. done. Qed.

Lemma world_ok_with_base w h : world_ok w -> world_ok (with_base h w).
Proof. intros []. by split. Qed.

Lemma connect_attempts_ok w0 csr_csv host lock_path cache_path (from_cache : bool) (w : world) :
  clean w0 w -> world_ok w -> net_ok cache_path w ->
  wp (connect_attempts csr_csv host lock_path cache_path from_cache) (connect_post w0 lock_path) w.
Proof.
  intros Hc Hok Hnet. unfold connect_attempts. apply wp_try_except.
  pose proof (net_connect_to csr_csv host lock_path w) as Hn. pose proof (connect_to_ok csr_csv host lock_path w Hok) as Hpost.
  unfold wp in Hpost |- * at 1. destruct (_connect_to csr_csv host lock_path w) as [[b|e|] w1]; cbn in Hn, Hpost |- *; [|..|done].
  { by eapply attempt_connected. }
  destruct (is_Exception e) eqn:He; cbn; [|congruence]. destruct (Hpost eq_refl) as [Hc1 Hok1].
  pose proof (clean_trans _ _ _ Hc Hc1) as Hc2. pose proof (net_ok_obs _ _ _ Hn Hnet) as Hnet1.
  destruct (bool_decide (e = BoardBusy)); cbn; [done|]. destruct from_cache; cbn; [|done].
  destruct Hnet1 as [N1 N2 N3]. apply wp_bind. unfold wp at 1. rewrite on_host_run, clear_cache_run by done. cbn [fst snd].
  apply wp_bind. unfold wp at 1. rewrite on_host_run. cbn [base with_base].
  set (h1 := set_files _ (base w1)).
  destruct (discover_fresh_run cache_path h1) as (r & h2 & Hd & _); [done|done|done|]. rewrite Hd. cbn [fst snd].
  destruct r as [rh|]; [|by intros _; apply clean_with_base, clean_with_base].
  apply attempt_connect_post; [by apply clean_with_base|by apply world_ok_with_base, world_ok_with_base].
Qed.

(** An explicit host is tried once. *)
Lemma connect_explicit csr_csv h lock_path cache_path use_cache w :
  connect csr_csv (Some h) lock_path cache_path use_cache w = _connect_to csr_csv h lock_path w.
Proof.
  change (connect csr_csv (Some h) lock_path cache_path use_cache w) with
    (connect_attempts csr_csv h lock_path cache_path false w). unfold connect_attempts, try_except.
  destruct (_connect_to csr_csv h lock_path w) as [[b|e|] w1]; [done| |done]. by destruct (_ && _).
Qed.

(** The contract of [connect]. *)
Lemma connect_ok csr_csv host lock_path cache_path use_cache (w : world) :
  world_ok w -> net_ok cache_path w ->
  wp (connect csr_csv host lock_path cache_path use_cache) (connect_post w lock_path) w.
Proof.
  intros Hok Hnet.
  pose proof (clean_refl w) as Hc. unfold connect. apply wp_bind.
  destruct host as [h|]; [by apply wp_ret, connect_attempts_ok|]. destruct Hnet as [N1 N2 N3]. apply wp_bind.
  eapply wp_mono with (Q := fun r w' => exists c, r = Ok c /\ w' = w).
  { destruct use_cache; [|by eexists]. unfold wp. rewrite on_host_run, load_cache_run by done. cbn.
    eexists. split; [done|]. by destruct w. }
  intros r w1 (c & -> & ->). destruct c as [c|]; [by apply wp_ret, connect_attempts_ok|].
  apply wp_bind. unfold wp at 1. rewrite on_host_run.
  destruct (discover_fresh_run cache_path (base w)) as (r & h2 & Hd & Hs); [done|done|done|]. rewrite Hd. cbn [fst snd].
  destruct r as [f|]; [|by intros _; apply clean_with_base]. apply wp_ret.
  apply connect_attempts_ok; [done|by apply world_ok_with_base|].
  destruct Hs as (E1 & E2 & E3 & _ & E4). split; cbn; rewrite ?E1, ?E2; try done.
  intros i Hi. cbn in *. rewrite E3. apply N1. lia.
Qed.

(** C7: [connect] is all or nothing, as far as [except Exception] reaches.  It always ends (on a clock that
    does not go back).  If it raises an [Exception], the lock is as it was, no file is left open, every
    child it spawned was reaped and every client it made was closed, over the first attempt and the
    retry together; if it returns, the lock was free and is now held by the board's own
    descriptor, the client is open, and the only child left running is the board's bridge.  Of a
    [KeyboardInterrupt] or a [SystemExit] nothing is said: see [interrupted_connect_leaks]. *)
Theorem connect_all_or_nothing csr_csv host lock_path cache_path use_cache (w : world) :
  world_ok w -> net_ok cache_path w ->
  connect_post w lock_path (fst (connect csr_csv host lock_path cache_path use_cache w))
                           (snd (connect csr_csv host lock_path cache_path use_cache w)).
Proof. apply connect_ok. Qed.

(** C20: The retry policy.  With an explicit host there is one attempt, whose outcome is final.  With a
    cached host, success and a refusal by the lock are final too and leave the cache as the attempt
    left it; any other failure drops the cache entry, discovers once more without the cache, and then
    either raises the first failure (nothing found, and the cache stays empty) or makes exactly one
    more attempt, with the host found. *)
Theorem connect_retry_policy csr_csv lock_path cache_path (w : world) :
  world_ok w -> net_ok cache_path w ->
  (forall h use_cache, connect csr_csv (Some h) lock_path cache_path use_cache w = _connect_to csr_csv h lock_path w) /\
  (forall c, cached_host cache_path (base w) = Some c ->
   let '(r1, w1) := _connect_to csr_csv c lock_path w in
   match r1 with
   | Raise e =>
       if bool_decide (e = BoardBusy) || negb (is_Exception e)
       then connect csr_csv None lock_path cache_path true w = (Raise e, w1)
       else exists r h2,
         discover cache_path false (set_files (delete cache_path (files (base w1))) (base w1)) = (Ok r, h2) /\
         match r with
         | None => connect csr_csv None lock_path cache_path true w = (Raise e, with_base h2 w1) /\
                   files h2 !! cache_path = None
         | Some rh => connect csr_csv None lock_path cache_path true w = _connect_to csr_csv rh lock_path (with_base h2 w1)
         end
   | _ => connect csr_csv None lock_path cache_path true w = (r1, w1)
   end).
Proof.
  intros Hok Hnet. split.
  - intros h use_cache. apply connect_explicit.
  - intros c Hcache. pose proof (net_connect_to csr_csv c lock_path w) as Hn.
    assert (Hload : on_host (load_cache cache_path) w = (Ok (Some c), w)).
    { rewrite on_host_run, load_cache_run, Hcache by apply Hnet. by destruct w. }
    assert (Heq : connect csr_csv None lock_path cache_path true w =
                  connect_attempts csr_csv c lock_path cache_path true w).
    { unfold connect, bind at 1 2. by rewrite Hload. }
    rewrite Heq. clear Heq Hload. unfold connect_attempts, try_except.
    destruct (_connect_to csr_csv c lock_path w) as [[b|e|] w1]; [done| |done]. cbn in Hn.
    destruct (net_ok_obs _ _ _ Hn Hnet) as [N1 N2 N3].
    destruct (bool_decide (e = BoardBusy)); [by rewrite andb_false_r|]. cbn [orb negb]. rewrite andb_true_r.
    destruct (is_Exception e); cbn [negb]; [|done].
    set (h1 := set_files _ (base w1)).
    destruct (discover_fresh_run cache_path h1) as (r & h2 & Hd & Hs); [done|done|done|].
    exists r, h2. split; [done|].
    assert (Hretry : forall k : option string -> M world Board,
              (on_host (clear_cache cache_path) ;;; let! rh := on_host (discover cache_path false) in k rh) w1 =
              k r (with_base h2 w1)).
    { intros k. unfold bind. rewrite on_host_run, clear_cache_run by done. cbn [fst snd].
      rewrite on_host_run. cbn [base with_base]. fold h1. by rewrite Hd. }
    rewrite Hretry. destruct r as [rh|]; [done|]. split; [done|]. destruct Hs as (_ & _ & _ & -> & _). cbn. apply lookup_delete_eq.
Qed.

End ConnectSpec.

(** Mutual exclusion: while an instance holds the lock, a second one is refused with [BoardBusy]
    before it looks at the port, spawns a bridge or creates a client, and the holder keeps the lock. *)
Theorem second_instance_refused csr_csv host lock_path holder (w : world) :
  world_ok w -> lock_path ∉ denied (base w) -> flocks w !! lock_path = Some holder ->
  exists w', _connect_to csr_csv host lock_path w = (Raise BoardBusy, w') /\
    flocks w' = flocks w /\ fds w' = fds w /\ procs w' = procs w /\ clients w' = clients w /\
    ticks w' = ticks w.
Proof.
  intros Hok Hd Hh. unfold _connect_to, bind at 1. rewrite acquire_lock_run by done.
  rewrite decide_False, Hh by done. by eexists.
Qed.

(** A terminated bridge is always reaped: whether the child dies on SIGTERM or has to be killed,
    [_terminate_server] returns without raising and the child has been waited for. *)
Theorem terminate_server_reaps proc (w : world) :
  exists w', _terminate_server proc w = (Ok tt, w') /\ procs w' = <[proc := Reaped]> (procs w) /\
    flocks w' = flocks w /\ clients w' = clients w.
Proof. destruct (terminate_server_run proc w) as (n & h & ->). by eexists. Qed.

Lemma close_run (b : Board) (w : world) lock_path fd :
  _lock b = Some (MkLock lock_path (Some fd)) -> flocks w !! lock_path = Some fd ->
  close_raises (benv w) (ticks w) = None ->
  exists w', close b w = (Ok (MkBoard (client b) (board_host b) (board_csr_csv b) None None), w') /\
    flocks w' = filter (fun x => x.2 <> fd) (delete lock_path (flocks w)) /\ fds w' = delete fd (fds w) /\
    procs w' = match _server_proc b with Some p => <[p := Reaped]> (procs w) | None => procs w end /\
    clients w' = <[client b := Closed]> (clients w).
Proof.
  intros Hl Hfl Hc. unfold close, bind at 1. rewrite client_close_run, Hc, Hl. set (w1 := set_clients _ _ _).
  assert (Hrel : forall w2, flocks w2 !! lock_path = Some fd ->
            (Lock_release (MkLock lock_path (Some fd)) ;;; ret (@None Lock)) w2 =
            (Ok None, set_flocks (filter (fun x => x.2 <> fd) (delete lock_path (flocks w2)))
                        (set_fds (delete fd (fds w2)) (next_fd w2) w2))).
  { intros w2 H2. unfold bind. by rewrite release_run. }
  destruct (_server_proc b) as [p|].
  - destruct (terminate_server_run p w1) as (n & h & Ht). unfold bind at 1 2. rewrite Ht. cbn [ret].
    unfold ret at 1. unfold bind at 1. rewrite Hrel by done. by eexists.
  - unfold bind at 1, ret at 1. unfold bind at 1. rewrite Hrel by done. by eexists.
Qed.

(** Closing a connected board undoes the connection, whatever quiet calls came between. *)
Lemma close_connected w lock_path b (w1 w2 : world) :
  connected w lock_path b w1 -> obs w2 = obs w1 -> close_raises (benv w2) (ticks w2) = None ->
  exists b' w3, close b w2 = (Ok b', w3) /\ clean w w3 /\ _lock b' = None /\ _server_proc b' = None.
Proof.
  intros (fd & Hfree & Hfl & Hnew & Hfd & Hfds & Hl & _ & Hcl & Hpr & _) Hobs Hc.
  unfold obs in Hobs. injection Hobs as O1 O2 _ O4 _ O6 _ _.
  destruct (close_run b w2 lock_path fd) as (w3 & Hclose & E1 & E2 & E3 & E4); [done| |done|].
  { rewrite O1, Hfl. apply lookup_insert_eq. }
  eexists _, w3. split; [exact Hclose|]. split; [|done].
  rewrite O1, Hfl, delete_insert_id in E1 by done. rewrite O2, Hfds, delete_insert_id in E2 by done.
  rewrite O4 in E3. rewrite O6 in E4. split_and!; [|done|by rewrite E3|by rewrite E4].
  rewrite E1. apply map_filter_id. intros p f Hp. cbn. intros ->. by apply (Hnew p).
Qed.

(** [close] gives everything back: after a successful attempt, closing the board (when the client
    closes) releases the lock and its file, reaps the bridge this board spawned and closes the
    client, so that the world is as before the attempt and the next instance is not refused. *)
Theorem close_gives_back csr_csv host lock_path (w w1 : world) b :
  world_ok w -> _connect_to csr_csv host lock_path w = (Ok b, w1) ->
  close_raises (benv w1) (ticks w1) = None ->
  exists b' w2, close b w1 = (Ok b', w2) /\ clean w w2 /\ _lock b' = None /\ _server_proc b' = None.
Proof.
  intros Hok Hrun Hc. pose proof (connect_to_ok csr_csv host lock_path w Hok) as Hpost. unfold wp in Hpost.
  rewrite Hrun in Hpost. apply close_connected with (lock_path := lock_path) (w1 := w1); [|done|done].
  by eapply attempt_connected; [apply clean_refl|..].
Qed.

(** [close] does not survive a client that fails to close: the exception escapes before the
    bridge is terminated and the lock released, so the child keeps running and the lock stays held. *)
Theorem close_leaks_on_client_error b (w : world) e :
  close_raises (benv w) (ticks w) = Some e ->
  exists w', close b w = (Raise e, w') /\ flocks w' = flocks w /\ fds w' = fds w /\ procs w' = procs w.
Proof. intros Hc. unfold close, bind at 1. rewrite client_close_run, Hc. by eexists. Qed.

(** ** The identifier *)

(** The memory holds the characters of [s] from word [i] on, and a NUL if there is room for it. *)
Fixpoint holds_string (mem : Z -> Z) (base_addr i : Z) (n : nat) (s : string) : Prop :=
  match s, n with
  | EmptyString, O => True
  | EmptyString, S _ => Z.land (mem (base_addr + 4 * i)) 0xFF = 0
  | String c rest, S n' => Z.land (mem (base_addr + 4 * i)) 0xFF = Z.of_N (N_of_ascii c) /\ c <> "000"%char /\
                           holds_string mem base_addr (i + 1) n' rest
  | String _ _, O => False
  end.

Lemma client_read_run mem addr (w : world) :
  (forall n a, client_word (benv w) n a = inr (mem a)) ->
  client_read addr w = (Ok (mem addr), snd (tick w)).
Proof. intros Hm. unfold client_read, bind, tick, get. cbn. by rewrite Hm. Qed.

Lemma read_identifier_loop_run mem b n i s (w : world) :
  (forall n a, client_word (benv w) n a = inr (mem a)) -> holds_string mem b i n s ->
  exists w', read_identifier_loop n i b w = (Ok s, w').
Proof.
  revert i s w. induction n as [|n IH]; intros i s w Hm Hs.
  { destruct s; [by eexists|done]. }
  cbn [read_identifier_loop]. unfold bind at 1. rewrite (client_read_run mem) by done. destruct s as [|c s].
  { cbn in Hs. rewrite Hs. by eexists. }
  destruct Hs as (Hc & Hne & Hs). rewrite Hc.
  destruct (Z.eqb_spec (Z.of_N (N_of_ascii c)) 0) as [E|_].
  { destruct Hne. rewrite <- (ascii_N_embedding c). by replace (N_of_ascii c) with 0%N by lia. }
  destruct (IH (i + 1) s (snd (tick w))) as [w' Hw']; [done|done|]. unfold bind. rewrite Hw'.
  exists w'. by rewrite N2Z.id, ascii_N_embedding.
Qed.

(** The identifier round-trips: if the words of [identifier_mem] hold the characters of [s] (in
    their low bytes, at most 256 of them, NUL-terminated when shorter), [read_identifier] returns
    exactly [s]; without an [identifier_mem] it returns [None] and [Board.identifier] is empty. *)
Theorem read_identifier_roundtrip mem (w : world) s :
  (forall n a, client_word (benv w) n a = inr (mem a)) ->
  match identifier_mem (benv w) with
  | Some b => holds_string mem b 0 256 s ->
              fst (read_identifier w) = Ok (Some s) /\ fst (identifier w) = Ok s
  | None => read_identifier w = (Ok None, w) /\ identifier w = (Ok EmptyString, w)
  end.
Proof.
  intros Hm. unfold identifier, read_identifier, bind, get.
  destruct (identifier_mem (benv w)) as [b|]; [|done]. intros Hs.
  destruct (read_identifier_loop_run mem b 256 0 s w Hm Hs) as [w' ->]. done.
Qed.

(** ** Runs *)

Module BoardRuns.
Import Dialect.

Definition csr_text : string :=
  "# comment
csr_base,b8008,0xf0000000,,
constant,config_identifier,b8,,
".

Definition id_mem (a : Z) : Z := if a =? 0 then 98 else if a =? 4 then 56 else 0.

(** The bridge comes up at the second look; [open_raises] says when opening the client fails; the
    child ignores SIGTERM. *)
Definition env_with (fails : nat -> option pyexn) (closes : nat -> option pyexn) : board_env :=
  BoardEnv (fun n => Nat.leb 3 n) (fun _ => 1000%N) (fun _ => false) (fun _ _ => true)
           (fun _ => None) fails closes (fun _ a => inr (id_mem a)) (Some 0).

Definition world_with (e : board_env) (fs : gmap string string) : world :=
  World e (Host DiscoveryRuns.lan 0 (<["csr.csv"%string := csr_text]> fs) ∅ ∅ 0 []) 0 ∅ 1 ∅ ∅ 0 ∅ 0 [] (Frame None None).

Definition good : world := world_with (env_with (fun _ => None) (fun _ => None)) ∅.
(** A stale cache entry, and a client that fails to open the first time. *)
Definition stale : world :=
  world_with (env_with (fun n => if Nat.leb n 10 then Some ConnectionRefusedError else None) (fun _ => None))
             {["cache"%string := "192.168.7.99"%string]}.
Definition busy : world := set_flocks {["lock"%string := 0%nat]} good.

Lemma world_with_ok e fs : world_ok (world_with e fs).
Proof. split; intros; cbn in *; try apply lookup_empty. by rewrite lookup_empty in H. Qed.

Lemma busy_ok : world_ok busy.
Proof.
  split; intros; cbn in *; try apply lookup_empty. apply lookup_singleton_Some in H as [_ <-]. lia.
Qed.

Lemma world_with_net e fs : net_ok "cache" (world_with e fs).
Proof. split; [intros i _; apply lookup_empty|done|apply not_elem_of_empty]. Qed.

Example config_identifier_read :
  fst (_read_config_identifier "csr.csv" good) = Ok (Some "b8"%string).
Proof. vm_compute. done. Qed.

Example stale_cache_retried :
  match connect "csr.csv" None "lock" "cache" true stale with
  | (Ok b, w) => board_host b = "192.168.7.45"%string /\ procs w !! 0%nat = Some Reaped /\
                 files (base w) !! "cache"%string = Some ("192.168.7.45" +:+ newline)%string
  | _ => False
  end.
Proof. vm_compute. done. Qed.

(** Ctrl-C once the bridge has been spawned is not an [Exception]: the clause at the end of
    [_connect_to] does not run, the child runs on and the descriptor of the lock stays open. *)
Definition interrupted : world :=
  world_with (BoardEnv (fun n => Nat.leb 3 n) (fun _ => 1000%N) (fun _ => false) (fun _ _ => true)
    (fun _ => Some KeyboardInterrupt) (fun _ => None) (fun _ => None) (fun _ a => inr (id_mem a)) (Some 0)) ∅.

Lemma interrupted_connect_leaks :
  world_ok interrupted /\
  fst (connect "csr.csv" None "lock" "cache" true interrupted) = Raise KeyboardInterrupt /\
  (let w := snd (connect "csr.csv" None "lock" "cache" true interrupted) in
   flocks w !! "lock"%string = Some 1%nat /\ fds w !! 1%nat = Some "lock"%string /\ procs w !! 0%nat = Some Running).
Proof. split; [apply world_with_ok|]. vm_compute. done. Qed.

Lemma connect_all_or_nothing_witness :
  connect_post good "lock" (fst (connect "csr.csv" None "lock" "cache" true good))
                           (snd (connect "csr.csv" None "lock" "cache" true good)).
Proof.
  apply (connect_all_or_nothing "csr.csv" None "lock" "cache" true good);
    [apply world_with_ok|apply world_with_net].
Defined.

Lemma connect_retry_policy_witness :
  (forall h use_cache, connect "csr.csv" (Some h) "lock" "cache" use_cache stale = _connect_to "csr.csv" h "lock" stale) /\
  (forall c, cached_host "cache" (base stale) = Some c ->
   let '(r1, w1) := _connect_to "csr.csv" c "lock" stale in
   match r1 with
   | Raise e =>
       if bool_decide (e = BoardBusy) || negb (is_Exception e)
       then connect "csr.csv" None "lock" "cache" true stale = (Raise e, w1)
       else exists r h2,
         discover "cache" false (set_files (delete "cache"%string (files (base w1))) (base w1)) = (Ok r, h2) /\
         match r with
         | None => connect "csr.csv" None "lock" "cache" true stale = (Raise e, with_base h2 w1) /\
                   files h2 !! "cache"%string = None
         | Some rh => connect "csr.csv" None "lock" "cache" true stale = _connect_to "csr.csv" rh "lock" (with_base h2 w1)
         end
   | _ => connect "csr.csv" None "lock" "cache" true stale = (r1, w1)
   end).
Proof.
  apply (connect_retry_policy "csr.csv" "lock" "cache" stale); [apply world_with_ok|apply world_with_net].
Defined.

Lemma second_instance_refused_witness :
  exists w', _connect_to "csr.csv" "192.168.7.45" "lock" busy = (Raise BoardBusy, w') /\
    flocks w' = flocks busy /\ fds w' = fds busy /\ procs w' = procs busy /\ clients w' = clients busy /\
    ticks w' = ticks busy.
Proof.
  apply (second_instance_refused "csr.csv" "192.168.7.45" "lock" 0 busy);
    [apply busy_ok|apply not_elem_of_empty|reflexivity].
Defined.

Definition connected_run : outcome Board * world := _connect_to "csr.csv" "192.168.7.45" "lock" good.
Definition connected_board : Board :=
  MkBoard 0 "192.168.7.45" "csr.csv" (Some (MkLock "lock" (Some 1%nat))) (Some 0%nat).

Lemma close_gives_back_witness :
  exists b' w2, close connected_board (snd connected_run) = (Ok b', w2) /\ clean good w2 /\
    _lock b' = None /\ _server_proc b' = None.
Proof.
  apply (close_gives_back "csr.csv" "192.168.7.45" "lock" good (snd connected_run) connected_board).
  - apply world_with_ok.
  - vm_compute. reflexivity.
  - reflexivity.
Defined.

Lemma close_leaks_on_client_error_witness :
  exists w', close connected_board (world_with (env_with (fun _ => None) (fun _ => Some OSError)) ∅) = (Raise OSError, w') /\
    flocks w' = ∅ /\ fds w' = ∅ /\ procs w' = ∅.
Proof.
  apply (close_leaks_on_client_error connected_board
           (world_with (env_with (fun _ => None) (fun _ => Some OSError)) ∅) OSError).
  reflexivity.
Defined.

Lemma read_identifier_roundtrip_witness :
  fst (read_identifier good) = Ok (Some "b8"%string) /\ fst (identifier good) = Ok "b8"%string.
Proof.
  apply (read_identifier_roundtrip id_mem good "b8" (fun _ _ => eq_refl)).
  cbn. split_and!; [reflexivity|discriminate|reflexivity|discriminate|reflexivity].
Defined.

End BoardRuns.
