(* ===== verification/SelfTest.v ===== *)
(** * The hardware self-test: [soc/host_selftest.py]

    The pure helpers, the polling loops and [run_checks], over the console of
    [Console] and an interface [SelfTestBoard] of what else the script touches:
    the wall clock, the identifier, the scratch register, a burst read and the
    report it prints.  A report line is its number, the rendered bytes or word
    it shows and its verdict.

    The theorems: [compare_bytes] finds the first difference, [batches] cuts
    without loss, a poll ends and returns exactly what it consumed, and a run
    without failures means that the banner, the help text, the scratch
    patterns and the burst were all seen. *)

From Stdlib Require Import ZArith Lia List Bool Ascii SpecFloat.
From stdpp Require Import base list strings.
From S2P Require Import Prelude Console ConsoleOnBridge.

Open Scope Z_scope.

(** ** Constants *)

(** "8008 ", "H\r" and "Help" *)
Definition BANNER_PREFIX : list Z := [56; 48; 48; 56; 32].
Definition HELP_COMMAND : list Z := [72; 13].
Definition HELP_MARKER : list Z := [72; 101; 108; 112].

(** ** Pure helpers *)

(** The loop over the indices both lists have, from index [i]. *)
Fixpoint first_diff (expected actual : list Z) (i : Z) : option Z :=
  match expected, actual with
  | e :: expected', a :: actual' => if e =? a then first_diff expected' actual' (i + 1) else Some i
  | _, _ => None
  end.

Definition compare_bytes (expected actual : list Z) : bool * Z :=
  if negb (Z.of_nat (length expected) =? Z.of_nat (length actual)) then
    let n := Z.min (Z.of_nat (length expected)) (Z.of_nat (length actual)) in
    match first_diff expected actual 0 with
    | Some i => (false, i)
    | None => (false, n)
    end
  else
    match first_diff expected actual 0 with
    | Some i => (false, i)
    | None => (true, -1)
    end.

(** [range(0, len(seq), size)] has at most [len(seq)] elements. *)
Fixpoint batches_from (fuel : nat) (i size : Z) (seq : list Z) : list (list Z) :=
  match fuel with
  | O => []
  | S fuel' =>
      if i <? Z.of_nat (length seq)
      then take (Z.to_nat size) (drop (Z.to_nat i) seq) :: batches_from fuel' (i + size) size seq
      else []
  end.

(** The batches the generator yields. *)
Definition batches {W} (seq : list Z) (size : Z) : M W (list (list Z)) :=
  if size <=? 0 then raise ValueError else ret (batches_from (length seq) 0 size seq).

Definition find_prefix (buf prefix : list Z) : bool := bool_decide (take (length prefix) buf = prefix).

Definition hex_digit (n : Z) : ascii := ascii_of_N (Z.to_N (if n <? 10 then 48 + n else 87 + n)).

Fixpoint decode_printable (buf : list Z) : string :=
  match buf with
  | [] => EmptyString
  | b :: rest =>
      (if b =? 0x0d then "\r"
       else if b =? 0x0a then "\n"
       else if (0x20 <=? b) && (b <? 0x7f) then String (ascii_of_N (Z.to_N b)) EmptyString
       else "\x" +:+ String (hex_digit (b / 16)) (String (hex_digit (b mod 16)) EmptyString))
      +:+ decode_printable rest
  end.

(** [marker in buf] on bytes. *)
Fixpoint contains (buf marker : list Z) : bool :=
  find_prefix buf marker || match buf with [] => false | _ :: rest => contains rest marker end.

(** ** The board *)

(** A line of the report. *)
Inductive report_line :=
| Identifier (text : string)
| Banner (text : string) (pass : bool)
| Command (text : string) (pass : bool)
| ScratchBad (pattern got : Z)
| ScratchOk
| Burst (len first : Z) (pass : bool).

Class SelfTestBoard (W : Type) := {
  time_now : M W Z;
  read_ident : M W (option string);
  scratch_write : Z -> M W unit;
  scratch_read : M W Z;
  burst_read : Z -> M W (list Z);
  print : report_line -> M W unit;
}.

(** The double nearest to 0.02, and 3.0 s in microseconds. *)
Definition POLL_S : spec_float := S754_finite false 5764607523034235 (-58).
Definition TIMEOUT_S : Z := 3000000.
(** Each turn of a poll sleeps 0.02 s of the 3 s. *)
Definition POLL_FUEL : nat := 151.

Section Checks.
Context {W : Type} `{!ConsoleRegs W, !SelfTestBoard W}.

Definition get_identifier : M W string :=
  let! ident := read_ident in ret (default "<no identifier_mem>"%string ident).

Definition drain_rx : M W (list Z) := drain.

Definition send_command (data : list Z) : M W unit := send data None ;;; ret tt.

(** The loop of both polls; [found] is what ends it early.  [time.time] is the wall clock; the laws of
    [SelfTestLaws] are those of a clock that nobody sets back. *)
Fixpoint poll_loop (fuel : nat) (found : list Z -> bool) (deadline : Z) (buf : list Z) : M W (list Z) :=
  match fuel with
  | O => diverge
  | S fuel' =>
      let! t := time_now in
      if t <? deadline then
        let! more := drain_rx in
        let buf := buf ++ more in
        if found buf then ret buf
        else sleep POLL_S ;;; poll_loop fuel' found deadline buf
      else ret buf
  end.

Definition poll_banner : M W (list Z) :=
  let! t := time_now in
  poll_loop POLL_FUEL (fun buf => find_prefix buf BANNER_PREFIX) (t + TIMEOUT_S) [].

Definition poll_marker (marker : list Z) : M W (list Z) :=
  let! t := time_now in
  poll_loop POLL_FUEL (fun buf => contains buf marker) (t + TIMEOUT_S) [].

Definition SCRATCH_PATTERNS : list Z := [0xA5A5A5A5; 0x5A5A5A5A; 0x8008BEEF].

(** Check 4: the failures it adds. *)
Fixpoint scratch_check (patterns : list Z) : M W Z :=
  match patterns with
  | [] => print ScratchOk ;;; ret 0
  | pattern :: patterns' =>
      scratch_write pattern ;;;
      let! got := scratch_read in
      if negb (got =? pattern) then print (ScratchBad pattern got) ;;; ret 1
      else scratch_check patterns'
  end.

(** Check 5; the line of a failure shows the first word. *)
Definition burst_check : M W Z :=
  let! burst := burst_read 255 in
  match burst with
  | [] => raise IndexError
  | first :: _ =>
      if (Z.of_nat (length burst) =? 255) && (first =? 0x8008BEEF)
      then print (Burst 255 first true) ;;; ret 0
      else print (Burst (Z.of_nat (length burst)) first false) ;;; ret 1
  end.

Definition run_checks : M W Z :=
  let! ident := get_identifier in
  print (Identifier ident) ;;;
  let! banner := poll_banner in
  let ok2 := find_prefix banner BANNER_PREFIX in
  print (Banner (decode_printable banner) ok2) ;;;
  send_command HELP_COMMAND ;;;
  let! resp := poll_marker HELP_MARKER in
  let ok3 := contains resp HELP_MARKER in
  print (Command (decode_printable resp) ok3) ;;;
  let! bad4 := scratch_check SCRATCH_PATTERNS in
  let! bad5 := burst_check in
  ret ((if ok2 then 0 else 1) + (if ok3 then 0 else 1) + bad4 + bad5).

End Checks.

(** ** The pure helpers are right *)

Lemma first_diff_some e a i j :
  first_diff e a i = Some j ->
  exists p x y e' a', e = p ++ x :: e' /\ a = p ++ y :: a' /\ x <> y /\ j = i + Z.of_nat (length p).
Proof.
  revert a i. induction e as [|x e IH]; intros [|y a] i Hd; simplify_eq/=.
  destruct (Z.eqb_spec x y) as [->|Hne]; simplify_eq.
  - apply IH in Hd as (p & x' & y' & e' & a' & -> & -> & Hne & ->). exists (y :: p), x', y', e', a'.
    split_and!; try done. simpl. lia.
  - exists [], x, y, e, a. split_and!; try done. simpl. lia.
Qed.

Lemma first_diff_none e a i :
  first_diff e a i = None -> (exists t, a = e ++ t) \/ (exists t, e = a ++ t).
Proof.
  revert a i. induction e as [|x e IH]; intros [|y a] i Hd; simplify_eq/=; [by left; eexists|by left; eexists|by right; eexists|].
  destruct (Z.eqb_spec x y) as [->|Hne]; simplify_eq.
  apply IH in Hd as [[t ->]|[t ->]]; [left|right]; by exists t.
Qed.

(** [compare_bytes] answers [(True, -1)] exactly for equal inputs, and otherwise the first index
    at which they differ: before it both agree, and at it one has another byte or has ended. *)
Theorem compare_bytes_correct expected actual :
  match compare_bytes expected actual with
  | (true, i) => i = -1 /\ expected = actual
  | (false, i) => exists p e a, expected = p ++ e /\ actual = p ++ a /\ head e <> head a /\ i = Z.of_nat (length p)
  end.
Proof.
  unfold compare_bytes. destruct (first_diff expected actual 0) as [j|] eqn:Hd.
  - apply first_diff_some in Hd as (p & x & y & e & a & -> & -> & Hne & ->).
    destruct (negb _); exists p, (x :: e), (y :: a); split_and!; try done; cbn; congruence.
  - apply first_diff_none in Hd as [[t ->]|[t ->]]; rewrite length_app; destruct t as [|x t]; cbn [length].
    + rewrite app_nil_r, Nat.add_0_r, Z.eqb_refl. done.
    + replace (_ =? _) with false by (symmetry; apply Z.eqb_neq; lia).
      exists expected, [], (x :: t). rewrite app_nil_r. split_and!; try done. lia.
    + rewrite app_nil_r, Nat.add_0_r, Z.eqb_refl. done.
    + replace (_ =? _) with false by (symmetry; apply Z.eqb_neq; lia).
      exists actual, (x :: t), []. rewrite app_nil_r. split_and!; try done. lia.
Qed.

Lemma batches_from_spec fuel i size seq :
  0 <= i -> 1 <= size -> (length seq - Z.to_nat i <= fuel)%nat ->
  concat (batches_from fuel i size seq) = drop (Z.to_nat i) seq /\
  Forall (fun b => 1 <= Z.of_nat (length b) <= size) (batches_from fuel i size seq) /\
  (forall k b, batches_from fuel i size seq !! k = Some b -> (S k < length (batches_from fuel i size seq))%nat ->
               Z.of_nat (length b) = size).
Proof.
  revert i. induction fuel as [|fuel IH]; intros i Hi Hs Hf; cbn [batches_from].
  { rewrite drop_ge by lia. split_and!; [done|constructor|]. intros k b Hk. by rewrite lookup_nil in Hk. }
  destruct (Z.ltb_spec i (Z.of_nat (length seq))) as [Hlt|Hge].
  2: { rewrite drop_ge by lia. split_and!; [done|constructor|]. intros k b Hk. by rewrite lookup_nil in Hk. }
  destruct (IH (i + size)) as (Hc & Hall & Hfull); [lia|lia|lia|].
  assert (Hdrop : drop (Z.to_nat (i + size)) seq = drop (Z.to_nat size) (drop (Z.to_nat i) seq)).
  { rewrite drop_drop. f_equal. lia. }
  split_and!.
  - cbn [concat]. rewrite Hc, Hdrop. apply take_drop.
  - constructor; [|done]. rewrite length_take, length_drop. lia.
  - intros [|k] b Hk Hlen; cbn in Hk.
    + injection Hk as <-. rewrite length_take, length_drop.
      destruct (Z.le_gt_cases (Z.of_nat (length seq)) (i + size)) as [Hend|]; [|lia].
      exfalso. cbn in Hlen. destruct (batches_from fuel (i + size) size seq) as [|b bs]; [simpl in Hlen; lia|].
      apply Forall_cons in Hall as [Hb _]. apply (f_equal length) in Hc.
      rewrite drop_ge in Hc by lia. cbn in Hc. rewrite length_app in Hc. lia.
    + apply (Hfull k b Hk). cbn in Hlen. lia.
Qed.

(** [batches] cuts without loss: a size that is not positive raises [ValueError]; otherwise the
    batches joined are the sequence, none is empty or too long, and all but the last are full. *)
Theorem batches_correct {W} (seq : list Z) size (w : W) :
  if size <=? 0 then batches seq size w = (Raise ValueError, w)
  else exists bs, batches seq size w = (Ok bs, w) /\ concat bs = seq /\
         Forall (fun b => 1 <= Z.of_nat (length b) <= size) bs /\
         forall k b, bs !! k = Some b -> (S k < length bs)%nat -> Z.of_nat (length b) = size.
Proof.
  unfold batches. destruct (Z.leb_spec size 0); [done|]. eexists. split; [done|].
  destruct (batches_from_spec (length seq) 0 size seq) as (Hc & Hall & Hfull); [lia|lia|lia|]. done.
Qed.

(** ** What the script relies on *)

Class SelfTestView (W : Type) := {
  time_of : W -> Z;
  report : W -> list report_line;
}.

(** The clock does not run backwards during a call. *)
Definition forward {W} `{!SelfTestView W} {A} (m : M W A) : Prop := forall w, time_of w <= time_of (snd (m w)).

(** A call that neither consumes nor sends console bytes, nor prints. *)
Definition silent {W} `{!ConsoleView W, !SelfTestView W} {A} (m : M W A) : Prop :=
  forall w, bank_ok w ->
    wp m (fun r w' => quiet w w' /\ report w' = report w /\ r <> Diverged) w.

(** The clock answers and does not run backwards, a sleep of 0.02 s takes at
    least that long, printing appends a line, and nothing else prints. *)
Class SelfTestLaws (W : Type) `{!ConsoleRegs W, !SelfTestBoard W, !ConsoleView W, !SelfTestView W} := {
  time_now_law w : bank_ok w ->
    wp time_now (fun r w' => quiet w w' /\ report w' = report w /\ r = Ok (time_of w') /\ time_of w <= time_of w') w;
  sleep_takes w : fst (sleep POLL_S w) = Ok tt -> time_of w + 20000 <= time_of (snd (sleep POLL_S w));
  rx_read_forward : forward rx_read;
  rx_pop_forward v : forward (rx_pop_write v);
  regs_do_not_print : regs_preserve report;
  read_ident_silent : silent read_ident;
  scratch_write_silent v : silent (scratch_write v);
  scratch_read_silent : silent scratch_read;
  burst_read_silent n : silent (burst_read n);
  print_law l w : bank_ok w ->
    wp (print l) (fun r w' => quiet w w' /\ r = Ok tt /\ report w' = report w ++ [l]) w;
}.

Section Polls.
Context {W : Type} `{!ConsoleRegs W, !SelfTestBoard W, !ConsoleView W, !SelfTestView W}.
Context `{!ConsoleLaws W, !SelfTestLaws W}.

Lemma forward_ret {A} (a : A) : forward (W:=W) (ret a).
Proof. intros w. reflexivity. Qed.

Lemma forward_bind {A B} (m : M W A) (k : A -> M W B) :
  forward m -> (forall a, forward (k a)) -> forward (bind m k).
Proof.
  intros Hm Hk w. unfold bind. specialize (Hm w). destruct (m w) as [[a|e|] w']; cbn in *; try done.
  etrans; [exact Hm|apply Hk].
Qed.

Lemma drain_forward : forward drain.
Proof.
  unfold drain. generalize DRAIN_MAX_BYTES, (@nil Z). intros n. induction n as [|n IH]; intros out; [apply forward_ret|].
  cbn [drain_loop]. apply forward_bind; [apply rx_read_forward|]. intros word.
  destruct (Z.land word RX_VALID_BIT =? 0); [apply forward_ret|]. apply forward_bind; [apply rx_pop_forward|]. auto.
Qed.

(** What a poll leaves: [o] was consumed since [w]. *)
Definition polled (w : W) (found : list Z -> bool) (deadline : Z) (buf : list Z) (r : outcome (list Z)) (w' : W) : Prop :=
  kept w w' /\ txq w' = txq w /\ report w' = report w /\
  match r with
  | Ok res => exists o, res = buf ++ o /\ rx_flow w o w' /\ (found res = true \/ deadline <= time_of w')
  | Raise _ => exists lost, rx_flow w lost w'
  | Diverged => False
  end.

(** A poll that goes on after consuming [o]. *)
Lemma polled_later w w1 found deadline buf o r w' :
  kept w w1 -> txq w1 = txq w -> report w1 = report w -> rx_flow w o w1 ->
  polled w1 found deadline (buf ++ o) r w' -> polled w found deadline buf r w'.
Proof.
  intros Hk Ht Hp Hf (Hk' & Ht' & Hp' & Hr).
  split; [by eapply kept_trans|]. split; [congruence|]. split; [congruence|]. destruct r as [res|e|]; [| |done].
  - destruct Hr as (o' & -> & Ho & Hd). exists (o ++ o'). split; [by rewrite app_assoc|].
    split; [by eapply rx_flow_trans|done].
  - destruct Hr as (o' & Ho). exists (o ++ o'). by eapply rx_flow_trans.
Qed.

(** One drain of a poll. *)
Lemma drain_rx_spec w :
  bank_ok w ->
  wp drain_rx (fun r w' => kept w w' /\ txq w' = txq w /\ report w' = report w /\ time_of w <= time_of w' /\
    match r with Ok o => rx_flow w o w' | Raise _ => exists lost, rx_flow w lost w' | Diverged => False end) w.
Proof.
  intros Hok. pose proof (drain_forward w) as Ht.
  pose proof (drain_preserves report regs_do_not_print w) as Hp.
  pose proof (drain_spec w Hok) as (Hk & Htx & Hr). unfold wp, drain_rx.
  destruct (drain w) as [[o|e|] w']; cbn in *; [| |done]; split_and!; try done.
  - by destruct Hr as (o' & -> & ? & _).
  - destruct Hr as (l & ? & _). by exists l.
Qed.

Lemma poll_loop_S fuel found deadline buf :
  poll_loop (S fuel) found deadline buf =
  (let! t := time_now in
   if t <? deadline then
     let! more := drain_rx in
     if found (buf ++ more) then ret (buf ++ more)
     else sleep POLL_S ;;; poll_loop fuel found deadline (buf ++ more)
   else ret buf).
Proof. done. Qed.

Lemma poll_loop_spec fuel found deadline buf w :
  bank_ok w -> deadline - time_of w <= 20000 * Z.of_nat fuel ->
  wp (poll_loop (S fuel) found deadline buf) (polled w found deadline buf) w.
Proof.
  revert buf w. induction fuel as [|fuel IH]; intros buf w Hok Hf; rewrite poll_loop_S; apply wp_bind;
    (eapply wp_mono; [by apply time_now_law|]); intros r w1 (Hq & Hp & -> & Ht);
    (destruct (Z.ltb_spec (time_of w1) deadline) as [Hlt|Hge];
      [|apply wp_ret; split; [by apply quiet_kept|]; split; [apply Hq|]; split; [done|]; exists [];
        rewrite app_nil_r; split; [done|]; split; [apply Hq|by right]]); [lia|].
  pose proof (quiet_kept _ _ Hq) as Hk1. apply wp_bind.
  eapply wp_mono; [apply drain_rx_spec, Hq|]. intros r w2 (Hk2 & Ht2 & Hp2 & Hc2 & Hr).
  assert (Hflow : forall o, rx_flow w1 o w2 -> rx_flow w o w2)
    by (intros o Ho; apply (rx_flow_trans w w1 w2 [] o); [apply Hq|done]).
  assert (Hkw : kept w w2) by (by eapply kept_trans).
  assert (Htw : txq w2 = txq w) by (rewrite Ht2; apply Hq).
  destruct r as [o|e|]; [| |done].
  2: { destruct Hr as [l Hl]. split; [done|]. split; [done|]. split; [congruence|]. exists l. by apply Hflow. }
  destruct (found (buf ++ o)) eqn:Hfound.
  { apply wp_ret. split; [done|]. split; [done|]. split; [congruence|]. exists o. split; [done|]. split; [by apply Hflow|by left]. }
  apply wp_bind. pose proof (sleep_takes w2) as Hs. pose proof (pres_sleep report regs_do_not_print POLL_S w2) as Hps.
  pose proof (sleep_law w2 POLL_S (kept_ok _ _ Hk2)) as [Hq3 Hnd]. unfold wp.
  destruct (sleep POLL_S w2) as [[[]|e|] w3]; cbn in *; [| |done].
  - eapply (polled_later w w3 found deadline buf o).
    + eapply kept_trans; [exact Hkw|by apply quiet_kept].
    + rewrite (quiet_tx _ _ Hq3). done.
    + congruence.
    + rewrite <- (app_nil_r o). eapply rx_flow_trans; [by apply Hflow|apply Hq3].
    + apply IH; [apply Hq3|]. specialize (Hs eq_refl). lia.
  - split; [eapply kept_trans; [exact Hkw|by apply quiet_kept]|].
    split; [by rewrite (quiet_tx _ _ Hq3)|]. split; [congruence|]. exists o.
    rewrite <- (app_nil_r o). eapply rx_flow_trans; [by apply Hflow|apply Hq3].
Qed.

(** A poll, from the reading of the clock on. *)
Lemma poll_spec found w :
  bank_ok w ->
  wp (let! t := time_now in poll_loop POLL_FUEL found (t + TIMEOUT_S) [])
     (fun r w' => exists deadline, time_of w + TIMEOUT_S <= deadline /\ polled w found deadline [] r w') w.
Proof.
  intros Hok. apply wp_bind. eapply wp_mono; [by apply time_now_law|]. intros r w1 (Hq & Hp & -> & Ht).
  eapply wp_mono; [apply (poll_loop_spec 150); [apply Hq|unfold TIMEOUT_S; lia]|].
  intros r w2 Hpoll. exists (time_of w1 + TIMEOUT_S). split; [lia|].
  apply (polled_later w w1 found _ [] []); [by apply quiet_kept|apply Hq|done|apply Hq|exact Hpoll].
Qed.

(** What the caller of a poll gets: the bytes consumed, with what was looked
    for among them or the time used up. *)
Definition poll_contract (w : W) (found : list Z -> bool) (r : outcome (list Z)) (w' : W) : Prop :=
  kept w w' /\ txq w' = txq w /\ report w' = report w /\
  match r with
  | Ok buf => rx_flow w buf w' /\ (found buf = true \/ time_of w + TIMEOUT_S <= time_of w')
  | Raise _ => exists lost, rx_flow w lost w'
  | Diverged => False
  end.

Lemma poll_meets_contract found w :
  bank_ok w ->
  wp (let! t := time_now in poll_loop POLL_FUEL found (t + TIMEOUT_S) []) (poll_contract w found) w.
Proof.
  intros Hok. eapply wp_mono; [by apply poll_spec|].
  intros r w' (deadline & Hd & Hk & Ht & Hp & Hr). split; [done|]. split; [done|]. split; [done|].
  destruct r as [buf|e|]; [|done|done]. destruct Hr as (o & -> & Ho & [?|?]); (split; [done|]); [by left|right; lia].
Qed.

(** C40: A poll ends and loses nothing.  On a clock that does not go back, and that a sleep of 0.02 s
    takes forward by as much, [poll_banner] and [poll_marker] end, after at most [POLL_FUEL] = 151 turns;
    they return exactly the bytes they took from the console, oldest first, and without the prefix or
    the marker among them only when at least three seconds have passed.  How long the reads of
    a turn take is not bounded, and neither is the time a poll takes.  They send nothing,
    print nothing and set no error of their own. *)
Theorem poll_returns_consumed marker w :
  bank_ok w ->
  wp poll_banner (poll_contract w (fun buf => find_prefix buf BANNER_PREFIX)) w /\
  wp (poll_marker marker) (poll_contract w (fun buf => contains buf marker)) w.
Proof. intros Hok. split; by apply poll_meets_contract. Qed.

(** ** The verdict *)

(** A line that reports a failure. *)
Definition failing (l : report_line) : bool :=
  match l with
  | Banner _ ok | Command _ ok | Burst _ _ ok => negb ok
  | ScratchBad _ _ => true
  | Identifier _ | ScratchOk => false
  end.

Definition failures (ls : list report_line) : Z := Z.of_nat (length (filter (fun l => failing l = true) ls)).

(** From [w] to [w'], [ls] was printed, [o] consumed and [t] sent. *)
Record progress (w w' : W) (ls : list report_line) (o t : list Z) : Prop := {
  prog_kept : kept w w';
  prog_report : report w' = report w ++ ls;
  prog_rx : rx_flow w o w';
  prog_tx : txq w' = txq w ++ t;
}.

Lemma progress_trans w1 w2 w3 l1 o1 t1 l2 o2 t2 :
  progress w1 w2 l1 o1 t1 -> progress w2 w3 l2 o2 t2 -> progress w1 w3 (l1 ++ l2) (o1 ++ o2) (t1 ++ t2).
Proof.
  intros [K1 R1 F1 T1] [K2 R2 F2 T2]. split.
  - by eapply kept_trans.
  - by rewrite R2, R1, app_assoc.
  - by eapply rx_flow_trans.
  - by rewrite T2, T1, app_assoc.
Qed.

Lemma progress_quiet w w' : quiet w w' -> report w' = report w -> progress w w' [] [] [].
Proof.
  intros Hq Hp. split; [by apply quiet_kept|by rewrite app_nil_r|apply Hq|rewrite app_nil_r; apply Hq].
Qed.

Lemma progress_print w w' l : quiet w w' -> report w' = report w ++ [l] -> progress w w' [l] [] [].
Proof. intros Hq Hp. split; [by apply quiet_kept|done|apply Hq|rewrite app_nil_r; apply Hq]. Qed.

(** The postcondition of a script part that started after [ls], [o], [t]. *)
Definition ran (w : W) {A} (Q : A -> list report_line -> list Z -> list Z -> Prop) (r : outcome A) (w' : W) : Prop :=
  match r with
  | Ok a => exists ls o t, progress w w' ls o t /\ Q a ls o t
  | Raise _ => True
  | Diverged => False
  end.

(** Sequencing of such parts. *)
Lemma ran_bind {A B} (m : M W A) (k : A -> M W B) w P Q :
  bank_ok w -> wp m (ran w P) w ->
  (forall a ls o t w1, bank_ok w1 -> P a ls o t ->
     wp (k a) (ran w1 (fun b ls' o' t' => Q b (ls ++ ls') (o ++ o') (t ++ t'))) w1) ->
  wp (bind m k) (ran w Q) w.
Proof.
  intros Hok Hm Hk. apply wp_bind. eapply wp_mono; [exact Hm|]. intros r w1 Hr.
  destruct r as [a|e|]; [|done|done]. destruct Hr as (ls & o & t & Hp & HP).
  eapply wp_mono; [apply (Hk a ls o t w1); [apply Hp|done]|]. intros r w2 Hr2.
  destruct r as [b|e|]; [|done|done]. destruct Hr2 as (ls' & o' & t' & Hp' & HQ).
  exists (ls ++ ls'), (o ++ o'), (t ++ t'). split; [by eapply progress_trans|done].
Qed.

Lemma ran_ret {A} (a : A) w (Q : A -> list report_line -> list Z -> list Z -> Prop) :
  bank_ok w -> Q a [] [] [] -> wp (ret a) (ran w Q) w.
Proof. intros Hok HQ. exists [], [], []. split; [|done]. by apply progress_quiet; [apply quiet_refl|]. Qed.

Lemma ran_silent {A} (m : M W A) w :
  silent m -> bank_ok w -> wp m (ran w (fun _ ls o t => ls = [] /\ o = [] /\ t = [])) w.
Proof.
  intros Hm Hok. eapply wp_mono; [by apply Hm|]. intros r w' (Hq & Hp & Hd). destruct r as [a|e|]; [|done|done].
  exists [], [], []. split; [by apply progress_quiet|done].
Qed.

Lemma ran_print l w : bank_ok w -> wp (print l) (ran w (fun _ ls o t => ls = [l] /\ o = [] /\ t = [])) w.
Proof.
  intros Hok. eapply wp_mono; [by apply print_law|]. intros r w' (Hq & -> & Hp).
  exists [l], [], []. split; [by apply progress_print|done].
Qed.

Lemma ran_poll found w :
  bank_ok w ->
  wp (let! t := time_now in poll_loop POLL_FUEL found (t + TIMEOUT_S) [])
     (ran w (fun buf ls o t => ls = [] /\ o = buf /\ t = [])) w.
Proof.
  intros Hok. eapply wp_mono; [by apply poll_meets_contract|]. intros r w' (Hk & Ht & Hp & Hr).
  destruct r as [buf|e|]; [|done|done]. destruct Hr as [Hf _]. exists [], buf, [].
  split; [|done]. split; [done|by rewrite app_nil_r|done|by rewrite app_nil_r].
Qed.

Lemma ran_send data w :
  bank_ok w -> Forall is_byte data ->
  wp (send_command data) (ran w (fun _ ls o t => ls = [] /\ o = [] /\ exists k, t = take k data)) w.
Proof.
  intros Hok Hd. pose proof (send_preserves report regs_do_not_print data None w) as Hp.
  pose proof (send_spec data None w Hok Hd) as (Hk & Hf & k & _ & Ht & Hr).
  unfold send_command, bind, wp. destruct (send data None w) as [[n|e|] w']; cbn in *; [|done|done].
  exists [], [], (take k data). split; [|by split_and!; [..|exists k]]. split; [done|by rewrite app_nil_r|done|done].
Qed.

(** Neither consumes nor sends; prints one line, failing exactly when it counts. *)
Definition one_line (good bad : report_line -> Prop) (n : Z) (ls : list report_line) (o t : list Z) : Prop :=
  o = [] /\ t = [] /\ exists l, ls = [l] /\ ((n = 0 /\ good l /\ failing l = false) \/ (n = 1 /\ bad l /\ failing l = true)).

(** A printed line as the result of a check. *)
Lemma ran_line l n w good bad :
  bank_ok w -> (n = 0 /\ good l /\ failing l = false) \/ (n = 1 /\ bad l /\ failing l = true) ->
  wp (print l ;;; ret n) (ran w (one_line good bad)) w.
Proof.
  intros Hok Hn. eapply ran_bind; [done|by apply ran_print|]. intros _ ls o t w1 Hok1 (-> & -> & ->).
  apply ran_ret; [done|]. split; [done|]. split; [done|]. by exists l.
Qed.

Lemma ran_after_silent {A B} (m : M W A) (k : A -> M W B) w Q :
  bank_ok w -> silent m -> (forall a w1, bank_ok w1 -> wp (k a) (ran w1 Q) w1) -> wp (bind m k) (ran w Q) w.
Proof.
  intros Hok Hm Hk. eapply ran_bind; [done|by apply ran_silent|]. intros a ls o t w1 Hok1 (-> & -> & ->). by apply Hk.
Qed.

Lemma ran_scratch patterns w :
  bank_ok w ->
  wp (scratch_check patterns)
     (ran w (one_line (eq ScratchOk) (fun l => exists p got : Z, p ∈ patterns /\ got <> p /\ l = ScratchBad p got))) w.
Proof.
  assert (Hgen : forall all : list Z, (forall p : Z, p ∈ patterns -> p ∈ all) -> bank_ok w ->
    wp (scratch_check patterns)
       (ran w (one_line (eq ScratchOk) (fun l => exists p got : Z, p ∈ all /\ got <> p /\ l = ScratchBad p got))) w).
  2: { apply (Hgen patterns). auto. }
  revert w. induction patterns as [|p patterns IH]; intros w all Hall Hok; cbn [scratch_check].
  { apply ran_line; [done|by left]. }
  apply ran_after_silent; [done|apply scratch_write_silent|]. intros _ w1 Hok1.
  apply ran_after_silent; [done|apply scratch_read_silent|]. intros got w2 Hok2.
  destruct (Z.eqb_spec got p) as [->|Hne]; cbn [negb].
  - apply IH; [|done]. intros q Hq. apply Hall. by right.
  - apply ran_line; [done|]. right. split; [done|]. split; [|done]. exists p, got.
    split; [apply Hall; by left|done].
Qed.

Lemma ran_burst w :
  bank_ok w ->
  wp burst_check (ran w (one_line (eq (Burst 255 0x8008BEEF true)) (fun l => exists len first, l = Burst len first false))) w.
Proof.
  intros Hok. apply ran_after_silent; [done|apply burst_read_silent|]. intros burst w1 Hok1.
  destruct burst as [|first rest]; [done|].
  destruct (Z.eqb_spec (Z.of_nat (length (first :: rest))) 255), (Z.eqb_spec first 0x8008BEEF) as [->|]; cbn [andb];
    (apply ran_line; [done|]); [by left|right..]; (split; [done|split; [by eexists _, _|done]]).
Qed.

(** The five lines of a complete run. *)
Definition run_report (n : Z) (ls : list report_line) (o t : list Z) : Prop :=
  exists ident banner resp l4 l5 k,
    ls = [Identifier ident; Banner (decode_printable banner) (find_prefix banner BANNER_PREFIX);
          Command (decode_printable resp) (contains resp HELP_MARKER); l4; l5] /\
    o = banner ++ resp /\ t = take k HELP_COMMAND /\ n = failures ls /\
    (n = 0 -> find_prefix banner BANNER_PREFIX = true /\ contains resp HELP_MARKER = true /\
              l4 = ScratchOk /\ l5 = Burst 255 0x8008BEEF true).

Lemma run_report_of ident banner resp l4 l5 k n4 n5 (b4 b5 : Prop) :
  (n4 = 0 /\ ScratchOk = l4 /\ failing l4 = false) \/ (n4 = 1 /\ b4 /\ failing l4 = true) ->
  (n5 = 0 /\ Burst 255 0x8008BEEF true = l5 /\ failing l5 = false) \/ (n5 = 1 /\ b5 /\ failing l5 = true) ->
  run_report ((if find_prefix banner BANNER_PREFIX then 0 else 1) + (if contains resp HELP_MARKER then 0 else 1) + n4 + n5)
    [Identifier ident; Banner (decode_printable banner) (find_prefix banner BANNER_PREFIX);
     Command (decode_printable resp) (contains resp HELP_MARKER); l4; l5]
    (banner ++ resp) (take k HELP_COMMAND).
Proof.
  intros H4 H5. exists ident, banner, resp, l4, l5, k. split_and!; try done.
  - unfold failures. rewrite !filter_cons. cbn [failing].
    destruct (find_prefix banner BANNER_PREFIX), (contains resp HELP_MARKER),
      H4 as [(-> & _ & ->)|(-> & _ & ->)], H5 as [(-> & _ & ->)|(-> & _ & ->)]; reflexivity.
  - destruct (find_prefix banner BANNER_PREFIX), (contains resp HELP_MARKER),
      H4 as [(-> & H4 & _)|(-> & _ & _)], H5 as [(-> & H5 & _)|(-> & _ & _)]; intros Hn; try lia.
    by subst.
Qed.

Lemma run_checks_ran w : bank_ok w -> wp run_checks (ran w run_report) w.
Proof.
  intros Hok. unfold run_checks, get_identifier.
  eapply ran_bind; [done|apply ran_after_silent; [done|apply read_ident_silent|]|].
  { intros id w1 Hok1. apply (ran_ret _ _ (fun _ ls o t => ls = [] /\ o = [] /\ t = [])); done. }
  intros ident ls o t w1 Hok1 (-> & -> & ->).
  eapply ran_bind; [done|by apply ran_print|]. intros _ ls o t w2 Hok2 (-> & -> & ->).
  eapply ran_bind; [done|by apply ran_poll|]. intros banner ls o t w3 Hok3 (-> & -> & ->).
  eapply ran_bind; [done|by apply ran_print|]. intros _ ls o t w4 Hok4 (-> & -> & ->).
  eapply ran_bind; [done|apply ran_send; [done|repeat constructor; lia]|]. intros _ ls o t w5 Hok5 (-> & -> & k & ->).
  eapply ran_bind; [done|by apply ran_poll|]. intros resp ls o t w6 Hok6 (-> & -> & ->).
  eapply ran_bind; [done|by apply ran_print|]. intros _ ls o t w7 Hok7 (-> & -> & ->).
  eapply ran_bind; [done|by apply ran_scratch|]. intros n4 ls o t w8 Hok8 (-> & -> & l4 & -> & H4).
  eapply ran_bind; [done|by apply ran_burst|]. intros n5 ls o t w9 Hok9 (-> & -> & l5 & -> & H5).
  apply ran_ret; [done|]. cbn [app]. rewrite !app_nil_r.
  eapply run_report_of; [exact H4|exact H5].
Qed.

(** The verdict of the self-test is honest: when [run_checks] returns (it always ends), it has
    printed one line per check, and the number it returns is the number of failing lines; the
    banner and the help text it shows are the bytes it took from the console, in order; it sent at
    most the help command; and the result 0 means that the banner prefix and the help marker were
    seen, no scratch pattern was read back wrong, and the burst had 255 words starting with the last
    pattern. *)
Theorem run_checks_verdict w : bank_ok w -> wp run_checks (ran w run_report) w.
Proof. apply run_checks_ran. Qed.

End Polls.

(** ** A bench: any console with a clock, a scratch register and a printer *)

Record rig (W0 : Type) := Rig { console : W0; wall : Z; scratch : Z; printed : list report_line }.
Arguments Rig {W0} console wall scratch printed.
Arguments console {W0} r.
Arguments wall {W0} r.
Arguments scratch {W0} r.
Arguments printed {W0} r.

Section Rigged.
Context {W0 : Type} `{R0 : !ConsoleRegs W0, V0 : !ConsoleView W0, L0 : !ConsoleLaws W0}.

(** A console call on the bench, which takes [d]. *)
Definition lift {A} (d : Z) (m : M W0 A) : M (rig W0) A :=
  fun w => let '(r, c) := m (console w) in (r, Rig c (wall w + d) (scratch w) (printed w)).

#[global] Instance rig_regs : ConsoleRegs (rig W0) := {
  rx_read := lift 100 rx_read;
  rx_pop_write v := lift 100 (rx_pop_write v);
  tx_read := lift 100 tx_read;
  tx_data_write v := lift 100 (tx_data_write v);
  err_read := lift 100 err_read;
  err_clear_write v := lift 100 (err_clear_write v);
  sleep d := lift 20000 (sleep d);
}.

#[global] Instance rig_board : SelfTestBoard (rig W0) := {
  time_now := gets wall;
  read_ident := ret (Some "b8008_net"%string);
  scratch_write v := modify (fun w => Rig (console w) (wall w) v (printed w));
  scratch_read := gets scratch;
  burst_read n := gets (fun w => scratch w :: repeat 0 (Z.to_nat (n - 1)));
  print l := modify (fun w => Rig (console w) (wall w) (scratch w) (printed w ++ [l]));
}.

#[global] Instance rig_view : ConsoleView (rig W0) := {
  bank_ok w := bank_ok (console w);
  rx_in w := rx_in (console w);
  rxq w := rxq (console w);
  rx_avail w := rx_avail (console w);
  txq w := txq (console w);
  tx_room w := tx_room (console w);
  errs w := errs (console w);
  host_faults w := host_faults (console w);
}.

#[global] Instance rig_test_view : SelfTestView (rig W0) := {| time_of := wall; report := printed |}.

Lemma wp_lift {A} d (m : M W0 A) (Q : outcome A -> W0 -> Prop) (Q' : outcome A -> rig W0 -> Prop) w :
  wp m Q (console w) -> (forall r c, Q r c -> Q' r (Rig c (wall w + d) (scratch w) (printed w))) ->
  wp (lift d m) Q' w.
Proof. unfold wp, lift. destruct (m (console w)). cbn. auto. Qed.

Lemma quiet_lift (w : rig W0) c t : quiet (console w) c -> quiet w (Rig c t (scratch w) (printed w)).
Proof. by intros []. Qed.

#[global] Instance rig_console_laws : ConsoleLaws (rig W0).
Proof.
  split.
  - intros w Hok. eapply wp_lift; [by apply rx_read_law|]. intros r c [Hq Hr]. split; [by apply quiet_lift|done].
  - intros w v b Hok Ha Hh. eapply wp_lift; [by apply rx_pop_law|]. done.
  - intros w Hok. eapply wp_lift; [by apply tx_read_law|]. intros r c [Hq Hr]. split; [by apply quiet_lift|done].
  - intros w v Hok Hr Hv. eapply wp_lift; [by apply tx_write_law|]. done.
  - intros w Hok. eapply wp_lift; [by apply err_read_law|]. intros r c [Hq Hr]. split; [by apply quiet_lift|done].
  - intros w v Hok. eapply wp_lift; [by apply err_clear_law|]. done.
  - intros w d Hok. eapply wp_lift; [by apply sleep_law|]. intros r c [Hq Hr]. split; [by apply quiet_lift|done].
Qed.

Lemma lift_wall {A} d (m : M W0 A) w : wall (snd (lift d m w)) = wall w + d.
Proof. unfold lift. by destruct (m (console w)). Qed.

Lemma lift_printed {A} d (m : M W0 A) : preserves printed (lift d m).
Proof. intros w. unfold lift. by destruct (m (console w)). Qed.

#[global] Instance rig_test_laws : SelfTestLaws (rig W0).
Proof.
  split.
  - intros w Hok. apply wp_gets. split; [by apply quiet_refl|]. by split_and!.
  - intros w _. cbn. rewrite lift_wall. lia.
  - intros w. cbn. rewrite lift_wall. lia.
  - intros v w. cbn. rewrite lift_wall. lia.
  - split; intros; apply lift_printed.
  - intros w Hok. apply wp_ret. split; [by apply quiet_refl|done].
  - intros v w Hok. apply wp_modify. split; [|done]. by destruct (quiet_refl w Hok).
  - intros w Hok. apply wp_gets. split; [by apply quiet_refl|done].
  - intros n w Hok. apply wp_gets. split; [by apply quiet_refl|done].
  - intros l w Hok. apply wp_modify. split; [|done]. by destruct (quiet_refl w Hok).
Qed.

End Rigged.

(** ** Runs *)

Module SelfTestRuns.

(** [n] cycles in which the 8008 may emit, then a host access. *)
Definition emit (n : nat) : slot :=
  {| before := repeat {| core_ready := true; phy_ready := true |} n;
     during := {| core_ready := false; phy_ready := true |} |}.

(** The bench on the shipped gateware: the banner, and later the help text. *)
Definition bench :=
  Rig (fresh_board [56; 48; 48; 56; 32; 72; 101; 108; 112] (emit 5 :: repeat (emit 0) 30 ++ [emit 4]) []
       : ConsoleRuns.B) 0 0 [].

Lemma bench_ok : bank_ok bench.
Proof.
  exact (proj1 (fresh_session ConsoleRuns.inflight_range ConsoleRuns.rx_range ConsoleRuns.tx_range _ _ _)).
Qed.

Example bench_passes :
  fst (run_checks bench) = Ok 0 /\
  printed (snd (run_checks bench)) =
    [Identifier "b8008_net"; Banner "8008 " true; Command "Help" true; ScratchOk; Burst 255 0x8008BEEF true].
Proof. vm_compute. done. Qed.

Example decode_banner : decode_printable [56; 48; 48; 56; 13; 7] = "8008\r\x07"%string.
Proof. reflexivity. Qed.

Example batches_of_two : fst (batches [1; 2; 3] 2 tt) = Ok [[1; 2]; [3]].
Proof. reflexivity. Qed.

Lemma poll_returns_consumed_witness :
  wp poll_banner (poll_contract bench (fun buf => find_prefix buf BANNER_PREFIX)) bench /\
  wp (poll_marker HELP_MARKER) (poll_contract bench (fun buf => contains buf HELP_MARKER)) bench.
Proof. apply (poll_returns_consumed HELP_MARKER bench bench_ok). Defined.

Lemma run_checks_verdict_witness : wp run_checks (ran bench run_report) bench.
Proof. apply (run_checks_verdict bench bench_ok). Defined.

End SelfTestRuns.
