(* ===== verification/Crg.v ===== *)
(** * The clock and reset generator of the SoC

    The class [_CRG] of soc/versa_soc.py.  Four clock domains matter to the
    resets: [por] (the 100 MHz input), [sys] (the console bridge, the firmware
    CPU), [b8008] (the 8008 core), and the PLL.  Clocks are not related to each
    other: a step of the model is any set of simultaneous clock edges, progress
    of the PLL, or a change of an input pin, in any order.

    The PLL and the reset synchroniser are LiteX's and the vendor's: they are the
    interfaces [ECP5PLL] and [AsyncResetSynchronizer], with laws.  At the end
    of the file the two are instantiated, the synchroniser by the pair of
    flip-flops (FD1S3BX) the source's comments describe. *)

From Stdlib Require Import ZArith Lia List Bool.
From stdpp Require Import base list.
From S2P Require Import Prelude.

Open Scope Z_scope.

(** ** What the generator uses of LiteX *)

(** [ECP5PLL]: while its reset input is high it is unlocked ([pll_clear]);
    with the reset low, time passes for it ([pll_tick]), it locks within
    [pll_lock_time] ticks and stays locked until its reset: a PLL that loses lock by itself is not
    in the model. *)
Class ECP5PLL (pll_st : Type) := {
  pll_locked : pll_st -> bool;
  pll_clear : pll_st -> pll_st;
  pll_tick : pll_st -> pll_st;
  pll_lock_time : nat;
  pll_clear_unlocked p : pll_locked (pll_clear p) = false;
  pll_tick_locked p : pll_locked p = true -> pll_locked (pll_tick p) = true;
  pll_locks p : pll_locked (Nat.iter pll_lock_time pll_tick p) = true;
}.

(** [AsyncResetSynchronizer(cd, async_reset)]: a level on [async_reset] asserts
    the domain's reset at once ([rs_set]); once the level is low, the reset is
    released by the [rs_depth]-th edge of the domain's clock. *)
Class AsyncResetSynchronizer (sync_st : Type) := {
  rs_rst : sync_st -> bool;
  rs_set : sync_st -> sync_st;
  rs_edge : sync_st -> sync_st;
  rs_depth : nat;
  rs_depth_pos : (0 < rs_depth)%nat;
  rs_release s k : rs_rst (Nat.iter k rs_edge (rs_set s)) = (k <? rs_depth)%nat;
}.

(** ** The generator *)

Section Crg.
Context {pll_st sync_st : Type} `{PLL : !ECP5PLL pll_st} `{RS : !AsyncResetSynchronizer sync_st}.

(** The registers of [_CRG] ([por_count], the PLL and the synchronisers of
    [cd_sys] and [cd_b8008]) and its inputs: the pin [rst_n], the SoC's [rst] and the
    hook [reset]. *)
Record crg := Crg {
  por_count : Z;
  rst_n : bool;
  rst : bool;
  reset : bool;
  pll : pll_st;
  cd_sys : sync_st;
  cd_b8008 : sync_st
}.

(** A moment of time. *)
Inductive event :=
| Edges (por sys b8008 : bool)
| PllTick
| Inputs (n r h : bool).

Definition por_reset : Z := 2 ^ 16 - 1.

Definition por_done (s : crg) : bool := por_count s =? 0.

Definition pll_reset (s : crg) : bool := negb (por_done s) || negb (rst_n s) || rst s.

Definition locked (s : crg) : bool := pll_locked (pll s).

(** [ResetSignal("sys")] and [ResetSignal("b8008")]. *)
Definition sys_rst (s : crg) : bool := rs_rst (cd_sys s).
Definition b8008_rst (s : crg) : bool := rs_rst (cd_b8008 s).

Definition sys_rst_gate (s : crg) : bool := negb (locked s) || reset s.

Definition b8008_rst_gate (s : crg) : bool := negb (locked s) || reset s || sys_rst s.

Definition por_edge (s : crg) : Z :=
  if negb (por_done s) then (por_count s - 1) mod 2 ^ 16 else por_count s.

Definition sync_edge (gate edge : bool) (r : sync_st) : sync_st :=
  if edge then if gate then rs_set r else rs_edge r else r.

(** The registers after an event, before the levels have propagated. *)
Definition clocked (s : crg) (e : event) : crg :=
  match e with
  | Edges p y b =>
      Crg (if p then por_edge s else por_count s) (rst_n s) (rst s) (reset s) (pll s)
          (sync_edge (sys_rst_gate s) y (cd_sys s)) (sync_edge (b8008_rst_gate s) b (cd_b8008 s))
  | PllTick =>
      Crg (por_count s) (rst_n s) (rst s) (reset s) (pll_tick (pll s)) (cd_sys s) (cd_b8008 s)
  | Inputs n r h => Crg (por_count s) n r h (pll s) (cd_sys s) (cd_b8008 s)
  end.

(** The asynchronous levels propagate: reset of the PLL, then the gate of
    [cd_sys], then the gate of [cd_b8008]. *)
Definition settle (s : crg) : crg :=
  let s1 := Crg (por_count s) (rst_n s) (rst s) (reset s)
                (if pll_reset s then pll_clear (pll s) else pll s) (cd_sys s) (cd_b8008 s) in
  let s2 := Crg (por_count s1) (rst_n s1) (rst s1) (reset s1) (pll s1)
                (if sys_rst_gate s1 then rs_set (cd_sys s1) else cd_sys s1) (cd_b8008 s1) in
  Crg (por_count s2) (rst_n s2) (rst s2) (reset s2) (pll s2) (cd_sys s2)
      (if b8008_rst_gate s2 then rs_set (cd_b8008 s2) else cd_b8008 s2).

Definition crg_step (s : crg) (e : event) : crg := settle (clocked s e).

Definition crg_run (s : crg) (es : list event) : crg := fold_left crg_step es s.

(** The configuration bitstream loads [por_count] with its reset value; the
    other registers and the pins may be anything. *)
Definition crg_power_on (n r h : bool) (p : pll_st) (y b : sync_st) : crg :=
  settle (Crg por_reset n r h p y b).

(** The edges of each clock in a trace. *)
Definition por_edge_of (e : event) : bool := match e with Edges p _ _ => p | _ => false end.
Definition sys_edge_of (e : event) : bool := match e with Edges _ y _ => y | _ => false end.
Definition b8008_edge_of (e : event) : bool := match e with Edges _ _ b => b | _ => false end.
Definition tick_of (e : event) : bool := match e with PllTick => true | _ => false end.
Definition quiet_event (e : event) : bool := match e with Inputs _ _ _ => false | _ => true end.

Definition count (f : event -> bool) (es : list event) : nat := length (List.filter f es).

(** ** Lemmas on traces *)

Lemma count_app f es1 es2 : count f (es1 ++ es2) = (count f es1 + count f es2)%nat.
Proof. unfold count. by rewrite List.filter_app, length_app. Qed.

Lemma count_single f e : count f [e] = if f e then 1%nat else 0%nat.
Proof. unfold count. simpl. by destruct (f e). Qed.

Lemma crg_run_app s es1 es2 : crg_run s (es1 ++ es2) = crg_run (crg_run s es1) es2.
Proof. apply fold_left_app. Qed.

Lemma crg_run_snoc s es e : crg_run s (es ++ [e]) = crg_step (crg_run s es) e.
Proof. by rewrite crg_run_app. Qed.

(** What [settle] does to each register. *)
Lemma settle_pll s : pll (settle s) = if pll_reset s then pll_clear (pll s) else pll s.
Proof. done. Qed.

Lemma settle_pll_reset s : pll_reset (settle s) = pll_reset s.
Proof. done. Qed.

Lemma settle_sys s :
  cd_sys (settle s) = if sys_rst_gate (settle s) then rs_set (cd_sys s) else cd_sys s.
Proof. done. Qed.

Lemma settle_b8008 s :
  cd_b8008 (settle s) = if b8008_rst_gate (settle s) then rs_set (cd_b8008 s) else cd_b8008 s.
Proof. done. Qed.

(** ** A synchroniser in the network

    Both domains have the same shape: a register [sync] whose asynchronous input is
    the level [gate]. *)

Section Domain.
Variables (gate : crg -> bool) (sync : crg -> sync_st) (edge : event -> bool).

Hypothesis sync_settle : forall s,
  sync (settle s) = if gate (settle s) then rs_set (sync s) else sync s.
Hypothesis sync_clocked : forall s e, sync (clocked s e) = sync_edge (gate s) (edge e) (sync s).

(** The trace [es] from [s] is [pre ++ post]: the register was last set at the
    end of [pre], [post] has clocked it since, and the gate was low throughout. *)
Definition released_for (s : crg) (es pre post : list event) : Prop :=
  es = pre ++ post /\
  (exists x, sync (crg_run s es) = Nat.iter (count edge post) rs_edge (rs_set x)) /\
  (gate (crg_run s es) = true -> post = []) /\
  (gate (crg_run s es) = false -> forall k, (k <= length post)%nat ->
     gate (crg_run s (pre ++ take k post)) = false).

Lemma released_for_start s :
  gate (settle s) = true -> released_for (settle s) [] [] [].
Proof.
  intros Hg. split; [done|]. split; [|split; [done|]].
  - exists (sync s). unfold count. simpl. by rewrite sync_settle, Hg.
  - simpl. congruence.
Qed.

Lemma released_for_step s es pre post e :
  released_for s es pre post ->
  exists pre' post', released_for s (es ++ [e]) pre' post'.
Proof.
  intros (-> & [x Hx] & Hhi & Hlo).
  set (s0 := crg_run s (pre ++ post)) in *.
  assert (Hstep : crg_run s ((pre ++ post) ++ [e]) = settle (clocked s0 e))
    by (by rewrite crg_run_snoc).
  destruct (gate (settle (clocked s0 e))) eqn:Hg.
  { exists ((pre ++ post) ++ [e]), []. split; [by rewrite app_nil_r|]. rewrite Hstep.
    split; [|split; [done|congruence]].
    exists (sync (clocked s0 e)). by rewrite sync_settle, Hg. }
  destruct (gate s0) eqn:Hg0.
  { specialize (Hhi eq_refl). subst post. exists ((pre ++ []) ++ [e]), [].
    split; [by rewrite (app_nil_r ((pre ++ []) ++ [e]))|]. rewrite Hstep. split; [|split; [done|]].
    - exists (if edge e then sync s0 else x). rewrite sync_settle, Hg, sync_clocked, Hg0.
      unfold sync_edge. destruct (edge e); [done|]. by rewrite Hx.
    - intros _ [|k] Hk; simpl in Hk; [|lia]. simpl. by rewrite (app_nil_r (_ ++ [e])), Hstep. }
  exists pre, (post ++ [e]). split; [by rewrite app_assoc|].
  rewrite Hstep. split; [|split; [congruence|]].
  - exists x. rewrite sync_settle, Hg, sync_clocked, Hg0, Hx, count_app, count_single.
    unfold sync_edge. destruct (edge e); [|by rewrite Nat.add_0_r].
    by rewrite Nat.add_1_r.
  - intros _ k Hk. destruct (Nat.le_gt_cases k (length post)) as [Hle|Hgt].
    + rewrite take_app_le by done. auto.
    + rewrite length_app in Hk. simpl in Hk.
      rewrite take_ge by (rewrite length_app; simpl; lia).
      rewrite app_assoc, Hstep. done.
Qed.

Lemma released_for_run s es :
  gate (settle s) = true -> exists pre post, released_for (settle s) es pre post.
Proof.
  intros Hg. induction es as [|e es IH] using rev_ind.
  - exists [], []. by apply released_for_start.
  - destruct IH as (pre & post & H). by eapply released_for_step.
Qed.

(** The domain is out of reset only after [rs_depth] edges with the gate low. *)
Lemma released_after s es pre post :
  released_for s es pre post -> rs_rst (sync (crg_run s es)) = false ->
  (rs_depth <= count edge post)%nat /\
  forall k, (k <= length post)%nat -> gate (crg_run s (pre ++ take k post)) = false.
Proof.
  intros (-> & [x Hx] & Hhi & Hlo) Hr. rewrite Hx, rs_release in Hr.
  apply Nat.ltb_ge in Hr. split; [done|]. apply Hlo.
  destruct (gate (crg_run s (pre ++ post))); [|done].
  rewrite (Hhi eq_refl) in Hr. unfold count in Hr. simpl in Hr. pose proof rs_depth_pos. lia.
Qed.

(** With the gate low throughout a segment of a run, [rs_depth] edges in it
    release the domain. *)
Lemma domain_releases s es seg :
  gate (settle s) = true ->
  (forall k, (k <= length seg)%nat -> gate (crg_run (settle s) (es ++ take k seg)) = false) ->
  (rs_depth <= count edge seg)%nat ->
  rs_rst (sync (crg_run (settle s) (es ++ seg))) = false.
Proof.
  intros Hg Hseg Hn. destruct (released_for_run s es Hg) as (pre & post & Hrel).
  destruct Hrel as (_ & [x Hx] & _ & _).
  enough (Hi : forall n, (n <= length seg)%nat ->
            sync (crg_run (settle s) (es ++ take n seg)) =
            Nat.iter (count edge post + count edge (take n seg)) rs_edge (rs_set x)).
  { specialize (Hi (length seg) (le_n _)). rewrite firstn_all in Hi. rewrite Hi, rs_release.
    apply Nat.ltb_ge. lia. }
  induction n as [|n IH]; intros Hle.
  - simpl. by rewrite app_nil_r, Nat.add_0_r.
  - destruct (lookup_lt_is_Some_2 seg n ltac:(lia)) as [e He].
    rewrite (take_S_r _ _ _ He) in *. rewrite app_assoc, crg_run_snoc.
    unfold crg_step. pose proof (Hseg (S n) Hle) as Hg1. rewrite (take_S_r _ _ _ He) in Hg1.
    rewrite app_assoc, crg_run_snoc in Hg1. unfold crg_step in Hg1.
    rewrite sync_settle, Hg1, sync_clocked, (Hseg n), (IH ltac:(lia)) by lia.
    rewrite count_app, count_single. unfold sync_edge.
    destruct (edge e); [|by rewrite !Nat.add_0_r].
    by rewrite Nat.add_1_r, Nat.add_succ_r.
Qed.

End Domain.

(** ** The two domains *)

Lemma sys_clocked s e :
  cd_sys (clocked s e) = sync_edge (sys_rst_gate s) (sys_edge_of e) (cd_sys s).
Proof. by destruct e. Qed.

Lemma b8008_clocked s e :
  cd_b8008 (clocked s e) = sync_edge (b8008_rst_gate s) (b8008_edge_of e) (cd_b8008 s).
Proof. by destruct e. Qed.

Lemma rs_set_rst (r : sync_st) : rs_rst (rs_set r) = true.
Proof. apply eq_trans with (1 := rs_release r 0), Nat.ltb_lt, rs_depth_pos. Qed.

(** The level of the PLL's reset reaches both domains. *)
Lemma settle_unlocked s : pll_reset s = true -> locked (settle s) = false.
Proof. intros H. unfold locked. by rewrite settle_pll, H, pll_clear_unlocked. Qed.

Lemma sys_gate_high s : sys_rst_gate (settle s) = true -> sys_rst (settle s) = true.
Proof.
  intros H. unfold sys_rst. rewrite settle_sys, H. apply rs_set_rst.
Qed.

Lemma b8008_gate_high s : b8008_rst_gate (settle s) = true -> b8008_rst (settle s) = true.
Proof.
  intros H. unfold b8008_rst. rewrite settle_b8008, H. apply rs_set_rst.
Qed.

Lemma sys_gate_of_pll s : pll_reset s = true -> sys_rst_gate (settle s) = true.
Proof. intros H. unfold sys_rst_gate. by rewrite settle_unlocked. Qed.

Lemma b8008_gate_of_sys s : sys_rst (settle s) = true -> b8008_rst_gate (settle s) = true.
Proof. intros H. unfold b8008_rst_gate. rewrite H. by rewrite orb_true_r. Qed.

Lemma power_on_pll_reset n r h p y b : pll_reset (Crg por_reset n r h p y b) = true.
Proof. done. Qed.

#[local] Hint Resolve sys_gate_high b8008_gate_high sys_gate_of_pll b8008_gate_of_sys
  power_on_pll_reset : core.

(** Every state of a run has settled. *)
Lemma run_settled s es : exists t, crg_run (settle s) es = settle t.
Proof.
  induction es as [|e es IH] using rev_ind; [by exists s|].
  rewrite crg_run_snoc. by eexists.
Qed.

(** ** Theorems *)

(** C8: The order of release (S-RST-6).  From power-on, under any
    interleaving of clock edges, PLL behaviour and input changes: when the
    8008 core is out of reset, then for at least [rs_depth] edges of its clock
    and without interruption up to now the system domain has been out of
    reset, the PLL locked, the power-on count done, the reset button up and
    no reset requested.  So the console path is always ready before the core
    can emit a byte. *)
Theorem b8008_released_after_sys n r h p y b es :
  let s := crg_power_on n r h p y b in
  b8008_rst (crg_run s es) = false ->
  exists pre post,
    es = pre ++ post /\
    (rs_depth <= count b8008_edge_of post)%nat /\
    forall k, (k <= length post)%nat ->
      let t := crg_run s (pre ++ take k post) in
      sys_rst t = false /\ locked t = true /\ por_done t = true /\
      rst_n t = true /\ rst t = false /\ reset t = false.
Proof.
  intros s Hr. subst s. unfold crg_power_on in *.
  destruct (released_for_run b8008_rst_gate cd_b8008 b8008_edge_of settle_b8008 b8008_clocked
              (Crg por_reset n r h p y b) es ltac:(auto 6)) as (pre & post & Hrel).
  destruct (released_after _ _ _ _ _ _ _ Hrel Hr) as [Hn Hlow].
  exists pre, post. split; [apply Hrel|]. split; [done|]. intros k Hk.
  specialize (Hlow k Hk).
  destruct (run_settled (Crg por_reset n r h p y b) (pre ++ take k post)) as [t Ht].
  rewrite Ht in *. unfold b8008_rst_gate in Hlow.
  apply orb_false_iff in Hlow as [[Hl Hh]%orb_false_iff Hy]. apply negb_false_iff in Hl.
  destruct (pll_reset t) eqn:Hp; [by rewrite settle_unlocked in Hl|].
  rewrite <- settle_pll_reset in Hp. unfold pll_reset in Hp.
  apply orb_false_iff in Hp as [[?%negb_false_iff ?%negb_false_iff]%orb_false_iff ?].
  done.
Qed.

(** Asserting is immediate.  Whatever the state and the event: if the system
    domain is in reset after it, so is the core; if the reset button is down, a
    reset is requested, the power-on count is not done or the hook [reset] is
    high after it, both domains are in reset, without waiting for any clock. *)
Theorem reset_asserts_both s e :
  let s' := crg_step s e in
  (sys_rst s' = true -> b8008_rst s' = true) /\
  (por_done s' = false \/ rst_n s' = false \/ rst s' = true \/ reset s' = true ->
   sys_rst s' = true /\ b8008_rst s' = true).
Proof.
  intros s'. subst s'. unfold crg_step. split; [auto|]. intros H.
  assert (Hg : sys_rst_gate (settle (clocked s e)) = true); [|auto].
  destruct (pll_reset (clocked s e)) eqn:Hp; [auto|].
  rewrite <- settle_pll_reset in Hp. unfold pll_reset in Hp. unfold sys_rst_gate.
  destruct (por_done _), (rst_n _), (rst _); simpl in Hp; try done.
  destruct H as [?|[?|[?|H]]]; try done. rewrite H. apply orb_true_r.
Qed.

(** The counter is a function of the number of edges. *)
Lemma por_count_run n r h p y b es :
  por_count (crg_run (crg_power_on n r h p y b) es) =
  Z.max 0 (por_reset - Z.of_nat (count por_edge_of es)).
Proof.
  induction es as [|e es IH] using rev_ind; [done|].
  rewrite crg_run_snoc, count_app, count_single.
  set (s := crg_run _ es) in *.
  assert (He : por_count (crg_step s e) = if por_edge_of e then por_edge s else por_count s)
    by (by destruct e).
  rewrite He. destruct (por_edge_of e); [|rewrite IH; lia].
  unfold por_edge, por_done. unfold por_reset in *.
  destruct (Z.eqb_spec (por_count s) 0); simpl; [lia|].
  rewrite Z.mod_small by lia. lia.
Qed.

(** The cycles of the power-on reset in step R2 of SPEC.md. *)
Definition spec_por_cycles : Z := 65536.

(** C35: The power-on reset is one cycle shorter than SPEC.md says.  The 16-bit counter starts at 65,535 and never
    wraps: after [k] edges of the 100 MHz clock it holds 65,535 - [k], and 0 from the 65,535th edge on;
    before that edge both domains are in reset, whatever else happens.  So the 65,536 cycles
    of step R2 ([spec_por_cycles]) are enough, and it is done one edge before they are over. *)
Theorem power_on_reset_exact n r h p y b es :
  let s := crg_run (crg_power_on n r h p y b) es in
  let k := Z.of_nat (count por_edge_of es) in
  por_count s = Z.max 0 (65535 - k) /\
  (por_done s = true <-> spec_por_cycles - 1 <= k) /\
  (k < spec_por_cycles - 1 -> sys_rst s = true /\ b8008_rst s = true).
Proof.
  intros s k. pose proof (por_count_run n r h p y b es) as Hc.
  fold s k in Hc. change por_reset with 65535 in Hc.
  split; [done|]. unfold spec_por_cycles. split; [unfold por_done; rewrite Hc, Z.eqb_eq; lia|].
  intros Hk. destruct (run_settled (Crg por_reset n r h p y b) es) as [t Ht].
  subst s. unfold crg_power_on in *. rewrite Ht in *.
  assert (Hp : pll_reset t = true).
  { rewrite <- settle_pll_reset. unfold pll_reset, por_done. rewrite Hc.
    destruct (Z.eqb_spec (Z.max 0 (65535 - k)) 0); [lia|done]. }
  split; auto 6.
Qed.

(** ** Release *)

(** The inputs that allow the release. *)
Definition idle_inputs (s : crg) : Prop := rst_n s = true /\ rst s = false /\ reset s = false.

Lemma idle_run s es :
  idle_inputs s -> forallb quiet_event es = true -> idle_inputs (crg_run s es).
Proof.
  revert s. induction es as [|e es IH]; [done|]. intros s Hs [He Hes]%andb_true_iff. simpl.
  apply IH; [|done]. by destruct e.
Qed.

Lemma pll_tick_iter_locked k p : pll_locked p = true -> pll_locked (Nat.iter k pll_tick p) = true.
Proof. intros H. induction k; simpl; auto using pll_tick_locked. Qed.

Lemma pll_locks_by k p : (pll_lock_time <= k)%nat -> pll_locked (Nat.iter k pll_tick p) = true.
Proof.
  intros Hk. replace k with ((k - pll_lock_time) + pll_lock_time)%nat by lia.
  rewrite Nat.iter_add. apply pll_tick_iter_locked, pll_locks.
Qed.

(** With the count done and the inputs idle, the PLL only ticks. *)
Lemma pll_run s es :
  idle_inputs s -> por_done s = true -> forallb quiet_event es = true ->
  por_done (crg_run s es) = true /\
  pll (crg_run s es) = Nat.iter (count tick_of es) pll_tick (pll s).
Proof.
  intros Hs Hd. induction es as [|e es IH] using rev_ind; [done|].
  rewrite forallb_app. intros [Hes He]%andb_true_iff.
  destruct (IH Hes) as [Hd' Hp]. rewrite crg_run_snoc, count_app, count_single.
  pose proof (idle_run s es Hs Hes) as Hi. set (t := crg_run s es) in *.
  assert (Hd2 : por_done (clocked t e) = true).
  { unfold por_done in *. destruct e as [[] ? ?| |]; simpl in *; try done.
    unfold por_edge, por_done. rewrite Hd'. done. }
  split; [by destruct e|]. unfold crg_step. rewrite settle_pll.
  assert (Hr : pll_reset (clocked t e) = false).
  { unfold pll_reset. rewrite Hd2. destruct Hi as (H1 & H2 & _).
    destruct e; simpl in *; by rewrite ?H1, ?H2. }
  rewrite Hr. destruct e; simpl in *; try done; rewrite ?Nat.add_0_r; [done|].
  by rewrite Nat.add_1_r, Hp.
Qed.

Lemma locked_run s es :
  idle_inputs s -> por_done s = true -> locked s = true -> forallb quiet_event es = true ->
  locked (crg_run s es) = true.
Proof.
  intros ?? Hl ?. unfold locked in *. destruct (pll_run s es) as [_ ->]; [done..|].
  by apply pll_tick_iter_locked.
Qed.

Lemma forallb_take {A} (f : A -> bool) k l : forallb f l = true -> forallb f (take k l) = true.
Proof.
  rewrite !forallb_forall. intros H x Hx. apply H. rewrite <- (take_drop k l).
  apply in_or_app. by left.
Qed.
#[local] Hint Resolve forallb_take : core.

(** Locked, with idle inputs, [rs_depth] edges release [sys] for good. *)
Lemma sys_releases s0 es seg :
  pll_reset s0 = true ->
  let s := crg_run (settle s0) es in
  idle_inputs s -> por_done s = true -> locked s = true -> forallb quiet_event seg = true ->
  (rs_depth <= count sys_edge_of seg)%nat ->
  sys_rst (crg_run s seg) = false.
Proof.
  intros H0 s Hi Hd Hl Hq Hn. unfold sys_rst, s. rewrite <- crg_run_app.
  apply (domain_releases sys_rst_gate cd_sys sys_edge_of settle_sys sys_clocked); [auto| |done].
  intros k Hk. rewrite crg_run_app. unfold sys_rst_gate.
  fold s. rewrite locked_run by auto.
  by destruct (idle_run s (take k seg) Hi ltac:(auto)) as (_ & _ & ->).
Qed.

(** The boot sequence, stage by stage. *)
Lemma crg_boot n r h p y b es es1 es2 es3 es4 :
  let s := crg_run (crg_power_on n r h p y b) es in
  idle_inputs s ->
  forallb quiet_event (es1 ++ es2 ++ es3 ++ es4) = true ->
  65535 <= Z.of_nat (count por_edge_of es1) ->
  (pll_lock_time <= count tick_of es2)%nat ->
  (rs_depth <= count sys_edge_of es3)%nat ->
  (rs_depth <= count b8008_edge_of es4)%nat ->
  (forall k, sys_rst (crg_run s (es1 ++ es2 ++ es3 ++ take k es4)) = false) /\
  b8008_rst (crg_run s (es1 ++ es2 ++ es3 ++ es4)) = false.
Proof.
  intros s Hi Hq H1 H2 H3 H4.
  rewrite !forallb_app, !andb_true_iff in Hq. destruct Hq as (Hq1 & Hq2 & Hq3 & Hq4).
  set (s0 := Crg por_reset n r h p y b).
  assert (Hs0 : pll_reset s0 = true) by done.
  set (t1 := crg_run s es1). set (t2 := crg_run t1 es2).
  assert (Ht1 : idle_inputs t1 /\ por_done t1 = true).
  { split; [by apply idle_run|]. unfold t1, s. rewrite <- crg_run_app. unfold por_done.
    rewrite por_count_run, count_app. apply Z.eqb_eq. unfold por_reset. lia. }
  destruct Ht1 as [Hi1 Hd1].
  assert (Hi2 : idle_inputs t2) by (by apply idle_run).
  destruct (pll_run t1 es2 Hi1 Hd1 Hq2) as [Hd2 Hp2]. fold t2 in Hd2, Hp2.
  assert (Hl2 : locked t2 = true) by (unfold locked; rewrite Hp2; by apply pll_locks_by).
  assert (Ht2 : t2 = crg_run (settle s0) (es ++ es1 ++ es2))
    by (unfold t2, t1, s; by rewrite !crg_run_app).
  assert (Hsys : forall k, sys_rst (crg_run t2 (es3 ++ take k es4)) = false).
  { intros k. rewrite Ht2. apply sys_releases; rewrite <- ?Ht2; try done.
    - rewrite forallb_app, Hq3. simpl. auto.
    - rewrite count_app. lia. }
  split.
  { intros k. rewrite !crg_run_app. fold t1 t2. by rewrite <- crg_run_app. }
  rewrite !crg_run_app. fold t1 t2. rewrite Ht2, <- (crg_run_app _ _ es3), <- crg_run_app.
  apply (domain_releases b8008_rst_gate cd_b8008 b8008_edge_of settle_b8008 b8008_clocked);
    [auto 6| |done].
  intros k Hk. rewrite crg_run_app, crg_run_app, <- Ht2, <- crg_run_app. unfold b8008_rst_gate.
  rewrite Hsys, locked_run; try done; [|rewrite forallb_app, Hq3; simpl; auto].
  destruct (idle_run t2 (es3 ++ take k es4) Hi2) as (_ & _ & ->); [|done].
  rewrite forallb_app, Hq3. simpl. auto.
Qed.

(** Both domains come up.  From power-on and after any history, let the inputs
    be idle and change no more.  Then 65,535 edges of the 100 MHz clock,
    followed by the PLL's lock time, then [rs_depth] edges of the system clock, then
    [rs_depth] edges of the core's clock, with anything interleaved, release
    the system and the core; the system was out of reset before the core's edges. *)
Theorem crg_releases n r h p y b es es1 es2 es3 es4 :
  let s := crg_run (crg_power_on n r h p y b) es in
  idle_inputs s ->
  forallb quiet_event (es1 ++ es2 ++ es3 ++ es4) = true ->
  65535 <= Z.of_nat (count por_edge_of es1) ->
  (pll_lock_time <= count tick_of es2)%nat ->
  (rs_depth <= count sys_edge_of es3)%nat ->
  (rs_depth <= count b8008_edge_of es4)%nat ->
  (forall k, sys_rst (crg_run s (es1 ++ es2 ++ es3 ++ take k es4)) = false) /\
  b8008_rst (crg_run s (es1 ++ es2 ++ es3 ++ es4)) = false.
Proof. apply crg_boot. Qed.

End Crg.

Arguments crg : clear implicits.

(** ** Runs on the vendor's primitives *)

Module CrgRuns.

(** Two flip-flops in series, both with an asynchronous preset; the first
    takes in 0. *)
Record FD1S3BX_pair := { ff1 : bool; ff2 : bool }.

Lemma pair_release (s : FD1S3BX_pair) k :
  ff2 (Nat.iter k (fun s => {| ff1 := false; ff2 := ff1 s |}) {| ff1 := true; ff2 := true |}) =
  (k <? 2)%nat.
Proof. destruct k as [|[|k]]; [done..|]. simpl. by destruct k. Qed.

#[export] Instance ecp5_synchronizer : AsyncResetSynchronizer FD1S3BX_pair := {
  rs_rst := ff2;
  rs_set _ := {| ff1 := true; ff2 := true |};
  rs_edge s := {| ff1 := false; ff2 := ff1 s |};
  rs_depth := 2;
  rs_depth_pos := ltac:(lia);
  rs_release := pair_release
}.

(** A PLL that locks on its third tick. *)
Lemma pll3_locks (p : nat) : (3 <=? Nat.iter 3 S p)%nat = true.
Proof. simpl. by destruct p. Qed.

Lemma pll3_stays (p : nat) : (3 <=? p)%nat = true -> (3 <=? S p)%nat = true.
Proof. rewrite !Nat.leb_le. lia. Qed.

#[export] Instance pll3 : ECP5PLL nat := {
  pll_locked p := (3 <=? p)%nat;
  pll_clear _ := 0%nat;
  pll_tick := S;
  pll_lock_time := 3;
  pll_clear_unlocked _ := eq_refl;
  pll_tick_locked := pll3_stays;
  pll_locks := pll3_locks
}.

Definition on0 : crg nat FD1S3BX_pair :=
  crg_power_on true false false 0%nat {| ff1 := false; ff2 := false |} {| ff1 := false; ff2 := false |}.

(** A count done, the PLL locked, two system edges and two core edges. *)
Definition boot : list event := [PllTick; PllTick; PllTick; Edges false true true; Edges false true true].
Definition core_edges : list event := [Edges false true true; Edges true false true].

Definition por_edges : list event := replicate (Z.to_nat 65535) (Edges true false false).

Lemma count_replicate f e k : f e = true -> count f (replicate k e) = k.
Proof. intros H. unfold count. induction k; simpl; [done|]. rewrite H. simpl. by f_equal. Qed.

Lemma por_edges_quiet k : forallb quiet_event (replicate k (Edges true false false)) = true.
Proof. by induction k. Qed.

Lemma por_edges_count : Z.of_nat (count por_edge_of por_edges) = 65535.
Proof. unfold por_edges. rewrite count_replicate by done. apply Z2Nat.id. lia. Qed.

(** The boot sequence releases the system, then the core. *)
Lemma crg_releases_witness :
  b8008_rst (crg_run (crg_run on0 []) (por_edges ++ [PllTick; PllTick; PllTick] ++
     [Edges false true true; Edges false true true] ++ core_edges)) = false.
Proof.
  apply crg_releases.
  - done.
  - by rewrite !forallb_app; unfold por_edges; rewrite por_edges_quiet.
  - rewrite por_edges_count. lia.
  - apply le_n.
  - apply le_n.
  - apply le_n.
Defined.

(** In that run the system was released before the core. *)
Lemma b8008_released_after_sys_witness :
  exists pre post,
    por_edges ++ boot ++ core_edges = pre ++ post /\ (2 <= count b8008_edge_of post)%nat.
Proof.
  destruct (b8008_released_after_sys true false false 0%nat {| ff1 := false; ff2 := false |}
              {| ff1 := false; ff2 := false |} (por_edges ++ boot ++ core_edges))
    as (pre & post & He & Hn & _).
  - apply crg_boot with (es := []) (es2 := [PllTick; PllTick; PllTick])
      (es3 := [Edges false true true; Edges false true true]); try apply le_n; [done| |].
    + by rewrite !forallb_app; unfold por_edges; rewrite por_edges_quiet.
    + rewrite por_edges_count. lia.
  - by exists pre, post.
Defined.

End CrgRuns.
