(* ===== verification/NetCore.v ===== *)
(** * The boot logic of the core's wrapper

    The processes of src/b8008_net_core.vhdl: the power-on counter, the auto-start pulse that
    stands for the press of the run button, and the bootstrap interrupt that jams RST 0 into the
    8008 until it acknowledges.  One step is a rising edge of clk; every register takes its new
    value from the registers before the edge.  The 8008 (b8008_top), its debug clock and its USART
    are a submodule: what they drive (phi2, the state lines, sync, the reset request, the ROM
    address) are the inputs of the step, and the theorems quantify over them. *)

From Stdlib Require Import ZArith Lia List Bool.
From stdpp Require Import base list.
From S2P Require Import Prelude.

Open Scope Z_scope.

Record core_in := CoreIn {
  core_rst : bool;
  phi2 : bool; s0_sig : bool; s1_sig : bool; s2_sig : bool; sync_sig : bool;
  dbg_reset_request : bool
}.

Record net_core := NetCore {
  clk_counter : Z;
  por_active : bool;
  auto_start_cnt : Z;
  auto_start_done : bool;
  auto_start_pulse : bool;
  bootstrap_int : bool;
  bootstrap_done : bool;
  bootstrap_counter : Z;
  bs_phi2_prev : bool
}.

(** The initial values of the declarations. *)
Definition core_power_on : net_core := NetCore 0 true 0 false false false false 0 false.

Definition reset_int (s : net_core) (i : core_in) : bool := por_active s || false || dbg_reset_request i.

(** The process of the power-on counter: [clk_counter] and [por_active]. *)
Definition por_process (s : net_core) (i : core_in) : Z * bool :=
  if core_rst i then (0, true)
  else ((clk_counter s + 1) mod 2 ^ 26, if Z.testbit (clk_counter s) 19 then false else por_active s).

(** The auto-start process: its counter, done flag and pulse. *)
Definition auto_start_process (s : net_core) : Z * bool * bool :=
  if por_active s || false then (0, false, false)
  else if negb (auto_start_done s) then
    let cnt := (auto_start_cnt s + 1) mod 2 ^ 17 in
    if auto_start_cnt s =? 50000 then (cnt, true, true) else (cnt, false, false)
  else (auto_start_cnt s, true, false).

(** The state T1I with sync. *)
Definition t1i (i : core_in) : bool := s2_sig i && s1_sig i && negb (s0_sig i) && sync_sig i.

(** The bootstrap process: interrupt, done flag and counter. *)
Definition bootstrap_process (s : net_core) (i : core_in) : bool * bool * Z :=
  if reset_int s i then (false, false, 0)
  else if phi2 i && negb (bs_phi2_prev s) then
    if negb (bootstrap_done s) then
      let cnt := (bootstrap_counter s + 1) mod 2 ^ 8 in
      if (16 <=? bootstrap_counter s) && t1i i then (false, true, cnt) else (true, bootstrap_done s, cnt)
    else (bootstrap_int s, bootstrap_done s, bootstrap_counter s)
  else (bootstrap_int s, bootstrap_done s, bootstrap_counter s).

Definition core_step (s : net_core) (i : core_in) : net_core :=
  let '(counter, por) := por_process s i in
  let '(cnt, done, pulse) := auto_start_process s in
  let '(int, bdone, bcnt) := bootstrap_process s i in
  NetCore counter por cnt done pulse int bdone bcnt (phi2 i).

Definition core_run (s : net_core) (ins : list core_in) : net_core := fold_left core_step ins s.

(** The wires past the processes: the run enable of the 8008 and the address of the ROM. *)
Definition run_enable (dbg_run_enable ext_hold : bool) : bool := dbg_run_enable && negb ext_hold.
Definition rom_addr (rom_a : Z) : Z := rom_a mod 2 ^ 12.

Lemma core_run_snoc s ins i : core_run s (ins ++ [i]) = core_step (core_run s ins) i.
Proof. unfold core_run. by rewrite fold_left_app. Qed.

(** ** Power-on and auto-start *)

(** Edges of clk after the release of rst until [por_active] falls, and until the pulse. *)
Definition POR_EDGES : Z := 2 ^ 19 + 1.
Definition START_EDGE : Z := POR_EDGES + 1 + 50000.

(** The state [k] edges after the reset: the counters count edges. *)
Definition started (k : Z) (s : net_core) : Prop :=
  clk_counter s = k mod 2 ^ 26 /\ por_active s = (k <? POR_EDGES) /\
  auto_start_pulse s = (k =? START_EDGE) /\ auto_start_done s = (START_EDGE <=? k) /\
  auto_start_cnt s = Z.min (Z.max 0 (k - POR_EDGES)) 50001.

Lemma counter_bit k : 0 <= k -> k < POR_EDGES -> Z.testbit (k mod 2 ^ 26) 19 = (k =? 2 ^ 19).
Proof.
  unfold POR_EDGES. intros Hk Hl. rewrite Z.mod_small by lia.
  destruct (Z.eqb_spec k (2 ^ 19)) as [->|]; [reflexivity|].
  destruct (Z.testbit k 19) eqn:E; [|done]. apply Z.testbit_true in E; [|lia].
  rewrite Z.div_small in E by lia. discriminate.
Qed.

Lemma started_step k s i :
  0 <= k -> core_rst i = false -> started k s -> started (k + 1) (core_step s i).
Proof.
  intros Hk Hrst (H1 & H2 & H3 & H4 & H5). unfold core_step, por_process. rewrite Hrst.
  assert (Hc : (clk_counter s + 1) mod 2 ^ 26 = (k + 1) mod 2 ^ 26) by (rewrite H1; by rewrite Zplus_mod_idemp_l).
  assert (Hp : (if Z.testbit (clk_counter s) 19 then false else por_active s) = (k + 1 <? POR_EDGES)).
  { rewrite H2, H1. destruct (Z.ltb_spec k POR_EDGES) as [Hl|Hl].
    - rewrite counter_bit by done. unfold POR_EDGES in *.
      destruct (Z.eqb_spec k (2 ^ 19)), (Z.ltb_spec (k + 1) (2 ^ 19 + 1)); (done || lia).
    - rewrite (proj2 (Z.ltb_ge _ _)) by lia. by destruct (Z.testbit _ _). }
  destruct (auto_start_process s) as [[cnt done] pulse] eqn:Ha.
  destruct (bootstrap_process s i) as [[int bdone] bcnt]. unfold started. cbn.
  split; [exact Hc|]. split; [exact Hp|].
  unfold auto_start_process in Ha. rewrite orb_false_r, H2, H4, H5 in Ha. unfold START_EDGE, POR_EDGES in *.
  destruct (Z.ltb_spec k (2 ^ 19 + 1)) as [Hl|Hl].
  { injection Ha as <- <- <-. rewrite (proj2 (Z.eqb_neq _ _)), (proj2 (Z.leb_gt _ _)) by lia. split_and!; [done|done|lia]. }
  destruct (Z.leb_spec (2 ^ 19 + 1 + 1 + 50000) k) as [Hd|Hd]; cbn [negb] in Ha.
  { injection Ha as <- <- <-. rewrite (proj2 (Z.eqb_neq _ _)), (proj2 (Z.leb_le _ _)) by lia. split_and!; [done|done|lia]. }
  rewrite Z.mod_small in Ha by lia.
  destruct (Z.eqb_spec (Z.min (Z.max 0 (k - (2 ^ 19 + 1))) 50001) 50000) as [E|E]; injection Ha as <- <- <-.
  - rewrite (proj2 (Z.eqb_eq _ _)), (proj2 (Z.leb_le _ _)) by lia. split_and!; [done|done|lia].
  - rewrite (proj2 (Z.eqb_neq _ _)), (proj2 (Z.leb_gt _ _)) by lia. split_and!; [done|done|lia].
Qed.

(** The first edge with rst low, the counter and the power-on reset being as rst leaves them. *)
Lemma started_fresh s j :
  clk_counter s = 0 -> por_active s = true -> core_rst j = false -> started 1 (core_step s j).
Proof.
  intros Hc Hp Hj. unfold core_step, por_process, auto_start_process. rewrite Hj, Hc, Hp. cbn [orb].
  destruct (bootstrap_process s j) as [[int bdone] bcnt]. by split_and!.
Qed.

Lemma reset_fresh s i : core_rst i = true -> clk_counter (core_step s i) = 0 /\ por_active (core_step s i) = true.
Proof.
  intros Hi. unfold core_step, por_process. rewrite Hi.
  by destruct (auto_start_process s) as [[??]?], (bootstrap_process s i) as [[??]?].
Qed.

Lemma started_power_on : started 0 core_power_on.
Proof. by split_and!. Qed.

Lemma started_run k s ins :
  0 <= k -> started k s -> Forall (fun i => core_rst i = false) ins ->
  started (k + Z.of_nat (length ins)) (core_run s ins).
Proof.
  intros Hk Hs Hrst. induction ins as [|i ins IH] using rev_ind; [cbn; by rewrite Z.add_0_r|].
  apply Forall_app in Hrst as [Hrst Hi]. rewrite Forall_singleton in Hi. rewrite core_run_snoc, length_app. cbn [length].
  replace (k + Z.of_nat (length ins + 1)) with (k + Z.of_nat (length ins) + 1) by lia.
  apply started_step; [lia|done|auto].
Qed.

(** The two timers are exact: from power-on, or from any edge with rst high, and whatever the 8008
    drives, after [k] edges with rst low the power-on reset is active exactly if [k] is at most
    2^19, and the run button is pressed after exactly one number of edges, 50,001 after the end of
    that reset: never a second time, also when the counter wraps. *)
Theorem start_exact s ins :
  s = core_power_on \/ (exists s0 i, core_rst i = true /\ s = core_step s0 i) ->
  Forall (fun i => core_rst i = false) ins -> ins <> [] ->
  let k := Z.of_nat (length ins) in
  por_active (core_run s ins) = (k <=? 2 ^ 19) /\ auto_start_pulse (core_run s ins) = (k =? 2 ^ 19 + 50002).
Proof.
  intros Hs Hrst Hne. assert (H : started (Z.of_nat (length ins)) (core_run s ins)).
  { destruct Hs as [->|(s0 & i & Hi & ->)].
    - apply (started_run 0 core_power_on ins); [lia|apply started_power_on|done].
    - destruct ins as [|j ins]; [done|]. apply Forall_cons in Hrst as [Hj Hrst].
      pose proof (started_run 1 _ ins ltac:(lia) (started_fresh _ j (proj1 (reset_fresh s0 i Hi)) (proj2 (reset_fresh s0 i Hi)) Hj) Hrst) as H.
      replace (Z.of_nat (length (j :: ins))) with (1 + Z.of_nat (length ins)) by (cbn [length]; lia). exact H. }
  destruct H as (_ & Hp & Hq & _). cbv zeta. rewrite Hp, Hq. unfold START_EDGE, POR_EDGES. split; [|f_equal].
  destruct (Z.ltb_spec (Z.of_nat (length ins)) (2 ^ 19 + 1)), (Z.leb_spec (Z.of_nat (length ins)) (2 ^ 19)); lia.
Qed.

(** ** The bootstrap interrupt *)

(** No edge of the run resets the boot logic. *)
Fixpoint no_reset (s : net_core) (ins : list core_in) : Prop :=
  match ins with
  | [] => True
  | i :: ins' => reset_int s i = false /\ no_reset (core_step s i) ins'
  end.

(** At each rising edge of phi2, whether the 8008 is in T1I; [prev] is phi2 before. *)
Fixpoint rises (prev : bool) (ins : list core_in) : list bool :=
  match ins with
  | [] => []
  | i :: ins' => if phi2 i && negb prev then t1i i :: rises (phi2 i) ins' else rises (phi2 i) ins'
  end.

(** The specification, on the rising edges of phi2 since the reset: an acknowledgement is T1I at one
    of them past the first sixteen (of every 256: the counter has eight bits). *)
Definition acknowledged (es : list bool) : Prop :=
  exists j, es !! j = Some true /\ 16 <= Z.of_nat j mod 256.

Lemma acknowledged_snoc es t :
  acknowledged (es ++ [t]) <-> acknowledged es \/ (t = true /\ 16 <= Z.of_nat (length es) mod 256).
Proof.
  split.
  - intros (j & Hj & Hm). apply lookup_app_Some in Hj as [Hj|[Hl Hj]]; [left; by exists j|right].
    apply list_lookup_singleton_Some in Hj as [Hj <-]. replace j with (length es) in Hm by lia. done.
  - intros [(j & Hj & Hm)|[-> Hm]]; [exists j|exists (length es)]; (split; [|done]).
    + by apply lookup_app_l_Some.
    + apply list_lookup_middle. done.
Qed.

(** The state after the rising edges [es]. *)
Definition jammed (es : list bool) (s : net_core) : Prop :=
  (acknowledged es /\ bootstrap_done s = true /\ bootstrap_int s = false) \/
  (~ acknowledged es /\ bootstrap_done s = false /\ bootstrap_int s = bool_decide (es <> []) /\
   bootstrap_counter s = Z.of_nat (length es) mod 256).

Lemma core_step_prev s i : bs_phi2_prev (core_step s i) = phi2 i.
Proof.
  unfold core_step. destruct (por_process s i), (auto_start_process s) as [[??]?], (bootstrap_process s i) as [[??]?]. done.
Qed.

Lemma core_step_bootstrap s i :
  (bootstrap_int (core_step s i), bootstrap_done (core_step s i), bootstrap_counter (core_step s i)) =
  bootstrap_process s i.
Proof.
  unfold core_step. destruct (por_process s i), (auto_start_process s) as [[??]?], (bootstrap_process s i) as [[??]?]. done.
Qed.

Lemma jammed_step es s i :
  reset_int s i = false -> jammed es s ->
  jammed (if phi2 i && negb (bs_phi2_prev s) then es ++ [t1i i] else es) (core_step s i).
Proof.
  intros Hr Hj. pose proof (core_step_bootstrap s i) as Hb. unfold bootstrap_process in Hb. rewrite Hr in Hb.
  destruct (phi2 i && negb (bs_phi2_prev s)); [|injection Hb as B1 B2 B3; unfold jammed; by rewrite B1, B2, B3].
  destruct Hj as [(Ha & Hd & Hi)|(Ha & Hd & Hi & Hc)]; rewrite Hd in Hb; cbn [negb] in Hb.
  { injection Hb as B1 B2 B3. left. rewrite acknowledged_snoc, B1, B2. auto. }
  rewrite Hc in Hb. destruct (Z.leb_spec 16 (Z.of_nat (length es) mod 256)) as [Hm|Hm]; cbn [andb] in Hb.
  - destruct (t1i i) eqn:Ht; injection Hb as B1 B2 B3; [left|right]; rewrite acknowledged_snoc.
    + rewrite B1, B2. auto.
    + rewrite B1, B2, B3. split; [intros [?|[? _]]; done|]. split; [done|]. split; [by destruct es|].
      rewrite length_app. cbn [length]. rewrite Nat2Z.inj_add. apply Zplus_mod_idemp_l.
  - injection Hb as B1 B2 B3. right. rewrite acknowledged_snoc, B1, B2, B3.
    split; [intros [?|[_ ?]]; (done || lia)|]. split; [done|]. split; [by destruct es|].
    rewrite length_app. cbn [length]. rewrite Nat2Z.inj_add. apply Zplus_mod_idemp_l.
Qed.

Lemma jammed_run es s ins :
  no_reset s ins -> jammed es s -> jammed (es ++ rises (bs_phi2_prev s) ins) (core_run s ins).
Proof.
  revert es s. induction ins as [|i ins IH]; intros es s Hr Hj; [cbn; by rewrite app_nil_r|].
  destruct Hr as [Hr Hrs]. pose proof (jammed_step es s i Hr Hj) as Hj'. cbn [rises core_run fold_left].
  specialize (IH _ _ Hrs Hj'). rewrite core_step_prev in IH.
  destruct (phi2 i && negb (bs_phi2_prev s)); [|exact IH]. by rewrite <- (assoc_L (++)) in IH.
Qed.

(** C33: The bootstrap interrupt follows its specification, whatever the 8008 does: since a reset, the
    interrupt that jams RST 0 is raised from the first rising edge of phi2 on, held until the 8008
    is in T1I at a rising edge past the first sixteen, and from that acknowledgement on it is down
    for good.  (The counter of edges has eight bits: the first sixteen of every 256 do not count.) *)
Theorem bootstrap_refines s i ins :
  reset_int s i = true -> no_reset (core_step s i) ins ->
  let es := rises (phi2 i) ins in
  let s' := core_run (core_step s i) ins in
  (bootstrap_done s' = true <-> acknowledged es) /\ (bootstrap_int s' = true <-> es <> [] /\ ~ acknowledged es).
Proof.
  intros Hr Hrs. cbv zeta. pose proof (core_step_bootstrap s i) as Hb. unfold bootstrap_process in Hb.
  rewrite Hr in Hb. injection Hb as B1 B2 B3.
  assert (H0 : jammed [] (core_step s i)).
  { right. rewrite B1, B2, B3. split; [by intros (j & Hj & _)|]. by split_and!. }
  pose proof (jammed_run [] _ ins Hrs H0) as Hj. rewrite core_step_prev in Hj. cbn [app] in Hj.
  destruct Hj as [(Ha & -> & ->)|(Ha & -> & -> & _)]; [split; [done|]; naive_solver|].
  split; [naive_solver|]. rewrite bool_decide_eq_true. naive_solver.
Qed.

(** ** Runs *)

Module NetCoreRuns.

Definition idle : core_in := CoreIn false false false false false false false.

(** At the very edge: the pulse, and one edge earlier and later. *)
Example pulse_exact_runs :
  (fun k => auto_start_pulse (core_run core_power_on (replicate k idle))) <$> [0; 1; 7]%nat = [false; false; false] /\
  auto_start_pulse (core_run (NetCore (2 ^ 19 + 50001) false 50000 false false false false 0 false) [idle]) = true /\
  auto_start_pulse (core_run (NetCore (2 ^ 19 + 50001) false 50000 false false false false 0 false) [idle; idle]) = false.
Proof. vm_compute. auto. Qed.

(** A clock of phi2: high for one edge, low for the next; T1I at every edge from the [n]-th pair on. *)
Definition phases (n m : nat) : list core_in :=
  concat (replicate n [CoreIn false true true false false true false; idle]) ++
  concat (replicate m [CoreIn false true false true true true false; idle]).

(** The debug clock's reset request, with the power-on reset long over. *)
Definition request : core_in := CoreIn false false false false false false true.
Definition running : net_core := NetCore (2 ^ 20) false 50001 true false true false 200 false.

Lemma bootstrap_refines_witness :
  ((bootstrap_done (core_run (core_step running request) (phases 10 12)) = true <->
    acknowledged (rises false (phases 10 12))) /\
   (bootstrap_int (core_run (core_step running request) (phases 10 12)) = true <->
    rises false (phases 10 12) <> [] /\ ~ acknowledged (rises false (phases 10 12)))) /\
  bootstrap_int (core_run (core_step running request) (phases 10 6)) = true /\
  bootstrap_int (core_run (core_step running request) (phases 10 7)) = false.
Proof.
  split; [|vm_compute; auto].
  apply (bootstrap_refines running request (phases 10 12)).
  - reflexivity.
  - vm_compute. tauto.
Defined.

End NetCoreRuns.
