(* ===== verification/Boot.v ===== *)
(** * From power-on to the start of the 8008

    The reset generator ([Crg]) driving the boot logic of the core ([NetCore]), as
    soc/b8008_integration.py connects them: clk is the clock of the domain b8008 and rst its reset.
    A step is a moment of the generator's clocks, PLL and inputs; the boot logic takes part in it
    when it is an edge of the core's clock, and samples the reset as it was before the edge. *)

From Stdlib Require Import ZArith Lia List Bool.
From stdpp Require Import base list.
From S2P Require Import Prelude Crg NetCore.

Open Scope Z_scope.

(** The inputs of the wrapper, with [i_rst=ResetSignal("b8008")]. *)
Definition with_rst (r : bool) (i : core_in) : core_in :=
  CoreIn r (phi2 i) (s0_sig i) (s1_sig i) (s2_sig i) (sync_sig i) (dbg_reset_request i).

(** What happens at a moment, and what the 8008 drives then. *)
Definition moment : Type := event * core_in.

Section Boot.
Context {pll_st sync_st : Type} `{PLL : !ECP5PLL pll_st} `{RS : !AsyncResetSynchronizer sync_st}.

Record board := BoardState { gen : crg pll_st sync_st; core : net_core }.

Definition board_step (w : board) (m : moment) : board :=
  BoardState (crg_step (gen w) m.1)
    (if b8008_edge_of m.1 then core_step (core w) (with_rst (b8008_rst (gen w)) m.2) else core w).

Definition board_run (w : board) (ms : list moment) : board := fold_left board_step ms w.

Definition board_power_on (n r h : bool) (p : pll_st) (y b : sync_st) : board :=
  BoardState (crg_power_on n r h p y b) core_power_on.

(** The edges of the core's clock. *)
Definition core_clocks (ms : list moment) : Z := Z.of_nat (count b8008_edge_of ms.*1).

Lemma board_run_app w ms1 ms2 : board_run w (ms1 ++ ms2) = board_run (board_run w ms1) ms2.
Proof. apply fold_left_app. Qed.

Lemma gen_run w ms : gen (board_run w ms) = crg_run (gen w) ms.*1.
Proof. revert w. induction ms as [|m ms IH]; intros w; [done|]. apply IH. Qed.

Lemma core_clocks_app ms1 ms2 : core_clocks (ms1 ++ ms2) = core_clocks ms1 + core_clocks ms2.
Proof. unfold core_clocks. rewrite fmap_app, count_app. lia. Qed.

Lemma core_clocks_single m : core_clocks [m] = if b8008_edge_of m.1 then 1 else 0.
Proof. unfold core_clocks. change ([m].*1) with [m.1]. rewrite count_single. by destruct (b8008_edge_of m.1). Qed.

Lemma core_clocks_nonneg ms : 0 <= core_clocks ms.
Proof. unfold core_clocks. lia. Qed.

(** ** The reset of the core between its edges *)

(** Without an edge of its clock the core stays in reset. *)
Lemma reset_stays s e : b8008_rst s = true -> b8008_edge_of e = false -> b8008_rst (crg_step s e) = true.
Proof.
  intros Hs He. unfold b8008_rst, crg_step. rewrite settle_b8008, b8008_clocked, He. cbn.
  destruct (b8008_rst_gate _); [apply rs_set_rst|exact Hs].
Qed.

Lemma reset_stays_run s es : b8008_rst s = true -> count b8008_edge_of es = 0%nat -> b8008_rst (crg_run s es) = true.
Proof.
  induction es as [|e es IH] using rev_ind; [done|]. intros Hs Hc. rewrite count_app, count_single in Hc.
  rewrite crg_run_snoc. apply reset_stays; [apply IH; [done|lia]|]. destruct (b8008_edge_of e); [lia|done].
Qed.

(** So if it is out of reset after such a stretch, it was throughout. *)
Lemma low_throughout s gap k :
  core_clocks gap = 0 -> b8008_rst (gen (board_run s gap)) = false -> b8008_rst (gen (board_run s (take k gap))) = false.
Proof.
  intros Hg Hlow. destruct (b8008_rst (gen (board_run s (take k gap)))) eqn:E; [|done].
  rewrite <- (take_drop k gap), board_run_app, gen_run in Hlow. rewrite <- (take_drop k gap), core_clocks_app in Hg.
  rewrite reset_stays_run in Hlow; [done|exact E|]. pose proof (core_clocks_nonneg (take k gap)).
  pose proof (core_clocks_nonneg (drop k gap)) as Hd. unfold core_clocks in *. lia.
Qed.

(** ** The count of edges out of reset *)

(** The boot logic after [k] edges out of reset; [k = 0] may be right after an edge in reset. *)
Definition counted (k : Z) (s : net_core) : Prop :=
  started k s \/ (k = 0 /\ clk_counter s = 0 /\ por_active s = true).

Lemma counted_low k s i : 0 <= k -> core_rst i = false -> counted k s -> counted (k + 1) (core_step s i).
Proof.
  intros Hk Hi [Hs|(-> & Hc & Hp)]; left; [by apply started_step|]. by apply started_fresh.
Qed.

Lemma counted_high s i : core_rst i = true -> counted 0 (core_step s i).
Proof.
  intros Hi. right. split; [done|]. by apply reset_fresh.
Qed.

(** [ready_for k w0 ms]: the last [k] edges of the core's clock in [ms] found it out of reset, and
    between the first and the last of them it was never in reset. *)
Definition ready_for (k : Z) (w0 : board) (ms : list moment) : Prop :=
  exists pre post gap, ms = pre ++ post ++ gap /\ core_clocks gap = 0 /\ core_clocks post = k /\
    forall j, (j < length post)%nat -> b8008_rst (gen (board_run w0 (pre ++ take j post))) = false.

Lemma ready_for_step k w0 ms m :
  ready_for k w0 ms ->
  ready_for (if b8008_edge_of m.1 then if b8008_rst (gen (board_run w0 ms)) then 0 else k + 1 else k) w0 (ms ++ [m]).
Proof.
  intros (pre & post & gap & -> & Hgap & Hpost & Hlow). destruct (b8008_edge_of m.1) eqn:He.
  2: { exists pre, post, (gap ++ [m]). rewrite core_clocks_app, core_clocks_single, He, <- !(assoc_L (++)).
       split; [done|]. split; [lia|]. done. }
  destruct (b8008_rst (gen (board_run w0 (pre ++ post ++ gap)))) eqn:Hr.
  { exists ((pre ++ post ++ gap) ++ [m]), [], []. rewrite !app_nil_r.
    do 3 (split; [done|]). intros j Hj. cbn in Hj. lia. }
  exists pre, (post ++ gap ++ [m]), []. split; [by rewrite app_nil_r, <- !(assoc_L (++))|]. split; [done|].
  split; [rewrite !core_clocks_app, core_clocks_single, He; lia|]. intros j Hj. rewrite !length_app in Hj. cbn in Hj.
  destruct (decide (j < length post)%nat) as [Hlt|Hge].
  - rewrite take_app_le by lia. auto.
  - rewrite take_app_ge, take_app_le by lia. rewrite (assoc_L (++)), board_run_app.
    apply low_throughout; [done|]. by rewrite <- board_run_app, <- (assoc_L (++)).
Qed.

(** The boot logic counts the edges out of reset. *)
Lemma board_counts n r h p y b ms :
  let w0 := board_power_on n r h p y b in
  exists k, 0 <= k /\ ready_for k w0 ms /\ counted k (core (board_run w0 ms)).
Proof.
  cbv zeta. set (w0 := board_power_on _ _ _ _ _ _). induction ms as [|m ms IH] using rev_ind.
  { exists 0. split; [lia|]. split; [|left; apply started_power_on]. exists [], [], [].
    do 3 (split; [done|]). intros j Hj. cbn in Hj. lia. }
  destruct IH as (k & Hk & Hready & Hc). pose proof (ready_for_step k w0 ms m Hready) as Hready'.
  rewrite board_run_app. cbn [board_run fold_left board_step core]. fold (board_run w0 ms).
  destruct (b8008_edge_of m.1); [|by exists k]. destruct (b8008_rst (gen (board_run w0 ms))) eqn:Hr.
  - exists 0. split; [lia|]. split; [done|]. by apply counted_high.
  - exists (k + 1). split; [lia|]. split; [done|]. by apply counted_low.
Qed.

(** What a core out of reset says of the rest of the board. *)
Lemma out_of_reset n r h p y b ms :
  let s := gen (board_run (board_power_on n r h p y b) ms) in
  b8008_rst s = false -> sys_rst s = false /\ locked s = true /\ por_done s = true.
Proof.
  cbv zeta. rewrite gen_run. cbn [gen board_power_on]. unfold crg_power_on.
  destruct (run_settled (Crg por_reset n r h p y b) ms.*1) as [t ->]. intros Hr.
  assert (Hg : b8008_rst_gate (settle t) = false).
  { destruct (b8008_rst_gate (settle t)) eqn:Hg; [|done]. by rewrite b8008_gate_high in Hr. }
  unfold b8008_rst_gate in Hg. apply orb_false_iff in Hg as [[Hl _]%orb_false_iff Hy]. apply negb_false_iff in Hl.
  split; [done|]. split; [done|]. destruct (pll_reset t) eqn:Hp; [by rewrite settle_unlocked in Hl|].
  rewrite <- settle_pll_reset in Hp. unfold pll_reset in Hp.
  by apply orb_false_iff in Hp as [[?%negb_false_iff _]%orb_false_iff _].
Qed.

Lemma core_idle w ms : core_clocks ms = 0 -> core (board_run w ms) = core w.
Proof.
  induction ms as [|m ms IH] using rev_ind; [done|]. rewrite core_clocks_app, core_clocks_single, board_run_app. intros Hc.
  pose proof (core_clocks_nonneg ms). cbn. destruct (b8008_edge_of m.1); [lia|]. apply IH. lia.
Qed.

(** The last edge of the core's clock. *)
Lemma last_edge ms :
  core_clocks ms = 0 \/
  exists before m tail, ms = before ++ m :: tail /\ b8008_edge_of m.1 = true /\ core_clocks tail = 0.
Proof.
  induction ms as [|m ms IH] using rev_ind; [by left|]. rewrite core_clocks_app, core_clocks_single.
  destruct (b8008_edge_of m.1) eqn:He; [right; by exists ms, m, []|].
  destruct IH as [IH|(before & m' & tail & -> & He' & Ht)]; [left; lia|right].
  exists before, m', (tail ++ [m]). rewrite core_clocks_app, core_clocks_single, He, <- (assoc_L (++)).
  split; [done|]. split; [done|lia].
Qed.

(** The pulse comes on one edge only. *)
Lemma pulse_count k s i : counted k s -> auto_start_pulse (core_step s i) = true -> k = START_EDGE - 1.
Proof.
  intros Hc. assert (Hp : auto_start_pulse (core_step s i) = (auto_start_process s).2).
  { unfold core_step. by destruct (por_process s i), (auto_start_process s) as [[??]?], (bootstrap_process s i) as [[??]?]. }
  rewrite Hp. unfold auto_start_process. rewrite orb_false_r.
  destruct Hc as [(_ & H2 & _ & H4 & H5)|(_ & _ & ->)]; [|done]. rewrite H2, H4, H5. unfold START_EDGE, POR_EDGES in *.
  destruct (Z.ltb_spec k (2 ^ 19 + 1)); [done|]. destruct (Z.leb_spec (2 ^ 19 + 1 + 1 + 50000) k); [done|]. cbn [negb].
  destruct (Z.eqb_spec (Z.min (Z.max 0 (k - (2 ^ 19 + 1))) 50001) 50000); [lia|done].
Qed.

(** Quiet edges are counted. *)
Lemma counted_run k w ms :
  0 <= k -> counted k (core w) ->
  (forall j, (j < length ms)%nat -> b8008_rst (gen (board_run w (take j ms))) = false) ->
  counted (k + core_clocks ms) (core (board_run w ms)).
Proof.
  intros Hk Hc. induction ms as [|m ms IH] using rev_ind; intros Hlow; [cbn; by rewrite Z.add_0_r|].
  assert (Hms : counted (k + core_clocks ms) (core (board_run w ms))).
  { apply IH. intros j Hj. specialize (Hlow j). rewrite length_app, take_app_le in Hlow by lia. apply Hlow. lia. }
  specialize (Hlow (length ms)). rewrite length_app, take_app_length in Hlow. cbn in Hlow.
  rewrite core_clocks_app, core_clocks_single, board_run_app. cbn.
  destruct (b8008_edge_of m.1); [|by rewrite Z.add_0_r]. rewrite Hlow by lia. rewrite Z.add_assoc.
  apply counted_low; [|done|done]. pose proof (core_clocks_nonneg ms). lia.
Qed.

(** C27: The 8008 is started only on a board that is ready: from power-on, under any interleaving of
    clocks, PLL, inputs and whatever the 8008 drives, when the run button is pressed, the 574,289
    edges of the core's clock before that one, all of them, found the core out of reset, and from
    the first to the last of them, without interruption, the system domain with the console bridge
    was out of reset too, the PLL locked and the power-on count done. *)
Theorem core_starts_ready n r h p y b ms :
  let w0 := board_power_on n r h p y b in
  auto_start_pulse (core (board_run w0 ms)) = true ->
  exists pre post gap m tail, ms = pre ++ post ++ gap ++ m :: tail /\
    core_clocks post = 574289 /\ core_clocks gap = 0 /\ core_clocks tail = 0 /\ b8008_edge_of m.1 = true /\
    forall j, (j < length post)%nat ->
      let s := gen (board_run w0 (pre ++ take j post)) in
      b8008_rst s = false /\ sys_rst s = false /\ locked s = true /\ por_done s = true.
Proof.
  cbv zeta. set (w0 := board_power_on _ _ _ _ _ _). intros Hpulse.
  destruct (last_edge ms) as [H0|(before & m & tail & -> & He & Ht)]; [by rewrite core_idle in Hpulse|].
  change (m :: tail) with ([m] ++ tail) in Hpulse. rewrite board_run_app, board_run_app, core_idle in Hpulse by done.
  cbn in Hpulse. rewrite He in Hpulse. fold (board_run w0 before) in Hpulse.
  destruct (board_counts n r h p y b before) as (k & Hk & (pre & post & gap & -> & Hg & Hp & Hlow) & Hc).
  pose proof (pulse_count k _ _ Hc Hpulse) as ->.
  exists pre, post, gap, m, tail. rewrite <- !(assoc_L (++)). split; [done|]. split; [exact Hp|].
  do 3 (split; [done|]). intros j Hj. specialize (Hlow j Hj). split; [done|]. by apply out_of_reset.
Qed.

(** C28: The 8008 is started: from power-on and after any history, once the inputs are idle and change
    no more, 65,535 edges of the 100 MHz clock, then the lock time of the PLL, then the depth of the
    synchroniser in edges of the system clock and of the core's clock, then 574,290 more edges of
    the core's clock, with anything interleaved, bring the board up: both domains are out of reset,
    the core's own power-on reset is over, and its run button has been pressed. *)
Theorem core_starts n r h p y b ms ms1 ms2 ms3 ms4 ms5 :
  let w := board_run (board_power_on n r h p y b) ms in
  idle_inputs (gen w) ->
  forallb quiet_event (ms1 ++ ms2 ++ ms3 ++ ms4 ++ ms5).*1 = true ->
  65535 <= Z.of_nat (count por_edge_of ms1.*1) -> (pll_lock_time <= count tick_of ms2.*1)%nat ->
  (rs_depth <= count sys_edge_of ms3.*1)%nat -> (rs_depth <= count b8008_edge_of ms4.*1)%nat ->
  574290 <= core_clocks ms5 ->
  let w' := board_run w (ms1 ++ ms2 ++ ms3 ++ ms4 ++ ms5) in
  sys_rst (gen w') = false /\ b8008_rst (gen w') = false /\
  por_active (core w') = false /\ auto_start_done (core w') = true.
Proof.
  cbv zeta. set (w := board_run _ ms). intros Hi Hq H1 H2 H3 H4 H5.
  assert (Hlow : forall j, sys_rst (gen (board_run w (ms1 ++ ms2 ++ ms3 ++ ms4 ++ take j ms5))) = false /\
                           b8008_rst (gen (board_run w (ms1 ++ ms2 ++ ms3 ++ ms4 ++ take j ms5))) = false).
  { intros j. rewrite gen_run. unfold w in Hi |- *. rewrite gen_run in Hi |- *.
    destruct (crg_boot n r h p y b ms.*1 ms1.*1 ms2.*1 ms3.*1 (ms4 ++ take j ms5).*1) as [Hs Hb]; try done.
    - rewrite !fmap_app, !forallb_app in *. rewrite fmap_take.
      rewrite !andb_true_iff in Hq |- *. destruct Hq as (Q1 & Q2 & Q3 & Q4 & Q5). auto 10 using forallb_take.
    - rewrite fmap_app, count_app. lia.
    - specialize (Hs (length (ms4 ++ take j ms5).*1)). rewrite firstn_all in Hs.
      rewrite !fmap_app in *. by split. }
  destruct (board_counts n r h p y b (ms ++ ms1 ++ ms2 ++ ms3 ++ ms4)) as (k & Hk & _ & Hc).
  rewrite board_run_app in Hc. fold w in Hc.
  assert (Hc' : counted (k + core_clocks ms5) (core (board_run w (ms1 ++ ms2 ++ ms3 ++ ms4 ++ ms5)))).
  { rewrite !(assoc_L (++)). rewrite board_run_app, <- !(assoc_L (++)). apply counted_run; [done|done|].
    intros j _. rewrite <- board_run_app, <- !(assoc_L (++)). apply Hlow. }
  specialize (Hlow (length ms5)). rewrite firstn_all in Hlow. destruct Hlow as [Hs Hb]. do 2 (split; [done|]).
  destruct Hc' as [(_ & Hp & _ & Hd & _)|(? & _ & _)]; [|lia]. rewrite Hp, Hd. unfold START_EDGE, POR_EDGES.
  rewrite (proj2 (Z.ltb_ge _ _)), (proj2 (Z.leb_le _ _)) by lia. done.
Qed.

End Boot.

(** ** Runs on the vendor's primitives *)

Module BootRuns.
Import CrgRuns.

Definition quiet : core_in := CoreIn false false false false false false false.
Definition at_rest (es : list event) : list moment := (fun e => (e, quiet)) <$> es.

Definition w0 : board (pll_st:=nat) (sync_st:=FD1S3BX_pair) :=
  board_power_on true false false 0%nat {| ff1 := false; ff2 := false |} {| ff1 := false; ff2 := false |}.

Definition ticks : list event := [PllTick; PllTick; PllTick].
Definition sys_edges : list event := [Edges false true false; Edges false true false].
Definition core_edge : event := Edges false false true.
Definition start_edges (k : nat) : list moment := at_rest (replicate k core_edge).

Lemma at_rest_events es : (at_rest es).*1 = es.
Proof. unfold at_rest. rewrite <- list_fmap_compose. apply list_fmap_id. Qed.

Lemma start_edges_count k : core_clocks (start_edges k) = Z.of_nat k.
Proof. unfold core_clocks, start_edges. by rewrite at_rest_events, count_replicate. Qed.

Lemma core_clocks_quiet k : forallb quiet_event (replicate k core_edge) = true.
Proof. by induction k. Qed.

Lemma core_starts_witness :
  let w' := board_run (board_run w0 [])
              (at_rest por_edges ++ at_rest ticks ++ at_rest sys_edges ++ at_rest [core_edge; core_edge] ++ start_edges (Z.to_nat 574290)) in
  sys_rst (gen w') = false /\ b8008_rst (gen w') = false /\
  por_active (core w') = false /\ auto_start_done (core w') = true.
Proof.
  apply (core_starts true false false 0%nat {| ff1 := false; ff2 := false |} {| ff1 := false; ff2 := false |} []).
  - by split_and!.
  - unfold start_edges. rewrite !fmap_app, !at_rest_events, !forallb_app. unfold por_edges.
    by rewrite por_edges_quiet, core_clocks_quiet.
  - rewrite at_rest_events, por_edges_count. lia.
  - rewrite at_rest_events. apply le_n.
  - rewrite at_rest_events. apply le_n.
  - rewrite at_rest_events. apply le_n.
  - rewrite start_edges_count, Z2Nat.id; lia.
Defined.

(** The board once both domains are out of reset: more edges of the core's clock change nothing in
    the generator. *)
Definition boot_events : list moment := at_rest (por_edges ++ ticks ++ sys_edges ++ [core_edge; core_edge]).
Definition up : crg nat FD1S3BX_pair :=
  Crg 0 true false false 3%nat {| ff1 := false; ff2 := false |} {| ff1 := false; ff2 := false |}.

Lemma boot_events_up :
  gen (board_run w0 boot_events) = up /\ clk_counter (core (board_run w0 boot_events)) = 0 /\
  por_active (core (board_run w0 boot_events)) = true.
Proof. vm_compute. auto. Qed.

Lemma up_stays w k : gen w = up -> gen (board_run w (at_rest (replicate k core_edge))) = up.
Proof. intros Hw. rewrite gen_run, at_rest_events, Hw. induction k; [done|]. exact IHk. Qed.

Lemma started_pulse k :
  Z.of_nat k = 574290 -> auto_start_pulse (core (board_run w0 (boot_events ++ start_edges k))) = true.
Proof.
  intros Hk. destruct boot_events_up as (Hup & Hc & Hp). rewrite board_run_app.
  set (w := board_run w0 boot_events) in *. clearbody w.
  assert (Hcount : counted (0 + core_clocks (start_edges k)) (core (board_run w (start_edges k)))).
  { apply counted_run; [lia|by right|]. intros j Hj. unfold start_edges, at_rest. rewrite <- fmap_take, take_replicate.
    fold (at_rest (replicate (j `min` k) core_edge)). by rewrite up_stays. }
  rewrite start_edges_count, Hk in Hcount. destruct Hcount as [(_ & _ & -> & _)|(? & _)]; [reflexivity|lia].
Qed.

Lemma core_starts_ready_witness :
  exists pre post gap m tail, boot_events ++ start_edges (Z.to_nat 574290) = pre ++ post ++ gap ++ m :: tail /\
    core_clocks post = 574289 /\ core_clocks gap = 0 /\ core_clocks tail = 0 /\ b8008_edge_of m.1 = true /\
    forall j, (j < length post)%nat ->
      let s := gen (board_run w0 (pre ++ take j post)) in
      b8008_rst s = false /\ sys_rst s = false /\ locked s = true /\ por_done s = true.
Proof.
  apply (core_starts_ready true false false 0%nat {| ff1 := false; ff2 := false |} {| ff1 := false; ff2 := false |}
           (boot_events ++ start_edges (Z.to_nat 574290))).
  apply started_pulse. apply Z2Nat.id. lia.
Defined.

End BootRuns.
