(* ===== verification/CoreIntegration.v ===== *)
(** * The wrapper of the 8008 core

    soc/b8008_integration.py: [load_mem_file], which reads the ROM image, and
    the class [B8008Core], which connects the core to its ROM, to the console
    bridge ([ConsoleBridge]) and to the bridge's stall through a synchroniser
    into the core's clock domain.  The core itself is a netlist, of a
    submodule and the wrapper of [NetCore]: it is the environment, which chooses the ROM addresses and when
    bytes arrive.  Migen's [Memory] and [MultiReg] are the interfaces [Memory]
    and [MultiReg].

    The clock domains are not related: a step is a rising edge of [cd_sys], of
    [cd_b8008], or of both. *)

From Stdlib Require Import ZArith Lia List Bool Ascii String.
From stdpp Require Import base list strings gmap.
From S2P Require Import Prelude Text Fifo ConsoleBridge HostOS.

Open Scope Z_scope.

(** ** load_mem_file *)

(** A prefix 0x, then possibly an underscore. *)
Definition int16_unsigned (s : string) : option Z :=
  match s with
  | String "0" (String x rest) =>
      if ((x =? "x") || (x =? "X"))%char then
        match rest with
        | String "_" rest' => int_digits 16 0 true rest'
        | _ => int_digits 16 0 true rest
        end
      else int_digits 16 0 true s
  | _ => int_digits 16 0 true s
  end.

(** [int(s, 16)] for a string without surrounding white space. *)
Definition int16 (s : string) : option Z :=
  match s with
  | String "-" rest => Z.opp <$> int16_unsigned rest
  | String "+" rest => int16_unsigned rest
  | _ => int16_unsigned s
  end.

Fixpoint load_lines {W} (ls : list string) : M W (list Z) :=
  match ls with
  | [] => ret []
  | l :: rest =>
      if decide (strip l = EmptyString) then load_lines rest
      else match int16 (strip l) with
           | Some n => let! ns := load_lines rest in ret (n :: ns)
           | None => raise ValueError
           end
  end.

Definition load_mem_file (path : string) : M host (list Z) :=
  let! text := read_file path in
  load_lines (lines text).

(** ** What the wrapper uses of Migen *)

(** [Memory(8, 4096, init)] with one read port: after an edge of its clock the
    port shows the word the address selected, if [init] has one. *)
Class Memory (mem_st : Type) := {
  mem_new : list Z -> mem_st;
  dat_r : mem_st -> Z;
  port_edge : mem_st -> Z -> mem_st;
  port_reads init adrs a v :
    (length init <= 4096)%nat -> Forall is_byte init ->
    0 <= a -> init !! Z.to_nat a = Some v ->
    dat_r (port_edge (fold_left port_edge adrs (mem_new init)) a) = v
}.

(** [MultiReg(i, o, odomain)]: the output is the input of [mr_depth] edges ago. *)
Class MultiReg (mr_st : Type) := {
  mr_new : mr_st;
  mr_out : mr_st -> bool;
  mr_step : mr_st -> bool -> mr_st;
  mr_depth : nat;
  mr_delay s i xs :
    length (i :: xs) = mr_depth -> mr_out (fold_left mr_step (i :: xs) s) = i
}.

(** ** The wrapper *)

Section B8008Core.
Context {rx_depth tx_depth : Z} {RF TF mem_st mr_st : Type}.
Context `{!SyncFIFO rx_depth RF, !SyncFIFO tx_depth TF}.
Context `{!Memory mem_st, !MultiReg mr_st}.

Record core := Core { console : bridge RF TF; rom : mem_st; stall_sync : mr_st }.

(** The signal [stall_b], the core's input [ext_hold]. *)
Definition ext_hold (s : core) : bool := mr_out (stall_sync s).

(** The core's input [rom_data]. *)
Definition rom_data (s : core) : Z := dat_r (rom s).

(** [rom_init or [0] * 4096] *)
Definition rom_contents (rom_init : option (list Z)) : list Z :=
  match rom_init with
  | Some (x :: l) => x :: l
  | _ => replicate 4096 0
  end.

Definition core_init (rom_init : option (list Z)) : core :=
  Core bridge_init (mem_new (rom_contents rom_init)) mr_new.

(** The edges of a moment: of [cd_sys], with the bridge's inputs, and of
    [cd_b8008], with the core's output [rom_addr]. *)
Record edges := Edges { e_sys : option inputs; e_b8008 : option Z }.

Definition b8008_edge (e : edges) : bool :=
  match e_b8008 e with Some _ => true | None => false end.

Definition core_step (s : core) (e : edges) : core := {|
  console := from_option (bridge_step (console s)) (console s) (e_sys e);
  rom := from_option (port_edge (rom s)) (rom s) (e_b8008 e);
  stall_sync := if b8008_edge e then mr_step (stall_sync s) (stall (console s)) else stall_sync s
|}.

Definition core_run (s : core) (tr : list edges) : core := fold_left core_step tr s.

(** The system edges of a trace. *)
Definition sys_inputs (tr : list edges) : list inputs := omap e_sys tr.

(** A byte of the core reaches the bridge. *)
Definition presents (e : edges) : bool :=
  match e_sys e with Some i => phy_valid i | None => false end.

(** The core's serial output: bytes are at least [spacing] core clocks apart
    ([gap] counts them), and once [ext_hold] is high at most [tail] more
    bytes arrive before the stall ends ([c] counts those). *)
Fixpoint serial_ok (spacing tail gap c : Z) (s : core) (tr : list edges) : Prop :=
  match tr with
  | [] => True
  | e :: tr =>
      let c' := if stall (console s) then c + bool_bit (presents e && ext_hold s) else 0 in
      (presents e = true -> spacing <= gap) /\ c' <= tail /\
      serial_ok spacing tail
        ((if presents e then 0 else gap) + bool_bit (b8008_edge e)) c'
        (core_step s e) tr
  end.

(** ** Lemmas *)

Lemma core_run_console s tr : console (core_run s tr) = bridge_run (console s) (sys_inputs tr).
Proof.
  revert s. induction tr as [|[i a] tr IH]; intros s; [done|]. simpl. unfold sys_inputs in *.
  simpl. rewrite IH. by destruct i.
Qed.

Lemma core_run_rom s tr : rom (core_run s tr) = fold_left port_edge (omap e_b8008 tr) (rom s).
Proof.
  revert s. induction tr as [|[i a] tr IH]; intros s; [done|]. simpl.
  rewrite IH. by destruct a.
Qed.

Lemma mr_held k (r : mr_st) :
  (0 < mr_depth)%nat -> (mr_depth <= k)%nat ->
  mr_out (fold_left mr_step (repeat true k) r) = true.
Proof.
  intros H0 Hk. replace k with ((k - mr_depth) + mr_depth)%nat by lia.
  rewrite repeat_app, fold_left_app. destruct mr_depth as [|d] eqn:E; [lia|].
  apply mr_delay. simpl. by rewrite repeat_length.
Qed.

Lemma repeat_snoc {A} (x : A) k : repeat x k ++ [x] = repeat x (S k).
Proof. induction k; simpl; [done|]. by rewrite IHk. Qed.

(** While the stall is up, at most one byte has arrived before [ext_hold]
    rose: [w] counts it, [k] the core clocks of this stall, [c] the bytes
    since, [cb] all of them. *)
Definition episode (gap c cb : Z) (s : core) : Prop :=
  stall (console s) = true ->
  exists (k : nat) r w,
    stall_sync s = fold_left mr_step (repeat true k) r /\
    0 <= w <= 1 /\ cb <= w + c /\ (w = 1 -> gap <= Z.of_nat k).

Lemma episode_step spacing gap c cb s e :
  (0 < mr_depth)%nat -> Z.of_nat mr_depth <= spacing ->
  (presents e = true -> spacing <= gap) -> episode gap c cb s ->
  let p := bool_bit (presents e) in
  let c' := if stall (console s) then c + bool_bit (presents e && ext_hold s) else 0 in
  let cb' := if stall (console s) then cb + p else 0 in
  (stall (console s) = true -> cb' <= 1 + c') /\
  episode ((if presents e then 0 else gap) + bool_bit (b8008_edge e))
    c' cb' (core_step s e).
Proof.
  intros Hd Hs Hgap He p c' cb'. destruct (stall (console s)) eqn:Hst.
  - destruct (He Hst) as (k & r & w & Hr & Hw & Hcb & Hk).
    set (k' := if b8008_edge e then S k else k).
    set (w' := if presents e && negb (ext_hold s) then 1 else w).
    assert (Hw' : 0 <= w' <= 1 /\ cb' <= w' + c').
    { subst w' cb' c' p. destruct (presents e) eqn:Hp; simpl; [|lia].
      destruct (ext_hold s) eqn:Hh; simpl; [lia|].
      enough (w <> 1) by lia. intros ->. specialize (Hgap eq_refl). specialize (Hk eq_refl).
      unfold ext_hold in Hh. rewrite Hr, mr_held in Hh by lia. done. }
    split; [lia|]. intros _. exists k', r, w'. split; [|split; [lia|split; [lia|]]].
    + simpl. subst k'. destruct (b8008_edge e); [|done].
      rewrite Hst, Hr, <- repeat_snoc, fold_left_app. done.
    + subst w' k'. destruct (presents e); simpl.
      * intros _. destruct (b8008_edge e); simpl; lia.
      * intros H1. specialize (Hk H1). destruct (b8008_edge e); simpl; lia.
  - split; [done|]. intros _. exists 0%nat, (stall_sync (core_step s e)), 0. simpl.
    repeat split; lia.
Qed.

(** With the stall down the count starts anew. *)
Lemma inflight_ok_low n c c' (b : bridge RF TF) tr :
  stall b = false -> inflight_ok n c b tr -> inflight_ok n c' b tr.
Proof. intros Hb. destruct tr; simpl; [done|]. by rewrite Hb. Qed.

(** The bridge sees at most one byte more than the tail. *)
Lemma serial_inflight spacing tail gap c cb s tr :
  (0 < mr_depth)%nat -> Z.of_nat mr_depth <= spacing -> 0 <= tail ->
  episode gap c cb s -> serial_ok spacing tail gap c s tr ->
  inflight_ok (1 + tail) cb (console s) (sys_inputs tr).
Proof.
  intros Hd Hs Ht. revert gap c cb s. induction tr as [|e tr IH]; intros gap c cb s He Hok; [done|].
  destruct Hok as (Hgap & Hc & Hok).
  destruct (episode_step spacing gap c cb s e Hd Hs Hgap He) as [Hle He'].
  specialize (IH _ _ _ _ He' Hok). unfold sys_inputs in *. simpl in IH |- *.
  unfold presents in *. destruct (e_sys e) as [i|]; simpl in *.
  - split; [|exact IH]. destruct (stall (console s)); [|lia]. specialize (Hle eq_refl). lia.
  - destruct (stall (console s)) eqn:Hst; [by rewrite Z.add_0_r in IH|].
    by apply (inflight_ok_low _ 0).
Qed.

End B8008Core.

Arguments core : clear implicits.

(** ** The ROM image *)

(** A byte as the image has it: two hexadecimal digits. *)
Definition hex_digit (d : Z) : ascii :=
  ascii_of_nat (Z.to_nat (if d <? 10 then 48 + d else 55 + d)).
Definition hex_byte (b : Z) : string :=
  String (hex_digit (b / 16)) (String (hex_digit (b mod 16)) EmptyString).

(** An image, one byte per line. *)
Definition render (image : list Z) : string :=
  foldr (fun b text => hex_byte b +:+ newline +:+ text) EmptyString image.

Lemma is_byte_seqZ b : is_byte b -> In b (seqZ 0 256).
Proof. intros Hb. apply list_elem_of_In, elem_of_seqZ. unfold is_byte in Hb. lia. Qed.

(** Each of the 256 lines reads back, and has no line end inside. *)
Lemma hex_byte_line b text :
  is_byte b ->
  int16 (strip (hex_byte b +:+ newline)) = Some b /\
  strip (hex_byte b +:+ newline) <> EmptyString /\
  lines (hex_byte b +:+ newline +:+ text) = (hex_byte b +:+ newline) :: lines text /\
  no_cr (hex_byte b +:+ newline) = true.
Proof.
  intros Hb%is_byte_seqZ.
  set (ok b := (bool_decide (int16 (strip (hex_byte b +:+ newline)) = Some b) &&
    negb (hex_digit (b / 16) =? "010")%char && negb (hex_digit (b mod 16) =? "010")%char &&
    no_cr (hex_byte b +:+ newline))%Z).
  assert (Hall : forallb ok (seqZ 0 256) = true) by (vm_compute; reflexivity).
  pose proof (proj1 (forallb_forall _ _) Hall b Hb) as Hok. unfold ok in Hok.
  rewrite !andb_true_iff, !negb_true_iff, bool_decide_eq_true in Hok.
  destruct Hok as (((H1 & H2) & H3) & H4).
  split; [done|]. split; [|split; [|done]].
  - intros E. rewrite E in H1. done.
  - unfold hex_byte. simpl. by rewrite H2, H3.
Qed.

Lemma load_lines_render {W} image (w : W) :
  Forall is_byte image -> load_lines (lines (render image)) w = (Ok image, w).
Proof.
  induction 1 as [|b image Hb _ IH]; [done|].
  destruct (hex_byte_line b (render image) Hb) as (H1 & H2 & H3 & _).
  change (render (b :: image)) with (hex_byte b +:+ newline +:+ render image).
  rewrite H3. cbn [load_lines].
  rewrite decide_False, H1 by done. unfold bind. by rewrite IH.
Qed.

Lemma render_no_cr image : Forall is_byte image -> no_cr (render image) = true.
Proof.
  induction 1 as [|b image Hb _ IH]; [done|]. simpl render.
  destruct (hex_byte_line b "" Hb) as (_ & _ & _ & H).
  rewrite no_cr_app in H |- *. rewrite no_cr_app. apply andb_true_iff in H as [-> ->]. done.
Qed.

(** The file with one byte per line, as two hexadecimal digits, is read back as
    exactly those bytes. *)
Lemma load_mem_file_render path image h :
  files h !! path = Some (render image) -> path ∉ denied h -> Forall is_byte image ->
  load_mem_file path h = (Ok image, h).
Proof.
  intros Hf Hd Hb. unfold load_mem_file, read_file, bind, get. rewrite Hf, decide_False by done.
  rewrite universal_newlines_id by (by apply render_no_cr). by apply load_lines_render.
Qed.

(** What the comprehension does with any lines. *)
Lemma load_lines_spec {W} ls (w : W) :
  (exists ns, load_lines ls w = (Ok ns, w) /\
     Forall2 (fun l n => int16 (strip l) = Some n) (filter (fun l => strip l <> EmptyString) ls) ns) \/
  (load_lines ls w = (Raise ValueError, w) /\
     exists l, In l ls /\ strip l <> EmptyString /\ int16 (strip l) = None).
Proof.
  induction ls as [|l ls IH]; [left; exists []; split; [done|constructor]|].
  cbn [load_lines]. rewrite filter_cons. destruct (decide (strip l = EmptyString)) as [E|E].
  - rewrite decide_False by (intros H; by apply H).
    destruct IH as [IH|(? & l' & ? & ?)]; [by left|right]. split; [done|].
    exists l'. by split; [right|].
  - rewrite decide_True by done. destruct (int16 (strip l)) as [n|] eqn:Hn.
    + unfold bind. destruct IH as [(ns & -> & H)|(-> & l' & ? & ?)].
      * left. exists (n :: ns). split; [done|]. by constructor.
      * right. split; [done|]. exists l'. by split; [right|].
    + right. split; [done|]. exists l. split; [by left|done].
Qed.

(** * Theorems *)

(** [load_mem_file] on any file: it changes nothing; it returns one number
    per line that is not blank, in order; it raises [ValueError] only for a
    line that is not blank and not a hexadecimal numeral, and [FileNotFoundError]
    or [OSError] for a file that is missing or unreadable. *)
Theorem load_mem_file_outcomes path h :
  (files h !! path = None /\ load_mem_file path h = (Raise FileNotFoundError, h)) \/
  (path ∈ denied h /\ load_mem_file path h = (Raise OSError, h)) \/
  exists text, files h !! path = Some text /\ (path ∉ denied h) /\
    (let ls := lines (universal_newlines text) in
     (exists ns, load_mem_file path h = (Ok ns, h) /\
       Forall2 (fun l n => int16 (strip l) = Some n) (filter (fun l => strip l <> EmptyString) ls) ns) \/
     (load_mem_file path h = (Raise ValueError, h) /\
       exists l, In l ls /\ strip l <> EmptyString /\ int16 (strip l) = None)).
Proof.
  unfold load_mem_file, read_file, bind, get.
  destruct (files h !! path) as [text|] eqn:Hf; [|by left]. right.
  destruct (decide (path ∈ denied h)) as [Hd|Hd]; [by left|]. right.
  exists text. split; [done|]. split; [done|]. apply load_lines_spec.
Qed.

Section CoreProperties.
Context {rx_depth tx_depth : Z} {RF TF mem_st mr_st : Type}.
Context `{!SyncFIFO rx_depth RF, !SyncFIFO tx_depth TF, !SyncFIFOLaws rx_depth RF}.
Context `{!Memory mem_st, !MultiReg mr_st}.

Lemma rom_contents_ok image :
  (length image <= 4096)%nat -> Forall is_byte image ->
  (length (rom_contents (Some image)) <= 4096)%nat /\ Forall is_byte (rom_contents (Some image)).
Proof.
  intros Hl Hb. destruct image as [|x l]; [|done]. cbn [rom_contents].
  rewrite length_replicate. split; [done|]. apply Forall_replicate.
  unfold is_byte. lia.
Qed.

(** C21: The ROM the core runs is the image file.  Let the file hold the lines
    of an image of at most 4096 bytes.  The wrapper built from what
    [load_mem_file] returns answers, after any run and on any edge of the
    core's clock, a fetch at [a] with byte [a] of the image (with 0, at any
    address, if the image is empty); nothing the system domain does matters. *)
Theorem rom_fetch_is_image path image h tr i a :
  files h !! path = Some (render image) -> path ∉ denied h -> Forall is_byte image ->
  (length image <= 4096)%nat -> 0 <= a < 4096 -> (image = [] \/ a < Z.of_nat (length image)) ->
  exists rom_init, load_mem_file path h = (Ok rom_init, h) /\
    let s := core_run (core_init (RF:=RF) (TF:=TF) (mem_st:=mem_st) (mr_st:=mr_st) (Some rom_init)) tr in
    rom_data (core_step s (Edges i (Some a))) = nth (Z.to_nat a) image 0.
Proof.
  intros Hf Hd Hb Hlen Ha Hin. exists image. split; [by apply load_mem_file_render|].
  intros s. unfold rom_data, s. cbn [core_step rom e_b8008 from_option]. rewrite core_run_rom.
  cbn [core_init rom].
  destruct (rom_contents_ok image Hlen Hb) as [Hl Hbs].
  apply port_reads; [done|done|lia|].
  destruct image as [|x l]; cbn [rom_contents].
  - rewrite lookup_replicate_2 by lia. by destruct (Z.to_nat a).
  - destruct Hin as [?|Hin]; [done|].
    destruct (lookup_lt_is_Some_2 (x :: l) (Z.to_nat a)) as [v Hv]; [lia|].
    rewrite Hv. f_equal. symmetry. by apply nth_lookup_Some.
Qed.

(** C9: The receive FIFO of the integrated core never overflows.  From power-on,
    under any interleaving of the two clocks: if the bytes of the core are at
    least as many core clocks apart as the stall's synchroniser is deep, and
    at most [tail] bytes arrive after the stall reached the core, with
    [1 + tail] below the headroom, no byte ever meets a full FIFO. *)
Theorem integrated_no_overflow spacing tail rom_init tr :
  RX_HEADROOM + RX_HYSTERESIS <= rx_depth ->
  (0 < mr_depth)%nat -> Z.of_nat mr_depth <= spacing ->
  0 <= tail -> 1 + tail < RX_HEADROOM ->
  serial_ok spacing tail spacing 0
    (core_init (RF:=RF) (TF:=TF) (mem_st:=mem_st) (mr_st:=mr_st) rom_init) tr ->
  always (fun b i => err_rx_overflow b i = false) (bridge_init : bridge RF TF) (sys_inputs tr).
Proof.
  intros Hd Hm Hs Ht Hh Hok. apply (overflow_free_from (1 + tail) 0); [lia|done| |lia|].
  - unfold level_bound. simpl. rewrite f_level_init.
    unfold hwm, RX_HEADROOM, RX_HYSTERESIS in *. lia.
  - eapply (serial_inflight spacing tail spacing 0 0 (core_init rom_init)); try done.
Qed.

End CoreProperties.

(** * Concrete runs *)

Module CoreRuns.

(** A memory with a registered read port. *)
Record sync_rom := { words : list Z; latched : Z }.

Definition rom_edge (m : sync_rom) (a : Z) : sync_rom :=
  {| words := words m; latched := nth (Z.to_nat a) (words m) 0 |}.

Lemma rom_edge_words adrs m : words (fold_left rom_edge adrs m) = words m.
Proof. revert m. induction adrs; intros m; simpl; [done|]. by rewrite IHadrs. Qed.

#[export] Instance registered_rom : Memory sync_rom.
Proof.
  refine {| mem_new init := {| words := init; latched := 0 |}; dat_r := latched;
            port_edge := rom_edge |}.
  intros init adrs a v _ _ _ Hv. unfold rom_edge at 1. cbn [latched].
  rewrite rom_edge_words. cbn [words]. by apply nth_lookup_Some.
Defined.

(** Two registers in series. *)
Definition two_step (r : bool * bool) (i : bool) : bool * bool := (i, fst r).

Lemma two_delay (s : bool * bool) i xs :
  length (i :: xs) = 2%nat -> snd (fold_left two_step (i :: xs) s) = i.
Proof. by destruct xs as [|? [|? ?]]. Qed.

#[export] Instance two_registers : MultiReg (bool * bool) := {
  mr_new := (false, false); mr_out := snd; mr_step := two_step; mr_depth := 2; mr_delay := two_delay
}.

Definition disk : host :=
  Host (HostEnv (fun _ => []) (fun _ => false) (fun _ _ => true) (fun _ => false) None (fun _ => None)) 0
    {["rom_baked.mem"%string := render [68; 59; 0; 60; 150; 141]]} ∅ ∅ 0 [].

Example rom_text : render [68; 59] = ("44" +:+ newline +:+ "3B" +:+ newline)%string.
Proof. reflexivity. Qed.

(** Prefixes, signs, underscores and blank lines are accepted, other text is not. *)
Example int16_accepts :
  (int16 "ff", int16 "0XfF", int16 "+0x_1_0", int16 "-2", int16 "1__0", int16 "0x", int16 "G")%string =
  (Some 255, Some 255, Some 16, Some (-2), None, None, None).
Proof. reflexivity. Qed.

Definition start128 (rom_init : option (list Z)) :
  core Buffered.fifo Buffered.fifo sync_rom (bool * bool) :=
  core_init (rx_depth:=128) (tx_depth:=256) rom_init.
Definition core_step128 := core_step (rx_depth:=128) (tx_depth:=256) (RF:=Buffered.fifo)
  (TF:=Buffered.fifo) (mem_st:=sync_rom) (mr_st:=bool * bool).

(** The core fetches the fourth byte of the image. *)
Lemma rom_fetch_is_image_witness :
  exists rom_init, load_mem_file "rom_baked.mem" disk = (Ok rom_init, disk) /\
    rom_data (core_step128 (core_run (rx_depth:=128) (tx_depth:=256) (start128 (Some rom_init))
      [Edges None (Some 0)]) (Edges None (Some 3))) = 60.
Proof.
  apply (rom_fetch_is_image (rx_depth:=128) (tx_depth:=256) (mem_st:=sync_rom) (mr_st:=bool * bool)
    (RF:=Buffered.fifo) (TF:=Buffered.fifo) "rom_baked.mem" [68; 59; 0; 60; 150; 141] disk
    [Edges None (Some 0)] None 3).
  - reflexivity.
  - by apply not_elem_of_empty.
  - repeat constructor; discriminate.
  - simpl. lia.
  - lia.
  - right. simpl. lia.
Defined.

(** The core sends 66 bytes, two clocks of its own apart; the 128-byte FIFO
    stalls it at 64, and two more arrive before it stops. *)
Definition sends (k : nat) : list edges :=
  concat (repeat [Edges (Some (BridgeRuns.rx_byte 65)) (Some 0); Edges (Some BridgeRuns.idle) (Some 0)] k).

Lemma integrated_no_overflow_witness :
  always (rx_depth:=128) (tx_depth:=256) (fun b i => err_rx_overflow (rx_depth:=128) b i = false)
    BridgeRuns.power_on128 (sys_inputs (sends 66)) /\
  ext_hold (core_run (rx_depth:=128) (tx_depth:=256) (start128 None) (sends 66)) = true.
Proof.
  split; [|vm_compute; reflexivity].
  apply (integrated_no_overflow (rx_depth:=128) (tx_depth:=256) (mem_st:=sync_rom)
           (mr_st:=bool * bool) 2 1 None (sends 66)); [vm_compute; discriminate|simpl; lia|simpl; lia|lia|reflexivity|].
  vm_compute. repeat (split; [discriminate || (intros; discriminate)|]). exact I.
Defined.

End CoreRuns.
