(* ===== verification/VersaSoc.v ===== *)
(** * The SoC's top level

    soc/versa_soc.py describes the SoC by calling LiteX: the value of the file
    is the sequence of those calls.  The model is that sequence.  A world is the
    list of calls made so far ([trace]); LiteX itself is the interface [LiteX],
    which says after a given history whether a call is refused and what a
    query returns.  The properties are about the calls the code makes,
    whichever way LiteX answers.

    Frequencies are in Hz, as integers; the delays of the PHY are in
    picoseconds. *)

From Stdlib Require Import ZArith Lia List Bool Ascii String.
From stdpp Require Import base list strings gmap.
From S2P Require Import Prelude Paths Text HostOS CoreIntegration.

Open Scope string_scope.
Open Scope list_scope.
Open Scope Z_scope.

(** ** The data of a description *)

(** Migen values used as an address: a register's output, a constant with its
    width, a comparison with a constant, a multiplexer. *)
Inductive value :=
| Storage (csr : string)
| C (v width : Z)
| Eq (a : value) (k : Z)
| Mux (c a b : value).

(** The value on the wire, for given contents of the registers. *)
Fixpoint eval (csr : string -> Z) (v : value) : Z :=
  match v with
  | Storage n => csr n
  | C k w => k mod 2 ^ w
  | Eq a k => if eval csr a =? k then 1 else 0
  | Mux c a b => if eval csr c =? 0 then eval csr b else eval csr a
  end.

(** An [ip_address] argument: a string, an integer or a Migen value. *)
Inductive ip_arg := IpStr (s : string) | IpInt (n : Z) | IpValue (v : value).

Definition is_MigenValue (i : ip_arg) : bool := match i with IpValue _ => true | _ => false end.

(** [ip_address == s] for a string [s]; on a Migen value the comparison is never
    reached. *)
Definition ip_eq_str (i : ip_arg) (s : string) : bool :=
  match i with IpStr t => String.eqb t s | _ => false end.

Record clock_domain := { cd_name : string; cd_clk : string }.
Record eth_domains := { cd_eth_tx : clock_domain; cd_eth_rx : clock_domain }.

(** A PHY has its clock domains itself or in its [crg]. *)
Record phy := {
  phy_crg : option eth_domains;
  phy_own : option eth_domains;
  rx_clk_freq : Z;
  tx_clk_freq : Z;
  is_LiteEthPHYModel : bool;
  phy_model : bool
}.

(** [SoCRegion(origin, size, mode, linker, cached)]; the default mode is "rw". *)
Record region := {
  origin : option Z;
  size : Z;
  mode : string;
  linker : bool;
  cached : bool
}.

(** [LiteEthUDPIPCore], renamed into clock domains. *)
Record udpip_core := {
  core_phy : phy;
  core_clk_freq : Z;
  core_mac : Z;
  core_ip : ip_arg;
  core_arp_entries : Z;
  core_dw : Z;
  core_ip_broadcast : bool;
  core_sys_datapath : bool;
  core_igmp : bool;
  core_igmp_groups : option (list string);
  core_igmp_interval : Z;
  core_interface : string;
  core_endianness : string;
  core_renames : list (string * string);
  core_cd : string
}.

Inductive hw :=
| LiteEthUDPIPCore (c : udpip_core)
| LiteEthEtherbone (core : string) (port depth : Z) (cd : string)
| EthMac (core : string)
| ClockGenerator (sys_clk_freq : Z)
| LiteEthPHYRGMII (tx_delay rx_delay : Z)
| CSRStorage (field : string) (width reset : Z)
| ConsoleBridge (sys_clk_freq : Z)
| B8008 (core_v : string).

(** A value of a keyword argument. *)
Inductive pyval := PyNone | PyBool (b : bool) | PyInt (n : Z) | PyStr (s : string).

(** The keyword arguments of [add_etherbone_dynamic_ip]. *)
Record etherbone_args := {
  name : string;
  phy_ : option phy;
  phy_cd : option string;
  data_width : Z;
  mac_address : Z;
  ip_address : ip_arg;
  arp_entries : Z;
  udp_port : Z;
  buffer_depth : Z;
  with_ip_broadcast : bool;
  with_timing_constraints : bool;
  with_ethmac : bool;
  ethmac_address : Z;
  ethmac_local_ip : string;
  ethmac_remote_ip : string;
  with_igmp : bool;
  igmp_groups : option (list string);
  igmp_interval : Z
}.

(** The calls of the description, with their arguments. *)
Inductive call :=
| LoggerError (what : string)
| CheckIfExists (n : string)
| AddModule (n : string) (m : hw)
| SetModule (n : string) (m : hw)
| AutocsrExclude (n : string) (what : string)
| NewClockDomain (attr n : string)
| CombClk (cd driver : string)
| CombRst (cd driver : string)
| Comb (sink source : string)
| AddMaster (n : string)
| AddRegion (n : string) (r : region)
| AddSlave (n : string) (r : region)
| AddPeriodConstraint (clk : string) (freq : Z)
| AddFalsePath (from : string) (to : list string)
| IrqAdd (n : string)
| AddConstant (n : string)
| AddIpConstants (n ip : string)
| AddMacConstants (n : string) (mac : Z)
| NewPlatform (toolchain device : string)
| AddExtension (pads : list (string * list (string * list string)))
| Request (pads : string)
| PllClkIn (clk : string) (freq : Z)
| PllClkOut (cd : string) (freq : Z) (with_reset : bool)
| ResetSynchronizer (cd gate : string)
| Primitive (cell : string) (clk_in clk_out : string)
| SoCCoreInit (sys_clk_freq : Z) (kwargs : gmap string pyval)
| AddEthernet (p : phy)
| AddEtherbone (kwargs : list (string * pyval))
| NewMemory (width depth : Z) (init : list Z) (port_cd : string)
| AddSource (path : string)
| Specials (what : string)
| NewInstance (cell : string) (ports : list (string * string))
| NewBuilder (kwargs : gmap string pyval)
| Build (build_name : string) (kwargs : gmap string pyval).

(** ** What the description uses of LiteX *)

(** [refuses tr c]: the exception LiteX raises for the call [c] after the calls
    [tr]; [region_origin tr n]: [soc.bus.regions[n].origin], if there is such
    a region; [mem_map n]: [soc.mem_map.get(n, None)]; [cpu_endianness]: of
    [soc.cpu], if it has one; [soc.clk_freq]; the slots of the core's MAC; the PHY object
    [LiteEthPHYRGMII] makes. *)
Class LiteX := {
  refuses : list call -> call -> option pyexn;
  region_origin : list call -> string -> option Z;
  mem_map : string -> option Z;
  irq_enabled : bool;
  cpu_endianness : option string;
  soc_clk_freq : Z;
  rx_slots : Z;
  tx_slots : Z;
  slot_size : Z;
  rgmii : phy
}.

(** A region that was added has an origin, the one asked for if any, and
    adding slaves does not move it. *)
Class LiteXLaws `{LiteX} := {
  added_region tr n r : exists o,
    region_origin (tr ++ [AddRegion n r]) n = Some o /\ (forall o', origin r = Some o' -> o = o');
  slave_keeps_region tr n m r : region_origin (tr ++ [AddSlave m r]) n = region_origin tr n;
  slots_positive : 0 < rx_slots /\ 0 < tx_slots /\ 0 < slot_size
}.

(** The world: the calls so far, and the files. *)
Record elab := Elab { trace : list call; disk : host }.

Definition push (c : call) (w : elab) : elab := Elab (trace w ++ [c]) (disk w).

Definition on_disk {A} (m : M host A) : M elab A := fun w =>
  let (r, h) := m (disk w) in (r, Elab (trace w) h).

Section Soc.
Context `{L : LiteX} (_HERE : string).

Definition do_ (c : call) : M elab unit := fun w =>
  match refuses (trace w) c with
  | Some e => (Raise e, w)
  | None => (Ok tt, push c w)
  end.

Fixpoint do_all (cs : list call) : M elab unit :=
  match cs with
  | [] => ret tt
  | c :: cs => do_ c ;;; do_all cs
  end.

(** [soc.logger.error(...)] and [raise SoCError()] *)
Definition soc_error {A} (what : string) : M elab A := do_ (LoggerError what) ;;; raise SoCError.

(** [getattr(phy, "crg", phy)] and its clock domains. *)
Definition phy_domains (p : phy) : M elab eth_domains :=
  match phy_crg p with
  | Some d => ret d
  | None => match phy_own p with Some d => ret d | None => raise AttributeError end
  end.

(** [soc.cpu.endianness], evaluated for either interface. *)
Definition endianness (with_ethmac : bool) : M elab string :=
  match cpu_endianness with
  | Some e => ret (if with_ethmac then e else "big")
  | None => raise AttributeError
  end.

(** ** add_etherbone_dynamic_ip *)

(** The defaults of the keyword arguments. *)
Definition etherbone_defaults : etherbone_args := {|
  name := "etherbone"; phy_ := None; phy_cd := None; data_width := 8;
  mac_address := 0x10e2d5000000; ip_address := IpStr "192.168.1.50"; arp_entries := 1;
  udp_port := 1234; buffer_depth := 16; with_ip_broadcast := true;
  with_timing_constraints := true; with_ethmac := false; ethmac_address := 0x10e2d5000001;
  ethmac_local_ip := "192.168.1.51"; ethmac_remote_ip := "192.168.1.100";
  with_igmp := false; igmp_groups := None; igmp_interval := 10 |}.

Definition valid_width (w : Z) : bool := existsb (Z.eqb w) [8; 32; 64].

(** The names of the PHY's transmit and receive domains. *)
Definition eth_clk_names (p : phy) (cd : option string) : M elab (string * string) :=
  match cd with
  | None => let! d := phy_domains p in
            ret (cd_name (cd_eth_tx d), cd_name (cd_eth_rx d))
  | Some cd => ret (cd +:+ "_tx", cd +:+ "_rx")
  end.

(** The renaming of the core's clock domains, and the domain it runs in. *)
Definition ethcore_domains (a : etherbone_args) (p : phy) : M elab (list (string * string) * string) :=
  if negb (data_width a =? 32) then
    let! (tx, rx) := eth_clk_names p (phy_cd a) in
    let cd := if with_ethmac a then "sys" else rx in
    ret ([("eth_tx", tx); ("eth_rx", rx); ("sys", cd)], cd)
  else ret ([], "sys").

(** The UDP/IP core. *)
Definition add_ethcore (a : etherbone_args) (p : phy) : M elab unit :=
  do_ (CheckIfExists (name a +:+ "_ethcore")) ;;;
  let! e := endianness (with_ethmac a) in
  let! (renames, cd) := ethcore_domains a p in
  do_ (AddModule ("ethcore_" +:+ name a) (LiteEthUDPIPCore {|
    core_phy := p; core_clk_freq := soc_clk_freq; core_mac := mac_address a; core_ip := ip_address a; core_arp_entries := arp_entries a;
    core_dw := data_width a; core_ip_broadcast := with_ip_broadcast a;
    core_sys_datapath := data_width a =? 32; core_igmp := with_igmp a;
    core_igmp_groups := igmp_groups a; core_igmp_interval := igmp_interval a;
    core_interface := if with_ethmac a then "hybrid" else "crossbar"; core_endianness := e;
    core_renames := renames; core_cd := cd |})).

(** The Etherbone module, in a domain of its own that runs from [sys] unless
    the datapath is 32 bits wide. *)
Definition add_etherbone_module (a : etherbone_args) : M elab unit :=
  (if negb (data_width a =? 32) then
     do_all [NewClockDomain ("cd_" +:+ name a) (name a); CombClk (name a) "sys"; CombRst (name a) "sys"]
   else ret tt) ;;;
  do_ (CheckIfExists (name a)) ;;;
  do_ (AddModule (name a) (LiteEthEtherbone ("ethcore_" +:+ name a) (udp_port a) (buffer_depth a)
         (if negb (data_width a =? 32) then name a else "sys"))) ;;;
  do_ (AddMaster (name a)).

Definition add_timing_constraints (p : phy) : M elab unit :=
  let! d := phy_domains p in
  let rx := cd_clk (cd_eth_rx d) in
  let tx := cd_clk (cd_eth_tx d) in
  if negb (is_LiteEthPHYModel p) && negb (phy_model p) then
    do_ (AddPeriodConstraint rx (rx_clk_freq p)) ;;;
    if negb (String.eqb rx tx) then
      do_ (AddPeriodConstraint tx (tx_clk_freq p)) ;;; do_ (AddFalsePath "sys" [rx; tx])
    else do_ (AddFalsePath "sys" [rx])
  else ret tt.

(** [soc.bus.regions[n].origin] *)
Definition get_region_origin (n : string) : M elab Z :=
  let! w := get in
  match region_origin (trace w) n with Some o => ret o | None => raise KeyError end.

(** The MAC's buffers, on the CPU's bus. *)
Definition add_ethmac (a : etherbone_args) : M elab unit :=
  do_ (CheckIfExists "ethmac") ;;;
  do_ (AutocsrExclude ("ethcore_" +:+ name a) "mac") ;;;
  do_ (SetModule "ethmac" (EthMac ("ethcore_" +:+ name a))) ;;;
  let rx_size := rx_slots * slot_size in
  let tx_size := tx_slots * slot_size in
  do_ (AddRegion "ethmac" {| origin := mem_map "ethmac"; size := rx_size + tx_size; mode := "rw";
                             linker := true; cached := false |}) ;;;
  let! o := get_region_origin "ethmac" in
  do_ (AddSlave "ethmac_rx" {| origin := Some (o + 0); size := rx_size; mode := "r";
                               linker := false; cached := false |}) ;;;
  let! o := get_region_origin "ethmac" in
  do_ (AddSlave "ethmac_tx" {| origin := Some (o + rx_size); size := tx_size; mode := "rw";
                               linker := false; cached := false |}) ;;;
  (if irq_enabled then do_ (IrqAdd "ethmac") else ret tt) ;;;
  do_ (AddConstant "ETH_PHY_NO_RESET") ;;;
  do_ (AddIpConstants "LOCALIP" (ethmac_local_ip a)) ;;;
  do_ (AddIpConstants "REMOTEIP" (ethmac_remote_ip a)) ;;;
  do_ (AddMacConstants "MACADDR" (ethmac_address a)).

Definition add_etherbone_dynamic_ip (a : etherbone_args) : M elab unit :=
  match phy_ a with
  | None => soc_error "phy"
  | Some p =>
      if negb (valid_width (data_width a)) then soc_error "data_width" else
      add_ethcore a p ;;;
      add_etherbone_module a ;;;
      (if with_timing_constraints a then add_timing_constraints p else ret tt) ;;;
      if with_ethmac a then
        if mac_address a =? ethmac_address a then soc_error "ethmac_address" else
        if negb (is_MigenValue (ip_address a)) && ip_eq_str (ip_address a) (ethmac_local_ip a)
        then soc_error "ethmac_local_ip" else
        add_ethmac a
      else ret tt
  end.

(** ** The register, the pads, the clock and reset generator *)

Definition EbIP : hw := CSRStorage "ip" 32 0.

(** A pad group: its name and its signals with their pins. *)
Definition _debug_serial_io : list (string * list (string * list string)) :=
  [("debug_serial", [("tx", ["B19"]); ("rx", ["B12"])])].

Definition _b8008_dbg_io : list (string * list (string * list string)) :=
  [("b8008_dbg",
     [("d", ["E9"; "D9"; "B8"; "C8"; "D8"; "E8"; "C7"; "C6"]);
      ("s0", ["D7"]); ("s1", ["B11"]); ("s2", ["B6"]); ("sync", ["E7"]);
      ("phi1", ["E6"]); ("phi2", ["D6"]); ("int", ["B9"])])].

(** The clocks of [_CRG] and their reset synchronisers (its behaviour is the
    file [Crg]). *)
Definition CRG (sys_clk_freq : Z) : M elab unit :=
  do_all [Request "clk100"; Request "rst_n"; CombClk "por" "clk100";
    PllClkIn "clk100" 100000000;
    PllClkOut "sys2x_i" (2 * sys_clk_freq) true;
    PllClkOut "b8008" 25000000 false;
    Primitive "ECLKSYNCB" "sys2x_i" "sys2x";
    Primitive "CLKDIVF" "sys2x" "sys";
    ResetSynchronizer "sys" "~pll.locked | reset";
    ResetSynchronizer "b8008" "b8008_rst_gate"].

(** ** B8008Core *)

Definition dbg_signals : list string := ["d"; "s0"; "s1"; "s2"; "sync"; "phi1"; "phi2"; "int"].

Definition _GHDL_GATES : string := path_join (path_join (path_join _HERE "..") "build") "ghdl_gates.v".

Definition B8008Core (sys_clk_freq : Z) (core_v : string) (rom_init : option (list Z)) : M elab unit :=
  do_ (NewMemory 8 4096 (rom_contents rom_init) "b8008") ;;;
  do_ (SetModule "b8008.console" (ConsoleBridge sys_clk_freq)) ;;;
  do_ (Specials "MultiReg(console.stall, stall_b, b8008)") ;;;
  do_ (AddSource core_v) ;;;
  do_ (AddSource _GHDL_GATES) ;;;
  do_ (NewInstance "b8008_net_core"
    ([("i_clk", "b8008.clk"); ("i_rst", "b8008.rst"); ("o_uart_tx", "pads.rx"); ("i_uart_rx", "pads.tx");
      ("i_ext_hold", "stall_b"); ("o_rom_addr", "pr.adr"); ("i_rom_data", "pr.dat_r")]
     ++ map (fun d => ("o_dbg_" +:+ d, "dbg." +:+ d)) dbg_signals)).

(** ** BaseSoC *)

Record soc_args := {
  sys_clk_freq : Z;
  device : string;
  toolchain : string;
  debug_uart : bool;
  ethmac_only : bool;
  eb_static_ip : option string;
  stock_hybrid : bool
}.

(** The arguments [BaseSoC] forces upon [SoCCore]. *)
Definition forced_kwargs (debug_uart : bool) : gmap string pyval :=
  list_to_map [
    ("cpu_type", PyStr "vexriscv"); ("cpu_variant", PyStr "minimal");
    ("integrated_rom_size", PyInt 0x10000); ("integrated_sram_size", PyInt 0x2000);
    ("uart_name", PyStr (if debug_uart then "debug_serial" else "stub"));
    ("ident", PyStr "b8008_net"); ("ident_version", PyBool true)].

(** [kwargs.update(...)] *)
Definition soc_kwargs (debug_uart : bool) (kwargs : gmap string pyval) : gmap string pyval :=
  forced_kwargs debug_uart ∪ kwargs.

(** The keywords of the call of LiteX's own [add_etherbone]. *)
Definition stock_args : list (string * pyval) := [
  ("phy", PyStr "self.ethphy"); ("ip_address", PyStr "192.168.1.222");
  ("mac_address", PyInt 0x10e2d5000001); ("udp_port", PyInt 1234); ("buffer_depth", PyInt 255);
  ("data_width", PyInt 32); ("with_ethmac", PyBool true); ("ethmac_address", PyInt 0x10e2d5000002);
  ("ethmac_local_ip", PyStr "0.0.0.0"); ("ethmac_remote_ip", PyStr "0.0.0.0")].

(** The address of the hybrid's Etherbone core: a truthy [eb_static_ip], or the
    register, parked on 240.0.0.1 while it is 0. *)
Definition eb_ip_address (eb_static_ip : option string) : ip_arg :=
  match eb_static_ip with
  | Some (String c s) => IpStr (String c s)
  | _ => IpValue (Mux (Eq (Storage "eb_ip.ip") 0) (C 0xF0000001 32) (Storage "eb_ip.ip"))
  end.

Definition hybrid_args (eb_static_ip : option string) : etherbone_args := {|
  name := name etherbone_defaults; phy_ := Some rgmii; phy_cd := phy_cd etherbone_defaults;
  data_width := 32; mac_address := 0x10e2d5000001; ip_address := eb_ip_address eb_static_ip;
  arp_entries := arp_entries etherbone_defaults; udp_port := 1234; buffer_depth := 255;
  with_ip_broadcast := false;
  with_timing_constraints := with_timing_constraints etherbone_defaults; with_ethmac := true;
  ethmac_address := 0x10e2d5000002; ethmac_local_ip := "0.0.0.0"; ethmac_remote_ip := "0.0.0.0";
  with_igmp := with_igmp etherbone_defaults; igmp_groups := igmp_groups etherbone_defaults;
  igmp_interval := igmp_interval etherbone_defaults |}.

(** The 8008 core, the timing exception between the domains, the debug pads. *)
Definition add_b8008 (sys_clk_freq : Z) : M elab unit :=
  let! rom_init := on_disk (load_mem_file (path_join (path_join (path_join _HERE "..") "src") "rom_baked.mem")) in
  B8008Core sys_clk_freq (path_join (path_join (path_join _HERE "..") "build") "b8008_net_core.v")
    (Some rom_init) ;;;
  do_ (SetModule "b8008" (B8008 (path_join (path_join (path_join _HERE "..") "build") "b8008_net_core.v"))) ;;;
  do_ (AddFalsePath "sys" ["b8008"]) ;;;
  do_ (Request "b8008_dbg") ;;;
  do_all (map (fun d => Comb ("b8008_dbg." +:+ d) ("b8008.dbg." +:+ d)) dbg_signals).

Definition BaseSoC (a : soc_args) (kwargs : gmap string pyval) : M elab unit :=
  do_ (NewPlatform (toolchain a) (device a)) ;;;
  do_ (AddExtension _b8008_dbg_io) ;;;
  (if debug_uart a then do_ (AddExtension _debug_serial_io) else ret tt) ;;;
  CRG (sys_clk_freq a) ;;;
  do_ (SetModule "crg" (ClockGenerator (sys_clk_freq a))) ;;;
  do_ (SoCCoreInit (sys_clk_freq a) (soc_kwargs (debug_uart a) kwargs)) ;;;
  do_ (Request "eth_clocks") ;;;
  do_ (Request "eth") ;;;
  do_ (SetModule "ethphy" (LiteEthPHYRGMII 0 0)) ;;;
  do_ (SetModule "eb_ip" EbIP) ;;;
  if ethmac_only a then
    do_ (AddEthernet rgmii) ;;; add_b8008 (sys_clk_freq a)
  else if stock_hybrid a then do_ (AddEtherbone stock_args)
  else
    add_etherbone_dynamic_ip (hybrid_args (eb_static_ip a)) ;;; add_b8008 (sys_clk_freq a).

(** ** main *)

(** The result of the argument parser: the target's own arguments, [--build],
    and the three dictionaries of LiteX. *)
Record main_args := {
  target : soc_args;
  build : bool;
  soc_argdict : gmap string pyval;
  builder_argdict : gmap string pyval;
  toolchain_argdict : gmap string pyval
}.

(** A call with keywords [ks] and [**kwargs] is a [TypeError] if they overlap. *)
Definition no_overlap (ks : list string) (kwargs : gmap string pyval) : M elab unit :=
  if existsb (fun k => bool_decide (is_Some (kwargs !! k))) ks then raise TypeError else ret tt.

Definition main (a : main_args) : M elab unit :=
  no_overlap ["sys_clk_freq"; "device"; "toolchain"; "debug_uart"; "ethmac_only"; "eb_static_ip";
              "stock_hybrid"] (soc_argdict a) ;;;
  BaseSoC (target a) (soc_argdict a) ;;;
  do_ (NewBuilder (builder_argdict a)) ;;;
  if build a then
    no_overlap ["build_name"] (toolchain_argdict a) ;;;
    do_ (Build "versa_soc" (toolchain_argdict a))
  else ret tt.

End Soc.

(** ** Reasoning about the calls

    [ok_post P]: if the description returns, the world it leaves satisfies
    [P].  Under it a call simply appends itself. *)

Definition ok_post {A} (P : A -> elab -> Prop) (r : outcome A) (w : elab) : Prop :=
  match r with Ok a => P a w | _ => True end.

Section Calls.
Context `{L : LiteX} {A : Type}.
Implicit Types (P : A -> elab -> Prop) (w : elab).

Lemma ok_do (P : unit -> elab -> Prop) c w : P tt (push c w) -> wp (do_ c) (ok_post P) w.
Proof. unfold wp, do_. by destruct (refuses (trace w) c). Qed.

Lemma ok_bind_do c (k : M elab A) P w :
  wp k (ok_post P) (push c w) -> wp (do_ c ;;; k) (ok_post P) w.
Proof. unfold wp, bind, do_. by destruct (refuses (trace w) c). Qed.

Lemma ok_bind_assoc {X Y} (m : M elab X) (f : X -> M elab Y) (k : Y -> M elab A) P w :
  wp (let! x := m in let! y := f x in k y) (ok_post P) w ->
  wp (let! y := (let! x := m in f x) in k y) (ok_post P) w.
Proof. unfold wp. by rewrite bind_assoc. Qed.

Lemma ok_bind_ret {X} (x : X) (k : X -> M elab A) P w :
  wp (k x) (ok_post P) w -> wp (let! y := ret x in k y) (ok_post P) w.
Proof. done. Qed.

Lemma ok_bind_get (k : elab -> M elab A) P w :
  wp (k w) (ok_post P) w -> wp (let! v := get in k v) (ok_post P) w.
Proof. done. Qed.

Lemma ok_bind_raise {X} e (k : X -> M elab A) P w : wp (let! x := raise e in k x) (ok_post P) w.
Proof. done. Qed.

Lemma ok_soc_error what P w : wp (soc_error what) (ok_post P) w.
Proof. unfold soc_error. by apply ok_bind_do. Qed.

Lemma ok_bind {X} (m : M elab X) (k : X -> M elab A) (Q : X -> elab -> Prop) P w :
  wp m (ok_post Q) w -> (forall x w', Q x w' -> wp (k x) (ok_post P) w') ->
  wp (bind m k) (ok_post P) w.
Proof.
  intros Hm Hk. apply wp_bind. eapply wp_mono; [exact Hm|].
  intros [x| |] w' H; simpl; auto.
Qed.

Lemma push_trace c w : trace (push c w) = trace w ++ [c].
Proof. done. Qed.

(** A sequence of calls. *)
Lemma ok_do_all cs w :
  wp (do_all cs) (ok_post (fun _ w' => trace w' = trace w ++ cs /\ disk w' = disk w)) w.
Proof.
  revert w. induction cs as [|c cs IH]; intros w; cbn [do_all].
  - apply wp_ret. simpl. by rewrite app_nil_r.
  - unfold wp, bind, do_. destruct (refuses (trace w) c); [done|].
    eapply wp_mono; [apply IH|]. intros [| |] w'; simpl; try done.
    intros [-> ->]. by rewrite <- app_assoc.
Qed.

End Calls.

(** Step through the calls of a description. *)
Ltac calls :=
  repeat first
    [ apply ok_do | apply wp_ret | apply ok_bind_do | apply ok_bind_assoc | apply ok_bind_ret
    | apply ok_bind_raise | apply ok_soc_error | apply ok_bind_get ].

(** [appends m cs]: whenever [m] returns, it has made the calls [cs], and the
    files are as before. *)
Definition appends `{LiteX} {A} (m : M elab A) (S : list call -> Prop) : Prop :=
  forall w, wp m (ok_post (fun _ w' => exists cs, trace w' = trace w ++ cs /\ S cs /\ disk w' = disk w)) w.

Section Appends.
Context `{L : LiteX}.

Lemma appends_do c : appends (do_ c) (eq [c]).
Proof. intros w. apply ok_do. by exists [c]. Qed.

Lemma appends_do_all cs : appends (do_all cs) (eq cs).
Proof.
  intros w. eapply wp_mono; [apply ok_do_all|]. intros [| |] w'; simpl; try done.
  intros [??]. by exists cs.
Qed.

Lemma appends_ret {A} (a : A) : appends (ret a) (eq []).
Proof. intros w. apply wp_ret. exists []. by rewrite app_nil_r. Qed.

Lemma appends_bind {A B} (m : M elab A) (k : A -> M elab B) (S1 S2 S : list call -> Prop) :
  appends m S1 -> (forall a, appends (k a) S2) ->
  (forall c1 c2, S1 c1 -> S2 c2 -> S (c1 ++ c2)) -> appends (bind m k) S.
Proof.
  intros Hm Hk HS w. eapply ok_bind; [apply Hm|].
  intros a w1 (c1 & H1 & HS1 & Hd1). eapply wp_mono; [apply Hk|].
  intros [b| |] w2; simpl; try done. intros (c2 & H2 & HS2 & Hd2).
  exists (c1 ++ c2). rewrite H2, H1, <- app_assoc, Hd2, Hd1. auto.
Qed.

(** The calls of two descriptions, one after the other. *)
Definition seq (S1 S2 : list call -> Prop) (cs : list call) : Prop :=
  exists c1 c2, cs = c1 ++ c2 /\ S1 c1 /\ S2 c2.

Lemma appends_seq {A B} (m : M elab A) (k : A -> M elab B) (S1 S2 : list call -> Prop) :
  appends m S1 -> (forall a, appends (k a) S2) -> appends (bind m k) (seq S1 S2).
Proof. intros Hm Hk. eapply appends_bind; [done..|]. intros c1 c2 ??. by exists c1, c2. Qed.

Lemma appends_mono {A} (m : M elab A) (S S' : list call -> Prop) :
  appends m S -> (forall cs, S cs -> S' cs) -> appends m S'.
Proof.
  intros Hm HS w. eapply wp_mono; [apply Hm|]. intros [a| |] w'; simpl; try done.
  intros (cs & ? & ? & ?). eauto.
Qed.

Lemma appends_if {A} (b : bool) (m1 m2 : M elab A) (S1 S2 : list call -> Prop) :
  appends m1 S1 -> appends m2 S2 ->
  appends (if b then m1 else m2) (if b then S1 else S2).
Proof. by destruct b. Qed.

Lemma appends_run {A} (m : M elab A) S w a w' :
  appends m S -> m w = (Ok a, w') -> exists cs, trace w' = trace w ++ cs /\ S cs /\ disk w' = disk w.
Proof. intros Hm E. specialize (Hm w). unfold wp in Hm. by rewrite E in Hm. Qed.

End Appends.

(** ** The MAC's buffers *)

Section Ethmac.
Context `{L : LiteX, LL : !LiteXLaws}.

(** The regions the MAC asks for, given the origin of the first. *)
Definition rx_region (o : Z) : region :=
  {| origin := Some (o + 0); size := rx_slots * slot_size; mode := "r"; linker := false; cached := false |}.
Definition tx_region (o : Z) : region :=
  {| origin := Some (o + rx_slots * slot_size); size := tx_slots * slot_size; mode := "rw";
     linker := false; cached := false |}.
Definition mac_region : region :=
  {| origin := mem_map "ethmac"; size := rx_slots * slot_size + tx_slots * slot_size; mode := "rw";
     linker := true; cached := false |}.

(** The calls of [add_ethmac]. *)
Definition ethmac_calls (a : etherbone_args) (o : Z) : list call :=
  [CheckIfExists "ethmac"; AutocsrExclude ("ethcore_" +:+ name a) "mac";
   SetModule "ethmac" (EthMac ("ethcore_" +:+ name a)); AddRegion "ethmac" mac_region;
   AddSlave "ethmac_rx" (rx_region o); AddSlave "ethmac_tx" (tx_region o)]
  ++ (if irq_enabled then [IrqAdd "ethmac"] else [])
  ++ [AddConstant "ETH_PHY_NO_RESET"; AddIpConstants "LOCALIP" (ethmac_local_ip a);
      AddIpConstants "REMOTEIP" (ethmac_remote_ip a); AddMacConstants "MACADDR" (ethmac_address a)].

(** The three calls before the region. *)
Definition ethmac_prefix (a : etherbone_args) : list call :=
  [CheckIfExists "ethmac"; AutocsrExclude ("ethcore_" +:+ name a) "mac";
   SetModule "ethmac" (EthMac ("ethcore_" +:+ name a))].

(** The origin is the one LiteX has for the region, once it is added. *)
Lemma add_ethmac_run a w :
  wp (add_ethmac a) (ok_post (fun _ w' => exists o, trace w' = trace w ++ ethmac_calls a o /\ disk w' = disk w /\
    region_origin (trace w ++ ethmac_prefix a ++ [AddRegion "ethmac" mac_region]) "ethmac" = Some o /\
    (forall o', mem_map "ethmac" = Some o' -> o = o'))) w.
Proof. unfold add_ethmac. calls. fold mac_region. unfold get_region_origin. calls.
  set (before := trace w ++ [CheckIfExists "ethmac"; AutocsrExclude ("ethcore_" +:+ name a) "mac";
                             SetModule "ethmac" (EthMac ("ethcore_" +:+ name a))]).
  destruct (added_region before "ethmac" mac_region) as (o & Ho & Hm).
  set (w1 := push (AddRegion "ethmac" mac_region) _).
  assert (Hw1 : trace w1 = before ++ [AddRegion "ethmac" mac_region])
    by (unfold w1, before; simpl; by rewrite <- !app_assoc).
  rewrite Hw1, Ho. calls. rewrite push_trace, slave_keeps_region, Hw1, Ho. calls.
  assert (Ho' : region_origin (trace w ++ ethmac_prefix a ++ [AddRegion "ethmac" mac_region]) "ethmac" = Some o)
    by (rewrite <- Ho; unfold before; by rewrite <- !app_assoc).
  unfold ethmac_calls. destruct irq_enabled; calls; simpl ok_post;
    (exists o; split; [|split; [done|split; [exact Ho'|exact Hm]]]); cbn [push trace];
    rewrite Hw1; unfold before; by rewrite <- !app_assoc.
Qed.

Lemma add_ethmac_calls a :
  appends (add_ethmac a)
    (fun cs => exists o, cs = ethmac_calls a o /\ (forall o', mem_map "ethmac" = Some o' -> o = o')).
Proof.
  intros w. eapply wp_mono; [apply add_ethmac_run|]. intros [| |] w'; simpl; try done.
  intros (o & Ht & Hd & _ & Hm). eexists. split; [exact Ht|]. split; [by exists o|done].
Qed.

End Ethmac.

(** ** The calls of [add_etherbone_dynamic_ip] *)

(** The arguments the function accepts. *)
Definition etherbone_args_ok (a : etherbone_args) : bool :=
  match phy_ a with Some _ => true | None => false end && valid_width (data_width a) &&
  negb (with_ethmac a && ((mac_address a =? ethmac_address a) || ip_eq_str (ip_address a) (ethmac_local_ip a))).

Definition is_constraint (c : call) : bool :=
  match c with AddPeriodConstraint _ _ | AddFalsePath _ _ => true | _ => false end.

Section EtherboneCalls.
Context `{L : LiteX}.

Definition ethcore_call (a : etherbone_args) (p : phy) (e : string) (renames : list (string * string)) (cd : string) : call :=
  AddModule ("ethcore_" +:+ name a) (LiteEthUDPIPCore {|
    core_phy := p; core_clk_freq := soc_clk_freq; core_mac := mac_address a; core_ip := ip_address a; core_arp_entries := arp_entries a;
    core_dw := data_width a; core_ip_broadcast := with_ip_broadcast a;
    core_sys_datapath := data_width a =? 32; core_igmp := with_igmp a;
    core_igmp_groups := igmp_groups a; core_igmp_interval := igmp_interval a;
    core_interface := if with_ethmac a then "hybrid" else "crossbar"; core_endianness := e;
    core_renames := renames; core_cd := cd |}).

Definition module_calls (a : etherbone_args) : list call :=
  (if negb (data_width a =? 32)
   then [NewClockDomain ("cd_" +:+ name a) (name a); CombClk (name a) "sys"; CombRst (name a) "sys"] else [])
  ++ [CheckIfExists (name a);
      AddModule (name a) (LiteEthEtherbone ("ethcore_" +:+ name a) (udp_port a) (buffer_depth a)
        (if negb (data_width a =? 32) then name a else "sys"));
      AddMaster (name a)].

Lemma add_ethcore_calls a p :
  appends (add_ethcore a p) (fun cs => exists e renames cd,
    cs = [CheckIfExists (name a +:+ "_ethcore"); ethcore_call a p e renames cd] /\
    (data_width a = 32 -> renames = [] /\ cd = "sys") /\
    (with_ethmac a = true -> cd = "sys")).
Proof.
  intros w. unfold add_ethcore, endianness, ethcore_domains, eth_clk_names, phy_domains. calls.
  destruct cpu_endianness as [e|]; calls; [|done].
  assert (Hw : data_width a = 32 -> negb (data_width a =? 32) = false) by (by intros ->).
  destruct (negb (data_width a =? 32)).
  - destruct (phy_cd a), (phy_crg p), (phy_own p); calls; try done;
      (eexists; split; [cbn [push trace]; by rewrite <- app_assoc|]; split; [|done]);
      do 3 eexists; (split; [reflexivity|]); (split; [by intros ?%Hw|by intros ->]).
  - calls. eexists. split; [cbn [push trace]; by rewrite <- app_assoc|]. split; [|done].
    do 3 eexists. split; [reflexivity|]. by split.
Qed.

Lemma add_module_calls a : appends (add_etherbone_module a) (eq (module_calls a)).
Proof.
  unfold add_etherbone_module, module_calls.
  eapply appends_bind with (S2 := eq [CheckIfExists (name a); _; AddMaster (name a)]).
  - apply appends_if; [apply appends_do_all|apply appends_ret].
  - intros _ w. calls. eexists. split; [cbn [push trace]; by rewrite <- !app_assoc|done].
  - by intros c1 c2; destruct (negb _); intros <- <-.
Qed.

Lemma timing_calls p : appends (add_timing_constraints p) (fun cs => forallb is_constraint cs = true).
Proof.
  intros w. unfold add_timing_constraints, phy_domains.
  destruct (phy_crg p) as [d|]; [|destruct (phy_own p) as [d|]]; calls; [..|done];
    (destruct (negb _ && negb _); [|calls; exists []; by rewrite app_nil_r]);
    calls; destruct (negb _); calls;
    (eexists; split; [cbn [push trace]; by rewrite <- ?app_assoc|done]).
Qed.

(** The calls of the whole function, for given answers of LiteX. *)
Definition etherbone_calls (a : etherbone_args) (p : phy) (e : string) (renames : list (string * string)) (cd : string)
    (timing : list call) (o : Z) : list call :=
  [CheckIfExists (name a +:+ "_ethcore"); ethcore_call a p e renames cd]
  ++ module_calls a ++ timing ++ (if with_ethmac a then ethmac_calls a o else []).

Record etherbone_added (a : etherbone_args) (cs : list call) : Prop := {
  added_ok : etherbone_args_ok a = true;
  added_calls : exists p e renames cd timing o,
    cs = etherbone_calls a p e renames cd timing o /\ phy_ a = Some p /\
    (data_width a = 32 -> renames = [] /\ cd = "sys") /\
    forallb is_constraint timing = true /\
    (forall o', mem_map "ethmac" = Some o' -> o = o')
}.

Lemma ethmac_part_calls `{!LiteXLaws} a :
  appends (if with_ethmac a then
             if mac_address a =? ethmac_address a then soc_error "ethmac_address" else
             if negb (is_MigenValue (ip_address a)) && ip_eq_str (ip_address a) (ethmac_local_ip a)
             then soc_error "ethmac_local_ip" else add_ethmac a
           else ret tt)
    (fun cs => negb (with_ethmac a && ((mac_address a =? ethmac_address a) ||
                                       ip_eq_str (ip_address a) (ethmac_local_ip a))) = true /\
       exists o, cs = (if with_ethmac a then ethmac_calls a o else []) /\
                 (forall o', mem_map "ethmac" = Some o' -> o = o')).
Proof.
  destruct (with_ethmac a); simpl.
  - intros w. destruct (mac_address a =? ethmac_address a); [apply ok_soc_error|].
    assert (Hip : negb (is_MigenValue (ip_address a)) && ip_eq_str (ip_address a) (ethmac_local_ip a)
                  = ip_eq_str (ip_address a) (ethmac_local_ip a)) by (by destruct (ip_address a)).
    rewrite Hip. destruct (ip_eq_str _ _); [apply ok_soc_error|]. simpl.
    eapply appends_mono; [apply add_ethmac_calls|]. eauto.
  - eapply appends_mono; [apply appends_ret|]. intros cs <-. split; [done|].
    exists (default 0 (mem_map "ethmac")). split; [done|]. by intros o' ->.
Qed.

Lemma add_etherbone_calls `{!LiteXLaws} a :
  appends (add_etherbone_dynamic_ip a) (etherbone_added a).
Proof.
  unfold add_etherbone_dynamic_ip.
  destruct (phy_ a) as [p|] eqn:Hp; [|intros w; apply ok_soc_error].
  destruct (negb (valid_width (data_width a))) eqn:Hw; [intros w; apply ok_soc_error|].
  eapply appends_mono.
  { apply appends_seq; [apply add_ethcore_calls|intros _].
    apply appends_seq; [apply add_module_calls|intros _].
    apply appends_seq; [apply appends_if; [apply timing_calls|apply appends_ret]|intros _].
    apply ethmac_part_calls. }
  intros cs (c1 & c2 & -> & (e & renames & cd & -> & Hr & _) & ? & ? & -> & <- & timing & c4 & -> & Ht &
             Hmac & o & -> & Ho).
  split.
  - unfold etherbone_args_ok. rewrite Hp, Hmac. apply negb_false_iff in Hw. by rewrite Hw.
  - exists p, e, renames, cd, timing, o. split; [done|]. split; [done|]. split; [done|]. split; [|done].
    destruct (with_timing_constraints a); [done|]. by subst timing.
Qed.

End EtherboneCalls.

(** ** A LiteX that accepts every call *)

Section Accepting.
Context `{L : LiteX}.
Hypothesis accepting : forall tr c, refuses tr c = None.

Lemma acc_do c (Q : outcome unit -> elab -> Prop) w : Q (Ok tt) (push c w) -> wp (do_ c) Q w.
Proof. unfold wp, do_. by rewrite accepting. Qed.

Lemma acc_do_all cs (Q : outcome unit -> elab -> Prop) w :
  Q (Ok tt) (Elab (trace w ++ cs) (disk w)) -> wp (do_all cs) Q w.
Proof.
  revert w. induction cs as [|c cs IH]; intros w HQ; cbn [do_all].
  - apply wp_ret. rewrite app_nil_r in HQ. by destruct w.
  - apply wp_bind, acc_do, IH. cbn [push trace disk]. by rewrite <- app_assoc.
Qed.

Lemma acc_soc_error {A} what (Q : outcome A -> elab -> Prop) w :
  Q (Raise SoCError) (push (LoggerError what) w) -> wp (soc_error what) Q w.
Proof. intros HQ. unfold soc_error. by apply wp_bind, acc_do. Qed.

Lemma acc_ethcore a p d e w (Q : outcome unit -> elab -> Prop) :
  cpu_endianness = Some e -> (phy_crg p = Some d \/ phy_crg p = None /\ phy_own p = Some d) ->
  (forall w', Q (Ok tt) w') -> wp (add_ethcore a p) Q w.
Proof.
  intros He Hd HQ. unfold add_ethcore, endianness, ethcore_domains, eth_clk_names, phy_domains.
  rewrite He. apply wp_bind, acc_do, wp_bind, wp_ret, wp_bind.
  destruct (negb (data_width a =? 32)); [|by apply wp_ret, acc_do].
  destruct (phy_cd a); [by apply wp_bind, wp_ret, wp_ret, acc_do|].
  destruct Hd as [->|[-> ->]]; by apply wp_bind, wp_bind, wp_ret, wp_ret, wp_ret, acc_do.
Qed.

Lemma acc_module a w (Q : outcome unit -> elab -> Prop) :
  (forall w', Q (Ok tt) w') -> wp (add_etherbone_module a) Q w.
Proof.
  intros HQ. unfold add_etherbone_module. apply wp_bind.
  destruct (negb _); [apply acc_do_all|apply wp_ret]; by do 2 apply wp_bind, acc_do; apply acc_do.
Qed.

Lemma acc_timing p d w (Q : outcome unit -> elab -> Prop) :
  (phy_crg p = Some d \/ phy_crg p = None /\ phy_own p = Some d) ->
  (forall w', Q (Ok tt) w') -> wp (add_timing_constraints p) Q w.
Proof.
  intros Hd HQ. unfold add_timing_constraints, phy_domains.
  apply wp_bind. destruct Hd as [->|[-> ->]]; apply wp_ret;
    (destruct (negb _ && negb _); [|by apply wp_ret]); apply wp_bind, acc_do;
    destruct (negb _); try apply wp_bind, acc_do; by apply acc_do.
Qed.

Lemma acc_ethmac `{!LiteXLaws} a w (Q : outcome unit -> elab -> Prop) :
  (forall w', Q (Ok tt) w') -> wp (add_ethmac a) Q w.
Proof.
  intros HQ. unfold add_ethmac, get_region_origin. do 4 apply wp_bind, acc_do.
  fold mac_region. set (w1 := push (AutocsrExclude _ _) _). set (w2 := push (SetModule _ _) w1).
  destruct (added_region (trace w2) "ethmac" mac_region) as (o & Ho & _).
  apply wp_bind, wp_bind, wp_get. cbn [push trace]. rewrite Ho. apply wp_ret, wp_bind, acc_do.
  apply wp_bind, wp_bind, wp_get. cbn [push trace]. rewrite slave_keeps_region, Ho.
  apply wp_ret, wp_bind, acc_do, wp_bind.
  destruct irq_enabled; [apply acc_do|apply wp_ret]; by do 3 apply wp_bind, acc_do; apply acc_do.
Qed.

End Accepting.

(** ** The calls of [BaseSoC] *)

Section BaseCalls.
Context `{L : LiteX, LL : !LiteXLaws} (_HERE : string).

Definition crg_calls (f : Z) : list call :=
  [Request "clk100"; Request "rst_n"; CombClk "por" "clk100"; PllClkIn "clk100" 100000000;
   PllClkOut "sys2x_i" (2 * f) true; PllClkOut "b8008" 25000000 false;
   Primitive "ECLKSYNCB" "sys2x_i" "sys2x"; Primitive "CLKDIVF" "sys2x" "sys";
   ResetSynchronizer "sys" "~pll.locked | reset"; ResetSynchronizer "b8008" "b8008_rst_gate"].

(** Up to the network. *)
Definition front_calls (a : soc_args) (kwargs : gmap string pyval) : list call :=
  [NewPlatform (toolchain a) (device a); AddExtension _b8008_dbg_io]
  ++ (if debug_uart a then [AddExtension _debug_serial_io] else [])
  ++ crg_calls (sys_clk_freq a)
  ++ [SetModule "crg" (ClockGenerator (sys_clk_freq a));
      SoCCoreInit (sys_clk_freq a) (soc_kwargs (debug_uart a) kwargs); Request "eth_clocks"; Request "eth";
      SetModule "ethphy" (LiteEthPHYRGMII 0 0); SetModule "eb_ip" EbIP].

Definition rom_path : string := path_join (path_join (path_join _HERE "..") "src") "rom_baked.mem".
Definition core_path : string := path_join (path_join (path_join _HERE "..") "build") "b8008_net_core.v".

(** The core, its ROM holding [rom]. *)
Definition core_calls (f : Z) (rom : list Z) : list call :=
  [NewMemory 8 4096 (rom_contents (Some rom)) "b8008"; SetModule "b8008.console" (ConsoleBridge f);
   Specials "MultiReg(console.stall, stall_b, b8008)"; AddSource core_path; AddSource (_GHDL_GATES _HERE);
   NewInstance "b8008_net_core"
    ([("i_clk", "b8008.clk"); ("i_rst", "b8008.rst"); ("o_uart_tx", "pads.rx"); ("i_uart_rx", "pads.tx");
      ("i_ext_hold", "stall_b"); ("o_rom_addr", "pr.adr"); ("i_rom_data", "pr.dat_r")]
     ++ map (fun d => ("o_dbg_" +:+ d, "dbg." +:+ d)) dbg_signals);
   SetModule "b8008" (B8008 core_path); AddFalsePath "sys" ["b8008"]; Request "b8008_dbg"]
  ++ map (fun d => Comb ("b8008_dbg." +:+ d) ("b8008.dbg." +:+ d)) dbg_signals.

(** What follows the front, for each choice of the network, on files [h]. *)
Definition back_calls (a : soc_args) (h : host) (cs : list call) : Prop :=
  let core cs := exists rom, load_mem_file rom_path h = (Ok rom, h) /\ cs = core_calls (sys_clk_freq a) rom in
  if ethmac_only a then seq (eq [AddEthernet rgmii]) core cs
  else if stock_hybrid a then cs = [AddEtherbone stock_args]
  else seq (etherbone_added (hybrid_args (eb_static_ip a))) core cs.

Lemma load_mem_file_disk path h : snd (load_mem_file path h) = h.
Proof.
  unfold load_mem_file, read_file, bind, get.
  destruct (files h !! path) as [s|]; [|done]. destruct (decide (path ∈ denied h)); [done|].
  unfold ret. cbn [fst snd]. by destruct (load_lines_spec (lines (universal_newlines s)) h)
    as [(ns & -> & _)|(-> & _)].
Qed.

Lemma add_b8008_calls f w :
  wp (add_b8008 _HERE f) (ok_post (fun _ w' => exists rom, load_mem_file rom_path (disk w) = (Ok rom, disk w) /\
    trace w' = trace w ++ core_calls f rom /\ disk w' = disk w)) w.
Proof.
  unfold add_b8008. fold rom_path core_path. apply wp_bind. unfold wp, on_disk.
  pose proof (load_mem_file_disk rom_path (disk w)) as Hd.
  destruct (load_mem_file rom_path (disk w)) as [[rom|e|] h]; cbn [fst snd]; try done.
  cbn [snd] in Hd. subst h.
  enough (Hw : wp (B8008Core _HERE f core_path (Some rom) ;;; do_ (SetModule "b8008" (B8008 core_path)) ;;;
            do_ (AddFalsePath "sys" ["b8008"]) ;;; do_ (Request "b8008_dbg") ;;;
            do_all (map (fun d => Comb ("b8008_dbg." +:+ d) ("b8008.dbg." +:+ d)) dbg_signals))
         (ok_post (fun _ w' => trace w' = trace w ++ core_calls f rom /\ disk w' = disk w)) w).
  { destruct w. eapply wp_mono; [exact Hw|]. intros [| |] w'; simpl; eauto. }
  unfold B8008Core. calls. split; [|done]. cbn [push trace]. by rewrite <- !app_assoc.
Qed.

Lemma front_appends {A} a kwargs (k : M elab A) P w :
  (forall w', trace w' = trace w ++ front_calls a kwargs -> disk w' = disk w -> wp k (ok_post P) w') ->
  wp (do_ (NewPlatform (toolchain a) (device a)) ;;; do_ (AddExtension _b8008_dbg_io) ;;;
      (if debug_uart a then do_ (AddExtension _debug_serial_io) else ret tt) ;;;
      CRG (sys_clk_freq a) ;;; do_ (SetModule "crg" (ClockGenerator (sys_clk_freq a))) ;;;
      do_ (SoCCoreInit (sys_clk_freq a) (soc_kwargs (debug_uart a) kwargs)) ;;;
      do_ (Request "eth_clocks") ;;; do_ (Request "eth") ;;; do_ (SetModule "ethphy" (LiteEthPHYRGMII 0 0)) ;;;
      do_ (SetModule "eb_ip" EbIP) ;;; k) (ok_post P) w.
Proof.
  intros Hk. unfold CRG.
  destruct (debug_uart a) eqn:Hu; calls; (apply Hk; [|done]); unfold front_calls; rewrite Hu;
    cbn [push trace]; by rewrite <- !app_assoc.
Qed.

Lemma base_soc_calls a kwargs w :
  wp (BaseSoC _HERE a kwargs) (ok_post (fun _ w' => exists cs,
    trace w' = trace w ++ front_calls a kwargs ++ cs /\ back_calls a (disk w) cs /\ disk w' = disk w)) w.
Proof.
  unfold BaseSoC. apply front_appends. intros w1 Ht Hd. unfold back_calls.
  destruct (ethmac_only a); [|destruct (stock_hybrid a)].
  - calls. eapply wp_mono; [apply add_b8008_calls|]. intros [| |] w2; cbn [ok_post]; try done.
    intros (rom & Hr & -> & ->). cbn [push trace disk] in *. rewrite Ht. rewrite Hd in *.
    exists ([AddEthernet rgmii] ++ core_calls (sys_clk_freq a) rom).
    split; [by rewrite !app_assoc|]. split; [|done]. eexists [_], _. split; [done|]. eauto.
  - calls. eexists. split; [cbn [push trace]; by rewrite Ht, <- app_assoc|done].
  - eapply ok_bind; [apply add_etherbone_calls|]. intros _ w2 (net & Ht2 & Hnet & Hd2).
    eapply wp_mono; [apply add_b8008_calls|]. intros [| |] w3; cbn [ok_post]; try done.
    intros (rom & Hr & -> & ->). rewrite Ht2, Ht. rewrite Hd2, Hd in *.
    exists (net ++ core_calls (sys_clk_freq a) rom). split; [by rewrite !app_assoc|]. split; [|done]. do 2 eexists. split; [done|]. eauto.
Qed.

End BaseCalls.

(** ** What a sequence of calls makes *)

(** A call that drives the reset of the clock domain [cd]: the PLL attaches a
    synchroniser to a clock it makes unless told otherwise. *)
Definition drives_reset (cd : string) (c : call) : bool :=
  match c with
  | PllClkOut d _ with_reset => with_reset && String.eqb d cd
  | ResetSynchronizer d _ | CombRst d _ => String.eqb d cd
  | _ => false
  end.

Definition module_name (c : call) : option string :=
  match c with AddModule n _ | SetModule n _ => Some n | _ => None end.
Definition slave_name (c : call) : option string :=
  match c with AddSlave n _ => Some n | _ => None end.
Definition request_name (c : call) : option string :=
  match c with Request n => Some n | _ => None end.
Definition pins_of (c : call) : list string :=
  match c with AddExtension g => g ≫= fun p => snd p ≫= snd | _ => [] end.

(** No module, bus slave or pad group has the name of another, no pin is used
    twice, and the resets of the three domains of the PLL have one driver each. *)
Record well_formed (cs : list call) : Prop := {
  wf_modules : NoDup (omap module_name cs);
  wf_slaves : NoDup (omap slave_name cs);
  wf_requests : NoDup (omap request_name cs);
  wf_pins : NoDup (cs ≫= pins_of);
  wf_resets : Forall (fun cd => length (List.filter (drives_reset cd) cs) = 1%nat) ["sys"; "b8008"; "sys2x_i"]
}.

Section WellFormed.
Context `{L : LiteX, LL : !LiteXLaws} (_HERE : string).

Lemma constraint_omap {B} (f : call -> option B) cs :
  (forall c, is_constraint c = true -> f c = None) -> forallb is_constraint cs = true -> omap f cs = [].
Proof.
  intros Hf. induction cs as [|c cs IH]; [done|]. intros [Hc Hcs]%andb_true_iff.
  change (omap f (c :: cs)) with (match f c with Some x => x :: omap f cs | None => omap f cs end).
  rewrite (Hf c Hc). by apply IH.
Qed.

Lemma constraint_pins cs : forallb is_constraint cs = true -> cs ≫= pins_of = [].
Proof.
  induction cs as [|c cs IH]; [done|]. intros [Hc Hcs]%andb_true_iff.
  rewrite bind_cons, IH by done. by destruct c.
Qed.

Lemma constraint_resets cd cs : forallb is_constraint cs = true -> List.filter (drives_reset cd) cs = [].
Proof.
  induction cs as [|c cs IH]; [done|]. intros [Hc Hcs]%andb_true_iff. destruct c; try done; by apply IH.
Qed.

(** Without the timing constraints the calls of the hybrid stack are known. *)
Lemma timing_neutral front mid timing back :
  forallb is_constraint timing = true ->
  well_formed (front ++ mid ++ back) -> well_formed (front ++ mid ++ timing ++ back).
Proof.
  intros Ht [H1 H2 H3 H4 H5].
  rewrite !omap_app in H1, H2, H3. rewrite !bind_app in H4.
  split; rewrite ?omap_app, ?bind_app.
  - rewrite (constraint_omap module_name timing); [done| |done]. by intros [].
  - rewrite (constraint_omap slave_name timing); [done| |done]. by intros [].
  - rewrite (constraint_omap request_name timing); [done| |done]. by intros [].
  - by rewrite (constraint_pins timing).
  - eapply Forall_impl; [exact H5|]. intros cd. cbv beta.
    rewrite !List.filter_app. by rewrite (constraint_resets cd timing).
Qed.

Ltac distinct :=
  split; [apply (bool_decide_unpack _); vm_compute; exact I..|repeat constructor].

Lemma front_well_formed a kwargs cs :
  (forall u, well_formed (front_calls {| sys_clk_freq := sys_clk_freq a; device := device a;
     toolchain := toolchain a; debug_uart := u; ethmac_only := ethmac_only a;
     eb_static_ip := eb_static_ip a; stock_hybrid := stock_hybrid a |} kwargs ++ cs)) ->
  well_formed (front_calls a kwargs ++ cs).
Proof. intros H. specialize (H (debug_uart a)). by destruct a. Qed.

Lemma well_formed_calls a kwargs h cs :
  back_calls _HERE a h cs -> well_formed (front_calls a kwargs ++ cs).
Proof.
  unfold back_calls. intros H. apply front_well_formed. intros u.
  destruct (ethmac_only a); [|destruct (stock_hybrid a)].
  - destruct H as (c1 & c2 & -> & <- & rom & _ & ->). destruct u; distinct.
  - subst cs. destruct u; distinct.
  - destruct H as (c1 & c2 & -> & [_ (p & e & rs & cd & t & o & -> & _ & _ & Ht & _)] & rom & _ & ->).
    set (ha := hybrid_args (eb_static_ip a)).
    assert (E : etherbone_calls ha p e rs cd t o ++ core_calls _HERE (sys_clk_freq a) rom =
      ([CheckIfExists (name ha +:+ "_ethcore"); ethcore_call ha p e rs cd] ++ module_calls ha) ++ t
      ++ ethmac_calls ha o ++ core_calls _HERE (sys_clk_freq a) rom)
      by (unfold etherbone_calls; rewrite <- !app_assoc; reflexivity).
    rewrite E. apply timing_neutral; [done|]. unfold ethmac_calls. destruct u, irq_enabled; distinct.
Qed.

End WellFormed.

(** * Theorems *)

Section SocProperties.
Context `{L : LiteX, LL : !LiteXLaws} (_HERE : string).

(** The calls of every SoC the description returns do not clash with each other, whichever
    options are given and however LiteX answers: the names of the modules, bus slaves and pad
    groups it adds are distinct, no pin is in two of its pad groups, and the resets of the clock
    domains [sys], [b8008] and [sys2x_i] have exactly one driver each.  What LiteX and the
    platform add of their own is not part of the trace. *)
Theorem base_soc_well_formed a kwargs w w' :
  BaseSoC _HERE a kwargs w = (Ok tt, w') ->
  exists cs, trace w' = trace w ++ cs /\ well_formed cs.
Proof.
  intros E. pose proof (base_soc_calls _HERE a kwargs w) as H. unfold wp in H. rewrite E in H.
  destruct H as (cs & Ht & Hb & _). eexists. split; [exact Ht|]. by eapply well_formed_calls.
Qed.

(** What [BaseSoC] builds.  If it returns, it has made the calls of the
    common front (platform, pads, clocks, the CPU with the forced identity,
    the PHY, the address register), then those of exactly one network stack,
    chosen by [ethmac_only] before [stock_hybrid], and then those of the 8008 core
    with the ROM that [load_mem_file] read; the stock hybrid has no core. *)
Theorem base_soc_builds a kwargs w w' :
  BaseSoC _HERE a kwargs w = (Ok tt, w') ->
  disk w' = disk w /\
  exists net core, trace w' = trace w ++ front_calls a kwargs ++ net ++ core /\
    (if ethmac_only a then net = [AddEthernet rgmii]
     else if stock_hybrid a then net = [AddEtherbone stock_args]
     else etherbone_added (hybrid_args (eb_static_ip a)) net) /\
    (if negb (ethmac_only a) && stock_hybrid a then core = []
     else exists rom, load_mem_file (rom_path _HERE) (disk w) = (Ok rom, disk w) /\
                      core = core_calls _HERE (sys_clk_freq a) rom).
Proof.
  intros E. pose proof (base_soc_calls _HERE a kwargs w) as H. unfold wp in H. rewrite E in H.
  destruct H as (cs & Ht & Hb & Hd). split; [done|]. unfold back_calls in Hb.
  destruct (ethmac_only a); [|destruct (stock_hybrid a)]; cbn [negb andb].
  - destruct Hb as (c1 & c2 & -> & <- & Hc). by exists [AddEthernet rgmii], c2.
  - subst cs. by exists [AddEtherbone stock_args], [].
  - destruct Hb as (c1 & c2 & -> & Hn & Hc). by exists c1, c2.
Qed.

(** C19: The guards of [add_etherbone_dynamic_ip].  However LiteX answers, it
    returns only if a PHY was given, the data width is 8, 32 or 64 and, with
    the CPU's MAC, the two MAC addresses differ and a static address is not
    the CPU's own; a LiteX that refuses nothing, with a CPU and a PHY that
    have the attributes read, makes it return exactly then, and otherwise it
    raises [SoCError]. *)
Theorem etherbone_guards_exact a w :
  (forall w', add_etherbone_dynamic_ip a w = (Ok tt, w') -> etherbone_args_ok a = true) /\
  ((forall tr c, refuses tr c = None) -> is_Some cpu_endianness ->
   (forall p, phy_ a = Some p -> is_Some (phy_crg p) \/ phy_crg p = None /\ is_Some (phy_own p)) ->
   fst (add_etherbone_dynamic_ip a w) = if etherbone_args_ok a then Ok tt else Raise SoCError).
Proof.
  split.
  { intros w' E. destruct (appends_run _ _ _ _ _ (add_etherbone_calls a) E) as (cs & _ & H & _). apply H. }
  intros Hacc [e He] Hd. change (wp (add_etherbone_dynamic_ip a)
    (fun r _ => r = if etherbone_args_ok a then Ok tt else Raise SoCError) w).
  unfold add_etherbone_dynamic_ip, etherbone_args_ok.
  destruct (phy_ a) as [p|]; [|by apply acc_soc_error].
  assert (Hp : exists d, phy_crg p = Some d \/ phy_crg p = None /\ phy_own p = Some d).
  { destruct (Hd p eq_refl) as [[d ?]|[? [d ?]]]; exists d; auto. }
  destruct Hp as [d Hp]. destruct (valid_width _); [|by apply acc_soc_error]. cbn [negb andb].
  apply wp_bind. eapply acc_ethcore; [done..|]. intros w1.
  apply wp_bind, acc_module; [done|]. intros w2. apply wp_bind.
  enough (Hm : forall w3, wp (if with_ethmac a then
      if mac_address a =? ethmac_address a then soc_error "ethmac_address" else
      if negb (is_MigenValue (ip_address a)) && ip_eq_str (ip_address a) (ethmac_local_ip a)
      then soc_error "ethmac_local_ip" else add_ethmac a else ret tt)
    (fun r _ => r = if negb (with_ethmac a && ((mac_address a =? ethmac_address a) ||
       ip_eq_str (ip_address a) (ethmac_local_ip a))) then Ok tt else Raise SoCError) w3).
  { destruct (with_timing_constraints a); [by eapply acc_timing|by apply wp_ret]. }
  intros w3. destruct (with_ethmac a); [|by apply wp_ret].
  destruct (mac_address a =? ethmac_address a); [by apply acc_soc_error|].
  destruct (ip_address a); cbn; try by apply acc_ethmac.
  destruct (String.eqb _ _); [by apply acc_soc_error|by apply acc_ethmac].
Qed.

(** An address in a region that has an origin. *)
Definition in_region (x : Z) (r : region) : Prop :=
  exists o, origin r = Some o /\ o <= x < o + size r.

(** The last part of [add_etherbone_dynamic_ip] is [add_ethmac]. *)
Lemma etherbone_ends_with_ethmac a w w' :
  with_ethmac a = true -> add_etherbone_dynamic_ip a w = (Ok tt, w') ->
  exists w1 cs, trace w1 = trace w ++ cs /\ add_ethmac a w1 = (Ok tt, w').
Proof.
  intros Hm E. unfold add_etherbone_dynamic_ip, soc_error in E. rewrite Hm in E.
  destruct (phy_ a) as [p|]; [|unfold bind in E; by destruct (do_ _ w) as [[]]].
  destruct (negb (valid_width _)); [unfold bind in E; by destruct (do_ _ w) as [[]]|].
  unfold bind at 1 in E. destruct (add_ethcore a p w) as [[[]|e|] w1] eqn:E1; [|done|done].
  unfold bind at 1 in E. destruct (add_etherbone_module a w1) as [[[]|e|] w2] eqn:E2; [|done|done].
  unfold bind at 1 in E.
  destruct ((if with_timing_constraints a then add_timing_constraints p else ret tt) w2) as [[[]|e|] w3] eqn:E3; [|done|done].
  destruct (appends_run _ _ _ _ _ (add_ethcore_calls a p) E1) as (c1 & T1 & _).
  destruct (appends_run _ _ _ _ _ (add_module_calls a) E2) as (c2 & T2 & _).
  destruct (appends_run _ _ _ _ _ (appends_if _ _ _ _ _ (timing_calls p) (appends_ret tt)) E3) as (c3 & T3 & _).
  exists w3, (c1 ++ c2 ++ c3). split; [by rewrite T3, T2, T1, <- !app_assoc|].
  destruct (mac_address a =? ethmac_address a); [unfold bind in E; by destruct (do_ _ w3) as [[]]|].
  by destruct (_ && _); [unfold bind in E; destruct (do_ _ w3) as [[]]|].
Qed.

(** C30: The MAC's buffers.  With the CPU's MAC, a return means that one region
    [ethmac] and the two slaves were added, in this order, and that the
    slaves' regions partition it: an address of the region, at the origin LiteX
    reports for it once it is added (which is the one of the memory map, if it has one), is in
    exactly one of them, and no other address is in any.  The receive buffer is read-only. *)
Theorem ethmac_regions_partition a w w' :
  with_ethmac a = true -> add_etherbone_dynamic_ip a w = (Ok tt, w') ->
  exists pre post mac rx tx o,
    trace w' = pre ++ [AddRegion "ethmac" mac; AddSlave "ethmac_rx" rx; AddSlave "ethmac_tx" tx] ++ post /\
    region_origin (pre ++ [AddRegion "ethmac" mac]) "ethmac" = Some o /\
    (forall o', mem_map "ethmac" = Some o' -> o = o') /\ mode rx = "r" /\
    forall x, (o <= x < o + size mac <-> in_region x rx \/ in_region x tx) /\
              ~ (in_region x rx /\ in_region x tx).
Proof.
  intros Hm E. destruct (etherbone_ends_with_ethmac a w w' Hm E) as (w1 & cs & _ & Em).
  pose proof (add_ethmac_run a w1) as Hrun. unfold wp in Hrun. rewrite Em in Hrun. cbn [fst snd ok_post] in Hrun.
  destruct Hrun as (o & Ht & _ & Ho & Hmap). destruct slots_positive as (Hr & Htx & Hs).
  exists (trace w1 ++ ethmac_prefix a). eexists _, mac_region, (rx_region o), (tx_region o), o.
  split; [rewrite Ht; unfold ethmac_calls; rewrite <- !app_assoc; reflexivity|].
  split; [by rewrite <- app_assoc|]. split; [done|]. split; [done|].
  intros x. unfold in_region, rx_region, tx_region, mac_region. cbn [origin size].
  assert (0 < rx_slots * slot_size) by nia. assert (0 < tx_slots * slot_size) by nia.
  set (rxs := rx_slots * slot_size) in *. set (txs := tx_slots * slot_size) in *. split.
  - split.
    + intros Hx. destruct (Z.lt_ge_cases x (o + rxs)); [left|right]; eexists; (split; [done|lia]).
    + intros [(o' & [= <-] & ?)|(o' & [= <-] & ?)]; lia.
  - intros [(o1 & [= <-] & ?) (o2 & [= <-] & ?)]. lia.
Qed.

(** C31: The Etherbone address is never 0.  Unless a static address is given,
    the core is handed an address that, for every content of the 32-bit
    register, is the register's if it is not 0, and 240.0.0.1 if it is;
    and the hybrid's arguments pass every guard unless the static address
    is 0.0.0.0. *)
Theorem eb_ip_gated static :
  (etherbone_args_ok (hybrid_args static) = true <-> static <> Some "0.0.0.0") /\
  match ip_address (hybrid_args static) with
  | IpStr s => static = Some s /\ s <> ""
  | IpValue v => (static = None \/ static = Some "") /\
      forall csr, 0 <= csr "eb_ip.ip" < 2 ^ 32 ->
        eval csr v = (if csr "eb_ip.ip" =? 0 then 0xF0000001 else csr "eb_ip.ip") /\ eval csr v <> 0
  | IpInt _ => False
  end.
Proof.
  split.
  - unfold etherbone_args_ok. destruct static as [[|c s]|]; cbn -[String.eqb]; try done.
    rewrite negb_true_iff, String.eqb_neq. split; intros Hn E; apply Hn; congruence.
  - cbn. destruct static as [[|c s]|]; cbn; [|by split|]; (split; [auto|]); intros csr Hc;
      destruct (Z.eqb_spec (csr "eb_ip.ip") 0); cbn; done.
Qed.

(** The calls of [main]. *)
Lemma main_calls a w w' :
  main _HERE a w = (Ok tt, w') ->
  exists cs, trace w' = trace w ++ front_calls (target a) (soc_argdict a) ++ cs ++
      [NewBuilder (builder_argdict a)] ++
      (if build a then [Build "versa_soc" (toolchain_argdict a)] else []) /\
    back_calls _HERE (target a) (disk w) cs.
Proof.
  intros E. enough (H : wp (main _HERE a) (ok_post (fun _ w' => exists cs,
     trace w' = trace w ++ front_calls (target a) (soc_argdict a) ++ cs ++ [NewBuilder (builder_argdict a)]
      ++ (if build a then [Build "versa_soc" (toolchain_argdict a)] else []) /\
     back_calls _HERE (target a) (disk w) cs)) w) by (unfold wp in H; by rewrite E in H).
  clear E w'. unfold main, no_overlap. destruct (existsb _ _); [done|]. apply ok_bind_ret.
  eapply ok_bind; [apply base_soc_calls|]. intros _ w1 (cs & Ht & Hb & _).
  destruct (build a); calls.
  - destruct (existsb _ _); calls; [done|]. exists cs. split; [|done]. cbn [push trace].
    by rewrite Ht, <- !app_assoc.
  - exists cs. split; [|done]. cbn [push trace]. by rewrite Ht, <- !app_assoc.
Qed.

(** The identity of the SoC is forced.  Whatever the command line says, if [main]
    returns, [SoCCore] was initialised with exactly the keywords of
    [BaseSoC] where it has one and those of the command line elsewhere; the
    gateware is built, under the name versa_soc and as the last
    call, exactly if [--build] was given. *)
Theorem main_forces_identity a w w' :
  main _HERE a w = (Ok tt, w') ->
  (exists kw, In (SoCCoreInit (sys_clk_freq (target a)) kw) (trace w') /\
     forall k, kw !! k = match forced_kwargs (debug_uart (target a)) !! k with
                         | Some v => Some v
                         | None => soc_argdict a !! k
                         end) /\
  (build a = true <-> exists before, trace w' = before ++ [Build "versa_soc" (toolchain_argdict a)]).
Proof.
  intros (cs & Ht & _)%main_calls. split.
  - eexists. split.
    + rewrite Ht. apply in_or_app. right. apply in_or_app. left. unfold front_calls.
      do 3 (apply in_or_app; right). right. by left.
    + intros k. unfold soc_kwargs. rewrite lookup_union.
      by destruct (forced_kwargs (debug_uart (target a)) !! k), (soc_argdict a !! k).
  - rewrite Ht. destruct (build a).
    + split; [|done]. intros _. eexists. by rewrite !app_assoc.
    + split; [done|]. intros [before Hb]. rewrite app_nil_r, !app_assoc in Hb.
      by apply app_inj_tail in Hb as [_ ?].
Qed.

End SocProperties.

(** ** The name that is checked

    The guard before the UDP/IP core tests a name that is never used. *)
Lemma ethcore_name_not_checked `{LiteX} static cs :
  etherbone_added (hybrid_args static) cs ->
  In (CheckIfExists "etherbone_ethcore") cs /\
  ~ In (CheckIfExists "ethcore_etherbone") cs /\
  exists c, In (AddModule "ethcore_etherbone" (LiteEthUDPIPCore c)) cs.
Proof.
  intros [_ (p & e & rs & cd & t & o & -> & _ & _ & Ht & _)]. split; [by left|]. split.
  - unfold etherbone_calls. intros [Hin|[Hin|Hin]]; [discriminate..|].
    apply in_app_or in Hin as [[]|[Hin|[Hin|Hin]%in_app_or]%in_app_or].
    + vm_compute in Hin. intuition discriminate.
    + rewrite forallb_forall in Ht. by specialize (Ht _ Hin).
    + cbn [with_ethmac hybrid_args] in Hin. unfold ethmac_calls in Hin.
      destruct irq_enabled; repeat (destruct Hin as [Hin|Hin]; [discriminate|]); done.
  - eexists. right. by left.
Qed.

(** * Concrete runs *)

Module SocRuns.

Fixpoint last_region (tr : list call) (n : string) (found : option Z) : option Z :=
  match tr with
  | [] => found
  | AddRegion m r :: tr =>
      last_region tr n (if String.eqb m n then Some (default 0x80000000 (origin r)) else found)
  | _ :: tr => last_region tr n found
  end.

Definition versa_phy : phy := {|
  phy_crg := Some {| cd_eth_tx := {| cd_name := "eth_tx"; cd_clk := "eth_tx.clk" |};
                     cd_eth_rx := {| cd_name := "eth_rx"; cd_clk := "eth_rx.clk" |} |};
  phy_own := None; rx_clk_freq := 125000000; tx_clk_freq := 125000000;
  is_LiteEthPHYModel := false; phy_model := false |}.

#[export] Instance lenient : LiteX := {
  refuses _ _ := None;
  region_origin tr n := last_region tr n None;
  mem_map _ := None;
  irq_enabled := true;
  cpu_endianness := Some "little";
  soc_clk_freq := 75000000;
  rx_slots := 2; tx_slots := 2; slot_size := 2048;
  rgmii := versa_phy
}.

Lemma last_region_app tr c n found :
  last_region (tr ++ [c]) n found =
  match c with
  | AddRegion m r => if String.eqb m n then Some (default 0x80000000 (origin r)) else last_region tr n found
  | _ => last_region tr n found
  end.
Proof.
  revert found. induction tr as [|c' tr IH]; intros found.
  - simpl. by destruct c.
  - destruct c'; simpl; apply IH.
Qed.

#[export] Instance lenient_laws : LiteXLaws.
Proof.
  split.
  - intros tr n r. exists (default 0x80000000 (origin r)). split.
    + cbn. by rewrite last_region_app, String.eqb_refl.
    + by intros o' ->.
  - intros. cbn. by rewrite last_region_app.
  - cbn. lia.
Qed.

(** The files of a checkout, seen from soc/. *)
Definition checkout : host := set_files {["soc/../src/rom_baked.mem" := render [68; 59]]} CoreRuns.disk.
Definition fresh : elab := Elab [] checkout.

Definition production : soc_args := {|
  sys_clk_freq := 75000000; device := "LFE5UM5G"; toolchain := "trellis"; debug_uart := false;
  ethmac_only := true; eb_static_ip := None; stock_hybrid := false |}.
Definition hybrid : soc_args := {|
  sys_clk_freq := 75000000; device := "LFE5UM5G"; toolchain := "trellis"; debug_uart := true;
  ethmac_only := false; eb_static_ip := None; stock_hybrid := false |}.
Definition cli_dict : gmap string pyval := {["cpu_type" := PyStr "picorv32"; "bus_data_width" := PyInt 32]}.

Lemma base_soc_well_formed_witness :
  exists cs, trace (snd (BaseSoC "soc" hybrid cli_dict fresh)) = cs /\ well_formed cs.
Proof.
  destruct (base_soc_well_formed "soc" hybrid cli_dict fresh (snd (BaseSoC "soc" hybrid cli_dict fresh)))
    as (cs & E & H); [vm_compute; reflexivity|]. by exists cs.
Defined.

Lemma base_soc_builds_witness :
  exists net, In (AddEthernet versa_phy) net /\
    trace (snd (BaseSoC "soc" production cli_dict fresh)) =
    front_calls production cli_dict ++ net ++ core_calls "soc" 75000000 [68; 59].
Proof.
  destruct (base_soc_builds "soc" production cli_dict fresh (snd (BaseSoC "soc" production cli_dict fresh)))
    as (_ & net & core & E & Hn & rom & Hr & Hc); [vm_compute; reflexivity|].
  exists net. assert (rom = [68; 59]) as -> by (vm_compute in Hr; congruence).
  cbn in Hn. subst net core. split; [by left|exact E].
Defined.

(** Equal MAC addresses are refused, the hybrid's arguments are accepted. *)
Definition same_mac : etherbone_args := {|
  name := "etherbone"; phy_ := Some versa_phy; phy_cd := None; data_width := 8;
  mac_address := 0x10e2d5000001; ip_address := IpStr "192.168.1.50"; arp_entries := 1;
  udp_port := 1234; buffer_depth := 16; with_ip_broadcast := true;
  with_timing_constraints := true; with_ethmac := true; ethmac_address := 0x10e2d5000001;
  ethmac_local_ip := "192.168.1.51"; ethmac_remote_ip := "192.168.1.100";
  with_igmp := false; igmp_groups := None; igmp_interval := 10 |}.

Lemma etherbone_guards_exact_witness :
  fst (add_etherbone_dynamic_ip same_mac fresh) = Raise SoCError /\
  fst (add_etherbone_dynamic_ip (hybrid_args None) fresh) = Ok tt.
Proof.
  split.
  - apply (proj2 (etherbone_guards_exact same_mac fresh)); [done|by eexists|].
    intros p [= <-]. left. by eexists.
  - apply (proj2 (etherbone_guards_exact (hybrid_args None) fresh)); [done|by eexists|].
    intros p [= <-]. left. by eexists.
Defined.

Lemma ethmac_regions_partition_witness :
  exists pre post mac rx tx,
    trace (snd (add_etherbone_dynamic_ip (hybrid_args None) fresh)) =
      pre ++ [AddRegion "ethmac" mac; AddSlave "ethmac_rx" rx; AddSlave "ethmac_tx" tx] ++ post /\
    forall x, 0x80000000 <= x < 0x80000000 + size mac -> in_region x rx \/ in_region x tx.
Proof.
  destruct (ethmac_regions_partition (hybrid_args None) fresh
    (snd (add_etherbone_dynamic_ip (hybrid_args None) fresh)))
    as (pre & post & mac & rx & tx & o & E & Ho & _ & _ & H); [reflexivity|vm_compute; reflexivity|].
  exists pre, post, mac, rx, tx. split; [exact E|]. cbn in Ho. rewrite last_region_app in Ho. cbn in Ho.
  assert (Hmac : origin mac = None).
  { assert (Hin : In (AddRegion "ethmac" mac) (trace (snd (add_etherbone_dynamic_ip (hybrid_args None) fresh))))
      by (rewrite E; apply in_or_app; right; by left).
    vm_compute in Hin. repeat (destruct Hin as [Hin|Hin]; [try discriminate Hin; by injection Hin as <-|]). destruct Hin. }
  rewrite Hmac in Ho. injection Ho as <-. intros x. apply H.
Defined.

Definition built : main_args := {|
  target := production; build := true; soc_argdict := cli_dict; builder_argdict := ∅;
  toolchain_argdict := ∅ |}.

Lemma main_forces_identity_witness :
  exists kw, In (SoCCoreInit 75000000 kw) (trace (snd (main "soc" built fresh))) /\
    kw !! "cpu_type" = Some (PyStr "vexriscv") /\ kw !! "bus_data_width" = Some (PyInt 32).
Proof.
  destruct (main_forces_identity "soc" built fresh (snd (main "soc" built fresh)))
    as ((kw & Hin & Hkw) & _); [vm_compute; reflexivity|].
  exists kw. split; [exact Hin|]. split; rewrite Hkw; reflexivity.
Defined.

End SocRuns.
