(* ===== verification/Cli.v ===== *)
(** * The command line

    host/b8008net/cli.py: the parser ([build_parser], with the part of argparse
    it uses), [main], and the commands [status] and [login] over the
    connection ([Board]), the discovery ([Discovery]) and the interactive
    console ([Console]).

    The world of a command is the world of [Board], the world of the console
    (any world with the console's registers, streams and terminal) and the
    lines printed on standard output.  [DEFAULT_LOCK_PATH] and
    [DEFAULT_CACHE_PATH] are parameters: they depend on the user's home. *)

From Stdlib Require Import ZArith Lia List Bool Ascii String.
From stdpp Require Import base list strings gmap pretty.
From S2P Require Import Prelude Text Argparse Fifo ConsoleBridge HostOS Etherbone Discovery Board Console ConsoleOnBridge.

Open Scope string_scope.
Open Scope list_scope.
Open Scope Z_scope.

Definition DEFAULT_CSR_CSV : string := "build/versa/csr.csv".
Definition RTT_DEFAULT_READS : nat := 50.

(** ** The parser *)

Definition _add_connection_args : list opt_decl := [
  {| option_strings := ["--csr"]; dest := "csr"; takes_value := true; accepts_value := fun _ => true; required := true;
     default_value := None |};
  {| option_strings := ["--host"]; dest := "host"; takes_value := true; accepts_value := fun _ => true; required := false;
     default_value := None |};
  {| option_strings := ["--no-cache"]; dest := "no_cache"; takes_value := false; accepts_value := fun _ => true; required := false;
     default_value := None |}].

Definition _add_login_args : list opt_decl := [
  {| option_strings := ["--csr"]; dest := "csr"; takes_value := true; accepts_value := fun _ => true; required := false;
     default_value := Some DEFAULT_CSR_CSV |};
  {| option_strings := ["--host"]; dest := "host"; takes_value := true; accepts_value := fun _ => true; required := false;
     default_value := None |};
  {| option_strings := ["--no-cache"]; dest := "no_cache"; takes_value := false; accepts_value := fun _ => true; required := false;
     default_value := None |}].

(** The functions [set_defaults(func=...)] chooses from. *)
Inductive func := cmd_status_func | cmd_login_func.

Record subparser := {
  prog : string;
  options : list opt_decl;
  sub_func : func
}.

Definition build_parser : list subparser := [
  {| prog := "status";
     options := help_option :: _add_connection_args ++
       [{| option_strings := ["--rtt"]; dest := "rtt"; takes_value := false; accepts_value := fun _ => true; required := false;
           default_value := None |}];
     sub_func := cmd_status_func |};
  {| prog := "login"; options := help_option :: _add_login_args; sub_func := cmd_login_func |};
  {| prog := "console"; options := help_option :: _add_login_args; sub_func := cmd_login_func |}].

(** The attributes of the result. *)
Record args := {
  csr : string;
  arg_host : option string;
  no_cache : bool;
  rtt : bool;
  args_func : func
}.

Definition finish (sp : subparser) (ns : namespace) : Z + args :=
  if missing_required (options sp) ns || extras ns then inl 2 else
  let flag o := bool_decide (is_Some (lookup_value o (values ns))) in
  inr {| csr := default "" (value_of (options sp) "csr" ns); arg_host := value_of (options sp) "host" ns;
         no_cache := flag "no_cache"; rtt := flag "rtt"; args_func := sub_func sp |}.

(** [parser.parse_args(argv)]: options of the main parser (only the help) up
    to the command, which takes the rest. *)
Fixpoint parse_args (sps : list subparser) (argv : list string) (extra : bool) : Z + args :=
  match argv with
  | [] => inl 2
  | s :: argv =>
      match classify [help_option] s with
      | Dashes | Ambiguous => inl 2
      | Unknown => parse_args sps argv true
      | Opt _ given None => inl 0
      | Opt _ given (Some v) =>
          if String.eqb given "-h" && all_chars (fun c => c =? "h")%char v then inl 0 else inl 2
      | Arg =>
          match find (fun sp => String.eqb (prog sp) s) sps with
          | None => inl 2
          | Some sp => match parse_options (options sp) argv (Ns [] extra) with
                       | inl code => inl code
                       | inr ns => finish sp ns
                       end
          end
      end
  end.

(** ** Text of the messages *)

Definition hex_lower (d : Z) : ascii :=
  ascii_of_nat (Z.to_nat (if d <? 10 then 48 + d else 87 + d)).

(** One character of [repr(s)], inside the quote [q]. *)
Definition repr_char (q c : ascii) : string :=
  let n := Z.of_N (N_of_ascii c) in
  if (c =? q)%char || (c =? "\")%char then String "\"%char (String c "")
  else if n =? 10 then "\n" else if n =? 13 then "\r" else if n =? 9 then "\t"
  else if (n <? 32) || ((127 <=? n) && (n <=? 160)) || (n =? 173)
  then "\x" +:+ String (hex_lower (n / 16)) (String (hex_lower (n mod 16)) "")
  else String c "".

Fixpoint repr_chars (q : ascii) (s : string) : string :=
  match s with EmptyString => "" | String c rest => repr_char q c +:+ repr_chars q rest end.

(** [repr(s)]: in single quotes, unless only those occur in [s]. *)
Definition py_repr (s : string) : string :=
  let q := if has_char "'"%char s && negb (has_char "034"%char s) then "034"%char else "'"%char in
  String q (repr_chars q s +:+ String q "").

(** Hundredths, as [:.2f] prints them. *)
Definition fixed2 (n : Z) : string :=
  pretty (n / 100) +:+ "." +:+ pretty (n mod 100 / 10) +:+ pretty (n mod 10).

(** [{rtt * 1000:.2f}] for [reads] reads that took [elapsed] microseconds:
    milliseconds, to the nearest hundredth (ties to even). *)
Definition fmt_rtt_ms (elapsed : Z) (reads : nat) : string :=
  let d := 10 * Z.of_nat reads in
  let q := elapsed / d in
  let r := elapsed mod d in
  fixed2 (if (2 * r <? d) || ((2 * r =? d) && Z.even q) then q else q + 1).

(** ** The commands *)

(** [print]ed lines of standard output; standard error is the console's. *)
Record cli (X : Type) := Cli { brd : world; con : X; printed : list string }.
Arguments Cli {X} brd con printed.
Arguments brd {X} c.
Arguments con {X} c.
Arguments printed {X} c.

Section Commands.
Context {X T : Type} `{!ConsoleRegs X, !ConsoleIO X, !Terminal T X} {C : EtherboneCodec}.
Variables (lock_path cache_path : string).

(** How long a register read takes, in microseconds. *)
Variable read_time : X -> N.

(** The turns an interactive session may take. *)
Variable session_fuel : nat.

Definition on_board {A} (m : M world A) : M (cli X) A := fun c =>
  let (r, w) := m (brd c) in (r, Cli w (con c) (printed c)).

Definition on_console {A} (m : M X A) : M (cli X) A := fun c =>
  let (r, x) := m (con c) in (r, Cli (brd c) x (printed c)).

Definition print (line : string) : M (cli X) unit :=
  modify (fun c => Cli (brd c) (con c) (printed c ++ [line])).

Definition print_err (text : string) : M (cli X) unit := on_console (stderr_print text).

Definition _connect (a : args) : M (cli X) Board :=
  on_board (connect (csr a) (arg_host a) lock_path cache_path (negb (no_cache a))).

(** [board.regs.b8008_console_console_tx.read()] *)
Definition read_console_tx : M (cli X) Z :=
  let! c := get in
  on_board (pass_time (Z.of_N (read_time (con c)))) ;;;
  on_console tx_read.

Fixpoint rtt_loop (reads : nat) : M (cli X) unit :=
  match reads with
  | O => ret tt
  | S n => read_console_tx ;;; rtt_loop n
  end.

(** The elapsed time of [reads] reads; the average is formed when printed. *)
Definition _measure_rtt (reads : nat) : M (cli X) Z :=
  let! start := on_board (on_host monotonic) in
  rtt_loop reads ;;;
  let! now := on_board (on_host monotonic) in
  ret (now - start).

Definition status_body (a : args) (b : Board) : M (cli X) unit :=
  let! i := on_board identifier in
  print ("identifier:  " +:+ i) ;;;
  print ("board host:  " +:+ board_host b) ;;;
  if rtt a then
    let! elapsed := _measure_rtt RTT_DEFAULT_READS in
    print ("avg CSR read RTT: " +:+ fmt_rtt_ms elapsed RTT_DEFAULT_READS +:+ " ms ("
           +:+ pretty (Z.of_nat RTT_DEFAULT_READS) +:+ " reads)")
  else ret tt.

Definition close_board (b : Board) : M (cli X) unit := on_board (close b) ;;; ret tt.

Definition cmd_status (a : args) : M (cli X) Z :=
  let! b := _connect a in
  try_finally (status_body a b) (close_board b) ;;;
  ret 0.

(** The line about the sweep, in the [try]. *)
Definition swept_line : M host string :=
  let! (ip, netmask) := local_ipv4_and_netmask in
  let! candidates := subnet_candidates ip netmask in
  match candidates with
  | first :: _ =>
      ret ("  subnet swept: " +:+ first +:+ "-" +:+ List.last candidates "" +:+ " ("
           +:+ pretty (Z.of_nat (length candidates)) +:+ " host(s), netmask " +:+ netmask
           +:+ ", from this machine's address " +:+ ip +:+ ")")
  | [] => ret ("  subnet swept: no other hosts on " +:+ ip +:+ "/" +:+ netmask)
  end.

Definition _discovery_failure_message : M host string :=
  let! swept := try_except swept_line is_OSError (fun _ =>
    ret ("  subnet swept: none -- could not determine this machine's "
         +:+ "own IPv4 address/route (no network connectivity?)")) in
  ret (join newline
    ["error: could not find the board on the network "
       +:+ "(no cached host, DNS lookup failed, and the probe sweep got no reply).";
     "  DNS names tried: " +:+ join ", " DNS_NAMES;
     swept;
     "  is the board powered on, plugged into this LAN, and has it had "
       +:+ "time to acquire a DHCP lease? Once you know its address, "
       +:+ "`--host <ip>` (or `make login HOST=<ip>`) skips discovery entirely."]).

Definition login_body (b : Board) : M (cli X) unit :=
  let! i := on_board identifier in
  print_err ("-- connected: " +:+ board_host b +:+ "  (identifier: " +:+ py_repr i +:+ ") --") ;;;
  on_console (console_loop session_fuel).

(** The host to connect to. *)
Definition login_host (a : args) : M (cli X) (option string) :=
  match arg_host a with
  | Some h => ret (Some h)
  | None => on_board (on_host (discover cache_path (negb (no_cache a))))
  end.

Definition cmd_login (a : args) : M (cli X) Z :=
  let! h := login_host a in
  match h with
  | None =>
      let! text := on_board (on_host _discovery_failure_message) in
      print_err text ;;;
      ret 1
  | Some h =>
      let! b := on_board (connect (csr a) (Some h) lock_path cache_path (negb (no_cache a))) in
      try_finally (login_body b) (close_board b) ;;;
      ret 0
  end.

Definition run_func (a : args) : M (cli X) Z :=
  match args_func a with
  | cmd_status_func => cmd_status a
  | cmd_login_func => cmd_login a
  end.

Definition main (argv : list string) : M (cli X) Z :=
  match parse_args build_parser argv false with
  | inl code => raise (SystemExit code)
  | inr a => run_func a
  end.

End Commands.

(** * Lemmas *)

(** ** The parser *)

(** The words that say the arguments [a]. *)
Definition flag (b : bool) (s : string) : list string := if b then [s] else [].

Definition render_options (a : args) : list string :=
  [("--csr=" +:+ csr a)%string] ++ from_option (fun h => [("--host=" +:+ h)%string]) [] (arg_host a) ++
  flag (no_cache a) "--no-cache" ++ flag (rtt a) "--rtt".

Definition render_args (command : string) (a : args) : list string := command :: render_options a.

Definition command_func (command : string) : option func :=
  sub_func <$> find (fun sp => String.eqb (prog sp) command) build_parser.

(** An exit code of the parser is 0 or 2. *)
Lemma parse_args_exit sps argv extra code :
  parse_args sps argv extra = inl code -> code = 0 \/ code = 2.
Proof.
  revert extra. induction argv as [|s argv IH]; intros extra; cbn [parse_args]; [intros [= <-]; auto|].
  destruct (classify [help_option] s) as [| |o given [v|]| |];
    try (intros [= <-]; auto); try apply IH.
  - destruct (find _ sps) as [sp|]; [|intros [= <-]; auto].
    destruct (parse_options (options sp) argv (Ns [] extra)) as [c|ns] eqn:E.
    + intros [= <-]. by eapply parse_options_exit.
    + unfold finish. destruct (_ || _); intros [= <-]; auto.
  - destruct (_ && _); intros [= <-]; auto.
Qed.

(** The three commands. *)
Lemma command_func_cases cmd f :
  command_func cmd = Some f ->
  (cmd = "status" /\ f = cmd_status_func) \/ ((cmd = "login" \/ cmd = "console") /\ f = cmd_login_func).
Proof.
  unfold command_func, build_parser. cbn [find prog].
  destruct (String.eqb_spec "status" cmd) as [<-|]; [intros [= <-]; auto|].
  destruct (String.eqb_spec "login" cmd) as [<-|]; [intros [= <-]; auto|].
  destruct (String.eqb_spec "console" cmd) as [<-|]; [intros [= <-]; auto|done].
Qed.

Lemma parse_render cmd a :
  command_func cmd = Some (args_func a) -> (args_func a = cmd_login_func -> rtt a = false) ->
  parse_args build_parser (render_args cmd a) false = inr a.
Proof.
  intros [[-> Hf]|[[->| ->] Hf]]%command_func_cases Hr; destruct a as [c h n r f]; cbn in Hf, Hr; subst f;
    (destruct r; [try (by specialize (Hr eq_refl))|]); destruct h, n; reflexivity.
Qed.

(** ** Frames of the commands *)

Section CommandLemmas.
Context {X T : Type} `{!ConsoleRegs X, !ConsoleIO X, !Terminal T X} {C : EtherboneCodec}.
Variables (lock_path cache_path : string) (read_time : X -> N) (session_fuel : nat).
Implicit Types (c : cli X) (a : args).

Lemma on_board_run {A} (m : M world A) c :
  on_board m c = (fst (m (brd c)), Cli (snd (m (brd c))) (con c) (printed c)).
Proof. unfold on_board. by destruct (m (brd c)). Qed.

Lemma on_console_run {A} (m : M X A) c :
  on_console m c = (fst (m (con c)), Cli (brd c) (snd (m (con c))) (printed c)).
Proof. unfold on_console. by destruct (m (con c)). Qed.

Lemma wp_on_board {A} (m : M world A) Q c :
  wp m (fun r w => Q r (Cli w (con c) (printed c))) (brd c) -> wp (on_board m) Q c.
Proof. unfold wp. by rewrite on_board_run. Qed.

Lemma wp_on_console {A} (m : M X A) Q c :
  wp m (fun r x => Q r (Cli (brd c) x (printed c))) (con c) -> wp (on_console m) Q c.
Proof. unfold wp. by rewrite on_console_run. Qed.

(** The part of the board's world that a session may not touch. *)
Definition held c := (obs (brd c), benv (brd c)).

Lemma held_on_console {A} (m : M X A) : preserves held (on_console m).
Proof. intros c. by rewrite on_console_run. Qed.

Lemma held_on_board {A} (m : M world A) : preserves obs m -> preserves benv m -> preserves held (on_board m).
Proof. intros Ho Hb c. rewrite on_board_run. unfold held. cbn. by rewrite Ho, Hb. Qed.

Lemma held_identifier : preserves held (on_board identifier).
Proof. apply held_on_board; [apply preserves_identifier|apply benv_identifier]. Qed.

Lemma held_on_host {A} (m : M host A) : preserves held (on_board (on_host m)).
Proof. apply held_on_board; [apply preserves_on_host|apply benv_on_host]. Qed.

Lemma held_print line : preserves held (print line).
Proof. done. Qed.

Lemma held_rtt_loop n : preserves held (rtt_loop read_time n).
Proof.
  induction n as [|n IH]; [done|]. cbn [rtt_loop]. apply preserves_bind; [|done].
  unfold read_console_tx. apply preserves_get. intros c. apply preserves_bind; [apply held_on_host|].
  intros _. apply held_on_console.
Qed.

Lemma held_status_body a b : preserves held (status_body read_time a b).
Proof.
  unfold status_body, _measure_rtt.
  repeat first [ apply held_rtt_loop | apply held_identifier | apply held_on_host | apply held_print
               | apply preserves_bind; [|intro] | apply preserves_if | apply preserves_ret ].
Qed.

Lemma held_login_body b : preserves held (login_body session_fuel b).
Proof.
  unfold login_body, print_err.
  repeat first [ apply preserves_bind; [|intro] | apply held_identifier | apply held_on_console ].
Qed.

(** A session on a connected board, and then [close]: the session's outcome
    stays, and the connection is undone. *)
Lemma finally_clean {A} w b (body : M (cli X) A) c :
  connected w lock_path b (brd c) -> (forall n, close_raises (benv (brd c)) n = None) ->
  preserves held body -> fst (body c) <> Diverged ->
  wp (try_finally body (close_board b)) (fun r c' =>
    r = fst (body c) /\ con c' = con (snd (body c)) /\ printed c' = printed (snd (body c)) /\ clean w (brd c')) c.
Proof.
  intros Hc Hcl Hbody Hd. specialize (Hbody c). unfold wp, try_finally.
  destruct (body c) as [r c1]. cbn [fst snd] in *.
  pose proof (f_equal fst Hbody) as Ho. pose proof (f_equal snd Hbody) as He. cbn [fst snd held] in Ho, He.
  destruct (close_connected w lock_path b (brd c) (brd c1) Hc Ho) as (b' & w3 & Hclose & Hclean & _);
    [by rewrite He|].
  assert (Hrun : close_board b c1 = (Ok tt, Cli w3 (con c1) (printed c1))).
  { unfold close_board, bind. rewrite on_board_run, Hclose. done. }
  destruct r as [x|e|]; [..|done]; rewrite Hrun; done.
Qed.

Lemma session_clean w b (body : M (cli X) unit) c :
  connected w lock_path b (brd c) -> (forall n, close_raises (benv (brd c)) n = None) ->
  preserves held body -> fst (body c) <> Diverged ->
  wp (try_finally body (close_board b) ;;; ret 0) (fun r c' =>
    match r with Ok code => code = 0 /\ clean w (brd c') | Raise _ => clean w (brd c') | Diverged => False end) c.
Proof.
  intros Hc Hcl Hbody Hd. apply wp_bind. eapply wp_mono; [by apply finally_clean|].
  intros [u|e|] c' (Hr & _ & _ & Hclean); [done|done|]. by rewrite <- Hr in Hd.
Qed.

(** ** Discovery *)

(** Discovery always ends without an exception, and leaves the network as it was. *)
Lemma discover_any u w :
  net_ok cache_path w ->
  exists r h', discover cache_path u (base w) = (Ok r, h') /\ net_ok cache_path (with_base h' w).
Proof.
  intros [N1 N2 N3]. unfold discover, bind.
  assert (Hl : (if u then load_cache cache_path else ret None) (base w) =
               (Ok (if u then cached_host cache_path (base w) else None), base w))
    by (destruct u; [by rewrite load_cache_run|done]).
  rewrite Hl. destruct (if u then cached_host cache_path (base w) else None) as [ip|].
  - exists (Some ip), (base w). split; [done|]. by split.
  - destruct (discover_fresh_run cache_path (base w) N1 N2 N3) as (r & h' & Hd & E1 & E2 & E3 & _ & E4).
    exists r, h'. split; [exact Hd|]. split; cbn; rewrite ?E1, ?E2; try done.
    intros i Hi. cbn in Hi. rewrite E3. apply N1. lia.
Qed.

(** The line about the sweep names the range that [discover] sweeps. *)
Definition swept_text (h : HostOS.host) : string :=
  match local_ip h (next_sock h), local_candidates h (next_sock h) with
  | Some ip, Some (first :: rest) =>
      "  subnet swept: " +:+ first +:+ "-" +:+ List.last (first :: rest) "" +:+ " ("
      +:+ pretty (Z.of_nat (length (first :: rest))) +:+ " host(s), netmask 255.255.255.0"
      +:+ ", from this machine's address " +:+ ip +:+ ")"
  | Some ip, Some [] => "  subnet swept: no other hosts on " +:+ ip +:+ "/255.255.255.0"
  | _, _ => "  subnet swept: none -- could not determine this machine's own IPv4 address/route (no network connectivity?)"
  end.

Definition failure_text (h : HostOS.host) : string :=
  join newline
    ["error: could not find the board on the network (no cached host, DNS lookup failed, and the probe sweep got no reply).";
     "  DNS names tried: b8008, b8008.lan"; swept_text h;
     "  is the board powered on, plugged into this LAN, and has it had time to acquire a DHCP lease? Once you know its address, `--host <ip>` (or `make login HOST=<ip>`) skips discovery entirely."].

Lemma failure_message_run h :
  fresh_socks h -> _discovery_failure_message h = (Ok (failure_text h), set_next (S (next_sock h)) h).
Proof.
  intros Hf. unfold _discovery_failure_message, failure_text.
  enough (Hs : try_except swept_line is_OSError (fun _ =>
      ret ("  subnet swept: none -- could not determine this machine's "
           +:+ "own IPv4 address/route (no network connectivity?)")) h =
      (Ok (swept_text h), set_next (S (next_sock h)) h)).
  { unfold bind. by rewrite Hs. }
  unfold try_except, swept_line, bind at 1. rewrite local_ipv4_run by done. unfold swept_text, local_candidates.
  destruct (local_ip h (next_sock h)) as [ip|]; [|done]. cbn [mbind option_bind].
  destruct (inet_aton ip) as [n|] eqn:Hn; cbn [mbind option_bind].
  - unfold bind. rewrite (subnet_candidates_run ip _ n 8) by (done || lia).
    change (2 ^ 8) with 256. change (256 - 2) with 254.
    by destruct (_int_to_ip <$> filter (fun x => x <> n) (seqZ (n / 256 * 256 + 1) 254)).
  - unfold bind, subnet_candidates, bind, _ip_to_int. by rewrite Hn.
Qed.

(** ** Termination of the bodies *)

Lemma ends_on_board {A} (m : M world A) : no_diverge m -> no_diverge (on_board (X:=X) m).
Proof. intros Hm c. rewrite on_board_run. apply Hm. Qed.

Lemma ends_on_console {A} (m : M X A) : no_diverge m -> no_diverge (on_console m).
Proof. intros Hm c. rewrite on_console_run. apply Hm. Qed.

Hypothesis tx_read_ends : no_diverge (tx_read (W:=X)).
Hypothesis stderr_ends : forall s, no_diverge (stderr_print (W:=X) s).

Lemma ends_monotonic : no_diverge (on_board (X:=X) (on_host monotonic)).
Proof. by apply ends_on_board, no_diverge_on_host. Qed.

Lemma ends_rtt_loop n : no_diverge (rtt_loop read_time n).
Proof.
  induction n as [|n IH]; [done|]. cbn [rtt_loop]. apply no_diverge_bind; [|done]. unfold read_console_tx.
  apply no_diverge_bind; [done|]. intros c. apply no_diverge_bind; [by apply ends_on_board, no_diverge_on_host|].
  intros _. by apply ends_on_console.
Qed.

Lemma ends_status_body a b : no_diverge (status_body read_time a b).
Proof.
  unfold status_body, _measure_rtt. apply no_diverge_bind; [apply ends_on_board, no_diverge_identifier|intros i].
  apply no_diverge_bind; [done|intros _]. apply no_diverge_bind; [done|intros _].
  destruct (rtt a); [|done]. apply no_diverge_bind; [|done]. apply no_diverge_bind; [apply ends_monotonic|intros s].
  apply no_diverge_bind; [apply ends_rtt_loop|intros _]. by apply no_diverge_bind; [apply ends_monotonic|].
Qed.

(** The interactive session that starts at [x] ends. *)
Definition session_ends (x : X) : Prop :=
  forall text, fst (console_loop (T:=T) session_fuel (snd (stderr_print text x))) <> Diverged.

Lemma ends_login_body b c : session_ends (con c) -> fst (login_body (T:=T) session_fuel b c) <> Diverged.
Proof.
  intros Hs. unfold login_body, bind at 1. rewrite on_board_run.
  pose proof (no_diverge_identifier (brd c)) as Hi.
  destruct (identifier (brd c)) as [[i|e|] w]; cbn [fst snd] in *; [|done|done].
  unfold bind, print_err. rewrite on_console_run. cbn [con].
  set (text := ("-- connected: " +:+ _)%string). specialize (Hs text).
  pose proof (stderr_ends text (con c)) as Ht.
  destruct (stderr_print text (con c)) as [[|e|] x]; cbn [fst snd] in *; [|done|done].
  by rewrite on_console_run.
Qed.

(** ** The commands *)

(** What a command leaves: the resources it started with. *)
Definition command_post w (r : outcome Z) c : Prop :=
  match r with
  | Ok code => (code = 0 \/ code = 1) /\ clean w (brd c)
  | Raise e => is_Exception e = true -> clean w (brd c)
  | Diverged => False
  end.

Lemma connected_session w h a (body : Board -> M (cli X) unit) c :
  world_ok (brd c) -> net_ok cache_path (brd c) -> clean w (brd c) ->
  (forall n, close_raises (benv (brd c)) n = None) ->
  (forall b, preserves held (body b)) -> (forall b c', con c' = con c -> fst (body b c') <> Diverged) ->
  wp (let! b := on_board (connect (csr a) h lock_path cache_path (negb (no_cache a))) in
      try_finally (body b) (close_board b) ;;; ret 0) (command_post w) c.
Proof.
  intros Hok Hnet Hw Hcl Hheld Hends. apply wp_bind, wp_on_board.
  eapply wp_mono; [apply (wp_preserves benv); [apply benv_connect|by apply connect_ok]|].
  intros r w1 [Hr Hb]. destruct r as [b|e|]; cbn in Hr; [|..|done].
  - eapply wp_mono; [apply (session_clean (brd c)); cbn; [done|by rewrite Hb|apply Hheld|by apply Hends]|].
    intros [code|e|] c'; cbn; [..|done].
    + intros [-> Hc]. split; [by left|]. by eapply clean_trans.
    + intros Hc _. by eapply clean_trans.
  - intros He. eapply clean_trans; [exact Hw|]. by apply Hr.
Qed.

Lemma cmd_status_ok a c :
  world_ok (brd c) -> net_ok cache_path (brd c) -> (forall n, close_raises (benv (brd c)) n = None) ->
  wp (cmd_status lock_path cache_path read_time a) (command_post (brd c)) c.
Proof.
  intros Hok Hnet Hcl. unfold cmd_status, _connect.
  apply connected_session; auto using clean_refl, held_status_body. intros b c' _. apply ends_status_body.
Qed.

Lemma cmd_login_ok a c :
  session_ends (con c) -> world_ok (brd c) -> net_ok cache_path (brd c) -> (forall n, close_raises (benv (brd c)) n = None) ->
  wp (cmd_login lock_path cache_path session_fuel a) (command_post (brd c)) c.
Proof.
  intros Hs Hok Hnet Hcl. unfold cmd_login, login_host. apply wp_bind.
  assert (Hends : forall b c', con c' = con c -> fst (login_body (T:=T) session_fuel b c') <> Diverged)
    by (intros b c' E; apply ends_login_body; by rewrite E).
  destruct (arg_host a) as [h|]; [apply wp_ret, connected_session; auto using clean_refl, held_login_body|].
  apply wp_on_board. unfold wp. rewrite on_host_run.
  destruct (discover_any (negb (no_cache a)) (brd c) Hnet) as (r & h' & Hd & Hnet'). rewrite Hd. cbn [fst snd].
  destruct r as [h|].
  - apply connected_session; cbn; auto using held_login_body.
    + by apply world_ok_with_base.
    + apply clean_with_base, clean_refl.
  - apply wp_bind, wp_on_board. unfold wp. rewrite on_host_run. cbn [brd base with_base].
    rewrite failure_message_run by apply Hnet'. cbn [fst snd].
    apply wp_bind. unfold print_err. apply wp_on_console.
    pose proof (stderr_ends (failure_text h') (con c)) as He. unfold wp. cbn [con].
    destruct (stderr_print _ (con c)) as [[|e|] x]; cbn in *; [|..|done].
    + split; [by right|]. by apply clean_with_base, clean_with_base, clean_refl.
    + intros _. by apply clean_with_base, clean_with_base, clean_refl.
Qed.

End CommandLemmas.

(** * Theorems *)

Section CliProperties.
Context {X T : Type} `{!ConsoleRegs X, !ConsoleIO X, !Terminal T X} {C : EtherboneCodec}.
Variables (lock_path cache_path : string) (read_time : X -> N) (session_fuel : nat).
Implicit Types (c : cli X) (a : args).

(** C10: What the program leaves behind.  Let the session that may start end ([session_ends]) and let
    closing the client not raise.  Then for every command line [main] ends; a usage error exits with
    0 or 2 and touches nothing; a normal return has code 0 or 1; and after a return or an
    [Exception] the lock is as it was, no file is left open, every child is reaped and every
    client closed.  A client whose close raises does leave the lock and the child
    ([close_leaks_on_client_error]), and so may Ctrl-C ([interrupted_connect_leaks]). *)
Theorem main_leaves_nothing argv c :
  no_diverge (tx_read (W:=X)) -> (forall s, no_diverge (stderr_print (W:=X) s)) ->
  session_ends (T:=T) session_fuel (con c) ->
  world_ok (brd c) -> net_ok cache_path (brd c) -> (forall n, close_raises (benv (brd c)) n = None) ->
  let '(r, c') := main (T:=T) lock_path cache_path read_time session_fuel argv c in
  match parse_args build_parser argv false with
  | inl code => r = Raise (SystemExit code) /\ c' = c /\ (code = 0 \/ code = 2)
  | inr a => match r with
             | Ok code => (code = 0 \/ code = 1) /\ clean (brd c) (brd c')
             | Raise e => is_Exception e = true -> clean (brd c) (brd c')
             | Diverged => False
             end
  end.
Proof.
  intros Htx Herr Hses Hok Hnet Hcl. unfold main.
  destruct (parse_args build_parser argv false) as [code|a] eqn:Hp.
  { cbn. split; [done|]. split; [done|]. by eapply parse_args_exit. }
  assert (H : wp (run_func (T:=T) lock_path cache_path read_time session_fuel a) (command_post (brd c)) c).
  { unfold run_func. destruct (args_func a); [by apply cmd_status_ok|by apply cmd_login_ok]. }
  unfold wp in H. by destruct (run_func _ _ _ _ a c) as [r c'].
Qed.

(** [console] is [login]: on every command line and in every world the two
    commands do the same. *)
Lemma console_is_login rest c :
  main (T:=T) lock_path cache_path read_time session_fuel ("console" :: rest) c =
  main (T:=T) lock_path cache_path read_time session_fuel ("login" :: rest) c.
Proof. reflexivity. Qed.

(** The command line round-trips.  For each command, the words that say its
    arguments (any path and host, dashes and blanks included, and any
    flags) are parsed back to exactly those arguments, with the function of that
    command. *)
Theorem parse_args_roundtrip cmd a :
  command_func cmd = Some (args_func a) -> (args_func a = cmd_login_func -> rtt a = false) ->
  parse_args build_parser (render_args cmd a) false = inr a.
Proof. apply parse_render. Qed.

(** [login] without a board.  It returns 1 only if no host was given and
    discovery found none; and then it prints, on standard error, the message
    that names the DNS names and exactly the range of addresses that the
    sweep covers from this machine, and does nothing else: no lock, no
    child, no client. *)
Theorem login_not_found a c :
  net_ok cache_path (brd c) ->
  (fst (cmd_login (T:=T) lock_path cache_path session_fuel a c) = Ok 1 ->
   arg_host a = None /\ fst (discover cache_path (negb (no_cache a)) (base (brd c))) = Ok None) /\
  (forall h, arg_host a = None -> discover cache_path (negb (no_cache a)) (base (brd c)) = (Ok None, h) ->
   cmd_login (T:=T) lock_path cache_path session_fuel a c =
   (print_err (failure_text h) ;;; ret 1)
     (Cli (with_base (set_next (S (next_sock h)) h) (brd c)) (con c) (printed c))).
Proof.
  intros Hnet. destruct (discover_any cache_path (negb (no_cache a)) (brd c) Hnet) as (r & h' & Hd & Hnet').
  split.
  - unfold cmd_login, login_host, bind at 1. destruct (arg_host a) as [h|] eqn:Ha.
    + cbn [ret]. intros H1. exfalso. revert H1. unfold bind, try_finally, ret. by repeat case_match.
    + rewrite on_board_run, on_host_run, Hd. cbn [fst snd]. destruct r as [h|]; [|done].
      intros H1. exfalso. revert H1. unfold bind, try_finally, ret. by repeat case_match.
  - intros h Ha Hn. rewrite Hd in Hn. injection Hn as -> ->.
    unfold cmd_login, login_host, bind at 1. rewrite Ha, on_board_run, on_host_run, Hd. cbn [fst snd].
    unfold bind at 1. rewrite on_board_run, on_host_run. cbn [brd base with_base].
    rewrite failure_message_run by apply Hnet'. done.
Qed.

(** [login] does not retry a stale cache entry.  With a cached host and no
    [--no-cache], the one attempt to connect to it is final: if it raises,
    [login] raises the same exception in the world the attempt left, without
    dropping the entry or looking again, although [connect] would
    (as it does for [status]). *)
Theorem login_cached_host_is_final a c h e w1 :
  net_ok cache_path (brd c) -> arg_host a = None -> no_cache a = false ->
  cached_host cache_path (base (brd c)) = Some h ->
  _connect_to (csr a) h lock_path (brd c) = (Raise e, w1) ->
  cmd_login (T:=T) lock_path cache_path session_fuel a c = (Raise e, Cli w1 (con c) (printed c)).
Proof.
  intros [N1 N2 N3] Ha Hn Hh Hc. unfold cmd_login, login_host, bind at 1. rewrite Ha, Hn.
  assert (Hd : discover cache_path true (base (brd c)) = (Ok (Some h), base (brd c))).
  { unfold discover, bind. by rewrite load_cache_run, Hh. }
  rewrite on_board_run, on_host_run. cbn [negb]. rewrite Hd. cbn [fst snd].
  unfold bind at 1. rewrite on_board_run. cbn [brd].
  assert (Hw : with_base (base (brd c)) (brd c) = brd c) by (by destruct (brd c)).
  by rewrite Hw, connect_explicit, Hc.
Qed.

End CliProperties.

(** ** [status] and the console *)

Section StatusQuiet.
Context {X T : Type} `{!ConsoleRegs X, !ConsoleIO X, !Terminal T X, !ConsoleView X, !ConsoleLaws X}.
Context {C : EtherboneCodec}.
Variables (lock_path cache_path : string) (read_time : X -> N).

(** Whatever the outcome, no byte of the console is consumed or sent and no
    error bit is cleared. *)
Definition quietly {A} (m : M (cli X) A) : Prop :=
  forall c, bank_ok (con c) -> quiet (con c) (con (snd (m c))).

Lemma quietly_on_board {A} (m : M world A) : quietly (on_board m).
Proof. intros c Hc. rewrite on_board_run. by apply quiet_refl. Qed.

Lemma quietly_ret {A} (x : A) : quietly (ret x).
Proof. intros c Hc. by apply quiet_refl. Qed.

Lemma quietly_print line : quietly (print line).
Proof. intros c Hc. by apply quiet_refl. Qed.

Lemma quietly_get : quietly get.
Proof. intros c Hc. by apply quiet_refl. Qed.

Lemma quietly_bind {A B} (m : M (cli X) A) (k : A -> M (cli X) B) :
  quietly m -> (forall x, quietly (k x)) -> quietly (bind m k).
Proof.
  intros Hm Hk c Hc. specialize (Hm c Hc). unfold bind. destruct (m c) as [[x|e|] c1]; cbn in *; [|done|done].
  eapply quiet_trans; [exact Hm|]. apply Hk. apply Hm.
Qed.

Lemma quietly_finally {A} (m : M (cli X) A) f : quietly m -> quietly f -> quietly (try_finally m f).
Proof.
  intros Hm Hf c Hc. specialize (Hm c Hc). unfold try_finally.
  destruct (m c) as [[x|e|] c1]; cbn in *; [..|done]; specialize (Hf c1 (quiet_ok _ _ Hm));
    destruct (f c1) as [[|e'|] c2]; cbn in *; by eapply quiet_trans.
Qed.

Lemma quietly_tx_read : quietly (on_console tx_read).
Proof. intros c Hc. rewrite on_console_run. apply (tx_read_law (con c) Hc). Qed.

Lemma quietly_rtt_loop n : quietly (rtt_loop read_time n).
Proof.
  induction n as [|n IH]; [apply quietly_ret|]. cbn [rtt_loop]. apply quietly_bind; [|done].
  unfold read_console_tx. apply quietly_bind; [apply quietly_get|intros c].
  apply quietly_bind; [apply quietly_on_board|intros _]. apply quietly_tx_read.
Qed.

(** C36: [status] disturbs no session.  Whatever it ends with, and with [--rtt] too,
    no byte of the console is consumed or sent, no error bit cleared and
    none caused: its fifty reads are of a register without side effects. *)
Theorem status_disturbs_nothing a c :
  bank_ok (con c) ->
  let c' := snd (cmd_status lock_path cache_path read_time a c) in quiet (con c) (con c').
Proof.
  enough (H : quietly (cmd_status lock_path cache_path read_time a)) by exact (H c).
  unfold cmd_status, _connect, status_body, _measure_rtt, close_board.
  repeat first [ apply quietly_rtt_loop | apply quietly_on_board | apply quietly_print | apply quietly_ret
               | apply quietly_finally | apply quietly_bind; [|intro] | destruct (rtt a) ].
Qed.

End StatusQuiet.

(** ** [login] on the gateware *)

Section LoginOnGateware.
Context {rx_depth tx_depth inflight : Z} {RF TF : Type}.
Context `{!SyncFIFO rx_depth RF, !SyncFIFO tx_depth TF}.
Context `{!SyncFIFOLaws rx_depth RF, !SyncFIFOLaws tx_depth TF} {C : EtherboneCodec}.
Hypothesis Hin : 0 <= inflight < RX_HEADROOM.
Hypothesis Hrx : RX_HEADROOM + RX_HYSTERESIS <= rx_depth < 8192.
Hypothesis Htx : 0 < tx_depth < 512.
Variables (lock_path cache_path : string).

(** C1: A login, end to end.  Let the attempt to connect to a given host succeed on a
    freshly powered board, the identifier be readable and the client close.
    Then, whatever the 8008 emits and whenever, and whatever is typed,
    [login] returns 0; every byte emitted is on the screen or still queued, once and in order; unless a
    drop was announced, the bytes accepted for the 8008 are exactly those
    typed before Ctrl-]; the terminal is restored, and lock, files, children
    and clients are as before. *)
Theorem login_end_to_end a host core sch kb fuel (w w1 : world) b i out :
  world_ok w -> arg_host a = Some host -> _connect_to (csr a) host lock_path w = (Ok b, w1) ->
  fst (identifier w1) = Ok i -> (forall n, close_raises (benv w) n = None) ->
  (length kb < fuel)%nat ->
  let start : board rx_depth tx_depth inflight RF TF := fresh_board core sch kb in
  exists c', cmd_login lock_path cache_path fuel a (Cli w start out) = (Ok 0, c') /\
    emitted (con c') = screen (con c') ++ f_queue (rx_fifo (gateware (con c'))) /\
    ((forall d t, dropped_message d t ∉ messages (con c')) ->
       to_core (con c') ++ f_queue (tx_fifo (gateware (con c'))) = until EXIT_BYTE (typed (con c'))) /\
    cooked (con c') = true /\ clean w (brd c').
Proof.
  intros Hok Ha Hc Hi Hcl Hfuel start.
  pose proof (connect_to_ok (csr a) host lock_path w Hok) as Hpost. unfold wp in Hpost. rewrite Hc in Hpost.
  pose proof (attempt_connected w w host lock_path b w1 (clean_refl w) Hok Hpost) as Hconn. clear Hpost.
  pose proof (benv_connect_to (csr a) host lock_path w) as Hbenv. rewrite Hc in Hbenv. cbn [snd] in Hbenv.
  pose proof (preserves_identifier w1) as Hobs. pose proof (benv_identifier w1) as Hbenv2.
  destruct (identifier w1) as [r w2] eqn:Hid. cbn [fst snd] in *. subst r.
  set (text := ("-- connected: " +:+ board_host b +:+ "  (identifier: " +:+ py_repr i +:+ ") --")%string).
  destruct (console_loop_session Hin Hrx Htx fuel (snd (stderr_print text start)))
    as (x & Hloop & (_ & Hem & Hsent) & Hcook);
    [apply session_print, (fresh_session Hin Hrx Htx)|exact Hfuel|].
  destruct (close_connected w lock_path b w1 w2 Hconn Hobs) as (b' & w3 & Hclose & Hclean & _);
    [by rewrite Hbenv2, Hbenv|].
  exists (Cli w3 x out). split; [|by split_and!].
  unfold cmd_login, login_host, bind at 1. rewrite Ha. cbn [ret].
  unfold ret at 1. unfold bind at 1. rewrite on_board_run. cbn [brd]. rewrite connect_explicit, Hc. cbn [fst snd].
  unfold bind at 1, try_finally, login_body, bind at 1. rewrite on_board_run. cbn [brd con printed]. rewrite Hid.
  cbn [fst snd]. fold text. unfold bind at 1, print_err. rewrite on_console_run. cbn [con].
  cbn [stderr_print bridge_io fst snd] in Hloop |- *. rewrite on_console_run. cbn [brd con printed].
  rewrite Hloop. cbn [fst snd]. unfold close_board, bind. rewrite on_board_run. cbn [brd]. by rewrite Hclose.
Qed.

End LoginOnGateware.

(** * Concrete runs *)

Module CliRuns.
Import Dialect.

Definition at_desk : cli ConsoleRuns.B := Cli BoardRuns.good ConsoleRuns.talking [].
(** A cached host that refuses, and no answer on the network. *)
Definition stale_desk : cli ConsoleRuns.B := Cli BoardRuns.stale ConsoleRuns.talking [].

Definition silent_lan : host_env :=
  HostEnv (fun _ => []) (fun _ => false) (fun _ _ => true) (fun _ => false) (Some "192.168.7.10") (fun _ => None).
Definition silent : world :=
  World (benv BoardRuns.good) (Host silent_lan 0 ∅ ∅ ∅ 0 []) 0 ∅ 1 ∅ ∅ 0 ∅ 0 [] (Frame None None).

Definition login_args : args := {|
  csr := "csr.csv"; arg_host := None; no_cache := false; rtt := false; args_func := cmd_login_func |}.
Definition host_args : args := {|
  csr := "csr.csv"; arg_host := Some "192.168.7.45"; no_cache := false; rtt := false;
  args_func := cmd_login_func |}.
Definition status_args : args := {|
  csr := "-odd path=x"; arg_host := Some ""; no_cache := true; rtt := true; args_func := cmd_status_func |}.

Definition run := main (T:=bool) "lock" "cache" (fun _ : ConsoleRuns.B => 700%N) 4.

(** A login that works, a usage error, the help, and abbreviations. *)
Example parses :
  (parse_args build_parser ["status"] false, parse_args build_parser ["status"; "--csr"; "x"; "--h"] false,
   parse_args build_parser ["login"; "--foo"; "--help"] false, parse_args build_parser [] false,
   parse_args build_parser ["login"; "--no"; "--ho"; "b"; "--csr"; "csr.csv"] false) =
  (inl 2, inl 2, inl 0, inl 2,
   inr {| csr := "csr.csv"; arg_host := Some "b"; no_cache := true; rtt := false; args_func := cmd_login_func |}).
Proof. reflexivity. Qed.

Example status_prints :
  printed (snd (run ["status"; "--csr"; "csr.csv"; "--host=192.168.7.45"; "--rtt"] at_desk)) =
  ["identifier:  b8"; "board host:  192.168.7.45"; "avg CSR read RTT: 0.70 ms (50 reads)"].
Proof. vm_compute. reflexivity. Qed.

Lemma tx_read_ends : no_diverge (tx_read (W:=ConsoleRuns.B)).
Proof. done. Qed.

Lemma stderr_ends text : no_diverge (stderr_print (W:=ConsoleRuns.B) text).
Proof. done. Qed.

Lemma session_ends_at_desk : session_ends (T:=bool) 4 ConsoleRuns.talking.
Proof. intros text. vm_compute. discriminate. Qed.

Lemma main_leaves_nothing_witness :
  clean BoardRuns.good (brd (snd (run ["login"; "--csr"; "csr.csv"] at_desk))).
Proof.
  pose proof (main_leaves_nothing (T:=bool) "lock" "cache" (fun _ : ConsoleRuns.B => 700%N) 4
    ["login"; "--csr"; "csr.csv"] at_desk tx_read_ends stderr_ends session_ends_at_desk) as H.
  specialize (H (BoardRuns.world_with_ok _ _)
    (BoardRuns.world_with_net _ _) (fun _ => eq_refl)).
  assert (E : fst (run ["login"; "--csr"; "csr.csv"] at_desk) = Ok 0) by (vm_compute; reflexivity).
  unfold run in E |- *. destruct (main _ _ _ _ _ at_desk) as [r c']. cbn [fst snd] in *. subst r. apply H.
Defined.

Lemma parse_args_roundtrip_witness :
  parse_args build_parser (render_args "status" status_args) false = inr status_args.
Proof. apply parse_args_roundtrip; [reflexivity|discriminate]. Defined.

Lemma login_not_found_witness :
  exists h, cmd_login (T:=bool) "lock" "cache" 4 login_args (Cli silent ConsoleRuns.talking []) =
    (print_err (failure_text h) ;;; ret 1)
      (Cli (with_base (set_next (S (next_sock h)) h) silent) ConsoleRuns.talking []) /\
    swept_text h = "  subnet swept: 192.168.7.1-192.168.7.254 (253 host(s), netmask 255.255.255.0, from this machine's address 192.168.7.10)".
Proof.
  exists (snd (discover "cache" true (base silent))). split; [|vm_compute; reflexivity].
  apply (proj2 (login_not_found (T:=bool) "lock" "cache" 4 login_args (Cli silent ConsoleRuns.talking [])
    (Build_net_ok "cache" silent (fun i _ => lookup_empty i) (fun _ => eq_refl) (not_elem_of_empty _))));
    vm_compute; reflexivity.
Defined.

Lemma login_cached_host_is_final_witness :
  fst (cmd_login (T:=bool) "lock" "cache" 4 login_args stale_desk) = Raise ConnectionRefusedError.
Proof.
  erewrite login_cached_host_is_final;
    [reflexivity|apply BoardRuns.world_with_net|reflexivity|reflexivity|vm_compute; reflexivity|].
  vm_compute. reflexivity.
Defined.

Lemma status_disturbs_nothing_witness :
  rx_flow ConsoleRuns.talking []
    (con (snd (cmd_status "lock" "cache" (fun _ : ConsoleRuns.B => 700%N) status_args at_desk))).
Proof.
  apply (status_disturbs_nothing "lock" "cache" (fun _ : ConsoleRuns.B => 700%N) status_args at_desk).
  exact ConsoleRuns.talking_ok.
Defined.

Lemma login_end_to_end_witness :
  exists c', cmd_login "lock" "cache" 4 host_args at_desk = (Ok 0, c') /\
    screen (con c') = [56; 48; 48; 56] /\ clean BoardRuns.good (brd c').
Proof.
  destruct (login_end_to_end ConsoleRuns.inflight_range ConsoleRuns.rx_range ConsoleRuns.tx_range "lock" "cache"
    host_args "192.168.7.45" [56; 48; 48; 56] (repeat ConsoleRuns.busy 10)
    [None; Some [72; 13]; Some [71; 29; 88]] 4 BoardRuns.good (snd BoardRuns.connected_run)
    BoardRuns.connected_board "b8" [])
    as (c' & E & _ & _ & _ & Hc).
  - apply BoardRuns.world_with_ok.
  - reflexivity.
  - vm_compute. reflexivity.
  - vm_compute. reflexivity.
  - reflexivity.
  - repeat constructor.
  - exists c'. split; [exact E|]. split; [|exact Hc].
    apply (f_equal (fun x => screen (con (snd x)))) in E. etransitivity; [symmetry; exact E|].
    vm_compute. reflexivity.
Defined.

End CliRuns.
