(* ===== verification/Programs.v ===== *)
(** * The other programs

    The remaining entry points over the components: the bridge process
    ([main] of host/b8008net/eb_server.py), the hardware self-test ([main] of
    soc/host_selftest.py), and the context managers of [Board] and [Lock]
    (host/b8008net/board.py). *)

From Stdlib Require Import ZArith Lia List Bool Ascii String.
From stdpp Require Import base list strings gmap pretty.
From S2P Require Import Prelude Text Argparse Fifo ConsoleBridge HostOS Etherbone Discovery Board Console.
From S2P Require Import ConsoleOnBridge SelfTest Cli EbServer.

Open Scope string_scope.
Open Scope list_scope.
Open Scope Z_scope.

(** ** The context managers *)

(** [with board: body]: [__enter__] returns the board, [__exit__] closes it and
    lets the exception pass. *)
Definition Board___enter__ (b : Board) : M world Board := ret b.
Definition Board___exit__ (b : Board) : M world unit := Board.close b ;;; ret tt.

Definition with_board {A} (b : Board) (body : Board -> M world A) : M world A :=
  let! self := Board___enter__ b in
  try_finally (body self) (Board___exit__ self).

Definition Lock___enter__ (l : Lock) : M world Lock := ret l.
Definition Lock___exit__ (l : Lock) : M world unit := Lock_release l ;;; ret tt.

Definition with_lock {A} (l : Lock) (body : Lock -> M world A) : M world A :=
  let! self := Lock___enter__ l in
  try_finally (body self) (Lock___exit__ self).

(** ** The bridge process *)

(** What [main] uses of litex: the constructor of [CommUDP], and the TCP server
    ([RemoteServer.open], [start]) and the sleep of the main thread, which the user's
    interrupt ends. *)
Class BridgeOps (W : Type) := {
  bridge_host : forall {A}, M host A -> M W A;
  comm_new : string -> Z -> comm;
  comm_new_server s p : server (comm_new s p) = s /\ port (comm_new s p) = p;
  server_open : comm -> string -> Z -> M W unit;
  server_start : Z -> M W unit;
  main_sleep : Z -> M W unit
}.

Definition int_option (s d : string) : opt_decl := {|
  option_strings := [s]; dest := d; takes_value := true;
  accepts_value := fun v => bool_decide (is_Some (int10 v)); required := false; default_value := None |}.
Definition str_option (s d : string) (req : bool) (def : option string) : opt_decl := {|
  option_strings := [s]; dest := d; takes_value := true; accepts_value := fun _ => true; required := req;
  default_value := def |}.

Definition bridge_options : list opt_decl := [
  help_option; str_option "--bind-ip" "bind_ip" false (Some "localhost");
  int_option "--bind-port" "bind_port"; int_option "--udp-port" "udp_port"].

(** An integer option's value, or its default. *)
Definition int_value (os : list opt_decl) (o : string) (def : Z) (ns : namespace) : Z :=
  default def (value_of os o ns ≫= int10).

(** A parser without subcommands. *)
Definition parse_plain (os : list opt_decl) (argv : list string) : Z + namespace :=
  match parse_options os argv (Ns [] false) with
  | inl code => inl code
  | inr ns => if missing_required os ns || extras ns then inl 2 else inr ns
  end.

Section Bridge.
Context {W : Type} `{!BridgeOps W} {C : EtherboneCodec}.

(** [while True: time.sleep(100)] *)
Fixpoint sleep_forever (fuel : nat) : M W unit :=
  match fuel with
  | O => diverge
  | S n => main_sleep 100 ;;; sleep_forever n
  end.

Definition bridge_main (fuel : nat) (argv : list string) : M W unit :=
  match parse_plain bridge_options argv with
  | inl code => raise (SystemExit code)
  | inr ns =>
      let! addr := bridge_host broadcast_addr in
      let comm := comm_new addr (int_value bridge_options "udp_port" 1234 ns) in
      server_open comm (default "" (value_of bridge_options "bind_ip" ns))
        (int_value bridge_options "bind_port" 1234 ns) ;;;
      server_start 4 ;;;
      try_except (sleep_forever fuel) (fun e => bool_decide (e = KeyboardInterrupt)) (fun _ => ret tt)
  end.

End Bridge.

(** ** The self-test *)

Definition selftest_options : list opt_decl := [
  help_option; str_option "--csr" "csr" true None; str_option "--host" "host" false None;
  int_option "--port" "port"; str_option "--server" "server" false None].

Section SelfTestMain.
Context {X : Type} `{!ConsoleRegs X, !SelfTestBoard X} {C : EtherboneCodec}.
Variables (lock_path cache_path : string).

(** The object to close at the end: a board, or only a client. *)
Definition selftest_open (ns : namespace) : M (cli X) (Board + nat) :=
  match value_of selftest_options "server" ns with
  | Some _ =>
      let! client := on_board client_factory in
      on_board (client_open client) ;;;
      ret (inr client)
  | None =>
      let! b := on_board (connect (default "" (value_of selftest_options "csr" ns))
                            (value_of selftest_options "host" ns) lock_path cache_path true) in
      Cli.print ("[0] discovered + connected: " +:+ board_host b) ;;;
      ret (inl b)
  end.

Definition selftest_close (o : Board + nat) : M (cli X) unit :=
  match o with
  | inl b => close_board b
  | inr client => on_board (client_close client)
  end.

Definition selftest_main (argv : list string) : M (cli X) unit :=
  match parse_plain selftest_options argv with
  | inl code => raise (SystemExit code)
  | inr ns =>
      let! o := selftest_open ns in
      let! failures := try_finally (on_console run_checks) (selftest_close o) in
      if negb (failures =? 0) then
        Cli.print ("host_selftest: " +:+ pretty failures +:+ " check(s) FAILED") ;;;
        raise (SystemExit 1)
      else
        Cli.print "host_selftest: all checks PASSED" ;;;
        raise (SystemExit 0)
  end.

End SelfTestMain.

(** * Theorems *)

(** A [with] block on a connected board undoes the connection, whether the
    block returns or raises, if it does not meddle with the connection itself. *)
Lemma with_board_undoes {A} w lock_path b (body : Board -> M world A) w1 :
  connected w lock_path b w1 -> preserves obs (body b) -> preserves benv (body b) ->
  (forall n, close_raises (benv w1) n = None) -> fst (body b w1) <> Diverged ->
  exists w2, with_board b body w1 = (fst (body b w1), w2) /\ clean w w2.
Proof.
  intros Hc Ho Hb Hcl Hd. specialize (Ho w1). specialize (Hb w1).
  unfold with_board, Board___enter__, Board___exit__, bind at 1, ret at 1, try_finally.
  destruct (body b w1) as [r w2]. cbn [fst snd] in *.
  destruct (close_connected w lock_path b w1 w2 Hc Ho) as (b' & w3 & Hclose & Hclean & _); [by rewrite Hb|].
  exists w3. split; [|done]. destruct r as [x|e|]; [..|done]; unfold bind; by rewrite Hclose.
Qed.

Section BridgeProperties.
Context {W : Type} `{!BridgeOps W} {C : EtherboneCodec}.

(** The user interrupts the [n]-th sleep. *)
Fixpoint interrupted (n : nat) (w : W) : Prop :=
  match n with
  | O => fst (main_sleep (W:=W) 100 w) = Raise KeyboardInterrupt
  | S n => exists w', main_sleep 100 w = (Ok tt, w') /\ interrupted n w'
  end.

Lemma sleep_interrupted n fuel w :
  (n < fuel)%nat -> interrupted n w -> fst (sleep_forever fuel w) = Raise KeyboardInterrupt.
Proof.
  revert fuel w. induction n as [|n IH]; intros [|fuel] w Hn Hi; try lia; cbn [sleep_forever]; unfold bind.
  - cbn in Hi. destruct (main_sleep 100 w) as [r w2]. cbn in Hi. by subst r.
  - destruct Hi as (w' & -> & Hi). apply IH; [lia|done].
Qed.

(** The bridge serves: with the TCP server up, the transport it hands over
    broadcasts to the address found, on the port asked for, and the user's
    interrupt, whenever it comes, ends the process normally. *)
Lemma bridge_main_serves n fuel argv ns addr (w w1 w2 w3 : W) :
  parse_plain bridge_options argv = inr ns ->
  bridge_host broadcast_addr w = (Ok addr, w1) ->
  let c := comm_new addr (int_value bridge_options "udp_port" 1234 ns) in
  server_open c (default "" (value_of bridge_options "bind_ip" ns))
    (int_value bridge_options "bind_port" 1234 ns) w1 = (Ok tt, w2) ->
  server_start 4 w2 = (Ok tt, w3) -> (n < fuel)%nat -> interrupted n w3 ->
  fst (bridge_main fuel argv w) = Ok tt /\ server c = addr /\
  port c = int_value bridge_options "udp_port" 1234 ns.
Proof.
  intros Hp Ha c Ho Hs Hn Hi. split; [|apply comm_new_server].
  unfold bridge_main. rewrite Hp. unfold bind. rewrite Ha. fold c. rewrite Ho, Hs. unfold try_except.
  pose proof (sleep_interrupted n fuel w3 Hn Hi) as Hk. destruct (sleep_forever fuel w3) as [r w4].
  cbn in Hk. by subst r.
Qed.

End BridgeProperties.

Section SelfTestProperties.
Context {X : Type} `{!ConsoleRegs X, !SelfTestBoard X, !ConsoleView X, !SelfTestView X}.
Context `{!ConsoleLaws X, !SelfTestLaws X} {C : EtherboneCodec}.
Variables (lock_path cache_path : string).

(** The line that ends a complete run. *)
Definition verdict_line (n : Z) : string :=
  if n =? 0 then "host_selftest: all checks PASSED" else "host_selftest: " +:+ pretty n +:+ " check(s) FAILED".

(** C29: The exit status of the self-test is honest, and it cleans up.  Let the
    arguments be accepted, no bridge be named, and the client close.  The program
    ends.  If [connect] with these arguments raises, the program raises that very exception,
    with the world as [connect] left it, no check run and nothing printed.  If it returns a
    board, the checks run on the console, everything is given back, and: if they complete
    with [n] failures (the number of failing lines of the report, 0 only if banner, help,
    scratch and burst were right) the program prints the board's host and the verdict and exits
    with 0 if [n] is 0 and 1 if not; if they raise, so does the program. *)
Theorem selftest_main_verdict argv ns c :
  parse_plain selftest_options argv = inr ns -> value_of selftest_options "server" ns = None ->
  world_ok (brd c) -> net_ok cache_path (brd c) -> (forall n, close_raises (benv (brd c)) n = None) ->
  bank_ok (con c) ->
  let '(r, c') := selftest_main lock_path cache_path argv c in
  let '(connection, w) := connect (default "" (value_of selftest_options "csr" ns))
                            (value_of selftest_options "host" ns) lock_path cache_path true (brd c) in
  match connection with
  | Raise e => r = Raise e /\ c' = Cli w (con c) (printed c) /\ (is_Exception e = true -> clean (brd c) (brd c'))
  | Ok b =>
      clean (brd c) (brd c') /\ con c' = snd (run_checks (con c)) /\
      match fst (run_checks (con c)) with
      | Ok n => r = Raise (SystemExit (if n =? 0 then 0 else 1)) /\
                printed c' = printed c ++ ["[0] discovered + connected: " +:+ board_host b; verdict_line n] /\
                exists ls o t, progress (con c) (con c') ls o t /\ run_report n ls o t
      | Raise e => r = Raise e /\ printed c' = printed c ++ ["[0] discovered + connected: " +:+ board_host b]
      | Diverged => False
      end
  | Diverged => False
  end.
Proof.
  intros Hp Hs Hok Hnet Hcl Hbank. unfold selftest_main. rewrite Hp. unfold bind at 1, selftest_open.
  rewrite Hs. unfold bind at 1. rewrite on_board_run.
  set (cn := connect _ _ lock_path cache_path true).
  pose proof (connect_ok (default "" (value_of selftest_options "csr" ns)) (value_of selftest_options "host" ns)
    lock_path cache_path true (brd c) Hok Hnet) as Hpost.
  pose proof (benv_connect (default "" (value_of selftest_options "csr" ns)) (value_of selftest_options "host" ns)
    lock_path cache_path true (brd c)) as Hbenv. fold cn in Hpost, Hbenv. unfold wp in Hpost.
  destruct (cn (brd c)) as [[b|e|] w1]; cbn [fst snd] in *; [|by split_and!|done].
  unfold bind at 1, Cli.print, modify. cbn [brd con printed]. unfold ret at 1.
  set (c1 := Cli w1 (con c) _).
  pose proof (run_checks_ran (con c) Hbank) as Hrun. unfold wp in Hrun.
  assert (Hfst : fst (on_console run_checks c1) = fst (run_checks (con c)))
    by (by rewrite on_console_run).
  assert (Hsnd : snd (on_console run_checks c1) = Cli w1 (snd (run_checks (con c))) (printed c1))
    by (by rewrite on_console_run).
  pose proof (finally_clean lock_path (brd c) b (on_console run_checks) c1 Hpost) as Hfin.
  specialize (Hfin ltac:(cbn; by rewrite Hbenv) (held_on_console _)).
  rewrite Hfst, Hsnd in Hfin. specialize (Hfin ltac:(intros E; by rewrite E in Hrun)).
  unfold wp in Hfin. cbn [con printed] in Hfin. unfold bind. cbn [selftest_close].
  destruct (try_finally (on_console run_checks) (close_board b) c1) as [r c2]. cbn [fst snd] in Hfin.
  destruct Hfin as (-> & Hcon & Hprt & Hclean). unfold verdict_line.
  destruct (fst (run_checks (con c))) as [n|e|]; [|by split_and!|done].
  destruct Hrun as (ls & o & t & Hprog & Hrep). rewrite <- Hcon in Hprog.
  destruct (n =? 0); cbn [negb]; (split; [exact Hclean|]); (split; [exact Hcon|]);
    (split; [done|]); (split; [cbn [printed]; rewrite Hprt; unfold c1; cbn [printed]; by rewrite <- app_assoc|]);
    by exists ls, o, t.
Qed.

End SelfTestProperties.

(** * Concrete runs *)

Module ProgramRuns.
Import Dialect.

Definition test_bench : cli (rig ConsoleRuns.B) := Cli BoardRuns.good SelfTestRuns.bench [].

Definition selftest := selftest_main (X:=rig ConsoleRuns.B) "lock" "cache" ["--csr"; "csr.csv"].

Example selftest_passes :
  fst (selftest test_bench) = Raise (SystemExit 0) /\
  printed (snd (selftest test_bench)) =
    ["[0] discovered + connected: 192.168.7.45"; "host_selftest: all checks PASSED"].
Proof. vm_compute. done. Qed.

Example selftest_usage :
  (fst (selftest_main (X:=rig ConsoleRuns.B) "lock" "cache" ["--csr"; "x"; "--port=12a"] test_bench),
   fst (selftest_main (X:=rig ConsoleRuns.B) "lock" "cache" ["--server"; "localhost"] test_bench)) =
  (Raise (SystemExit 2), Raise (SystemExit 2)).
Proof. reflexivity. Qed.

Lemma selftest_main_verdict_witness :
  clean BoardRuns.good (brd (snd (selftest test_bench))).
Proof.
  pose proof (selftest_main_verdict "lock" "cache" ["--csr"; "csr.csv"] (Ns [("csr", "csr.csv")] false) test_bench
    eq_refl eq_refl (BoardRuns.world_with_ok _ _) (BoardRuns.world_with_net _ _) (fun _ => eq_refl)
    SelfTestRuns.bench_ok) as H.
  assert (E : match fst (connect "csr.csv" None "lock" "cache" true (brd test_bench)) with Ok _ => True | _ => False end)
    by (vm_compute; exact I).
  unfold selftest. destruct (selftest_main _ _ _ test_bench) as [r c'].
  change (default "" (value_of selftest_options "csr" (Ns [("csr", "csr.csv")] false))) with "csr.csv" in H.
  change (value_of selftest_options "host" (Ns [("csr", "csr.csv")] false)) with (@None string) in H.
  destruct (connect "csr.csv" None "lock" "cache" true (brd test_bench)) as [[b|e|] w]; [|destruct E..].
  exact (proj1 H).
Defined.

End ProgramRuns.
